(** * Otimizacao de grades horarias (UCTP) por Simulated Annealing

    Shallow embedding of [main_comentada.c]: the objective function
    [calcula_FO] with its auxiliary indices, the neighbourhood generator
    [geraViz], the annealing driver [SA], the constructor [solucaoInicial]
    and the two-phase glue ([construcao], [main]).

    Conventions of the embedding
    - a C [int] is a [Z] kept in the 32-bit two's-complement range; every
      arithmetic result is brought back into range by [to_int];
    - a heap array is a [list]; the file-scope index arrays of the program
      are the fields of the record [Globais], threaded explicitly;
    - [rand()] is an oracle: the sequence of its results is a parameter and
      the number of calls made so far is part of the state;
    - the [float]/[double] expressions of the program ([randomDouble],
      the cooling product, the Metropolis test) are parameters too, because
      their values depend on the rounding of the machine. *)

From Stdlib Require Import ZArith QArith Lia.
From stdpp Require Import base option list numbers strings relations.

Local Open Scope Z_scope.

(** ** Machine integers *)

Definition INT_MAX : Z := 2147483647.
Definition INT_MIN : Z := -2147483648.

(** Two's-complement reduction of a mathematical integer to an [int]. *)
Definition to_int (z : Z) : Z := (z + 2147483648) mod 4294967296 - 2147483648.

Definition iadd (a b : Z) : Z := to_int (a + b).
Definition isub (a b : Z) : Z := to_int (a - b).
Definition imul (a b : Z) : Z := to_int (a * b).
(** [/] and [%] of C truncate towards zero. *)
Definition idiv (a b : Z) : Z := to_int (Z.quot a b).
Definition irem (a b : Z) : Z := Z.rem a b.
Definition ishl (a k : Z) : Z := to_int (a * 2 ^ k).
Definition ishr (a k : Z) : Z := Z.shiftr a k.

Definition in_int (z : Z) : Prop := INT_MIN <= z <= INT_MAX.

(** ** Arrays

    Reads and writes of the total model: inside the allocated range they
    are the C accesses; outside it the C program has no defined behaviour,
    and the model reads the default and drops the write. *)

Definition aget {A} (dflt : A) (v : list A) (i : Z) : A :=
  if decide (0 <= i) then default dflt (v !! Z.to_nat i) else dflt.

Definition vget (v : list Z) (i : Z) : Z := aget 0 v i.

Definition vset (v : list Z) (i : Z) (x : Z) : list Z :=
  if decide (0 <= i) then <[Z.to_nat i := x]> v else v.

Definition mget (m : list (list Z)) (i j : Z) : Z := vget (aget [] m i) j.

Definition mset (m : list (list Z)) (i j : Z) (x : Z) : list (list Z) :=
  if decide (0 <= i) then alter (fun row => vset row j x) (Z.to_nat i) m else m.

(** [for(i = 0; i < k; i++) s = body(i, s);] *)
Definition para {S} (k : Z) (body : Z -> S -> S) (s : S) : S :=
  foldl (fun acc i => body i acc) s (seqZ 0 k).

(** ** Data of the problem (the structs and the instance parameters) *)

Record Disciplina := {
  d_cursos : list Z;      (* int* cursos  *)
  d_prof : Z;             (* int prof     *)
  d_aulas : Z;            (* int aulas    *)
  d_minDias : Z;          (* int minDias  *)
  d_alunos : Z;           (* int alunos   *)
  d_tipo_sala : Z         (* int tipo_sala *)
}.

Record Sala := {
  s_capacidade : Z;
  s_tipo_sala : Z
}.

Record Restricao := {
  r_disciplina : Z;
  r_dia : Z;
  r_per : Z
}.

(** What [leArquivos] leaves in the file-scope variables. The names of
    courses, rooms and teachers and the [curso] table are only printed
    and are left out. *)
Record Instancia := {
  disc : list Disciplina;
  sala : list Sala;
  restricao : list Restricao;
  posicao_restricao0 : list Z;     (* posicao_restricao[0] *)
  posicao_restricao1 : list Z;     (* posicao_restricao[1] *)
  professores : Z;
  disciplinas : Z;
  salas : Z;
  dias : Z;
  periodos_dia : Z;
  cursos : Z
}.

Definition total_periodos (P : Instancia) : Z := imul (periodos_dia P) (dias P).

Definition disc0 : Disciplina :=
  {| d_cursos := []; d_prof := 0; d_aulas := 0; d_minDias := 0;
     d_alunos := 0; d_tipo_sala := 0 |}.
Definition sala0 : Sala := {| s_capacidade := 0; s_tipo_sala := 0 |}.
Definition restricao0 : Restricao := {| r_disciplina := 0; r_dia := 0; r_per := 0 |}.

Definition disc_de (P : Instancia) (c : Z) : Disciplina := aget disc0 (disc P) c.
Definition sala_de (P : Instancia) (j : Z) : Sala := aget sala0 (sala P) j.
Definition restricao_de (P : Instancia) (i : Z) : Restricao := aget restricao0 (restricao P) i.

(** The occupancy handed over by the first phase.  The table has the
    rows and the columns that [extraiDiasDaMatriz] allocated for the
    instance of the first phase; [alem_da_tabela i j] stands for what a
    read of [dias_ocupados_integral[i][j]] finds when the table has no
    such cell.  C gives such a read no defined value, so it is a
    parameter of the evaluation, taken to be the same at every read. *)
Record Integral := {
  usar_restricao_integral : Z;
  dias_ocupados_integral : option (list (list Z));   (* None is NULL *)
  num_profs_da_integral : Z;
  alem_da_tabela : Z -> Z -> Z
}.

(** A solution. *)
Record Matriz := {
  fo : Z;
  n : list (list Z)
}.

(** ** The file-scope index arrays *)

Record Globais := {
  r1 : list Z;
  r21 : list (list Z);
  r22 : list (list Z);
  r5 : list (list Z);
  r8 : list Z;
  r9 : list (list Z);
  r11 : list (list Z);
  restricoes_violadas : list Z;
  aux_mov_r21 : list Z;
  aux_mov_r22 : list Z;
  aux_mov_r4 : list Z;
  aux_mov_r5 : list Z;
  aux_mov_r6 : list (list Z);
  aux_mov_r7 : list (list Z);
  aux_mov_r8 : list Z;
  aux_mov_r9 : list Z;
  aux_mov_r10 : list (list Z);
  aux_mov_r11 : list (list Z)
}.

(** Assignment to one of the arrays. *)
Definition com_r1 (v : list Z) (G : Globais) : Globais :=
  {| r1 := v; r21 := r21 G; r22 := r22 G; r5 := r5 G; r8 := r8 G; r9 := r9 G; r11 := r11 G; restricoes_violadas := restricoes_violadas G; aux_mov_r21 := aux_mov_r21 G; aux_mov_r22 := aux_mov_r22 G; aux_mov_r4 := aux_mov_r4 G; aux_mov_r5 := aux_mov_r5 G; aux_mov_r6 := aux_mov_r6 G; aux_mov_r7 := aux_mov_r7 G; aux_mov_r8 := aux_mov_r8 G; aux_mov_r9 := aux_mov_r9 G; aux_mov_r10 := aux_mov_r10 G; aux_mov_r11 := aux_mov_r11 G |}.
Definition com_r21 (v : list (list Z)) (G : Globais) : Globais :=
  {| r1 := r1 G; r21 := v; r22 := r22 G; r5 := r5 G; r8 := r8 G; r9 := r9 G; r11 := r11 G; restricoes_violadas := restricoes_violadas G; aux_mov_r21 := aux_mov_r21 G; aux_mov_r22 := aux_mov_r22 G; aux_mov_r4 := aux_mov_r4 G; aux_mov_r5 := aux_mov_r5 G; aux_mov_r6 := aux_mov_r6 G; aux_mov_r7 := aux_mov_r7 G; aux_mov_r8 := aux_mov_r8 G; aux_mov_r9 := aux_mov_r9 G; aux_mov_r10 := aux_mov_r10 G; aux_mov_r11 := aux_mov_r11 G |}.
Definition com_r22 (v : list (list Z)) (G : Globais) : Globais :=
  {| r1 := r1 G; r21 := r21 G; r22 := v; r5 := r5 G; r8 := r8 G; r9 := r9 G; r11 := r11 G; restricoes_violadas := restricoes_violadas G; aux_mov_r21 := aux_mov_r21 G; aux_mov_r22 := aux_mov_r22 G; aux_mov_r4 := aux_mov_r4 G; aux_mov_r5 := aux_mov_r5 G; aux_mov_r6 := aux_mov_r6 G; aux_mov_r7 := aux_mov_r7 G; aux_mov_r8 := aux_mov_r8 G; aux_mov_r9 := aux_mov_r9 G; aux_mov_r10 := aux_mov_r10 G; aux_mov_r11 := aux_mov_r11 G |}.
Definition com_r5 (v : list (list Z)) (G : Globais) : Globais :=
  {| r1 := r1 G; r21 := r21 G; r22 := r22 G; r5 := v; r8 := r8 G; r9 := r9 G; r11 := r11 G; restricoes_violadas := restricoes_violadas G; aux_mov_r21 := aux_mov_r21 G; aux_mov_r22 := aux_mov_r22 G; aux_mov_r4 := aux_mov_r4 G; aux_mov_r5 := aux_mov_r5 G; aux_mov_r6 := aux_mov_r6 G; aux_mov_r7 := aux_mov_r7 G; aux_mov_r8 := aux_mov_r8 G; aux_mov_r9 := aux_mov_r9 G; aux_mov_r10 := aux_mov_r10 G; aux_mov_r11 := aux_mov_r11 G |}.
Definition com_r8 (v : list Z) (G : Globais) : Globais :=
  {| r1 := r1 G; r21 := r21 G; r22 := r22 G; r5 := r5 G; r8 := v; r9 := r9 G; r11 := r11 G; restricoes_violadas := restricoes_violadas G; aux_mov_r21 := aux_mov_r21 G; aux_mov_r22 := aux_mov_r22 G; aux_mov_r4 := aux_mov_r4 G; aux_mov_r5 := aux_mov_r5 G; aux_mov_r6 := aux_mov_r6 G; aux_mov_r7 := aux_mov_r7 G; aux_mov_r8 := aux_mov_r8 G; aux_mov_r9 := aux_mov_r9 G; aux_mov_r10 := aux_mov_r10 G; aux_mov_r11 := aux_mov_r11 G |}.
Definition com_r9 (v : list (list Z)) (G : Globais) : Globais :=
  {| r1 := r1 G; r21 := r21 G; r22 := r22 G; r5 := r5 G; r8 := r8 G; r9 := v; r11 := r11 G; restricoes_violadas := restricoes_violadas G; aux_mov_r21 := aux_mov_r21 G; aux_mov_r22 := aux_mov_r22 G; aux_mov_r4 := aux_mov_r4 G; aux_mov_r5 := aux_mov_r5 G; aux_mov_r6 := aux_mov_r6 G; aux_mov_r7 := aux_mov_r7 G; aux_mov_r8 := aux_mov_r8 G; aux_mov_r9 := aux_mov_r9 G; aux_mov_r10 := aux_mov_r10 G; aux_mov_r11 := aux_mov_r11 G |}.
Definition com_r11 (v : list (list Z)) (G : Globais) : Globais :=
  {| r1 := r1 G; r21 := r21 G; r22 := r22 G; r5 := r5 G; r8 := r8 G; r9 := r9 G; r11 := v; restricoes_violadas := restricoes_violadas G; aux_mov_r21 := aux_mov_r21 G; aux_mov_r22 := aux_mov_r22 G; aux_mov_r4 := aux_mov_r4 G; aux_mov_r5 := aux_mov_r5 G; aux_mov_r6 := aux_mov_r6 G; aux_mov_r7 := aux_mov_r7 G; aux_mov_r8 := aux_mov_r8 G; aux_mov_r9 := aux_mov_r9 G; aux_mov_r10 := aux_mov_r10 G; aux_mov_r11 := aux_mov_r11 G |}.
Definition com_restricoes_violadas (v : list Z) (G : Globais) : Globais :=
  {| r1 := r1 G; r21 := r21 G; r22 := r22 G; r5 := r5 G; r8 := r8 G; r9 := r9 G; r11 := r11 G; restricoes_violadas := v; aux_mov_r21 := aux_mov_r21 G; aux_mov_r22 := aux_mov_r22 G; aux_mov_r4 := aux_mov_r4 G; aux_mov_r5 := aux_mov_r5 G; aux_mov_r6 := aux_mov_r6 G; aux_mov_r7 := aux_mov_r7 G; aux_mov_r8 := aux_mov_r8 G; aux_mov_r9 := aux_mov_r9 G; aux_mov_r10 := aux_mov_r10 G; aux_mov_r11 := aux_mov_r11 G |}.
Definition com_aux_mov_r21 (v : list Z) (G : Globais) : Globais :=
  {| r1 := r1 G; r21 := r21 G; r22 := r22 G; r5 := r5 G; r8 := r8 G; r9 := r9 G; r11 := r11 G; restricoes_violadas := restricoes_violadas G; aux_mov_r21 := v; aux_mov_r22 := aux_mov_r22 G; aux_mov_r4 := aux_mov_r4 G; aux_mov_r5 := aux_mov_r5 G; aux_mov_r6 := aux_mov_r6 G; aux_mov_r7 := aux_mov_r7 G; aux_mov_r8 := aux_mov_r8 G; aux_mov_r9 := aux_mov_r9 G; aux_mov_r10 := aux_mov_r10 G; aux_mov_r11 := aux_mov_r11 G |}.
Definition com_aux_mov_r22 (v : list Z) (G : Globais) : Globais :=
  {| r1 := r1 G; r21 := r21 G; r22 := r22 G; r5 := r5 G; r8 := r8 G; r9 := r9 G; r11 := r11 G; restricoes_violadas := restricoes_violadas G; aux_mov_r21 := aux_mov_r21 G; aux_mov_r22 := v; aux_mov_r4 := aux_mov_r4 G; aux_mov_r5 := aux_mov_r5 G; aux_mov_r6 := aux_mov_r6 G; aux_mov_r7 := aux_mov_r7 G; aux_mov_r8 := aux_mov_r8 G; aux_mov_r9 := aux_mov_r9 G; aux_mov_r10 := aux_mov_r10 G; aux_mov_r11 := aux_mov_r11 G |}.
Definition com_aux_mov_r4 (v : list Z) (G : Globais) : Globais :=
  {| r1 := r1 G; r21 := r21 G; r22 := r22 G; r5 := r5 G; r8 := r8 G; r9 := r9 G; r11 := r11 G; restricoes_violadas := restricoes_violadas G; aux_mov_r21 := aux_mov_r21 G; aux_mov_r22 := aux_mov_r22 G; aux_mov_r4 := v; aux_mov_r5 := aux_mov_r5 G; aux_mov_r6 := aux_mov_r6 G; aux_mov_r7 := aux_mov_r7 G; aux_mov_r8 := aux_mov_r8 G; aux_mov_r9 := aux_mov_r9 G; aux_mov_r10 := aux_mov_r10 G; aux_mov_r11 := aux_mov_r11 G |}.
Definition com_aux_mov_r5 (v : list Z) (G : Globais) : Globais :=
  {| r1 := r1 G; r21 := r21 G; r22 := r22 G; r5 := r5 G; r8 := r8 G; r9 := r9 G; r11 := r11 G; restricoes_violadas := restricoes_violadas G; aux_mov_r21 := aux_mov_r21 G; aux_mov_r22 := aux_mov_r22 G; aux_mov_r4 := aux_mov_r4 G; aux_mov_r5 := v; aux_mov_r6 := aux_mov_r6 G; aux_mov_r7 := aux_mov_r7 G; aux_mov_r8 := aux_mov_r8 G; aux_mov_r9 := aux_mov_r9 G; aux_mov_r10 := aux_mov_r10 G; aux_mov_r11 := aux_mov_r11 G |}.
Definition com_aux_mov_r6 (v : list (list Z)) (G : Globais) : Globais :=
  {| r1 := r1 G; r21 := r21 G; r22 := r22 G; r5 := r5 G; r8 := r8 G; r9 := r9 G; r11 := r11 G; restricoes_violadas := restricoes_violadas G; aux_mov_r21 := aux_mov_r21 G; aux_mov_r22 := aux_mov_r22 G; aux_mov_r4 := aux_mov_r4 G; aux_mov_r5 := aux_mov_r5 G; aux_mov_r6 := v; aux_mov_r7 := aux_mov_r7 G; aux_mov_r8 := aux_mov_r8 G; aux_mov_r9 := aux_mov_r9 G; aux_mov_r10 := aux_mov_r10 G; aux_mov_r11 := aux_mov_r11 G |}.
Definition com_aux_mov_r7 (v : list (list Z)) (G : Globais) : Globais :=
  {| r1 := r1 G; r21 := r21 G; r22 := r22 G; r5 := r5 G; r8 := r8 G; r9 := r9 G; r11 := r11 G; restricoes_violadas := restricoes_violadas G; aux_mov_r21 := aux_mov_r21 G; aux_mov_r22 := aux_mov_r22 G; aux_mov_r4 := aux_mov_r4 G; aux_mov_r5 := aux_mov_r5 G; aux_mov_r6 := aux_mov_r6 G; aux_mov_r7 := v; aux_mov_r8 := aux_mov_r8 G; aux_mov_r9 := aux_mov_r9 G; aux_mov_r10 := aux_mov_r10 G; aux_mov_r11 := aux_mov_r11 G |}.
Definition com_aux_mov_r8 (v : list Z) (G : Globais) : Globais :=
  {| r1 := r1 G; r21 := r21 G; r22 := r22 G; r5 := r5 G; r8 := r8 G; r9 := r9 G; r11 := r11 G; restricoes_violadas := restricoes_violadas G; aux_mov_r21 := aux_mov_r21 G; aux_mov_r22 := aux_mov_r22 G; aux_mov_r4 := aux_mov_r4 G; aux_mov_r5 := aux_mov_r5 G; aux_mov_r6 := aux_mov_r6 G; aux_mov_r7 := aux_mov_r7 G; aux_mov_r8 := v; aux_mov_r9 := aux_mov_r9 G; aux_mov_r10 := aux_mov_r10 G; aux_mov_r11 := aux_mov_r11 G |}.
Definition com_aux_mov_r9 (v : list Z) (G : Globais) : Globais :=
  {| r1 := r1 G; r21 := r21 G; r22 := r22 G; r5 := r5 G; r8 := r8 G; r9 := r9 G; r11 := r11 G; restricoes_violadas := restricoes_violadas G; aux_mov_r21 := aux_mov_r21 G; aux_mov_r22 := aux_mov_r22 G; aux_mov_r4 := aux_mov_r4 G; aux_mov_r5 := aux_mov_r5 G; aux_mov_r6 := aux_mov_r6 G; aux_mov_r7 := aux_mov_r7 G; aux_mov_r8 := aux_mov_r8 G; aux_mov_r9 := v; aux_mov_r10 := aux_mov_r10 G; aux_mov_r11 := aux_mov_r11 G |}.
Definition com_aux_mov_r10 (v : list (list Z)) (G : Globais) : Globais :=
  {| r1 := r1 G; r21 := r21 G; r22 := r22 G; r5 := r5 G; r8 := r8 G; r9 := r9 G; r11 := r11 G; restricoes_violadas := restricoes_violadas G; aux_mov_r21 := aux_mov_r21 G; aux_mov_r22 := aux_mov_r22 G; aux_mov_r4 := aux_mov_r4 G; aux_mov_r5 := aux_mov_r5 G; aux_mov_r6 := aux_mov_r6 G; aux_mov_r7 := aux_mov_r7 G; aux_mov_r8 := aux_mov_r8 G; aux_mov_r9 := aux_mov_r9 G; aux_mov_r10 := v; aux_mov_r11 := aux_mov_r11 G |}.
Definition com_aux_mov_r11 (v : list (list Z)) (G : Globais) : Globais :=
  {| r1 := r1 G; r21 := r21 G; r22 := r22 G; r5 := r5 G; r8 := r8 G; r9 := r9 G; r11 := r11 G; restricoes_violadas := restricoes_violadas G; aux_mov_r21 := aux_mov_r21 G; aux_mov_r22 := aux_mov_r22 G; aux_mov_r4 := aux_mov_r4 G; aux_mov_r5 := aux_mov_r5 G; aux_mov_r6 := aux_mov_r6 G; aux_mov_r7 := aux_mov_r7 G; aux_mov_r8 := aux_mov_r8 G; aux_mov_r9 := aux_mov_r9 G; aux_mov_r10 := aux_mov_r10 G; aux_mov_r11 := v |}.

(** The allocated sizes of the arrays. *)
Definition forma (G : Globais) :=
  (length (r1 G),
   map length (r21 G),
   map length (r22 G),
   map length (r5 G),
   length (r8 G),
   map length (r9 G),
   map length (r11 G),
   length (restricoes_violadas G),
   length (aux_mov_r21 G),
   length (aux_mov_r22 G),
   length (aux_mov_r4 G),
   length (aux_mov_r5 G),
   map length (aux_mov_r6 G),
   map length (aux_mov_r7 G),
   length (aux_mov_r8 G),
   length (aux_mov_r9 G),
   map length (aux_mov_r10 G),
   map length (aux_mov_r11 G)).

(** ** Small helpers of the program *)

Definition modulo (n1 n2 : Z) : Z :=
  if decide (n2 < n1) then isub n1 n2 else isub n2 n1.

Definition setVetor (vetor : list Z) (tamanho valor : Z) : list Z :=
  para tamanho (fun i v => vset v i valor) vetor.

Definition setMatriz (vetor : list (list Z)) (linha coluna valor : Z) : list (list Z) :=
  para linha (fun i m => para coluna (fun j m' => mset m' i j valor) m) vetor.

(** [v[i] += d] and [m[i][j] += d]. *)
Definition vinc (v : list Z) (i d : Z) : list Z := vset v i (iadd (vget v i) d).
Definition minc (m : list (list Z)) (i j d : Z) : list (list Z) :=
  mset m i j (iadd (mget m i j) d).

(** ** Unavailability (R4) *)

Definition restricaoR4 (P : Instancia) (dis per : Z) : Z :=
  let dia := idiv per (periodos_dia P) in
  let diaPer := irem per (periodos_dia P) in
  if decide (vget (posicao_restricao0 P) dis = -1) then 0
  else
    let lo := vget (posicao_restricao0 P) dis in
    let hi := vget (posicao_restricao1 P) dis in
    if existsb (fun i => bool_decide (r_disciplina (restricao_de P i) = dis
                                      /\ r_dia (restricao_de P i) = dia
                                      /\ r_per (restricao_de P i) = diaPer))
               (seqZ lo (hi - lo + 1))
    then 1 else 0.

(** ** Curriculum compactness (R6) *)

(** The scan over the rooms of the two neighbouring periods for a lecture
    of curriculum [i]; the result is the flag [ok]. The source leaves the
    scan by [j = salas] once [ok] is set; here the remaining rounds find
    [ok <> 0] in both guards and change nothing. *)
Definition busca_adjacente (P : Instancia) (g : list (list Z)) (i per : Z) : Z :=
  para (salas P) (fun j ok =>
    let ok :=
      if decide (irem per (periodos_dia P) < isub (periodos_dia P) 1 /\ ok = 0) then
        if decide (mget g (iadd per 1) j <> -1) then
          if decide (vget (d_cursos (disc_de P (mget g (iadd per 1) j))) i = 1)
          then 1 else ok
        else ok
      else ok in
    if decide (0 < irem per (periodos_dia P) /\ ok = 0) then
      if decide (mget g (isub per 1) j <> -1) then
        if decide (vget (d_cursos (disc_de P (mget g (isub per 1) j))) i = 1)
        then 1 else ok
      else ok
    else ok) 0.

(** Returns the penalty and the updated arrays ([restricoes_violadas[6]]
    and [aux_mov_r6] are written by the function). *)
Definition restricaoR6 (P : Instancia) (g : list (list Z)) (dis per sal : Z)
    (G : Globais) : Z * Globais :=
  para (cursos P) (fun i (st : Z * Globais) =>
    if decide (vget (d_cursos (disc_de P dis)) i = 1) then
      if decide (busca_adjacente P g i per = 0) then
        (iadd st.1 2,
         com_aux_mov_r6 (mset (aux_mov_r6 st.2) per sal dis)
           (com_restricoes_violadas (vinc (restricoes_violadas st.2) 6 1) st.2))
      else st
    else st) (0, G).

(** ** The objective function *)

(** The table of the first phase has the cell [(i, j)]. *)
Definition na_tabela (ocupados : list (list Z)) (i j : Z) : Prop :=
  0 <= i < Z.of_nat (length ocupados)
  /\ 0 <= j < Z.of_nat (length (aget [] ocupados i)).

(** The read [dias_ocupados_integral[i][j]]: the cell of the table when
    the table has it, else whatever lies past the row or the table. *)
Definition le_ocupados (I : Integral) (ocupados : list (list Z)) (i j : Z) : Z :=
  if decide (na_tabela ocupados i j) then mget ocupados i j
  else alem_da_tabela I i j.

(** Top of [calcula_FO]: every index is reset, [r9] optionally overlaid
    with the occupancy of the first phase. Each array is assigned by its
    own call of [setMatriz] or [setVetor], so the record below lists, array
    by array, what the sequence of calls leaves. *)
Definition semeia_r9 (P : Instancia) (I : Integral) (m : list (list Z)) : list (list Z) :=
  match dias_ocupados_integral I with
  | Some ocupados =>
      if decide (usar_restricao_integral I <> 0) then
        para (professores P) (fun i m =>
          para (dias P) (fun j m' =>
            if decide (i < num_profs_da_integral I)
            then mset m' i j (le_ocupados I ocupados i j) else m') m) m
      else m
  | None => m
  end.

Definition zera_indices (P : Instancia) (I : Integral) (G : Globais) : Globais :=
  {| r21 := setMatriz (r21 G) (total_periodos P) (professores P) 0;
     r22 := setMatriz (r22 G) (total_periodos P) (cursos P) 0;
     r5 := setMatriz (r5 G) (disciplinas P) (dias P) 0;
     r9 := semeia_r9 P I (setMatriz (r9 G) (professores P) (dias P) 0);
     (* [r11] is reset twice by the source *)
     r11 := setMatriz (setMatriz (r11 G) (dias P) (disciplinas P) 0)
                      (dias P) (disciplinas P) 0;
     aux_mov_r6 := setMatriz (aux_mov_r6 G) (total_periodos P) (salas P) (-1);
     aux_mov_r7 := setMatriz (aux_mov_r7 G) (disciplinas P) 2 (-1);
     aux_mov_r10 := setMatriz (aux_mov_r10 G) (disciplinas P) 2 (-1);
     aux_mov_r11 := setMatriz (aux_mov_r11 G) (total_periodos P) (salas P) (-1);
     aux_mov_r21 := setVetor (aux_mov_r21 G) (disciplinas P) (-1);
     aux_mov_r22 := setVetor (aux_mov_r22 G) (disciplinas P) (-1);
     aux_mov_r4 := setVetor (aux_mov_r4 G) (disciplinas P) (-1);
     aux_mov_r5 := setVetor (aux_mov_r5 G) (disciplinas P) (-1);
     aux_mov_r8 := setVetor (aux_mov_r8 G) (total_periodos P) (-1);
     aux_mov_r9 := setVetor (aux_mov_r9 G) (professores P) (-1);
     r1 := setVetor (r1 G) (disciplinas P) 0;
     r8 := setVetor (r8 G) (disciplinas P) (-1);
     restricoes_violadas := setVetor (restricoes_violadas G) 12 (-1) |}.

(** *** Body of the main loop

    The body for a non-empty cell [(i, j)] holding course [c], one
    definition per constraint, in the order of the source. The state is
    the local [fo] paired with the arrays. *)

(** Packed position [(j * total_periodos) + i]. *)
Definition posicao (P : Instancia) (i j : Z) : Z := iadd (imul j (total_periodos P)) i.

(** [r1[c]++] *)
Definition passo_r1 (c : Z) (st : Z * Globais) : Z * Globais :=
  (st.1, com_r1 (vinc (r1 st.2) c 1) st.2).

(** [r21[i][prof]++; if(r21[i][prof] > 1) aux_mov_r21[c] = pos;] *)
Definition passo_r21 (P : Instancia) (i j c : Z) (st : Z * Globais) : Z * Globais :=
  let p := d_prof (disc_de P c) in
  let G := com_r21 (minc (r21 st.2) i p 1) st.2 in
  (st.1,
   if decide (1 < mget (r21 G) i p)
   then com_aux_mov_r21 (vset (aux_mov_r21 G) c (posicao P i j)) G else G).

(** [for(k...){ if(disc[c].cursos[k] == 1) r22[i][k]++;
                if(r22[i][k] > 1) aux_mov_r22[c] = pos; }] *)
Definition passo_r22 (P : Instancia) (i j c : Z) (st : Z * Globais) : Z * Globais :=
  (st.1,
   para (cursos P) (fun k G =>
     let G := if decide (vget (d_cursos (disc_de P c)) k = 1)
              then com_r22 (minc (r22 G) i k 1) G else G in
     if decide (1 < mget (r22 G) i k)
     then com_aux_mov_r22 (vset (aux_mov_r22 G) c (posicao P i j)) G else G) st.2).

(** [if(restricaoR4(c, i) == 1){ aux_mov_r4[c] = pos;
      restricoes_violadas[4]++; fo += 1000000; }] *)
Definition passo_r4 (P : Instancia) (i j c : Z) (st : Z * Globais) : Z * Globais :=
  if decide (restricaoR4 P c i = 1) then
    let G := com_aux_mov_r4 (vset (aux_mov_r4 st.2) c (posicao P i j)) st.2 in
    (iadd st.1 1000000,
     com_restricoes_violadas (vinc (restricoes_violadas G) 4 1) G)
  else st.

(** [r5[c][i/periodos_dia]++] *)
Definition passo_r5 (P : Instancia) (i c : Z) (st : Z * Globais) : Z * Globais :=
  (st.1, com_r5 (minc (r5 st.2) c (idiv i (periodos_dia P)) 1) st.2).

(** [fo += restricaoR6(matriz, c, i, j)] *)
Definition passo_r6 (P : Instancia) (g : list (list Z)) (i j c : Z)
    (st : Z * Globais) : Z * Globais :=
  let r := restricaoR6 P g c i j st.2 in
  (iadd st.1 r.1, r.2).

(** [sub_r7 = disc[c].alunos - sala[j].capacidade;
    if(sub_r7 > 0){ fo += sub_r7; restricoes_violadas[7] += sub_r7;
      if(aux_mov_r7[c][0] < sub_r7){ aux_mov_r7[c][0] = sub_r7;
                                     aux_mov_r7[c][1] = pos; } }] *)
Definition passo_r7 (P : Instancia) (i j c : Z) (st : Z * Globais) : Z * Globais :=
  let sub_r7 := isub (d_alunos (disc_de P c)) (s_capacidade (sala_de P j)) in
  if decide (0 < sub_r7) then
    let G := com_restricoes_violadas (vinc (restricoes_violadas st.2) 7 sub_r7) st.2 in
    (iadd st.1 sub_r7,
     if decide (mget (aux_mov_r7 G) c 0 < sub_r7)
     then com_aux_mov_r7 (mset (mset (aux_mov_r7 G) c 0 sub_r7) c 1 (posicao P i j)) G
     else G)
  else st.

(** [if(r8[c] == -1) r8[c] = j;
    else if(r8[c] != j){ fo += 1; restricoes_violadas[8]++;
      if(restricoes_violadas[8] < total_periodos)
        aux_mov_r8[restricoes_violadas[8]] = pos; }] *)
Definition passo_r8 (P : Instancia) (i j c : Z) (st : Z * Globais) : Z * Globais :=
  if decide (vget (r8 st.2) c = -1) then (st.1, com_r8 (vset (r8 st.2) c j) st.2)
  else if decide (vget (r8 st.2) c <> j) then
    let G := com_restricoes_violadas (vinc (restricoes_violadas st.2) 8 1) st.2 in
    (iadd st.1 1,
     if decide (vget (restricoes_violadas G) 8 < total_periodos P)
     then com_aux_mov_r8
            (vset (aux_mov_r8 G) (vget (restricoes_violadas G) 8) (posicao P i j)) G
     else G)
  else st.

(** [if(r9[prof][i/periodos_dia] < 1) r9[prof][i/periodos_dia] = 1;] *)
Definition passo_r9 (P : Instancia) (i c : Z) (st : Z * Globais) : Z * Globais :=
  let p := d_prof (disc_de P c) in
  let dia := idiv i (periodos_dia P) in
  if decide (mget (r9 st.2) p dia < 1)
  then (st.1, com_r9 (mset (r9 st.2) p dia 1) st.2) else st.

(** [if(disc[c].tipo_sala != sala[j].tipo_sala){ fo += 1000000;
      restricoes_violadas[10]++; aux_mov_r10[c][0] = disc[c].tipo_sala;
      aux_mov_r10[c][1] = pos; }] *)
Definition passo_r10 (P : Instancia) (i j c : Z) (st : Z * Globais) : Z * Globais :=
  if decide (d_tipo_sala (disc_de P c) <> s_tipo_sala (sala_de P j)) then
    let G := com_restricoes_violadas (vinc (restricoes_violadas st.2) 10 1) st.2 in
    (iadd st.1 1000000,
     com_aux_mov_r10
       (mset (mset (aux_mov_r10 G) c 0 (d_tipo_sala (disc_de P c))) c 1 (posicao P i j)) G)
  else st.

(** [r11[dia][c]++; if(r11[dia][c] > 1) aux_mov_r11[i][j] = c;] *)
Definition passo_r11 (P : Instancia) (i j c : Z) (st : Z * Globais) : Z * Globais :=
  let dia := idiv i (periodos_dia P) in
  let G := com_r11 (minc (r11 st.2) dia c 1) st.2 in
  (st.1,
   if decide (1 < mget (r11 G) dia c)
   then com_aux_mov_r11 (mset (aux_mov_r11 G) i j c) G else G).

(** [if(matriz.n[i][j] != -1){ ... }] *)
Definition avalia_celula (P : Instancia) (g : list (list Z)) (i j : Z)
    (st : Z * Globais) : Z * Globais :=
  let c := mget g i j in
  if decide (c = -1) then st
  else
    passo_r11 P i j c
      (passo_r10 P i j c
        (passo_r9 P i c
          (passo_r8 P i j c
            (passo_r7 P i j c
              (passo_r6 P g i j c
                (passo_r5 P i c
                  (passo_r4 P i j c
                    (passo_r22 P i j c
                      (passo_r21 P i j c
                        (passo_r1 c st)))))))))).

Definition laco_principal (P : Instancia) (g : list (list Z)) (st : Z * Globais) : Z * Globais :=
  para (total_periodos P) (fun i st =>
    para (salas P) (fun j st => avalia_celula P g i j st) st) st.

(** R2 totals: the penalty and the composite counter [restricoes_violadas[2]]. *)
Definition penaliza_r2 (P : Instancia) (st : Z * Globais) : Z * Globais :=
  para (total_periodos P) (fun i st =>
    let st := para (professores P) (fun j (st : Z * Globais) =>
      if decide (1 < mget (r21 st.2) i j) then
        (iadd st.1 (imul 1000000 (isub (mget (r21 st.2) i j) 1)),
         com_restricoes_violadas
           (if decide (vget (restricoes_violadas st.2) 2 < 0)
            then vset (restricoes_violadas st.2) 2 1
            else vinc (restricoes_violadas st.2) 2 1) st.2)
      else st) st in
    para (cursos P) (fun j (st : Z * Globais) =>
      if decide (1 < mget (r22 st.2) i j) then
        (iadd st.1 (imul 1000000 (isub (mget (r22 st.2) i j) 1)),
         com_restricoes_violadas
           (if decide (vget (restricoes_violadas st.2) 2 < 0)
            then vset (restricoes_violadas st.2) 2 1000
            else vinc (restricoes_violadas st.2) 2 1000) st.2)
      else st) st) st.

(** R1 and R5, course by course. *)
Definition penaliza_r1_r5 (P : Instancia) (st : Z * Globais) : Z * Globais :=
  para (disciplinas P) (fun i (st : Z * Globais) =>
    let acc := st.1 in
    let G := st.2 in
    let acc := if decide (vget (r1 G) i <> d_aulas (disc_de P i))
               then iadd acc (imul 1000000 (modulo (vget (r1 G) i) (d_aulas (disc_de P i))))
               else acc in
    let r5_aux := para (dias P) (fun j k =>
                    if decide (0 < mget (r5 G) i j) then iadd k 1 else k) 0 in
    if decide (r5_aux < d_minDias (disc_de P i)) then
      (iadd acc (imul 5 (isub (d_minDias (disc_de P i)) r5_aux)),
       com_aux_mov_r5 (vset (aux_mov_r5 G) i r5_aux)
         (com_restricoes_violadas (vinc (restricoes_violadas G) 5 r5_aux) G))
    else (acc, G)) st.

(** R9, teacher by teacher. *)
Definition penaliza_r9 (P : Instancia) (st : Z * Globais) : Z * Globais :=
  para (professores P) (fun i (st : Z * Globais) =>
    let dias_com_aula := para (dias P) (fun j k =>
                           if decide (0 < mget (r9 st.2) i j) then iadd k 1 else k) 0 in
    if decide (2 < dias_com_aula) then
      (iadd st.1 (imul 5 (isub dias_com_aula 2)),
       com_aux_mov_r9 (vset (aux_mov_r9 st.2) i dias_com_aula)
         (com_restricoes_violadas
            (vinc (restricoes_violadas st.2) 9 (isub dias_com_aula 2)) st.2))
    else st) st.

(** R11, day by day. *)
Definition penaliza_r11 (P : Instancia) (st : Z * Globais) : Z * Globais :=
  para (dias P) (fun i st =>
    para (disciplinas P) (fun j (st : Z * Globais) =>
      if decide (1 < mget (r11 st.2) i j) then
        (iadd st.1 (imul 1000000 (isub (mget (r11 st.2) i j) 1)),
         com_restricoes_violadas
           (vinc (restricoes_violadas st.2) 11 (isub (mget (r11 st.2) i j) 1)) st.2)
      else st) st) st.

(** [calcula_FO(matriz)]: the value returned and the arrays it leaves. *)
Definition calcula_FO (P : Instancia) (I : Integral) (G : Globais)
    (g : list (list Z)) : Z * Globais :=
  penaliza_r11 P
    (penaliza_r9 P
      (penaliza_r1_r5 P
        (penaliza_r2 P
          (laco_principal P g (0, zera_indices P I G))))).


(** What [leArquivos] allocates for an instance; [lixo] stands for the
    unspecified contents of fresh memory. *)
Definition aloca_indices (P : Instancia) (lixo : Z) : Globais :=
  let vec k := replicate (Z.to_nat k) lixo in
  let mat l k := replicate (Z.to_nat l) (replicate (Z.to_nat k) lixo) in
  {| r1 := vec (disciplinas P);
     r21 := mat (total_periodos P) (professores P);
     r22 := mat (total_periodos P) (cursos P);
     r5 := mat (disciplinas P) (dias P);
     r8 := vec (disciplinas P);
     r9 := mat (professores P) (dias P);
     r11 := mat (dias P) (disciplinas P);
     restricoes_violadas := vec 12;
     aux_mov_r21 := vec (disciplinas P);
     aux_mov_r22 := vec (disciplinas P);
     aux_mov_r4 := vec (disciplinas P);
     aux_mov_r5 := vec (disciplinas P);
     aux_mov_r6 := mat (total_periodos P) (salas P);
     aux_mov_r7 := mat (disciplinas P) 2;
     aux_mov_r8 := vec (total_periodos P);
     aux_mov_r9 := vec (professores P);
     aux_mov_r10 := mat (disciplinas P) 2;
     aux_mov_r11 := mat (total_periodos P) (salas P) |}.

(** The arrays have the sizes of the allocation. *)
Definition indices_ok (P : Instancia) (G : Globais) : Prop :=
  length (r1 G) = Z.to_nat (disciplinas P) /\
  map length (r21 G) = replicate (Z.to_nat (total_periodos P)) (Z.to_nat (professores P)) /\
  map length (r22 G) = replicate (Z.to_nat (total_periodos P)) (Z.to_nat (cursos P)) /\
  map length (r5 G) = replicate (Z.to_nat (disciplinas P)) (Z.to_nat (dias P)) /\
  length (r8 G) = Z.to_nat (disciplinas P) /\
  map length (r9 G) = replicate (Z.to_nat (professores P)) (Z.to_nat (dias P)) /\
  map length (r11 G) = replicate (Z.to_nat (dias P)) (Z.to_nat (disciplinas P)) /\
  length (restricoes_violadas G) = Z.to_nat 12 /\
  length (aux_mov_r21 G) = Z.to_nat (disciplinas P) /\
  length (aux_mov_r22 G) = Z.to_nat (disciplinas P) /\
  length (aux_mov_r4 G) = Z.to_nat (disciplinas P) /\
  length (aux_mov_r5 G) = Z.to_nat (disciplinas P) /\
  map length (aux_mov_r6 G) = replicate (Z.to_nat (total_periodos P)) (Z.to_nat (salas P)) /\
  map length (aux_mov_r7 G) = replicate (Z.to_nat (disciplinas P)) (Z.to_nat 2) /\
  length (aux_mov_r8 G) = Z.to_nat (total_periodos P) /\
  length (aux_mov_r9 G) = Z.to_nat (professores P) /\
  map length (aux_mov_r10 G) = replicate (Z.to_nat (disciplinas P)) (Z.to_nat 2) /\
  map length (aux_mov_r11 G) = replicate (Z.to_nat (total_periodos P)) (Z.to_nat (salas P)).

(** [criaMatriz()]: a grid of [total_periodos] rows and [salas] columns,
    every cell empty; [fo] is not initialised by the source. *)
Definition criaMatriz (P : Instancia) (fo_lixo : Z) : Matriz :=
  {| fo := fo_lixo;
     n := replicate (Z.to_nat (total_periodos P)) (replicate (Z.to_nat (salas P)) (-1)) |}.


(** ** Accesses that must stay inside the allocation

    [geraViz] follows witnesses recorded by an earlier evaluation and
    random draws; an access outside an array is undefined behaviour in C.
    In the model of [geraViz], [solucaoInicial] and [extraiDiasDaMatriz]
    such an access yields [None], as does running out of fuel in a loop
    with no bound. *)

Definition ler (v : list Z) (i : Z) : option Z :=
  if decide (0 <= i) then v !! Z.to_nat i else None.

Definition ler2 (m : list (list Z)) (i j : Z) : option Z :=
  if decide (0 <= i) then row ← m !! Z.to_nat i; ler row j else None.

Definition escreve (v : list Z) (i x : Z) : option (list Z) :=
  _ ← ler v i; Some (vset v i x).

Definition escreve2 (m : list (list Z)) (i j x : Z) : option (list (list Z)) :=
  _ ← ler2 m i j; Some (mset m i j x).

Definition ler_disc (P : Instancia) (c : Z) : option Disciplina :=
  if decide (0 <= c) then disc P !! Z.to_nat c else None.

Definition ler_sala (P : Instancia) (j : Z) : option Sala :=
  if decide (0 <= j) then sala P !! Z.to_nat j else None.

(** The two ways the source exchanges the contents of two cells. Both
    return the value left in [aux2], which the loops test.

    [aux2 = n[a][b]; n[a][b] = n[c][d]; n[c][d] = aux2;] *)
Definition troca (g : list (list Z)) (a b c d : Z) : option (list (list Z) * Z) :=
  aux2 ← ler2 g a b;
  v ← ler2 g c d;
  g ← escreve2 g a b v;
  g ← escreve2 g c d aux2;
  Some (g, aux2).

(** [aux2 = n[per][sal]; n[per][sal] = -1; n[k][l] = aux2;] *)
Definition realoca (g : list (list Z)) (per sal k l : Z) : option (list (list Z) * Z) :=
  aux2 ← ler2 g per sal;
  g ← escreve2 g per sal (-1);
  g ← escreve2 g k l aux2;
  Some (g, aux2).

(** [n[k][l] = n[per][sal]; n[per][sal] = -1;] *)
Definition transfere (g : list (list Z)) (per sal k l : Z) : option (list (list Z)) :=
  v ← ler2 g per sal;
  g ← escreve2 g k l v;
  escreve2 g per sal (-1).

(** The state [geraViz] works on: the grid of the solution passed in,
    the file-scope arrays and the number of [rand()] calls made. *)
Record Estado := {
  grade : list (list Z);
  indices : Globais;
  sorteios : nat
}.

Definition com_grade (g : list (list Z)) (e : Estado) : Estado :=
  {| grade := g; indices := indices e; sorteios := sorteios e |}.
Definition com_indices (G : Globais) (e : Estado) : Estado :=
  {| grade := grade e; indices := G; sorteios := sorteios e |}.
Definition com_sorteios (k : nat) (e : Estado) : Estado :=
  {| grade := grade e; indices := indices e; sorteios := k |}.

Definition Qlt_bool (a b : Q) : bool := negb (Qle_bool b a).

(** [(int) x] for a double [x]: truncation towards zero. *)
Definition trunca (q : Q) : Z := to_int (Z.quot (Qnum q) (Zpos (Qden q))).

(** Number of attempts granted by the temperature. *)
Definition tentativas_de (T : Q) : Z :=
  if Qlt_bool T 1 then 6
  else if Qlt_bool T 10 then 5
  else if Qlt_bool T 100 then 4
  else if Qlt_bool T 1000 then 3
  else 2.

Section Oraculo.

(** [rand k] is the result of the [k]-th call of [rand()] (the program
    never calls [srand]). *)
Variable rand : nat -> Z.

(** [randomDouble_fp x inicio fim] is the double computed by
    [((double) (x % 10000) / 10000.0) * (fim-inicio) + inicio]. *)
Variable randomDouble_fp : Z -> Q -> Q -> Q.

(** Rounding of a real to the nearest [float] and [double]. *)
Variable flt : Q -> Q.
Variable dbl : Q -> Q.

(** [exp_fp delta T] is the double computed by [exp(-1 * (delta / T))]. *)
Variable exp_fp : Z -> Q -> Q.

Definition randomDouble (inicio fim : Q) (k : nat) : Q * nat :=
  (randomDouble_fp (rand k) inicio fim, S k).

Definition randomInt (inicio fim : Z) (k : nat) : Z * nat :=
  let r := randomDouble 0 (inject_Z (isub fim inicio) + 1) k in
  (iadd (trunca r.1) inicio, r.2).

Section Fase.

(** The instance of the phase being solved. *)
Variable P : Instancia.

(** *** Random exchanges (classes 9, 10, 11 and the fallback of R2) *)

(** [sorteia] draws the two cells [(i, j)] and [(k, l)] of one round. *)
Fixpoint laco_trocas (sorteia : nat -> (Z * Z * Z * Z) * nat)
    (fuel : nat) (aux : Z) (e : Estado) : option Estado :=
  if decide (0 < aux) then
    match fuel with
    | O => None
    | S fuel =>
        let '((i, j, k, l), s) := sorteia (sorteios e) in
        a ← ler2 (grade e) i j;
        b ← ler2 (grade e) k l;
        if decide (a <> -1 \/ b <> -1) then
          r ← troca (grade e) i j k l;
          laco_trocas sorteia fuel (isub aux 1) (com_sorteios s (com_grade r.1 e))
        else laco_trocas sorteia fuel aux (com_sorteios s e)
    end
  else Some e.

(** [i], [j], [k], [l] all drawn. *)
Definition sorteia_livre (s : nat) : (Z * Z * Z * Z) * nat :=
  let i := randomInt 0 (isub (total_periodos P) 1) s in
  let j := randomInt 0 (isub (salas P) 1) i.2 in
  let k := randomInt 0 (isub (total_periodos P) 1) j.2 in
  let l := randomInt 0 (isub (salas P) 1) k.2 in
  ((i.1, j.1, k.1, l.1), l.2).

(** Same period: [i], [j], [l] drawn, the cells are [(i, j)] and [(i, l)]. *)
Definition sorteia_mesmo_periodo (s : nat) : (Z * Z * Z * Z) * nat :=
  let i := randomInt 0 (isub (total_periodos P) 1) s in
  let j := randomInt 0 (isub (salas P) 1) i.2 in
  let l := randomInt 0 (isub (salas P) 1) j.2 in
  ((i.1, j.1, i.1, l.1), l.2).

(** Same room: [i], [j], [k] drawn, the cells are [(i, j)] and [(k, j)]. *)
Definition sorteia_mesma_sala (s : nat) : (Z * Z * Z * Z) * nat :=
  let i := randomInt 0 (isub (total_periodos P) 1) s in
  let j := randomInt 0 (isub (salas P) 1) i.2 in
  let k := randomInt 0 (isub (total_periodos P) 1) j.2 in
  ((i.1, j.1, k.1, j.1), k.2).

(** [aux = randomInt(1, limite); while(aux > 0) ...] *)
Definition trocas_aleatorias (sorteia : nat -> (Z * Z * Z * Z) * nat)
    (fuel : nat) (limite : Z) (e : Estado) : option Estado :=
  let aux := randomInt 1 limite (sorteios e) in
  laco_trocas sorteia fuel aux.1 (com_sorteios aux.2 e).

(** *** Choice of a witness

    [while(aux == -1){ j = randomInt(0, disciplinas - 1);
       if(w[j] != -1) aux = j; else if(w[i] != -1) aux = i; i++; }]
    where [w] is one of the witness vectors, read through [le]. *)
Fixpoint busca_testemunha (le : Z -> option Z) (fuel : nat) (i : Z) (s : nat)
    : option (Z * nat) :=
  match fuel with
  | O => None
  | S fuel =>
      let j := randomInt 0 (isub (disciplinas P) 1) s in
      wj ← le j.1;
      if decide (wj <> -1) then Some (j.1, j.2)
      else
        wi ← le i;
        if decide (wi <> -1) then Some (i, j.2)
        else busca_testemunha le fuel (iadd i 1) j.2
  end.

(** Decoding of a packed position: [sal = w / total_periodos;
    per = w - (sal * total_periodos);] *)
Definition sala_de_pos (w : Z) : Z := idiv w (total_periodos P).
Definition periodo_de_pos (w : Z) : Z := isub w (imul (sala_de_pos w) (total_periodos P)).

(** *** Class 1: teacher conflict (R2) *)

Fixpoint laco_r2_prof (fuel : nat) (per sal : Z) (e : Estado) : option Estado :=
  match fuel with
  | O => None
  | S fuel =>
      let k := randomInt 0 (isub (total_periodos P) 1) (sorteios e) in
      let l := randomInt 0 (isub (salas P) 1) k.2 in
      let e := com_sorteios l.2 e in
      c ← ler2 (grade e) k.1 l.1;
      if decide (c = -1) then
        r ← realoca (grade e) per sal k.1 l.1;
        if decide (r.2 = -2) then laco_r2_prof fuel per sal (com_grade r.1 e)
        else Some (com_grade r.1 e)
      else
        D ← ler_disc P c;
        x ← ler2 (r21 (indices e)) k.1 (d_prof D);
        if decide (x = 0) then
          r ← troca (grade e) k.1 l.1 per sal;
          if decide (r.2 = -2) then laco_r2_prof fuel per sal (com_grade r.1 e)
          else Some (com_grade r.1 e)
        else laco_r2_prof fuel per sal e
  end.

Definition mov_r2_prof (fuel : nat) (tentativas : Z) (e : Estado) : option Estado :=
  if decide (1 < irem (vget (restricoes_violadas (indices e)) 2) 1000) then
    t ← busca_testemunha (ler (aux_mov_r21 (indices e))) fuel 0 (sorteios e);
    w ← ler (aux_mov_r21 (indices e)) t.1;
    e ← laco_r2_prof fuel (periodo_de_pos w) (sala_de_pos w) (com_sorteios t.2 e);
    a ← escreve (aux_mov_r21 (indices e)) t.1 (-1);
    let G := com_aux_mov_r21 a (indices e) in
    Some (com_indices (com_restricoes_violadas (vinc (restricoes_violadas G) 2 (-1)) G) e)
  else trocas_aleatorias sorteia_livre fuel tentativas e.

(** *** Class 2: curriculum conflict (R2) *)

Fixpoint laco_r2_curso (fuel : nat) (per sal : Z) (e : Estado) : option Estado :=
  match fuel with
  | O => None
  | S fuel =>
      let k := randomInt 0 (isub (total_periodos P) 1) (sorteios e) in
      let l := randomInt 0 (isub (salas P) 1) k.2 in
      let e := com_sorteios l.2 e in
      c ← ler2 (grade e) k.1 l.1;
      if decide (c = -1) then
        r ← realoca (grade e) per sal k.1 l.1;
        if decide (r.2 = -2) then laco_r2_curso fuel per sal (com_grade r.1 e)
        else Some (com_grade r.1 e)
      else if decide (k.1 <> per) then
        r ← troca (grade e) k.1 l.1 per sal;
        if decide (r.2 = -2) then laco_r2_curso fuel per sal (com_grade r.1 e)
        else Some (com_grade r.1 e)
      else laco_r2_curso fuel per sal e
  end.

Definition mov_r2_curso (fuel : nat) (tentativas : Z) (e : Estado) : option Estado :=
  if decide (1000 < vget (restricoes_violadas (indices e)) 2) then
    t ← busca_testemunha (ler (aux_mov_r22 (indices e))) fuel 0 (sorteios e);
    w ← ler (aux_mov_r22 (indices e)) t.1;
    e ← laco_r2_curso fuel (periodo_de_pos w) (sala_de_pos w) (com_sorteios t.2 e);
    a ← escreve (aux_mov_r22 (indices e)) t.1 (-1);
    let G := com_aux_mov_r22 a (indices e) in
    Some (com_indices (com_restricoes_violadas (vinc (restricoes_violadas G) 2 (-1000)) G) e)
  else trocas_aleatorias sorteia_livre fuel tentativas e.

(** *** Class 3: compactness (R6) *)

(** Choice of the isolated lecture: a drawn cell, else the cell of the
    running scan [(k, l)]. Returns [r6_i], [r6_j]. *)
Fixpoint busca_r6 (fuel : nat) (k l : Z) (e : Estado) : option (Z * Z * nat) :=
  match fuel with
  | O => None
  | S fuel =>
      let i := randomInt 0 (isub (total_periodos P) 1) (sorteios e) in
      let j := randomInt 0 (isub (salas P) 1) i.2 in
      let e := com_sorteios j.2 e in
      let l' := irem (iadd l 1) (salas P) in
      let k' := if decide (l' = 0) then irem (iadd k 1) (total_periodos P) else k in
      a ← ler2 (aux_mov_r6 (indices e)) i.1 j.1;
      if decide (a <> -1) then
        if decide (a = -2) then busca_r6 fuel k' l' e else Some (i.1, j.1, j.2)
      else
        b ← ler2 (aux_mov_r6 (indices e)) k l;
        if decide (b <> -1) then
          if decide (b = -2) then busca_r6 fuel k' l' e else Some (k, l, j.2)
        else busca_r6 fuel k' l' e
  end.

Fixpoint laco_r6 (fuel : nat) (tentativas r6_i r6_j aux3 : Z) (e : Estado) : option Estado :=
  match fuel with
  | O => None
  | S fuel =>
      let k := randomInt 0 (isub (total_periodos P) 1) (sorteios e) in
      let l := randomInt 0 (isub (salas P) 1) k.2 in
      let e := com_sorteios l.2 e in
      c ← ler2 (grade e) k.1 l.1;
      if decide (c = -1 /\ r6_i <> k.1) then
        g ← transfere (grade e) r6_i r6_j k.1 l.1;
        Some (com_grade g e)
      else
        a ← ler2 (aux_mov_r6 (indices e)) k.1 l.1;
        if decide (a <> -1 /\ r6_i <> k.1) then
          r ← troca (grade e) k.1 l.1 r6_i r6_j;
          m ← escreve2 (aux_mov_r6 (indices e)) k.1 l.1 (-1);
          let e := com_indices (com_aux_mov_r6 m (indices e)) (com_grade r.1 e) in
          if decide (r.2 = -2) then laco_r6 fuel tentativas r6_i r6_j (iadd aux3 1) e
          else Some e
        else if decide (tentativas <= aux3 /\ r6_i <> k.1) then
          r ← troca (grade e) k.1 l.1 r6_i r6_j;
          m ← escreve2 (aux_mov_r6 (indices e)) k.1 l.1 (-1);
          let e := com_indices (com_aux_mov_r6 m (indices e)) (com_grade r.1 e) in
          if decide (r.2 = -2) then laco_r6 fuel tentativas r6_i r6_j (iadd aux3 1) e
          else Some e
        else if decide (tentativas <= aux3) then
          r ← troca (grade e) r6_i r6_j k.1 l.1;
          if decide (r.2 = -2)
          then laco_r6 fuel tentativas r6_i r6_j (iadd aux3 1) (com_grade r.1 e)
          else Some (com_grade r.1 e)
        else laco_r6 fuel tentativas r6_i r6_j (iadd aux3 1) e
  end.

Definition mov_r6 (fuel : nat) (tentativas : Z) (e : Estado) : option Estado :=
  t ← busca_r6 fuel 0 0 e;
  let '(r6_i, r6_j, s) := t in
  e ← laco_r6 fuel tentativas r6_i r6_j 0 (com_sorteios s e);
  let G := com_restricoes_violadas (vinc (restricoes_violadas (indices e)) 6 (-2)) (indices e) in
  m ← escreve2 (aux_mov_r6 G) r6_i r6_j (-1);
  Some (com_indices (com_aux_mov_r6 m G) e).

(** *** Class 4: room capacity (R7) *)

Fixpoint laco_r7 (fuel : nat) (tentativas aux per sal aux3 : Z) (e : Estado) : option Estado :=
  match fuel with
  | O => None
  | S fuel =>
      let k := randomInt 0 (isub (total_periodos P) 1) (sorteios e) in
      let l := randomInt 0 (isub (salas P) 1) k.2 in
      let e := com_sorteios l.2 e in
      let continua (r : list (list Z) * Z) :=
        if decide (r.2 = -2)
        then laco_r7 fuel tentativas aux per sal (iadd aux3 1) (com_grade r.1 e)
        else Some (com_grade r.1 e) in
      c ← ler2 (grade e) k.1 l.1;
      Sl ← ler_sala P l.1;
      Da ← ler_disc P aux;
      if decide (c = -1) then
        if decide (d_alunos Da <= s_capacidade Sl) then
          r ← realoca (grade e) per sal k.1 l.1; continua r
        else if decide (tentativas <= aux3) then
          _ ← ler_sala P sal;
          r ← troca (grade e) per sal k.1 l.1; continua r
        else laco_r7 fuel tentativas aux per sal (iadd aux3 1) e
      else
        Dc ← ler_disc P c;
        w ← ler2 (aux_mov_r7 (indices e)) aux 0;
        if decide (d_alunos Da <= s_capacidade Sl
                   /\ w < isub (d_alunos Dc) (s_capacidade Sl)) then
          r ← troca (grade e) per sal k.1 l.1; continua r
        else if decide (s_capacidade Sl < d_alunos Dc) then
          r ← troca (grade e) per sal k.1 l.1; continua r
        else if decide (tentativas <= aux3) then
          _ ← ler_sala P sal;
          r ← troca (grade e) per sal k.1 l.1; continua r
        else laco_r7 fuel tentativas aux per sal (iadd aux3 1) e
  end.

Definition mov_r7 (fuel : nat) (tentativas : Z) (e : Estado) : option Estado :=
  t ← busca_testemunha (fun j => ler2 (aux_mov_r7 (indices e)) j 0) fuel 0 (sorteios e);
  w ← ler2 (aux_mov_r7 (indices e)) t.1 1;
  e ← laco_r7 fuel tentativas t.1 (periodo_de_pos w) (sala_de_pos w) 0 (com_sorteios t.2 e);
  let G := com_restricoes_violadas (vinc (restricoes_violadas (indices e)) 7 (-1)) (indices e) in
  m ← escreve2 (aux_mov_r7 G) t.1 0 (-1);
  m ← escreve2 m t.1 1 (-1);
  Some (com_indices (com_aux_mov_r7 m G) e).

(** *** Class 5: room stability (R8) *)

Fixpoint laco_r8 (fuel : nat) (tentativas per sal aux3 : Z) (e : Estado) : option Estado :=
  match fuel with
  | O => None
  | S fuel =>
      let i := randomInt 0 (isub (total_periodos P) 1) (sorteios e) in
      let e := com_sorteios i.2 e in
      c ← ler2 (grade e) per sal;
      j ← ler (r8 (indices e)) c;
      x ← ler2 (grade e) i.1 j;
      if decide (x = -1) then
        g ← transfere (grade e) per sal i.1 j;
        Some (com_grade g e)
      else if decide (tentativas <= aux3) then
        r ← troca (grade e) per sal i.1 j;
        if decide (r.2 = -2)
        then laco_r8 fuel tentativas per sal (iadd aux3 1) (com_grade r.1 e)
        else Some (com_grade r.1 e)
      else laco_r8 fuel tentativas per sal (iadd aux3 1) e
  end.

Definition mov_r8 (fuel : nat) (tentativas : Z) (e : Estado) : option Estado :=
  let v8 := vget (restricoes_violadas (indices e)) 8 in
  let aux := if decide (total_periodos P <= v8)
             then randomInt 0 (isub (total_periodos P) 1) (sorteios e)
             else randomInt 0 v8 (sorteios e) in
  w ← ler (aux_mov_r8 (indices e)) aux.1;
  e ← laco_r8 fuel tentativas (periodo_de_pos w) (sala_de_pos w) 0 (com_sorteios aux.2 e);
  let G := com_restricoes_violadas (vinc (restricoes_violadas (indices e)) 8 (-1)) (indices e) in
  a ← escreve (r8 G) aux.1 (-1);
  Some (com_indices (com_r8 a G) e).

(** *** Class 6: teacher days (R9) *)

(** At most 100 draws for a teacher with more than two days. *)
Fixpoint busca_prof_r9 (fuel : nat) (tentativa_prof : Z) (e : Estado) : option (Z * nat) :=
  if decide (tentativa_prof < 100) then
    match fuel with
    | O => None
    | S fuel =>
        let i := randomInt 0 (isub (professores P) 1) (sorteios e) in
        w ← ler (aux_mov_r9 (indices e)) i.1;
        if decide (2 < w) then Some (i.1, i.2)
        else busca_prof_r9 fuel (iadd tentativa_prof 1) (com_sorteios i.2 e)
    end
  else Some (-1, sorteios e).

(** [int dias_trabalhados[10]] filled with the days [d] such that
    [r9[prof_violador][d] == 1]; the list is the initialised prefix. *)
Fixpoint dias_trabalhados_de (prof_violador : Z) (G : Globais) (ds : list Z)
    (trab : list Z) : option (list Z) :=
  match ds with
  | [] => Some trab
  | d :: ds =>
      x ← ler2 (r9 G) prof_violador d;
      if decide (x = 1) then
        if decide (length trab < 10)%nat
        then dias_trabalhados_de prof_violador G ds (trab ++ [d])
        else None
      else dias_trabalhados_de prof_violador G ds trab
  end.

(** [while(dia_destino == dia_fonte && num_dias > 1) dia_destino = ...] *)
Fixpoint sorteia_destino (fuel : nat) (trab : list Z) (dia_fonte dia_destino : Z)
    (s : nat) : option (Z * nat) :=
  if decide (dia_destino = dia_fonte /\ 1 < Z.of_nat (length trab)) then
    match fuel with
    | O => None
    | S fuel =>
        let i := randomInt 0 (isub (Z.of_nat (length trab)) 1) s in
        d ← ler trab i.1;
        sorteia_destino fuel trab dia_fonte d i.2
    end
  else Some (dia_destino, s).

(** First lecture of the teacher among the cells [cels], in order. *)
Fixpoint primeira_aula (prof_violador : Z) (g : list (list Z)) (cels : list (Z * Z))
    : option (option (Z * Z)) :=
  match cels with
  | [] => Some None
  | (per, sal) :: cels =>
      c ← ler2 g per sal;
      if decide (c <> -1) then
        D ← ler_disc P c;
        if decide (d_prof D = prof_violador) then Some (Some (per, sal))
        else primeira_aula prof_violador g cels
      else primeira_aula prof_violador g cels
  end.

Definition celulas_do_dia (dia : Z) : list (Z * Z) :=
  let lo := imul dia (periodos_dia P) in
  let hi := imul (iadd dia 1) (periodos_dia P) in
  flat_map (fun per => map (fun sal => (per, sal)) (seqZ 0 (salas P))) (seqZ lo (hi - lo)).

Fixpoint laco_r9 (fuel : nat) (tentativas dia_destino per_fonte sala_fonte aux3 : Z)
    (e : Estado) : option Estado :=
  if decide (aux3 < imul tentativas 2) then
    match fuel with
    | O => None
    | S fuel =>
        let k := randomInt (imul dia_destino (periodos_dia P))
                           (isub (imul (iadd dia_destino 1) (periodos_dia P)) 1)
                           (sorteios e) in
        let l := randomInt 0 (isub (salas P) 1) k.2 in
        let e := com_sorteios l.2 e in
        c ← ler2 (grade e) k.1 l.1;
        if decide (c = -1) then
          g ← transfere (grade e) per_fonte sala_fonte k.1 l.1;
          Some (com_grade g e)
        else
          D ← ler_disc P c;
          w ← ler (aux_mov_r9 (indices e)) (d_prof D);
          if decide (w <= 2 \/ tentativas <= aux3) then
            r ← troca (grade e) k.1 l.1 per_fonte sala_fonte;
            if decide (r.2 = -2)
            then laco_r9 fuel tentativas dia_destino per_fonte sala_fonte (iadd aux3 1)
                   (com_grade r.1 e)
            else Some (com_grade r.1 e)
          else laco_r9 fuel tentativas dia_destino per_fonte sala_fonte (iadd aux3 1) e
    end
  else Some e.

Definition mov_r9 (fuel : nat) (tentativas : Z) (e : Estado) : option Estado :=
  t ← busca_prof_r9 fuel 0 e;
  let prof_violador := t.1 in
  let e := com_sorteios t.2 e in
  if decide (prof_violador <> -1) then
    trab ← dias_trabalhados_de prof_violador (indices e) (seqZ 0 (dias P)) [];
    let num_dias := Z.of_nat (length trab) in
    let i := randomInt 0 (isub num_dias 1) (sorteios e) in
    dia_fonte ← ler trab i.1;
    let i' := randomInt 0 (isub num_dias 1) i.2 in
    dia_destino ← ler trab i'.1;
    dd ← sorteia_destino fuel trab dia_fonte dia_destino i'.2;
    let e := com_sorteios dd.2 e in
    fonte ← primeira_aula prof_violador (grade e) (celulas_do_dia dia_fonte);
    match fonte with
    | Some (per_fonte, sala_fonte) =>
        laco_r9 fuel tentativas dd.1 per_fonte sala_fonte 0 e
    | None => Some e
    end
  else Some e.

(** *** Class 7: room type (R10) *)

Fixpoint laco_r10 (fuel : nat) (tentativas aux per sal aux3 : Z) (e : Estado) : option Estado :=
  match fuel with
  | O => None
  | S fuel =>
      let k := randomInt 0 (isub (total_periodos P) 1) (sorteios e) in
      let l := randomInt 0 (isub (salas P) 1) k.2 in
      let e := com_sorteios l.2 e in
      let continua (r : list (list Z) * Z) :=
        if decide (r.2 = -2)
        then laco_r10 fuel tentativas aux per sal (iadd aux3 1) (com_grade r.1 e)
        else Some (com_grade r.1 e) in
      c ← ler2 (grade e) k.1 l.1;
      Sl ← ler_sala P l.1;
      Da ← ler_disc P aux;
      if decide (c = -1) then
        if decide (s_tipo_sala Sl = d_tipo_sala Da) then
          r ← realoca (grade e) per sal k.1 l.1; continua r
        else if decide (tentativas <= aux3) then
          r ← troca (grade e) per sal k.1 l.1; continua r
        else laco_r10 fuel tentativas aux per sal (iadd aux3 1) e
      else
        Dc ← ler_disc P c;
        ok ← (if decide (s_tipo_sala Sl = d_tipo_sala Da) then
                Ss ← ler_sala P sal;
                Some (bool_decide (d_tipo_sala Dc = s_tipo_sala Ss))
              else Some false);
        if (ok : bool) then
          r ← troca (grade e) per sal k.1 l.1; continua r
        else if decide (d_tipo_sala Dc <> s_tipo_sala Sl) then
          r ← troca (grade e) per sal k.1 l.1; continua r
        else if decide (tentativas <= aux3) then
          r ← troca (grade e) per sal k.1 l.1; continua r
        else laco_r10 fuel tentativas aux per sal (iadd aux3 1) e
  end.

Definition mov_r10 (fuel : nat) (tentativas : Z) (e : Estado) : option Estado :=
  t ← busca_testemunha (fun j => ler2 (aux_mov_r10 (indices e)) j 0) fuel 0 (sorteios e);
  w ← ler2 (aux_mov_r10 (indices e)) t.1 1;
  e ← laco_r10 fuel tentativas t.1 (periodo_de_pos w) (sala_de_pos w) 0 (com_sorteios t.2 e);
  let G := com_restricoes_violadas (vinc (restricoes_violadas (indices e)) 10 (-1)) (indices e) in
  m ← escreve2 (aux_mov_r10 G) t.1 0 (-1);
  m ← escreve2 m t.1 1 (-1);
  Some (com_indices (com_aux_mov_r10 m G) e).

(** *** Class 8: one lecture of a course per day (R11) *)

(** First cell of [aux_mov_r11], row by row, that holds a witness. *)
Fixpoint busca_r11 (m : list (list Z)) (cels : list (Z * Z)) : option (option (Z * Z * Z)) :=
  match cels with
  | [] => Some None
  | (per, sal) :: cels =>
      w ← ler2 m per sal;
      if decide (w <> -1) then Some (Some (w, per, sal)) else busca_r11 m cels
  end.

Definition todas_celulas : list (Z * Z) :=
  flat_map (fun per => map (fun sal => (per, sal)) (seqZ 0 (salas P)))
           (seqZ 0 (total_periodos P)).

Fixpoint laco_r11 (fuel : nat) (tentativas dia_r11 per_r11 sal_r11 aux3 : Z)
    (e : Estado) : option Estado :=
  if decide (aux3 < imul tentativas 3) then
    match fuel with
    | O => None
    | S fuel =>
        let k := randomInt 0 (isub (total_periodos P) 1) (sorteios e) in
        let l := randomInt 0 (isub (salas P) 1) k.2 in
        let e := com_sorteios l.2 e in
        let d := idiv k.1 (periodos_dia P) in
        if decide (d <> dia_r11) then
          c ← ler2 (grade e) k.1 l.1;
          r ← (if decide (c = -1) then realoca (grade e) per_r11 sal_r11 k.1 l.1
               else troca (grade e) k.1 l.1 per_r11 sal_r11);
          if decide (r.2 = -2)
          then laco_r11 fuel tentativas dia_r11 per_r11 sal_r11 (iadd aux3 1) (com_grade r.1 e)
          else Some (com_grade r.1 e)
        else laco_r11 fuel tentativas dia_r11 per_r11 sal_r11 (iadd aux3 1) e
    end
  else Some e.

Definition mov_r11 (fuel : nat) (tentativas : Z) (e : Estado) : option Estado :=
  t ← busca_r11 (aux_mov_r11 (indices e)) todas_celulas;
  match t with
  | Some (disc_r11, per_r11, sal_r11) =>
      let dia_r11 := idiv per_r11 (periodos_dia P) in
      e ← laco_r11 fuel tentativas dia_r11 per_r11 sal_r11 0 e;
      m ← escreve2 (aux_mov_r11 (indices e)) per_r11 sal_r11 (-1);
      Some (com_indices (com_aux_mov_r11 m (indices e)) e)
  | None => Some e
  end.

(** *** The dispatcher *)

Definition geraViz (fuel : nat) (T : Q) (e : Estado) : option Estado :=
  let tentativas := tentativas_de T in
  let m := randomInt 0 1000 (sorteios e) in
  let movimento := m.1 in
  let e := com_sorteios m.2 e in
  let v := restricoes_violadas (indices e) in
  if decide (vget v 2 <> -1 /\ movimento < iadd 100 (ishl (irem (vget v 2) 1000) 7)) then
    mov_r2_prof fuel tentativas e
  else if decide (vget v 2 <> -1 /\ movimento < iadd 100 (ishr (vget v 2) 3)) then
    mov_r2_curso fuel tentativas e
  else if decide (vget v 6 <> -1 /\ 100 <= movimento
                  /\ movimento < iadd 200 (imul 2 (vget v 6))) then
    mov_r6 fuel tentativas e
  else if decide (vget v 7 <> -1 /\ 200 <= movimento
                  /\ movimento < iadd 300 (vget v 7)) then
    mov_r7 fuel tentativas e
  else if decide (vget v 8 <> -1 /\ 300 <= movimento
                  /\ movimento < iadd 400 (vget v 8)) then
    mov_r8 fuel tentativas e
  else if decide (vget v 9 <> -1 /\ 400 <= movimento
                  /\ movimento < iadd 500 (imul (vget v 9) 20)) then
    mov_r9 fuel tentativas e
  else if decide (vget v 10 <> -1 /\ 500 <= movimento
                  /\ movimento < iadd 600 (vget v 10)) then
    mov_r10 fuel tentativas e
  else if decide (vget v 11 <> -1 /\ 600 <= movimento
                  /\ movimento < iadd 700 (imul (vget v 11) 100)) then
    mov_r11 fuel tentativas e
  else if decide (700 <= movimento /\ movimento < 800) then
    trocas_aleatorias sorteia_mesmo_periodo fuel (ishl tentativas 1) e
  else if decide (800 <= movimento /\ movimento < 900) then
    trocas_aleatorias sorteia_mesma_sala fuel (ishl tentativas 1) e
  else
    trocas_aleatorias sorteia_livre fuel tentativas e.

(** ** Solutions *)

(** [copiaMatriz(&destino, origem)]: cell by cell, then [fo]. *)
Definition copiaMatriz (destino origem : Matriz) : Matriz :=
  {| fo := fo origem;
     n := para (total_periodos P) (fun i m =>
            para (salas P) (fun j m' => mset m' i j (mget (n origem) i j)) m) (n destino) |}.

(** ** Simulated Annealing *)

(** The variables of [SA] and the file-scope state it shares with
    [geraViz] and [calcula_FO]. The clock, the history of improvements
    and the printing are left out. *)
Record Recozimento := {
  atual : Matriz;
  melhor : Matriz;
  viz : Matriz;
  T : Q;
  alpha : Q;
  maxIteracoes : Z;
  fim_forcado : Z;
  reaquecimento : Z;
  globais : Globais;
  chamadas : nat
}.

Definition Tinicial : Q := 1000000.
Definition Tfinal : Q := flt (dbl (1 # 100000)).
Definition Temp_reaquecimento : Q := flt (Tfinal * 10).

Variable Itg : Integral.

(** State of [SA] when the main loop is reached. *)
Definition inicio_SA (inicial : Matriz) (G : Globais) (k : nat) : Recozimento :=
  let atual := copiaMatriz (criaMatriz P 0) inicial in
  {| atual := atual;
     melhor := copiaMatriz (criaMatriz P 0) atual;
     viz := criaMatriz P 0;
     T := Tinicial;
     alpha := 0;
     maxIteracoes := 0;
     fim_forcado := 0;
     reaquecimento := 1;
     globais := G;
     chamadas := k |}.

(** Condition of the main loop. *)
Definition continua_SA (r : Recozimento) : bool :=
  Qlt_bool Tfinal (T r) && bool_decide (0 < fo (melhor r))
  && bool_decide (fim_forcado r < 8000).

(** Top of a round: the stagnation counter and the schedule. *)
Definition ajusta (r : Recozimento) : Recozimento :=
  let '(it, al) :=
    if Qlt_bool 1000 (T r) then (600, flt (dbl (98 # 100)))
    else if Qlt_bool 100 (T r) then (800, flt (dbl (97 # 100)))
    else if Qlt_bool 10 (T r) then (1000, flt (dbl (98 # 100)))
    else if Qlt_bool 1 (T r) then (1200, flt (dbl (99 # 100)))
    else if Qlt_bool (dbl (1 # 10)) (T r) then (1500, flt (dbl (993 # 1000)))
    else (1200, flt (dbl (995 # 1000))) in
  {| atual := atual r; melhor := melhor r; viz := viz r; T := T r;
     alpha := al; maxIteracoes := it;
     fim_forcado := iadd (fim_forcado r) 1; reaquecimento := reaquecimento r;
     globais := globais r; chamadas := chamadas r |}.

(** One round of the inner [for]. *)
Definition iteracao (fuel : nat) (r : Recozimento) : option Recozimento :=
  let viz0 := copiaMatriz (viz r) (atual r) in
  let pre := if Qlt_bool (T r) 100
             then let c := calcula_FO P Itg (globais r) (n viz0) in
                  ({| fo := c.1; n := n viz0 |}, c.2)
             else (viz0, globais r) in
  e ← geraViz fuel (T r)
        {| grade := n pre.1; indices := pre.2; sorteios := chamadas r |};
  let c := calcula_FO P Itg (indices e) (grade e) in
  let viz1 := {| fo := c.1; n := grade e |} in
  let delta := ishl (isub (fo viz1) (fo (atual r))) 2 in
  if decide (delta < 0) then
    let atual1 := copiaMatriz (atual r) viz1 in
    if decide (fo atual1 < fo (melhor r)) then
      Some {| atual := atual1; melhor := copiaMatriz (melhor r) atual1; viz := viz1;
              T := T r; alpha := alpha r; maxIteracoes := maxIteracoes r;
              fim_forcado := 0; reaquecimento := reaquecimento r;
              globais := c.2; chamadas := sorteios e |}
    else
      Some {| atual := atual1; melhor := melhor r; viz := viz1;
              T := T r; alpha := alpha r; maxIteracoes := maxIteracoes r;
              fim_forcado := fim_forcado r; reaquecimento := reaquecimento r;
              globais := c.2; chamadas := sorteios e |}
  else
    let u := randomDouble 0 1 (sorteios e) in
    Some {| atual := if Qlt_bool u.1 (exp_fp delta (T r))
                     then copiaMatriz (atual r) viz1 else atual r;
            melhor := melhor r; viz := viz1;
            T := T r; alpha := alpha r; maxIteracoes := maxIteracoes r;
            fim_forcado := fim_forcado r; reaquecimento := reaquecimento r;
            globais := c.2; chamadas := u.2 |}.

(** [for(i = 0; i < maxIteracoes; i++)] *)
Fixpoint laco_interno (fuel : nat) (vezes : nat) (r : Recozimento) : option Recozimento :=
  match vezes with
  | O => Some r
  | S vezes => r ← iteracao fuel r; laco_interno fuel vezes r
  end.

(** The test of the re-heating. *)
Definition reaquece (r : Recozimento) : bool :=
  Qlt_bool (T r) Temp_reaquecimento && bool_decide (0 < reaquecimento r).

(** End of a round: the single re-heating, or the cooling. *)
Definition resfria (r : Recozimento) : Recozimento :=
  if reaquece r then
    {| atual := atual r; melhor := melhor r; viz := viz r;
       T := flt (dbl (Tinicial * dbl (1 # 10)));
       alpha := alpha r; maxIteracoes := maxIteracoes r;
       fim_forcado := fim_forcado r; reaquecimento := isub (reaquecimento r) 1;
       globais := globais r; chamadas := chamadas r |}
  else
    {| atual := atual r; melhor := melhor r; viz := viz r;
       T := flt (T r * alpha r);
       alpha := alpha r; maxIteracoes := maxIteracoes r;
       fim_forcado := fim_forcado r; reaquecimento := reaquecimento r;
       globais := globais r; chamadas := chamadas r |}.

(** The main loop; [rodadas] bounds the number of rounds. *)
Fixpoint laco_SA (fuel : nat) (rodadas : nat) (r : Recozimento) : option Recozimento :=
  if continua_SA r then
    match rodadas with
    | O => None
    | S rodadas =>
        let r := ajusta r in
        r ← laco_interno fuel (Z.to_nat (maxIteracoes r)) r;
        laco_SA fuel rodadas (resfria r)
    end
  else Some r.

(** The program points of the main loop: [passo_SA r r'] when one of the
    three pieces of the loop body leads from [r] to [r']. *)
Inductive passo_SA : Recozimento -> Recozimento -> Prop :=
  | passo_ajusta r : continua_SA r = true -> passo_SA r (ajusta r)
  | passo_iteracao fuel r r' : iteracao fuel r = Some r' -> passo_SA r r'
  | passo_resfria r : passo_SA r (resfria r).

(** [SA(inicial)]: the solution returned, with the file-scope state. *)
Definition SA (fuel rodadas : nat) (inicial : Matriz) (G : Globais) (k : nat)
    : option (Matriz * Globais * nat) :=
  r ← laco_SA fuel rodadas (inicio_SA inicial G k);
  Some (melhor r, globais r, chamadas r).

(** ** Initial solution *)

(** One round of the [while] of [solucaoInicial] for course [j] and the
    draw [(i, k)]; the state is the grid, [atribuicoes] and [cont]. *)
Definition tentativa (j i k : Z) (st : list (list Z) * Z * Z)
    : option (list (list Z) * Z * Z) :=
  let '(g, atribuicoes, cont) := st in
  c ← ler2 g i k;
  Dj ← ler_disc P j;
  primario ← (if decide (c = -1) then
                Sk ← ler_sala P k;
                Some (bool_decide (d_alunos Dj <= s_capacidade Sk)
                      && bool_decide (restricaoR4 P j i = 0)
                      && bool_decide (d_tipo_sala Dj <= s_tipo_sala Sk))
              else Some false);
  st ← (if (primario : bool) then
          g ← escreve2 g i k j;
          Some (g, isub atribuicoes 1, isub cont 3)
        else Some (g, atribuicoes, iadd cont 1));
  let '(g, atribuicoes, cont) := st in
  if decide (2 < cont) then
    c ← ler2 g i k;
    if decide (c = -1) then
      g ← escreve2 g i k j;
      Some (g, isub atribuicoes 1, isub cont 3)
    else Some (g, atribuicoes, cont)
  else Some (g, atribuicoes, cont).

Fixpoint aloca_aulas (fuel : nat) (j : Z) (st : list (list Z) * Z * Z) (s : nat)
    : option (list (list Z) * nat) :=
  if decide (0 < st.1.2) then
    match fuel with
    | O => None
    | S fuel =>
        let i := randomInt 0 (isub (total_periodos P) 1) s in
        let k := randomInt 0 (isub (salas P) 1) i.2 in
        st ← tentativa j i.1 k.1 st;
        aloca_aulas fuel j st k.2
    end
  else Some (st.1.1, s).

(** The [for] over the courses. *)
Fixpoint aloca_disciplinas (fuel : nat) (js : list Z) (g : list (list Z)) (s : nat)
    : option (list (list Z) * nat) :=
  match js with
  | [] => Some (g, s)
  | j :: js =>
      Dj ← ler_disc P j;
      r ← aloca_aulas fuel j (g, d_aulas Dj, 0) s;
      aloca_disciplinas fuel js r.1 r.2
  end.

Definition solucaoInicial (fuel : nat) (G : Globais) (s : nat)
    : option (Matriz * Globais * nat) :=
  r ← aloca_disciplinas fuel (seqZ 0 (disciplinas P)) (n (criaMatriz P 0)) s;
  let c := calcula_FO P Itg G r.1 in
  Some ({| fo := c.1; n := r.1 |}, c.2, r.2).

(** ** Hand-over between the two phases *)

Definition extraiDiasDaMatriz (matriz_integral : Matriz)
    (num_profs num_dias periodos_total periodos_por_dia : Z) : list (list Z) :=
  let dias_ocupados := replicate (Z.to_nat num_profs) (replicate (Z.to_nat num_dias) 0) in
  para periodos_total (fun i m =>
    para (salas P) (fun j m =>
      let dis := mget (n matriz_integral) i j in
      if decide (dis <> -1) then
        let prof := d_prof (disc_de P dis) in
        let dia := idiv i periodos_por_dia in
        if decide (prof < num_profs /\ dia < num_dias) then mset m prof dia 1 else m
      else m) m) dias_ocupados.

End Fase.

(** ** The two phases *)

(** [arquivos caminho] is what [leArquivos] reads from the file at
    [caminho], [None] when [fopen] fails. *)
Variable arquivos : string -> option Instancia.

(** File-scope state across the phases. *)
Record Programa := {
  instancia : Instancia;
  p_globais : Globais;
  p_integral : Integral;
  p_chamadas : nat;
  rotina : Z
}.

Definition instancia_vazia : Instancia :=
  {| disc := []; sala := []; restricao := [];
     posicao_restricao0 := []; posicao_restricao1 := [];
     professores := 0; disciplinas := 0; salas := 0; dias := 0;
     periodos_dia := 0; cursos := 0 |}.

Definition programa_inicial : Programa :=
  {| instancia := instancia_vazia;
     p_globais := aloca_indices instancia_vazia 0;
     p_integral := {| usar_restricao_integral := 0;
                      dias_ocupados_integral := None;
                      num_profs_da_integral := 0;
                      alem_da_tabela := fun _ _ => 0 |};
     p_chamadas := O;
     rotina := 0 |}.

(** [construcao(arquivo_entrada, arquivo_saida, dias_integral,
    usar_integral)]: the solution returned and the file-scope state.
    The printing, the output file and the release of the arrays of the
    previous phase at the top of [leArquivos] are left out. *)
Definition construcao (fuel rodadas : nat) (arquivo_entrada : string)
    (dias_integral : option (list (list Z))) (usar_integral : Z)
    (prog : Programa) : option (Matriz * Programa) :=
  let Itg := {| usar_restricao_integral := usar_integral;
              dias_ocupados_integral :=
                match dias_integral with
                | Some d => if decide (usar_integral <> 0) then Some d
                            else dias_ocupados_integral (p_integral prog)
                | None => dias_ocupados_integral (p_integral prog)
                end;
              num_profs_da_integral := num_profs_da_integral (p_integral prog);
              alem_da_tabela := alem_da_tabela (p_integral prog) |} in
  match arquivos arquivo_entrada with
  | None =>
      Some ({| fo := -1; n := [] |},
            {| instancia := instancia_vazia; p_globais := p_globais prog;
               p_integral := Itg; p_chamadas := p_chamadas prog; rotina := rotina prog |})
  | Some P =>
      m0 ← solucaoInicial P Itg fuel (aloca_indices P 0) (p_chamadas prog);
      m ← SA P Itg fuel rodadas m0.1.1 m0.1.2 m0.2;
      let c := calcula_FO P Itg m.1.2 (n m.1.1) in
      Some (m.1.1,
            {| instancia := P; p_globais := c.2; p_integral := Itg;
               p_chamadas := m.2; rotina := iadd (rotina prog) 1 |})
  end.

(** What the heap holds past the rows of the table that
    [extraiDiasDaMatriz] allocates in [main]. *)
Variable memoria : Z -> Z -> Z.

(** [main()]: the exit status. *)
Definition main (fuel rodadas : nat) : option Z :=
  r1 ← construcao fuel rodadas "instUnifesp_integral" None 0 programa_inicial;
  if decide (fo r1.1 = -1) then Some 1
  else
    let P1 := instancia r1.2 in
    let dias_integral :=
      extraiDiasDaMatriz P1 r1.1 (professores P1) (dias P1)
                         (total_periodos P1) (periodos_dia P1) in
    let prog :=
      {| instancia := P1; p_globais := p_globais r1.2;
         p_integral := {| usar_restricao_integral := usar_restricao_integral (p_integral r1.2);
                          dias_ocupados_integral := dias_ocupados_integral (p_integral r1.2);
                          num_profs_da_integral := professores P1;
                          alem_da_tabela := memoria |};
         p_chamadas := p_chamadas r1.2; rotina := 1 |} in
    r2 ← construcao fuel rodadas "instUnifesp_noturno" (Some dias_integral) 1 prog;
    if decide (fo r2.1 = -1) then Some 1 else Some 0.

End Oraculo.
(** ** Reference quantities, read off the grid

    These are not part of the program: they say what the counters of the
    evaluator are compared with. *)

(** [soma k f] is [f 0 + ... + f (k-1)]. *)
Definition soma (k : Z) (f : Z -> Z) : Z :=
  foldr (fun i acc => f i + acc) 0 (seqZ 0 k).

(** Number of [i] in [0, k) that satisfy [p]. *)
Definition conta (k : Z) (p : Z -> bool) : Z :=
  soma k (fun i => if p i then 1 else 0).

(** The lecture in room [j] at period [p] is given by teacher [t]. *)
Definition aula_do_prof (P : Instancia) (g : list (list Z)) (p t j : Z) : bool :=
  bool_decide (mget g p j <> -1 /\ d_prof (disc_de P (mget g p j)) = t).

(** The lecture in room [j] at period [p] belongs to curriculum [k]. *)
Definition aula_do_curso (P : Instancia) (g : list (list Z)) (p k j : Z) : bool :=
  bool_decide (mget g p j <> -1 /\ vget (d_cursos (disc_de P (mget g p j))) k = 1).

(** Lecture count of the pair (period, teacher) and (period, curriculum). *)
Definition aulas_prof (P : Instancia) (g : list (list Z)) (p t : Z) : Z :=
  conta (salas P) (aula_do_prof P g p t).

Definition aulas_curso (P : Instancia) (g : list (list Z)) (p k : Z) : Z :=
  conta (salas P) (aula_do_curso P g p k).

(** [tp]: pairs (period, teacher) whose lecture count exceeds 1. *)
Definition conflitos_prof (P : Instancia) (g : list (list Z)) : Z :=
  soma (total_periodos P) (fun p =>
    conta (professores P) (fun t => bool_decide (1 < aulas_prof P g p t))).

(** [cp]: pairs (period, curriculum) whose lecture count exceeds 1. *)
Definition conflitos_curso (P : Instancia) (g : list (list Z)) : Z :=
  soma (total_periodos P) (fun p =>
    conta (cursos P) (fun k => bool_decide (1 < aulas_curso P g p k))).

(** Number of cells of the grid that hold [c]. *)
Definition ocorrencias (c : Z) (g : list (list Z)) : Z :=
  Z.of_nat (length (filter (fun x => x = c) (concat g))).

(** The curriculum loop of a cell, seen on [r22] alone. *)
Definition soma_cursos (P : Instancia) (i c : Z) (m : list (list Z)) : list (list Z) :=
  para (cursos P) (fun k m =>
    if decide (vget (d_cursos (disc_de P c)) k = 1) then minc m i k 1 else m) m.

(** The composite counter: [-1] while no conflict has been met. *)
Definition codigo_r2 (a : Z) : Z := if decide (a = 0) then -1 else a.


(** [r9] as the reset leaves it: zero, overlaid with the occupancy of the
    first phase. *)
Definition r9_semeado (P : Instancia) (I : Integral) : list (list Z) :=
  semeia_r9 P I (replicate (Z.to_nat (professores P)) (replicate (Z.to_nat (dias P)) 0)).

(** What the table of the first phase says of teacher [t] on day [d]:
    the cell [dias_ocupados_integral[t][d]] when the occupancy is in use
    and [t] is below [num_profs_da_integral], else 0. *)
Definition semente (I : Integral) (t d : Z) : Z :=
  match dias_ocupados_integral I with
  | Some ocupados =>
      if decide (usar_restricao_integral I <> 0 /\ t < num_profs_da_integral I)
      then mget ocupados t d else 0
  | None => 0
  end.

(** The table covers the overlay: it has every cell that [calcula_FO]
    reads from it for the instance [P], that is, a row for every teacher
    of [P] below [num_profs_da_integral] and, in it, a column for every
    day of [P]. *)
Definition semente_dentro (P : Instancia) (I : Integral) : Prop :=
  forall ocupados,
    dias_ocupados_integral I = Some ocupados ->
    usar_restricao_integral I <> 0 ->
    forall i j, 0 <= i < professores P -> i < num_profs_da_integral I ->
                0 <= j < dias P -> na_tabela ocupados i j.

(** Days on which the table of the first phase has teacher [t] occupied. *)
Definition dias_semeados (P : Instancia) (I : Integral) (t : Z) : Z :=
  conta (dias P) (fun d => bool_decide (0 < semente I t d)).

(** Penalty of the timetable with no lecture placed: R1 and R5 for every
    course, R9 for the teachers the first phase keeps busy. *)
Definition penalidade_vazia (P : Instancia) (I : Integral) : Z :=
  soma (disciplinas P) (fun c =>
    1000000 * d_aulas (disc_de P c) + 5 * d_minDias (disc_de P c))
  + soma (professores P) (fun t => 5 * Z.max 0 (dias_semeados P I t - 2)).

(** Every cell of the grid is empty. *)
Definition grade_vazia (P : Instancia) (g : list (list Z)) : Prop :=
  forall i j, 0 <= i < total_periodos P -> 0 <= j < salas P -> mget g i j = -1.


(** [1] when [b] holds, else [0]. *)
Definition um_se (b : Prop) `{Decision b} : Z := if decide b then 1 else 0.

(** Two grids of the same shape that hold every value the same number of
    times. *)
Definition mesma_carga (g g' : list (list Z)) : Prop :=
  map length g' = map length g
  /\ forall c, ocorrencias c g' = ocorrencias c g.

(** ** Instances whose penalties fit in an [int] *)

(** Largest value of a field over the courses of the instance, at least 0. *)
Definition maximo (f : Disciplina -> Z) (P : Instancia) : Z :=
  foldr (fun d a => Z.max (f d) a) 0 (disc P).

(** Number of cells of the grid. *)
Definition celulas (P : Instancia) : Z := total_periodos P * salas P.

(** What the body of the main loop of [calcula_FO] can add to [fo] for
    one cell: R4, R6 for every curriculum, R7, R8 and R10. *)
Definition custo_celula (P : Instancia) : Z :=
  1000000 + 2 * cursos P + maximo d_alunos P + 1 + 1000000.

(** What the loops after the main loop can add, each counter being at
    most the number of cells. *)
Definition custo_r2 (P : Instancia) : Z :=
  total_periodos P
  * (professores P * (1000000 * celulas P) + cursos P * (1000000 * celulas P)).

Definition custo_r1_r5 (P : Instancia) : Z :=
  disciplinas P
  * (1000000 * (celulas P + maximo d_aulas P) + 5 * maximo d_minDias P).

Definition custo_r9 (P : Instancia) : Z := professores P * (5 * dias P).

Definition custo_r11 (P : Instancia) : Z :=
  dias P * (disciplinas P * (1000000 * celulas P)).

Definition limite (P : Instancia) : Z :=
  celulas P * custo_celula P + custo_r2 P + custo_r1_r5 P + custo_r9 P + custo_r11 P.

(** The sizes and the data of the instance are not negative, and the
    largest sum of penalties a grid of the instance can collect is an
    [int]. *)
Definition sem_estouro (P : Instancia) : Prop :=
  0 <= total_periodos P /\ 0 <= dias P <= INT_MAX /\ 0 <= salas P /\ 0 <= professores P
  /\ 0 <= cursos P /\ 0 <= disciplinas P
  /\ Forall (fun d => 0 <= d_alunos d /\ 0 <= d_aulas d /\ 0 <= d_minDias d) (disc P)
  /\ Forall (fun s => 0 <= s_capacidade s <= INT_MAX) (sala P)
  /\ limite P <= INT_MAX.

(** Entries of a counter array within the sizes [L], [C] are between 0
    and [k]. *)
Definition limitado1 (L k : Z) (v : list Z) : Prop :=
  forall a, 0 <= a < L -> 0 <= vget v a <= k.

Definition limitado2 (L C k : Z) (m : list (list Z)) : Prop :=
  forall a b, 0 <= a < L -> 0 <= b < C -> 0 <= mget m a b <= k.

(** [f] adds at most [c] to the accumulator and keeps [Q], as long as
    the accumulator has room for [c]. *)
Definition custa {S} (Q : S -> Prop) (ac : S -> Z) (c : Z) (f : S -> S) : Prop :=
  forall s b, Q s -> 0 <= ac s <= b -> b + c <= INT_MAX ->
    Q (f s) /\ 0 <= ac (f s) <= b + c.

(** [x] is a value returned by the evaluator of the instance. *)
Definition avaliacao (P : Instancia) (Itg : Integral) (x : Z) : Prop :=
  exists G g, x = (calcula_FO P Itg G g).1.

(** ** A small instance

    Two days of two periods, two rooms, two courses of the same teacher
    and the same curriculum; course 1 is unavailable in the first period
    of the first day. *)
Definition P_ex : Instancia :=
  {| disc := [ {| d_cursos := [1]; d_prof := 0; d_aulas := 2; d_minDias := 2;
                  d_alunos := 30; d_tipo_sala := 1 |};
               {| d_cursos := [1]; d_prof := 0; d_aulas := 1; d_minDias := 1;
                  d_alunos := 10; d_tipo_sala := 2 |} ];
     sala := [ {| s_capacidade := 20; s_tipo_sala := 1 |};
               {| s_capacidade := 40; s_tipo_sala := 2 |} ];
     restricao := [ {| r_disciplina := 1; r_dia := 0; r_per := 0 |} ];
     posicao_restricao0 := [-1; 0];
     posicao_restricao1 := [-1; 0];
     professores := 1; disciplinas := 2; salas := 2; dias := 2;
     periodos_dia := 2; cursos := 1 |}.

(** First phase: no occupancy handed over. *)
Definition I_ex : Integral :=
  {| usar_restricao_integral := 0; dias_ocupados_integral := None;
     num_profs_da_integral := 0; alem_da_tabela := fun _ _ => 0 |}.

(** Second phase: teacher 0 already teaches on day 0. *)
Definition I_ex2 : Integral :=
  {| usar_restricao_integral := 1; dias_ocupados_integral := Some [[1; 0]];
     num_profs_da_integral := 1; alem_da_tabela := fun _ _ => 0 |}.

(** Both courses in the first period, course 0 again on the second day. *)
Definition g_ex : list (list Z) := [[0; 1]; [-1; -1]; [0; -1]; [-1; -1]].


(** The grid of [P_ex] with no lecture. *)
Definition g_vazia : list (list Z) := [[-1; -1]; [-1; -1]; [-1; -1]; [-1; -1]].

(** ** A generator and a clock-free schedule for the runs

    [rand_ex] stands for the sequence of values of [rand()],
    [randomDouble_real] scales a draw in exact arithmetic, and [exp_ex]
    accepts a move that is not an improvement only when it costs
    nothing. *)
Definition rand_ex (k : nat) : Z := (Z.of_nat k * 7919 + 4500) mod 32768.

Definition randomDouble_real (x : Z) (inicio fim : Q) : Q :=
  (inject_Z (x mod 10000) / 10000 * (fim - inicio) + inicio)%Q.

Definition exp_ex (delta : Z) (T : Q) : Q := if decide (delta = 0) then 1%Q else 0%Q.

(** ** One course of one lecture that needs a room of type 2

    One day of two periods, a room of type 1 and a room of type 2. *)
Definition P_tipo : Instancia :=
  {| disc := [ {| d_cursos := []; d_prof := 0; d_aulas := 1; d_minDias := 1;
                  d_alunos := 10; d_tipo_sala := 2 |} ];
     sala := [ {| s_capacidade := 20; s_tipo_sala := 1 |};
               {| s_capacidade := 40; s_tipo_sala := 2 |} ];
     restricao := [];
     posicao_restricao0 := [-1];
     posicao_restricao1 := [-1];
     professores := 1; disciplinas := 1; salas := 2; dias := 1;
     periodos_dia := 2; cursos := 0 |}.

(** The lecture in the room of type 1. *)
Definition g_tipo : list (list Z) := [[0; -1]; [-1; -1]].

Definition e_tipo : Estado :=
  {| grade := g_tipo;
     indices := (calcula_FO P_tipo I_ex (aloca_indices P_tipo 0) g_tipo).2;
     sorteios := 0 |}.

(** ** One teacher on three days

    Three days of one period, two rooms, one course of three lectures. *)
Definition P_dias : Instancia :=
  {| disc := [ {| d_cursos := []; d_prof := 0; d_aulas := 3; d_minDias := 1;
                  d_alunos := 10; d_tipo_sala := 1 |} ];
     sala := [ {| s_capacidade := 20; s_tipo_sala := 1 |};
               {| s_capacidade := 40; s_tipo_sala := 1 |} ];
     restricao := [];
     posicao_restricao0 := [-1];
     posicao_restricao1 := [-1];
     professores := 1; disciplinas := 1; salas := 2; dias := 3;
     periodos_dia := 1; cursos := 0 |}.

(** One lecture a day, all in room 0. *)
Definition g_dias : list (list Z) := [[0; -1]; [0; -1]; [0; -1]].

(** The state [geraViz] finds after the evaluation of [g_dias]. *)
Definition e_dias : Estado :=
  {| grade := g_dias;
     indices := (calcula_FO P_dias I_ex (aloca_indices P_dias 0) g_dias).2;
     sorteios := 0 |}.

(** ** A course of two lectures and a room too small for it

    One day of two periods; room 1 has 5 seats for the 10 students. *)
Definition P_cap : Instancia :=
  {| disc := [ {| d_cursos := []; d_prof := 0; d_aulas := 2; d_minDias := 1;
                  d_alunos := 10; d_tipo_sala := 1 |} ];
     sala := [ {| s_capacidade := 20; s_tipo_sala := 1 |};
               {| s_capacidade := 5; s_tipo_sala := 1 |} ];
     restricao := [];
     posicao_restricao0 := [-1];
     posicao_restricao1 := [-1];
     professores := 1; disciplinas := 1; salas := 2; dias := 1;
     periodos_dia := 2; cursos := 0 |}.

(** ** A course of 2148 lectures *)
Definition P_muitas : Instancia :=
  {| disc := [ {| d_cursos := []; d_prof := 0; d_aulas := 2148; d_minDias := 0;
                  d_alunos := 10; d_tipo_sala := 1 |} ];
     sala := [ {| s_capacidade := 20; s_tipo_sala := 1 |} ];
     restricao := [];
     posicao_restricao0 := [-1];
     posicao_restricao1 := [-1];
     professores := 1; disciplinas := 1; salas := 1; dias := 1;
     periodos_dia := 1; cursos := 0 |}.

(** ** Input files

    Both phases find [P_tipo]; any other path cannot be opened. *)
Definition arquivos_ex (caminho : string) : option Instancia :=
  if decide (caminho = "instUnifesp_integral") then Some P_tipo
  else if decide (caminho = "instUnifesp_noturno") then Some P_tipo
  else None.

(** No file can be opened. *)
Definition arquivos_nenhum (caminho : string) : option Instancia := None.

(** ** A course whose minimum of days does not fit

    One day of one period and one room; the course has one lecture and
    asks for 858993460 days, so that the shortfall of 858993459 days
    costs [5 * 858993459 = 2^32 - 1]. *)
Definition P_sent : Instancia :=
  {| disc := [ {| d_cursos := []; d_prof := 0; d_aulas := 1; d_minDias := 858993460;
                  d_alunos := 10; d_tipo_sala := 1 |} ];
     sala := [ {| s_capacidade := 20; s_tipo_sala := 1 |} ];
     restricao := [];
     posicao_restricao0 := [-1];
     posicao_restricao1 := [-1];
     professores := 1; disciplinas := 1; salas := 1; dias := 1;
     periodos_dia := 1; cursos := 0 |}.

(** Both phases find [P_sent]. *)
Definition arquivos_sent (caminho : string) : option Instancia :=
  if decide (caminho = "instUnifesp_integral") then Some P_sent
  else if decide (caminho = "instUnifesp_noturno") then Some P_sent
  else None.

(** ** The report of violations

    The figure printed for counter [k]:
    [restricoes_violadas[k] > 0 ? restricoes_violadas[k] : 0]. *)
Definition figura (v : list Z) (k : Z) : Z :=
  if decide (0 < vget v k) then vget v k else 0.

(** [imprimeViolacoes()]: the integers it prints, in order: the line of
    R1; the line of R2 with its teacher part ([% 1000]) and its
    curriculum part ([/ 1000]); the lines of R4 to R11.  The text around
    the numbers is left out.  [salvaResultado] writes the same
    expressions to the output file. *)
Definition imprimeViolacoes (G : Globais) : list Z :=
  let v := restricoes_violadas G in
  [ figura v 1;
    figura v 2;
    (if decide (0 < vget v 2) then irem (vget v 2) 1000 else 0);
    (if decide (0 < vget v 2) then idiv (vget v 2) 1000 else 0);
    figura v 4; figura v 5; figura v 6; figura v 7; figura v 8;
    figura v 9; figura v 10; figura v 11 ].


(** ** Further reference quantities *)

(** Number of cells [(i, j)] of the grid, [i] a period and [j] a room of
    the instance, that satisfy [q]. *)
Definition conta_celulas (P : Instancia) (q : Z -> Z -> bool) : Z :=
  soma (total_periodos P) (fun i => conta (salas P) (q i)).

(** Number of cells that hold course [c]. *)
Definition aulas_na_grade (P : Instancia) (g : list (list Z)) (c : Z) : Z :=
  conta_celulas P (fun i j => bool_decide (mget g i j = c)).

(** The cell [(i, j)] holds a lecture whose course is unavailable at
    period [i] (R4), or requires another type of room (R10). *)
Definition viola_r4 (P : Instancia) (g : list (list Z)) (i j : Z) : bool :=
  bool_decide (mget g i j <> -1 /\ restricaoR4 P (mget g i j) i = 1).

Definition viola_r10 (P : Instancia) (g : list (list Z)) (i j : Z) : bool :=
  bool_decide (mget g i j <> -1
               /\ d_tipo_sala (disc_de P (mget g i j)) <> s_tipo_sala (sala_de P j)).

(** A grid with the dimensions of the instance: [total_periodos] rows of
    [salas] cells, as [criaMatriz] allocates it. *)
Definition grade_de (P : Instancia) (g : list (list Z)) : Prop :=
  map length g = replicate (Z.to_nat (total_periodos P)) (Z.to_nat (salas P)).

(** The cell [(i, j)] of [g] holds a lecture of teacher [p] on day [d],
    for days of [ppd] periods. *)
Definition ocupa (P : Instancia) (g : list (list Z)) (ppd p d i j : Z) : Prop :=
  mget g i j <> -1 /\ d_prof (disc_de P (mget g i j)) = p /\ idiv i ppd = d.

(** Room [j] holds, in the period after or before [per] on the same day,
    a lecture of a course of curriculum [i]. *)
Definition adjacente (P : Instancia) (g : list (list Z)) (i per j : Z) : Prop :=
  (irem per (periodos_dia P) < isub (periodos_dia P) 1
   /\ mget g (iadd per 1) j <> -1
   /\ vget (d_cursos (disc_de P (mget g (iadd per 1) j))) i = 1)
  \/ (0 < irem per (periodos_dia P)
      /\ mget g (isub per 1) j <> -1
      /\ vget (d_cursos (disc_de P (mget g (isub per 1) j))) i = 1).

(** Curriculum [i] of course [dis] finds no neighbour around [per]. *)
Definition isolada (P : Instancia) (g : list (list Z)) (dis per i : Z) : bool :=
  bool_decide (vget (d_cursos (disc_de P dis)) i = 1 /\ busca_adjacente P g i per = 0).

(** The three solutions of [SA] are grids of the instance, and [atual]
    and [melhor] hold the lectures of [g0]. *)
Definition carga_SA (P : Instancia) (g0 : list (list Z)) (r : Recozimento) : Prop :=
  grade_de P (n (atual r)) /\ grade_de P (n (melhor r)) /\ grade_de P (n (viz r))
  /\ mesma_carga g0 (n (atual r)) /\ mesma_carga g0 (n (melhor r)).

(** [g'] has the dimensions of [g], [d] more cells that hold [j], and as
    many cells for every other course. *)
Definition aumenta (j d : Z) (g g' : list (list Z)) : Prop :=
  map length g' = map length g
  /\ ocorrencias j g' = ocorrencias j g + d
  /\ forall c, c <> j -> c <> -1 -> ocorrencias c g' = ocorrencias c g.

(** [m] is a grid of the instance and carries the cost of its grid. *)
Definition coerente (P : Instancia) (Itg : Integral) (m : Matriz) : Prop :=
  grade_de P (n m)
  /\ forall G, indices_ok P G -> fo m = (calcula_FO P Itg G (n m)).1.

(** The index arrays have their sizes, [viz] is a grid of the instance,
    and [atual] and [melhor] carry the cost of their grids. *)
Definition coerente_SA (P : Instancia) (Itg : Integral) (r : Recozimento) : Prop :=
  indices_ok P (globais r) /\ grade_de P (n (viz r))
  /\ coerente P Itg (atual r) /\ coerente P Itg (melhor r).

(** At most one re-heating is left, and the stagnation counter is within
    its limit. *)
Definition controle_SA (r : Recozimento) : Prop :=
  (reaquecimento r = 0 \/ reaquecimento r = 1) /\ 0 <= fim_forcado r <= 8000.

(** ** A state with a single teacher conflict *)

(** The state [geraViz] finds after the evaluation of [g_ex]: one teacher
    conflict and one curriculum conflict, both in period 0. *)
Definition e_unico : Estado :=
  {| grade := g_ex;
     indices := (calcula_FO P_ex I_ex (aloca_indices P_ex 7) g_ex).2;
     sorteios := 0 |}.

(** Number of lectures of course [c] placed on day [d]. *)
Definition aulas_no_dia (P : Instancia) (g : list (list Z)) (c d : Z) : Z :=
  conta_celulas P (fun i j =>
    bool_decide (mget g i j = c /\ idiv i (periodos_dia P) = d)).

(** Number of days on which course [c] has a lecture. *)
Definition dias_com_aula (P : Instancia) (g : list (list Z)) (c : Z) : Z :=
  conta (dias P) (fun d => bool_decide (0 < aulas_no_dia P g c d)).

(** ** Both lectures of a course on the same day

    The grid of [P_ex] with course 0 in the two periods of the first day
    and course 1 beside it in the first period. *)
Definition g_mesmo_dia : list (list Z) := [[0; 1]; [0; -1]; [-1; -1]; [-1; -1]].

(** The cell [(i, j)] holds a lecture of teacher [p] on day [d]. *)
Definition ocupada (P : Instancia) (g : list (list Z)) (p d i j : Z) : bool :=
  bool_decide (mget g i j <> -1 /\ d_prof (disc_de P (mget g i j)) = p
               /\ idiv i (periodos_dia P) = d).

(** Number of days on which teacher [p] is busy: the days that the
    table of the first phase has taken and the days with a lecture in
    the grid. *)
Definition dias_do_prof (P : Instancia) (I : Integral) (g : list (list Z)) (p : Z) : Z :=
  conta (dias P) (fun d =>
    bool_decide (0 < semente I p d
                 \/ 0 < conta_celulas P (ocupada P g p d))).

(** ** The hand-over of [g_dias]

    What [main] passes to the second phase when the first phase has
    returned [g_dias] for [P_dias]. *)
Definition I_dias : Integral :=
  {| usar_restricao_integral := 1;
     dias_ocupados_integral :=
       Some (extraiDiasDaMatriz P_dias {| fo := 0; n := g_dias |}
               (professores P_dias) (dias P_dias)
               (total_periodos P_dias) (periodos_dia P_dias));
     num_profs_da_integral := professores P_dias;
     alem_da_tabela := fun _ _ => 0 |}.

(** ** A table narrower than the instance

    The table of a first phase of one teacher and one day; [x] is what
    lies past its row. *)
Definition I_estreita (x : Z) : Integral :=
  {| usar_restricao_integral := 1; dias_ocupados_integral := Some [[1]];
     num_profs_da_integral := 1; alem_da_tabela := fun _ _ => x |}.

(** Students of the lecture in the cell [(i, j)] beyond the seats of the
    room; 0 for an empty cell. *)
Definition excesso (P : Instancia) (g : list (list Z)) (i j : Z) : Z :=
  if decide (mget g i j = -1) then 0
  else Z.max 0 (d_alunos (disc_de P (mget g i j)) - s_capacidade (sala_de P j)).

(** Number of curricula in which the lecture of the cell [(i, j)] is
    isolated; 0 for an empty cell. *)
Definition isoladas (P : Instancia) (g : list (list Z)) (i j : Z) : Z :=
  if decide (mget g i j = -1) then 0
  else conta (cursos P) (isolada P g (mget g i j) i).

(** ** A lecture in a room too small

    The two lectures of the course of [P_cap] in room 1. *)
Definition g_cap : list (list Z) := [[-1; 0]; [-1; 0]].
(** * Properties *)

(** ** Loops *)

Lemma para_nonpos {S} (k : Z) (f : Z -> S -> S) (s : S) :
  k <= 0 -> para k f s = s.
Proof.
  intros Hk. unfold para. destruct k; try lia; reflexivity.
Qed.

Lemma para_succ {S} (k : Z) (f : Z -> S -> S) (s : S) :
  0 <= k -> para (k + 1) f s = f k (para k f s).
Proof.
  intros Hk. unfold para.
  rewrite seqZ_app by lia. rewrite foldl_app.
  replace (seqZ (0 + k) 1) with [k]; [reflexivity|].
  rewrite Z.add_0_l. reflexivity.
Qed.

(** Invariant rule for a counted loop. *)
Lemma para_inv {S} (Inv : Z -> S -> Prop) (k : Z) (f : Z -> S -> S) (s : S) :
  0 <= k ->
  Inv 0 s ->
  (forall i t, 0 <= i < k -> Inv i t -> Inv (i + 1) (f i t)) ->
  Inv k (para k f s).
Proof.
  intros Hk H0 Hstep.
  assert (forall m : nat, Z.of_nat m <= k -> Inv (Z.of_nat m) (para (Z.of_nat m) f s)) as Hall.
  { induction m as [|m IH]; intros Hm.
    - exact H0.
    - rewrite Nat2Z.inj_succ, <- Z.add_1_r.
      rewrite para_succ by lia. apply Hstep; [lia|]. apply IH. lia. }
  specialize (Hall (Z.to_nat k)). rewrite Z2Nat.id in Hall by lia.
  apply Hall. lia.
Qed.

(** A property kept by every round is kept by the loop. *)
Lemma para_preserva {S} (Q : S -> Prop) (k : Z) (f : Z -> S -> S) (s : S) :
  Q s -> (forall i t, 0 <= i < k -> Q t -> Q (f i t)) -> Q (para k f s).
Proof.
  intros H0 Hstep. destruct (decide (0 <= k)) as [Hk|Hk].
  - apply (para_inv (fun _ t => Q t)); auto.
  - rewrite para_nonpos by lia. exact H0.
Qed.

Lemma para_ext {S} (k : Z) (f f' : Z -> S -> S) (s : S) :
  (forall i t, 0 <= i < k -> f i t = f' i t) -> para k f s = para k f' s.
Proof.
  intros Hf. destruct (decide (0 <= k)) as [Hk|Hk].
  - apply (para_inv (fun i t => t = para i f' s) k f s Hk).
    + reflexivity.
    + intros i t Hi ->. rewrite para_succ by lia. apply Hf. exact Hi.
  - rewrite !para_nonpos by lia. reflexivity.
Qed.

(** ** Arrays *)

Lemma length_vset (v : list Z) i x : length (vset v i x) = length v.
Proof. unfold vset. case_decide; [apply length_insert|reflexivity]. Qed.

Lemma forma_mset (m : list (list Z)) i j x : map length (mset m i j x) = map length m.
Proof.
  unfold mset. case_decide; [|reflexivity].
  apply list_eq. intros k. rewrite !list_lookup_fmap.
  destruct (decide (Z.to_nat i = k)) as [<-|Hne].
  - rewrite list_lookup_alter_eq. destruct (m !! Z.to_nat i); simpl; [|reflexivity].
    rewrite length_vset. reflexivity.
  - rewrite list_lookup_alter_ne by exact Hne. reflexivity.
Qed.

Lemma length_mset (m : list (list Z)) i j x : length (mset m i j x) = length m.
Proof. unfold mset. case_decide; [apply length_alter|reflexivity]. Qed.

Lemma vget_vset_eq (v : list Z) i x :
  0 <= i < Z.of_nat (length v) -> vget (vset v i x) i = x.
Proof.
  intros Hi. unfold vget, aget, vset. rewrite !decide_True by lia.
  rewrite list_lookup_insert_eq by lia. reflexivity.
Qed.

Lemma vget_vset_ne (v : list Z) i j x : i <> j -> vget (vset v i x) j = vget v j.
Proof.
  intros Hne. unfold vget, aget, vset.
  destruct (decide (0 <= j)); [|reflexivity].
  destruct (decide (0 <= i)); [|reflexivity].
  rewrite list_lookup_insert_ne by lia. reflexivity.
Qed.

Lemma vget_vset (v : list Z) i j x :
  vget (vset v i x) j = if decide (i = j /\ 0 <= i < Z.of_nat (length v)) then x else vget v j.
Proof.
  case_decide as H.
  - destruct H as [-> H]. apply vget_vset_eq. exact H.
  - destruct (decide (i = j)) as [->|Hne]; [|apply vget_vset_ne; exact Hne].
    unfold vget, aget, vset. destruct (decide (0 <= j)); [|reflexivity].
    rewrite list_insert_ge by lia. reflexivity.
Qed.

Lemma aget_mset_eq (m : list (list Z)) i j x :
  0 <= i < Z.of_nat (length m) -> aget [] (mset m i j x) i = vset (aget [] m i) j x.
Proof.
  intros Hi. unfold aget, mset. rewrite !decide_True by lia.
  rewrite list_lookup_alter_eq.
  destruct (lookup_lt_is_Some_2 m (Z.to_nat i)) as [row Hrow]; [lia|].
  rewrite Hrow. reflexivity.
Qed.

Lemma aget_mset_ne (m : list (list Z)) i i' j x :
  i <> i' -> aget [] (mset m i j x) i' = aget [] m i'.
Proof.
  intros Hne. unfold aget, mset.
  destruct (decide (0 <= i')); [|reflexivity].
  destruct (decide (0 <= i)); [|reflexivity].
  rewrite list_lookup_alter_ne by lia. reflexivity.
Qed.

Lemma mget_mset_ne (m : list (list Z)) i j i' j' x :
  (i, j) <> (i', j') -> mget (mset m i j x) i' j' = mget m i' j'.
Proof.
  intros Hne. unfold mget.
  destruct (decide (i = i')) as [->|Hi].
  - destruct (decide (0 <= i' < Z.of_nat (length m))) as [Hr|Hr].
    + rewrite aget_mset_eq by exact Hr. apply vget_vset_ne. congruence.
    + unfold aget, mset. destruct (decide (0 <= i')); [|reflexivity].
      rewrite list_lookup_alter_eq, lookup_ge_None_2 by lia.
      reflexivity.
  - rewrite aget_mset_ne by exact Hi. reflexivity.
Qed.

Lemma mget_mset_eq (m : list (list Z)) i j x :
  0 <= i < Z.of_nat (length m) ->
  0 <= j < Z.of_nat (length (aget [] m i)) ->
  mget (mset m i j x) i j = x.
Proof.
  intros Hi Hj. unfold mget. rewrite aget_mset_eq by exact Hi.
  apply vget_vset_eq. exact Hj.
Qed.

Lemma length_vinc (v : list Z) i d : length (vinc v i d) = length v.
Proof. apply length_vset. Qed.

Lemma forma_minc (m : list (list Z)) i j d : map length (minc m i j d) = map length m.
Proof. apply forma_mset. Qed.

(** ** Sizes of the arrays are kept by the evaluator *)

Ltac forma_simples :=
  unfold forma; simpl;
  rewrite ?length_vinc, ?length_vset, ?forma_minc, ?forma_mset; reflexivity.

Lemma forma_passo_r1 c st : forma (passo_r1 c st).2 = forma st.2.
Proof. unfold passo_r1. forma_simples. Qed.

Lemma forma_passo_r21 P i j c st : forma (passo_r21 P i j c st).2 = forma st.2.
Proof. unfold passo_r21. cbv zeta. case_decide; forma_simples. Qed.

Lemma forma_passo_r22 P i j c st : forma (passo_r22 P i j c st).2 = forma st.2.
Proof.
  unfold passo_r22. simpl.
  apply (para_preserva (fun G => forma G = forma st.2)); [reflexivity|].
  intros k G _ HG. rewrite <- HG. repeat case_decide; forma_simples.
Qed.

Lemma forma_passo_r4 P i j c st : forma (passo_r4 P i j c st).2 = forma st.2.
Proof. unfold passo_r4. case_decide; [forma_simples|reflexivity]. Qed.

Lemma forma_passo_r5 P i c st : forma (passo_r5 P i c st).2 = forma st.2.
Proof. unfold passo_r5. forma_simples. Qed.

Lemma forma_restricaoR6 P g dis per sal G :
  forma (restricaoR6 P g dis per sal G).2 = forma G.
Proof.
  unfold restricaoR6.
  apply (para_preserva (fun st : Z * Globais => forma st.2 = forma G)); [reflexivity|].
  intros k st _ Hst. rewrite <- Hst. repeat case_decide; try reflexivity. forma_simples.
Qed.

Lemma forma_passo_r6 P g i j c st : forma (passo_r6 P g i j c st).2 = forma st.2.
Proof. unfold passo_r6. simpl. apply forma_restricaoR6. Qed.

Lemma forma_passo_r7 P i j c st : forma (passo_r7 P i j c st).2 = forma st.2.
Proof. unfold passo_r7. cbv zeta. repeat case_decide; try reflexivity; forma_simples. Qed.

Lemma forma_passo_r8 P i j c st : forma (passo_r8 P i j c st).2 = forma st.2.
Proof. unfold passo_r8. cbv zeta. repeat case_decide; try reflexivity; forma_simples. Qed.

Lemma forma_passo_r9 P i c st : forma (passo_r9 P i c st).2 = forma st.2.
Proof. unfold passo_r9. cbv zeta. case_decide; [forma_simples|reflexivity]. Qed.

Lemma forma_passo_r10 P i j c st : forma (passo_r10 P i j c st).2 = forma st.2.
Proof. unfold passo_r10. cbv zeta. case_decide; [forma_simples|reflexivity]. Qed.

Lemma forma_passo_r11 P i j c st : forma (passo_r11 P i j c st).2 = forma st.2.
Proof. unfold passo_r11. cbv zeta. case_decide; forma_simples. Qed.

Lemma forma_avalia_celula P g i j st : forma (avalia_celula P g i j st).2 = forma st.2.
Proof.
  unfold avalia_celula. cbv zeta. case_decide; [reflexivity|].
  rewrite forma_passo_r11, forma_passo_r10, forma_passo_r9, forma_passo_r8,
    forma_passo_r7, forma_passo_r6, forma_passo_r5, forma_passo_r4,
    forma_passo_r22, forma_passo_r21, forma_passo_r1.
  reflexivity.
Qed.

Lemma forma_laco_principal P g st : forma (laco_principal P g st).2 = forma st.2.
Proof.
  unfold laco_principal.
  apply (para_preserva (fun s : Z * Globais => forma s.2 = forma st.2)); [reflexivity|].
  intros i s _ Hs.
  apply (para_preserva (fun s : Z * Globais => forma s.2 = forma st.2)); [exact Hs|].
  intros j s' _ Hs'. rewrite forma_avalia_celula. exact Hs'.
Qed.

Lemma forma_penaliza_r2 P st : forma (penaliza_r2 P st).2 = forma st.2.
Proof.
  unfold penaliza_r2.
  apply (para_preserva (fun s : Z * Globais => forma s.2 = forma st.2)); [reflexivity|].
  intros i s _ Hs.
  apply (para_preserva (fun s : Z * Globais => forma s.2 = forma st.2)).
  - apply (para_preserva (fun s : Z * Globais => forma s.2 = forma st.2)); [exact Hs|].
    intros j s' _ Hs'. rewrite <- Hs'. repeat case_decide; try reflexivity; forma_simples.
  - intros j s' _ Hs'. rewrite <- Hs'. repeat case_decide; try reflexivity; forma_simples.
Qed.

Lemma forma_penaliza_r1_r5 P st : forma (penaliza_r1_r5 P st).2 = forma st.2.
Proof.
  unfold penaliza_r1_r5.
  apply (para_preserva (fun s : Z * Globais => forma s.2 = forma st.2)); [reflexivity|].
  intros i s _ Hs. rewrite <- Hs. cbv zeta. case_decide; [forma_simples|reflexivity].
Qed.

Lemma forma_penaliza_r9 P st : forma (penaliza_r9 P st).2 = forma st.2.
Proof.
  unfold penaliza_r9.
  apply (para_preserva (fun s : Z * Globais => forma s.2 = forma st.2)); [reflexivity|].
  intros i s _ Hs. rewrite <- Hs. cbv zeta. case_decide; [forma_simples|reflexivity].
Qed.

Lemma forma_penaliza_r11 P st : forma (penaliza_r11 P st).2 = forma st.2.
Proof.
  unfold penaliza_r11.
  apply (para_preserva (fun s : Z * Globais => forma s.2 = forma st.2)); [reflexivity|].
  intros i s _ Hs.
  apply (para_preserva (fun s : Z * Globais => forma s.2 = forma st.2)); [exact Hs|].
  intros j s' _ Hs'. rewrite <- Hs'. case_decide; [forma_simples|reflexivity].
Qed.

(** ** The reset at the top of the evaluator *)

Lemma setVetor_replicate (v : list Z) k x :
  length v = Z.to_nat k -> setVetor v k x = replicate (Z.to_nat k) x.
Proof.
  intros Hlen. unfold setVetor.
  destruct (decide (0 <= k)) as [Hk|Hk].
  - assert (para k (fun i w => vset w i x) v
            = replicate (Z.to_nat k) x ++ drop (Z.to_nat k) v) as ->.
    { apply (para_inv (fun i w => w = replicate (Z.to_nat i) x ++ drop (Z.to_nat i) v));
        [exact Hk|reflexivity|].
      intros i w Hi ->. unfold vset. rewrite decide_True by lia.
      destruct (lookup_lt_is_Some_2 v (Z.to_nat i)) as [y Hy]; [lia|].
      rewrite (drop_S _ _ _ Hy).
      replace (Z.to_nat i) with (length (replicate (Z.to_nat i) x) + 0)%nat at 1
        by (rewrite length_replicate; lia).
      rewrite insert_app_r. simpl.
      replace (Z.to_nat (i + 1)) with (S (Z.to_nat i)) by lia.
      rewrite replicate_S_end, <- app_assoc. reflexivity. }
    rewrite drop_ge by lia. apply app_nil_r.
  - rewrite para_nonpos by lia.
    replace (Z.to_nat k) with O in * by lia.
    destruct v; [reflexivity|discriminate].
Qed.

Lemma para_linha (m : list (list Z)) i c x :
  0 <= i ->
  para c (fun j m' => mset m' i j x) m
  = alter (fun row => setVetor row c x) (Z.to_nat i) m.
Proof.
  intros Hi. unfold setVetor.
  destruct (decide (0 <= c)) as [Hc|Hc].
  - apply (para_inv (fun j t =>
       t = alter (fun row => para j (fun i w => vset w i x) row) (Z.to_nat i) m));
      [exact Hc| |].
    + symmetry. apply list_alter_id. intros row. apply para_nonpos. lia.
    + intros j t Hj ->. unfold mset. rewrite decide_True by lia.
      rewrite list_alter_alter_eq. apply list_alter_ext; [|reflexivity].
      intros row _. simpl. rewrite para_succ by lia. reflexivity.
  - rewrite para_nonpos by lia. symmetry. apply list_alter_id.
    intros row. apply para_nonpos. lia.
Qed.

Lemma setMatriz_replicate (m : list (list Z)) l c x :
  map length m = replicate (Z.to_nat l) (Z.to_nat c) ->
  setMatriz m l c x = replicate (Z.to_nat l) (replicate (Z.to_nat c) x).
Proof.
  intros Hm. unfold setMatriz.
  assert (length m = Z.to_nat l) as Hlen.
  { rewrite <- (length_map length m), Hm. apply length_replicate. }
  destruct (decide (0 <= l)) as [Hl|Hl].
  - assert (para l (fun i t => para c (fun j m' => mset m' i j x) t) m
            = replicate (Z.to_nat l) (replicate (Z.to_nat c) x) ++ drop (Z.to_nat l) m) as ->.
    { apply (para_inv (fun i t =>
         t = replicate (Z.to_nat i) (replicate (Z.to_nat c) x) ++ drop (Z.to_nat i) m));
        [exact Hl|reflexivity|].
      intros i t Hi ->. rewrite para_linha by lia.
      destruct (lookup_lt_is_Some_2 m (Z.to_nat i)) as [row Hrow]; [lia|].
      assert (length row = Z.to_nat c) as Hrowlen.
      { assert (map length m !! Z.to_nat i = Some (length row)) as H1
          by (rewrite list_lookup_fmap, Hrow; reflexivity).
        rewrite Hm in H1. apply lookup_replicate in H1. lia. }
      rewrite (drop_S _ _ _ Hrow).
      replace (Z.to_nat i)
        with (length (replicate (Z.to_nat i) (replicate (Z.to_nat c) x)) + 0)%nat at 1
        by (rewrite length_replicate; lia).
      rewrite alter_app_r. simpl.
      rewrite setVetor_replicate by exact Hrowlen.
      replace (Z.to_nat (i + 1)) with (S (Z.to_nat i)) by lia.
      rewrite replicate_S_end, <- app_assoc. reflexivity. }
    rewrite drop_ge by lia. apply app_nil_r.
  - rewrite para_nonpos by lia.
    replace (Z.to_nat l) with O in * by lia.
    destruct m; [reflexivity|discriminate].
Qed.

Lemma forma_replicate (a b : nat) (x : Z) :
  map length (replicate a (replicate b x)) = replicate a b.
Proof. rewrite fmap_replicate, length_replicate. reflexivity. Qed.

(** After the reset the arrays do not depend on what they held before. *)
Lemma zera_indices_forma P I G1 G2 :
  indices_ok P G1 -> indices_ok P G2 -> zera_indices P I G1 = zera_indices P I G2.
Proof.
  unfold indices_ok. intros H1 H2.
  repeat match goal with H : _ /\ _ |- _ => destruct H end.
  unfold zera_indices.
  repeat match goal with
  | H : map length ?m = _ |- context [setMatriz ?m ?l ?c ?x] =>
      rewrite (setMatriz_replicate m l c x) by exact H
  | H : length ?v = _ |- context [setVetor ?v ?k ?x] =>
      rewrite (setVetor_replicate v k x) by exact H
  end.
  reflexivity.
Qed.

Lemma indices_ok_forma P G G' : forma G' = forma G -> indices_ok P G -> indices_ok P G'.
Proof.
  unfold forma, indices_ok. intros Hf H.
  injection Hf as -> -> -> -> -> -> -> -> -> -> -> -> -> -> -> -> -> ->.
  exact H.
Qed.

Lemma indices_ok_aloca P lixo : indices_ok P (aloca_indices P lixo).
Proof.
  unfold indices_ok, aloca_indices.
  repeat split; first [apply length_replicate | apply forma_replicate].
Qed.

Lemma forma_setVetor (v : list Z) k x : length (setVetor v k x) = length v.
Proof.
  unfold setVetor. apply (para_preserva (fun w => length w = length v)); [reflexivity|].
  intros i w _ <-. apply length_vset.
Qed.

Lemma forma_setMatriz (m : list (list Z)) l c x :
  map length (setMatriz m l c x) = map length m.
Proof.
  unfold setMatriz.
  apply (para_preserva (fun w => map length w = map length m)); [reflexivity|].
  intros i w _ Hw.
  apply (para_preserva (fun w => map length w = map length m)); [exact Hw|].
  intros j w' _ <-. apply forma_mset.
Qed.

Lemma forma_semeia_r9 P I (m : list (list Z)) : map length (semeia_r9 P I m) = map length m.
Proof.
  unfold semeia_r9. destruct (dias_ocupados_integral I); [|reflexivity].
  case_decide; [|reflexivity].
  apply (para_preserva (fun w => map length w = map length m)); [reflexivity|].
  intros i w _ Hw.
  apply (para_preserva (fun w => map length w = map length m)); [exact Hw|].
  intros j w' _ <-. case_decide; [apply forma_mset|reflexivity].
Qed.

Lemma forma_zera_indices P I G : forma (zera_indices P I G) = forma G.
Proof.
  unfold zera_indices, forma. cbn [r1 r21 r22 r5 r8 r9 r11 restricoes_violadas
    aux_mov_r21 aux_mov_r22 aux_mov_r4 aux_mov_r5 aux_mov_r6 aux_mov_r7
    aux_mov_r8 aux_mov_r9 aux_mov_r10 aux_mov_r11].
  rewrite ?forma_setMatriz, ?forma_semeia_r9, ?forma_setMatriz, ?forma_setVetor.
  reflexivity.
Qed.

Lemma forma_calcula_FO P I G g : forma (calcula_FO P I G g).2 = forma G.
Proof.
  unfold calcula_FO.
  rewrite forma_penaliza_r11, forma_penaliza_r9, forma_penaliza_r1_r5,
    forma_penaliza_r2, forma_laco_principal.
  simpl. apply forma_zera_indices.
Qed.

Lemma indices_ok_calcula_FO P I G g :
  indices_ok P G -> indices_ok P (calcula_FO P I G g).2.
Proof. apply indices_ok_forma, forma_calcula_FO. Qed.

(** C1. For a fixed instance and a fixed hand-over of the first phase,
    [calcula_FO] is a function of the grid alone: whatever the index
    arrays held before (any two allocations [G1], [G2] of the sizes of the
    instance), the value returned and the contents left in every array
    ([r1], [r21], [r22], [r5], [r8], [r9], [r11], the [aux_mov_*] vectors
    and [restricoes_violadas]) are the same; and evaluating the same grid a
    second time, on the arrays left by the first evaluation, gives the same
    value and the same arrays again. *)
Theorem calcula_FO_funcao_da_grade P I g G1 G2 :
  indices_ok P G1 -> indices_ok P G2 ->
  calcula_FO P I G1 g = calcula_FO P I G2 g
  /\ calcula_FO P I (calcula_FO P I G1 g).2 g = calcula_FO P I G1 g.
Proof.
  intros H1 H2.
  assert (forall Ga Gb, indices_ok P Ga -> indices_ok P Gb ->
            calcula_FO P I Ga g = calcula_FO P I Gb g) as Hdet.
  { intros Ga Gb Ha Hb. unfold calcula_FO.
    rewrite (zera_indices_forma P I Ga Gb Ha Hb). reflexivity. }
  split.
  - apply Hdet; assumption.
  - apply Hdet; [apply indices_ok_calcula_FO|]; assumption.
Qed.

(** ** Frame lemmas: what a step of the evaluator leaves alone

    [f] is any observation of the arrays that the assignments made by the
    step do not affect. *)

Lemma quadro_passo_r1 {A} (f : Globais -> A) c st :
  (forall v G, f (com_r1 v G) = f G) -> f (passo_r1 c st).2 = f st.2.
Proof. intros H. unfold passo_r1. simpl. apply H. Qed.

Lemma quadro_passo_r21 {A} (f : Globais -> A) P i j c st :
  (forall v G, f (com_r21 v G) = f G) ->
  (forall v G, f (com_aux_mov_r21 v G) = f G) ->
  f (passo_r21 P i j c st).2 = f st.2.
Proof.
  intros H1 H2. unfold passo_r21. cbv zeta. simpl.
  case_decide; rewrite ?H2, ?H1; reflexivity.
Qed.

Lemma quadro_passo_r22 {A} (f : Globais -> A) P i j c st :
  (forall v G, f (com_r22 v G) = f G) ->
  (forall v G, f (com_aux_mov_r22 v G) = f G) ->
  f (passo_r22 P i j c st).2 = f st.2.
Proof.
  intros H1 H2. unfold passo_r22. simpl.
  apply (para_preserva (fun G => f G = f st.2)); [reflexivity|].
  intros k G _ <-. repeat case_decide; rewrite ?H2, ?H1; reflexivity.
Qed.

Lemma quadro_passo_r4 {A} (f : Globais -> A) P i j c st :
  (forall v G, f (com_restricoes_violadas v G) = f G) ->
  (forall v G, f (com_aux_mov_r4 v G) = f G) ->
  f (passo_r4 P i j c st).2 = f st.2.
Proof.
  intros H1 H2. unfold passo_r4. case_decide; [|reflexivity].
  simpl. rewrite H1, H2. reflexivity.
Qed.

Lemma quadro_passo_r5 {A} (f : Globais -> A) P i c st :
  (forall v G, f (com_r5 v G) = f G) -> f (passo_r5 P i c st).2 = f st.2.
Proof. intros H. unfold passo_r5. simpl. apply H. Qed.

Lemma quadro_passo_r6 {A} (f : Globais -> A) P g i j c st :
  (forall v G, f (com_restricoes_violadas v G) = f G) ->
  (forall v G, f (com_aux_mov_r6 v G) = f G) ->
  f (passo_r6 P g i j c st).2 = f st.2.
Proof.
  intros H1 H2. unfold passo_r6, restricaoR6. simpl.
  apply (para_preserva (fun s : Z * Globais => f s.2 = f st.2)); [reflexivity|].
  intros k s _ <-. repeat case_decide; try reflexivity.
  simpl. rewrite H2, H1. reflexivity.
Qed.

Lemma quadro_passo_r7 {A} (f : Globais -> A) P i j c st :
  (forall v G, f (com_restricoes_violadas v G) = f G) ->
  (forall v G, f (com_aux_mov_r7 v G) = f G) ->
  f (passo_r7 P i j c st).2 = f st.2.
Proof.
  intros H1 H2. unfold passo_r7. cbv zeta.
  repeat case_decide; simpl; rewrite ?H2, ?H1; reflexivity.
Qed.

Lemma quadro_passo_r8 {A} (f : Globais -> A) P i j c st :
  (forall v G, f (com_restricoes_violadas v G) = f G) ->
  (forall v G, f (com_r8 v G) = f G) ->
  (forall v G, f (com_aux_mov_r8 v G) = f G) ->
  f (passo_r8 P i j c st).2 = f st.2.
Proof.
  intros H1 H2 H3. unfold passo_r8. cbv zeta.
  repeat case_decide; simpl; rewrite ?H3, ?H2, ?H1; reflexivity.
Qed.

Lemma quadro_passo_r9 {A} (f : Globais -> A) P i c st :
  (forall v G, f (com_r9 v G) = f G) -> f (passo_r9 P i c st).2 = f st.2.
Proof. intros H. unfold passo_r9. cbv zeta. case_decide; simpl; rewrite ?H; reflexivity. Qed.

Lemma quadro_passo_r10 {A} (f : Globais -> A) P i j c st :
  (forall v G, f (com_restricoes_violadas v G) = f G) ->
  (forall v G, f (com_aux_mov_r10 v G) = f G) ->
  f (passo_r10 P i j c st).2 = f st.2.
Proof.
  intros H1 H2. unfold passo_r10. cbv zeta.
  case_decide; simpl; rewrite ?H2, ?H1; reflexivity.
Qed.

Lemma quadro_passo_r11 {A} (f : Globais -> A) P i j c st :
  (forall v G, f (com_r11 v G) = f G) ->
  (forall v G, f (com_aux_mov_r11 v G) = f G) ->
  f (passo_r11 P i j c st).2 = f st.2.
Proof.
  intros H1 H2. unfold passo_r11. cbv zeta. simpl.
  case_decide; rewrite ?H2, ?H1; reflexivity.
Qed.

Lemma quadro_penaliza_r2 {A} (f : Globais -> A) P st :
  (forall v G, f (com_restricoes_violadas v G) = f G) ->
  f (penaliza_r2 P st).2 = f st.2.
Proof.
  intros H. unfold penaliza_r2.
  apply (para_preserva (fun s : Z * Globais => f s.2 = f st.2)); [reflexivity|].
  intros i s _ Hs.
  apply (para_preserva (fun s : Z * Globais => f s.2 = f st.2)).
  - apply (para_preserva (fun s : Z * Globais => f s.2 = f st.2)); [exact Hs|].
    intros j s' _ <-. case_decide; simpl; rewrite ?H; reflexivity.
  - intros j s' _ <-. case_decide; simpl; rewrite ?H; reflexivity.
Qed.

Lemma quadro_penaliza_r1_r5 {A} (f : Globais -> A) P st :
  (forall v G, f (com_restricoes_violadas v G) = f G) ->
  (forall v G, f (com_aux_mov_r5 v G) = f G) ->
  f (penaliza_r1_r5 P st).2 = f st.2.
Proof.
  intros H1 H2. unfold penaliza_r1_r5.
  apply (para_preserva (fun s : Z * Globais => f s.2 = f st.2)); [reflexivity|].
  intros i s _ <-. cbv zeta. case_decide; simpl; rewrite ?H2, ?H1; reflexivity.
Qed.

Lemma quadro_penaliza_r9 {A} (f : Globais -> A) P st :
  (forall v G, f (com_restricoes_violadas v G) = f G) ->
  (forall v G, f (com_aux_mov_r9 v G) = f G) ->
  f (penaliza_r9 P st).2 = f st.2.
Proof.
  intros H1 H2. unfold penaliza_r9.
  apply (para_preserva (fun s : Z * Globais => f s.2 = f st.2)); [reflexivity|].
  intros i s _ <-. cbv zeta. case_decide; simpl; rewrite ?H2, ?H1; reflexivity.
Qed.

Lemma quadro_penaliza_r11 {A} (f : Globais -> A) P st :
  (forall v G, f (com_restricoes_violadas v G) = f G) ->
  f (penaliza_r11 P st).2 = f st.2.
Proof.
  intros H. unfold penaliza_r11.
  apply (para_preserva (fun s : Z * Globais => f s.2 = f st.2)); [reflexivity|].
  intros i s _ Hs.
  apply (para_preserva (fun s : Z * Globais => f s.2 = f st.2)); [exact Hs|].
  intros j s' _ <-. case_decide; simpl; rewrite ?H; reflexivity.
Qed.

(** ** R9: the occupancy of the first phase survives an evaluation *)

Lemma semeia_r9_le P I ocupados (m : list (list Z)) t d :
  dias_ocupados_integral I = Some ocupados ->
  usar_restricao_integral I <> 0 ->
  map length m = replicate (Z.to_nat (professores P)) (Z.to_nat (dias P)) ->
  0 <= t < professores P -> t < num_profs_da_integral I -> 0 <= d < dias P ->
  mget (semeia_r9 P I m) t d = le_ocupados I ocupados t d.
Proof.
  intros Hoc Husar Hm Ht Htn Hd. unfold semeia_r9. rewrite Hoc.
  rewrite decide_True by exact Husar.
  pose (ok := fun w : list (list Z) => map length w = map length m).
  assert (forall w i, ok w -> 0 <= i < professores P ->
            length (aget [] w i) = Z.to_nat (dias P)) as Hrow.
  { intros w i Hw Hi. unfold ok in Hw. rewrite Hm in Hw.
    unfold aget. rewrite decide_True by lia.
    assert (map length w !! Z.to_nat i = Some (Z.to_nat (dias P))) as H1
      by (rewrite Hw; apply lookup_replicate; split; [reflexivity|lia]).
    rewrite list_lookup_fmap in H1. destruct (w !! Z.to_nat i); simpl in *; congruence. }
  assert (forall w, ok w -> length w = Z.to_nat (professores P)) as Hlen.
  { intros w Hw. unfold ok in Hw. rewrite Hm in Hw.
    rewrite <- (length_map length w), Hw. apply length_replicate. }
  enough (ok (para (professores P) (fun i w =>
             para (dias P) (fun j w' =>
               if decide (i < num_profs_da_integral I)
               then mset w' i j (le_ocupados I ocupados i j) else w') w) m)
          /\ (t < professores P ->
              mget (para (professores P) (fun i w =>
                 para (dias P) (fun j w' =>
                   if decide (i < num_profs_da_integral I)
                   then mset w' i j (le_ocupados I ocupados i j) else w') w) m) t d
              = le_ocupados I ocupados t d)) as [_ H]; [apply H; lia|].
  apply (para_inv (fun i w => ok w /\ (t < i -> mget w t d = le_ocupados I ocupados t d)));
    [lia|split; [reflexivity|lia]|].
  intros i w Hi [Hw Hval].
  assert (ok (para (dias P) (fun j w' =>
                if decide (i < num_profs_da_integral I)
                then mset w' i j (le_ocupados I ocupados i j) else w') w)
          /\ ((t < i \/ (t = i /\ d < dias P)) ->
              mget (para (dias P) (fun j w' =>
                      if decide (i < num_profs_da_integral I)
                      then mset w' i j (le_ocupados I ocupados i j) else w') w) t d
              = le_ocupados I ocupados t d)) as [Hw2 Hval2].
  { apply (para_inv (fun j w' =>
             ok w' /\ ((t < i \/ (t = i /\ d < j)) -> mget w' t d = le_ocupados I ocupados t d)));
      [lia|split; [exact Hw|intros [?|[? ?]]; [auto|lia]]|].
    intros j w' Hj [Hw' Hval']. case_decide as Hn.
    - split; [unfold ok in *; rewrite forma_mset; exact Hw'|].
      intros Hcase. destruct (decide ((i, j) = (t, d))) as [Heq|Hne].
      + injection Heq as -> ->. apply mget_mset_eq.
        * rewrite (Hlen w' Hw'). lia.
        * rewrite (Hrow w' t Hw') by lia. lia.
      + rewrite mget_mset_ne by exact Hne. apply Hval'.
        destruct Hcase as [?|[-> ?]]; [left; assumption|].
        right. split; [reflexivity|]. destruct (decide (j = d)); [congruence|lia].
    - split; [exact Hw'|]. intros Hcase. apply Hval'.
      destruct Hcase as [?|[-> ?]]; [left; assumption|lia]. }
  split; [exact Hw2|]. intros Hlt. apply Hval2.
  destruct (decide (t < i)); [left; assumption|right; lia].
Qed.

(** A cell of the table that holds a value other than 0 is read as it
    is: a cell that the table lacks reads as 0 through [mget]. *)
Lemma le_ocupados_na_tabela I ocupados t d :
  na_tabela ocupados t d -> le_ocupados I ocupados t d = mget ocupados t d.
Proof. intros H. unfold le_ocupados. rewrite decide_True by exact H. reflexivity. Qed.

Lemma na_tabela_mget ocupados t d : mget ocupados t d <> 0 -> na_tabela ocupados t d.
Proof.
  unfold na_tabela, mget, vget, aget. intros H.
  destruct (decide (0 <= t)) as [Ht|Ht]; [|destruct (decide (0 <= d)); simpl in H; congruence].
  destruct (ocupados !! Z.to_nat t) as [linha|] eqn:El; simpl in *;
    [|destruct (decide (0 <= d)); simpl in H; congruence].
  apply lookup_lt_Some in El as Hlt.
  destruct (decide (0 <= d)) as [Hd|Hd]; [|congruence].
  destruct (linha !! Z.to_nat d) eqn:Ec; simpl in H; [|congruence].
  apply lookup_lt_Some in Ec. lia.
Qed.

(** The shape of a table gives its cells. *)
Lemma na_tabela_forma (ocupados : list (list Z)) np nd t d :
  map length ocupados = replicate (Z.to_nat np) (Z.to_nat nd) ->
  0 <= t < np -> 0 <= d < nd -> na_tabela ocupados t d.
Proof.
  intros Hm Ht Hd. unfold na_tabela.
  assert (length ocupados = Z.to_nat np) as Hl
    by (rewrite <- (length_map length ocupados), Hm; apply length_replicate).
  assert (map length ocupados !! Z.to_nat t = Some (Z.to_nat nd)) as H1
    by (rewrite Hm; apply lookup_replicate; split; [reflexivity|lia]).
  rewrite list_lookup_fmap in H1. unfold aget. rewrite decide_True by lia.
  destruct (ocupados !! Z.to_nat t) as [linha|]; simpl in *; [|discriminate].
  injection H1 as H1. lia.
Qed.

(** The overlay leaves the rows from [num_profs_da_integral] on. *)
Lemma semeia_r9_fora P I (m : list (list Z)) t d :
  ~ t < num_profs_da_integral I ->
  mget (semeia_r9 P I m) t d = mget m t d.
Proof.
  intros Ht. unfold semeia_r9.
  destruct (dias_ocupados_integral I) as [oc|]; [|reflexivity].
  case_decide; [|reflexivity].
  apply (para_preserva (fun w => mget w t d = mget m t d)); [reflexivity|].
  intros i w _ Hw.
  apply (para_preserva (fun w => mget w t d = mget m t d)); [exact Hw|].
  intros j w' _ Hw'. case_decide as Hn; [|exact Hw'].
  rewrite mget_mset_ne; [exact Hw'|]. intros Heq. injection Heq as -> _. lia.
Qed.

(** A table of the shape of the instance, or wider, covers the overlay. *)
Lemma semente_dentro_forma P I ocupados np nd :
  dias_ocupados_integral I = Some ocupados ->
  map length ocupados = replicate (Z.to_nat np) (Z.to_nat nd) ->
  Z.min (professores P) (num_profs_da_integral I) <= np -> dias P <= nd ->
  semente_dentro P I.
Proof.
  intros Hoc Hm Hp Hd oc Hoc' _ i j Hi Hn Hj.
  rewrite Hoc in Hoc'. injection Hoc' as <-.
  apply (na_tabela_forma ocupados np nd); [exact Hm|lia|lia].
Qed.

Lemma semente_dentro_NULL P I :
  dias_ocupados_integral I = None -> semente_dentro P I.
Proof. intros H oc Hoc. rewrite H in Hoc. discriminate. Qed.

Lemma r9_zera_indices P I G :
  r9 (zera_indices P I G)
  = semeia_r9 P I (setMatriz (r9 G) (professores P) (dias P) 0).
Proof. reflexivity. Qed.

(** A day fixed by the seed is never erased by the pass over the grid. *)
Lemma r9_avalia_celula P g i j st t d :
  mget (r9 st.2) t d = 1 -> mget (r9 (avalia_celula P g i j st).2) t d = 1.
Proof.
  intros H. unfold avalia_celula. cbv zeta. case_decide; [exact H|].
  rewrite (quadro_passo_r11 r9), (quadro_passo_r10 r9) by reflexivity.
  set (s8 := passo_r8 _ _ _ _ _).
  assert (mget (r9 s8.2) t d = 1) as H8.
  { subst s8.
    rewrite (quadro_passo_r8 r9), (quadro_passo_r7 r9), (quadro_passo_r6 r9),
      (quadro_passo_r5 r9), (quadro_passo_r4 r9), (quadro_passo_r22 r9),
      (quadro_passo_r21 r9), (quadro_passo_r1 r9) by reflexivity.
    exact H. }
  clearbody s8. unfold passo_r9. cbv zeta. case_decide as Hlt; [|exact H8].
  simpl. rewrite mget_mset_ne; [exact H8|].
  intros Heq. injection Heq as Hp Hd. rewrite Hp, Hd in Hlt. lia.
Qed.

(** C2. When the second phase runs with the occupancy of the first phase
    ([usar_restricao_integral] set and [dias_ocupados_integral] not NULL),
    then for every teacher [t] below [num_profs_da_integral] and every day
    [d] with [dias_ocupados_integral[t][d] = 1], the entry [r9[t][d]] is 1
    after [calcula_FO] on any grid, whatever the arrays held before. The
    entry [r9[t][d]] has to exist: [t] is a teacher and [d] a day of the
    instance being evaluated. *)
Theorem semente_r9_preservada P I G g ocupados t d :
  indices_ok P G ->
  usar_restricao_integral I <> 0 ->
  dias_ocupados_integral I = Some ocupados ->
  0 <= t < num_profs_da_integral I ->
  t < professores P -> 0 <= d < dias P ->
  mget ocupados t d = 1 ->
  mget (r9 (calcula_FO P I G g).2) t d = 1.
Proof.
  intros Hok Husar Hoc Ht Htp Hd Hseed. unfold calcula_FO.
  rewrite (quadro_penaliza_r11 r9), (quadro_penaliza_r9 r9),
    (quadro_penaliza_r1_r5 r9), (quadro_penaliza_r2 r9) by reflexivity.
  unfold laco_principal.
  apply (para_preserva (fun s : Z * Globais => mget (r9 s.2) t d = 1)).
  - change (mget (semeia_r9 P I (setMatriz (r9 G) (professores P) (dias P) 0)) t d = 1).
    rewrite (semeia_r9_le P I ocupados) ; try assumption; try lia.
    + rewrite le_ocupados_na_tabela by (apply na_tabela_mget; lia). exact Hseed.
    + rewrite forma_setMatriz. unfold indices_ok in Hok. tauto.
  - intros i s _ Hs.
    apply (para_preserva (fun s : Z * Globais => mget (r9 s.2) t d = 1)); [exact Hs|].
    intros j s' _ Hs'. apply r9_avalia_celula. exact Hs'.
Qed.

(** ** Machine integers *)

Lemma to_int_id z : in_int z -> to_int z = z.
Proof.
  unfold in_int, INT_MIN, INT_MAX, to_int. intros H.
  rewrite Z.mod_small by lia. lia.
Qed.

Lemma to_int_in_int z : in_int (to_int z).
Proof.
  unfold in_int, INT_MIN, INT_MAX, to_int.
  pose proof (Z.mod_pos_bound (z + 2147483648) 4294967296). lia.
Qed.

(** ** Sums and counts *)

Lemma soma_nonpos k f : k <= 0 -> soma k f = 0.
Proof. intros Hk. unfold soma. destruct k; try lia; reflexivity. Qed.

Lemma soma_succ k f : 0 <= k -> soma (k + 1) f = soma k f + f k.
Proof.
  intros Hk. unfold soma. rewrite seqZ_app by lia.
  rewrite foldr_app.
  replace (seqZ (0 + k) 1) with [k] by (rewrite Z.add_0_l; reflexivity). simpl.
  rewrite Z.add_0_r. generalize (f k). generalize (seqZ 0 k). intros l a.
  induction l as [|x l IH]; simpl; [lia|]. rewrite IH. lia.
Qed.

Lemma soma_ind (Q : Z -> Z -> Prop) k f :
  0 <= k -> Q 0 0 ->
  (forall i a, 0 <= i < k -> Q i a -> Q (i + 1) (a + f i)) ->
  Q k (soma k f).
Proof.
  intros Hk H0 Hstep.
  assert (forall m : nat, Z.of_nat m <= k -> Q (Z.of_nat m) (soma (Z.of_nat m) f)) as Hall.
  { induction m as [|m IH]; intros Hm.
    - rewrite soma_nonpos by reflexivity. exact H0.
    - rewrite Nat2Z.inj_succ, <- Z.add_1_r. rewrite soma_succ by lia.
      apply Hstep; [lia|]. apply IH. lia. }
  specialize (Hall (Z.to_nat k)). rewrite Z2Nat.id in Hall by lia. apply Hall. lia.
Qed.

Lemma soma_nonneg k f : (forall i, 0 <= i < k -> 0 <= f i) -> 0 <= soma k f.
Proof.
  intros Hf. destruct (decide (0 <= k)) as [Hk|Hk].
  - apply (soma_ind (fun _ a => 0 <= a)); [exact Hk|lia|].
    intros i a Hi Ha. specialize (Hf i Hi). lia.
  - rewrite soma_nonpos by lia. lia.
Qed.

Lemma soma_mono k k' f :
  (forall i, 0 <= i < k' -> 0 <= f i) -> k <= k' -> soma k f <= soma k' f.
Proof.
  intros Hf Hk.
  destruct (decide (0 <= k)) as [Hk0|Hk0].
  - assert (forall m : nat, k + Z.of_nat m <= k' -> soma k f <= soma (k + Z.of_nat m) f) as H.
    { induction m as [|m IH]; intros Hm.
      - rewrite Z.add_0_r. lia.
      - rewrite Nat2Z.inj_succ, <- Z.add_1_r, Z.add_assoc.
        rewrite soma_succ by lia.
        assert (0 <= f (k + Z.of_nat m)) by (apply Hf; lia).
        assert (soma k f <= soma (k + Z.of_nat m) f) by (apply IH; lia). lia. }
    specialize (H (Z.to_nat (k' - k))).
    replace (k + Z.of_nat (Z.to_nat (k' - k))) with k' in H by lia.
    apply H. lia.
  - rewrite (soma_nonpos k) by lia. apply soma_nonneg. exact Hf.
Qed.

Lemma soma_ext k f f' : (forall i, 0 <= i < k -> f i = f' i) -> soma k f = soma k f'.
Proof.
  intros Hf. destruct (decide (0 <= k)) as [Hk|Hk].
  - apply (soma_ind (fun i a => a = soma i f')); [exact Hk| |].
    + rewrite soma_nonpos by lia. reflexivity.
    + intros i a Hi ->. rewrite soma_succ by lia. rewrite Hf by exact Hi. reflexivity.
  - rewrite !soma_nonpos by lia. reflexivity.
Qed.

Lemma soma_linear k f f' c :
  soma k (fun i => f i + c * f' i) = soma k f + c * soma k f'.
Proof.
  destruct (decide (0 <= k)) as [Hk|Hk].
  - apply (soma_ind (fun i a => a = soma i f + c * soma i f')); [exact Hk| |].
    + rewrite !soma_nonpos by lia. lia.
    + intros i a Hi ->. rewrite !soma_succ by lia. lia.
  - rewrite !soma_nonpos by lia. lia.
Qed.

Lemma conta_succ k p : 0 <= k -> conta (k + 1) p = conta k p + (if p k then 1 else 0).
Proof. intros Hk. unfold conta. apply soma_succ. exact Hk. Qed.

Lemma conta_nonpos k p : k <= 0 -> conta k p = 0.
Proof. intros Hk. unfold conta. apply soma_nonpos. exact Hk. Qed.

Lemma conta_ext k p p' : (forall i, 0 <= i < k -> p i = p' i) -> conta k p = conta k p'.
Proof.
  intros H. unfold conta. apply soma_ext. intros i Hi. rewrite (H i Hi). reflexivity.
Qed.

Lemma conta_nonneg k p : 0 <= conta k p.
Proof. unfold conta. apply soma_nonneg. intros i _. destruct (p i); lia. Qed.

Lemma conta_le k p : 0 <= k -> conta k p <= k.
Proof.
  intros Hk. unfold conta.
  apply (soma_ind (fun i a => a <= i)); [exact Hk|lia|].
  intros i a _ Ha. destruct (p i); lia.
Qed.

Lemma conta_mono k k' p : k <= k' -> conta k p <= conta k' p.
Proof.
  intros Hk. unfold conta. apply soma_mono; [|exact Hk].
  intros i _. destruct (p i); lia.
Qed.

(** Settles the [decide] tests of the goal that arithmetic determines. *)
Ltac resolve_decide :=
  repeat match goal with
  | |- context [decide ?Q] =>
      first [ rewrite (decide_True (P := Q)) by (intuition lia)
            | rewrite (decide_False (P := Q)) by (intuition lia) ]
  end.

(** ** Matrices of a known size *)

Lemma forma_length (m : list (list Z)) a b :
  map length m = replicate a b -> length m = a.
Proof. intros H. rewrite <- (length_map length m), H. apply length_replicate. Qed.

Lemma forma_linha (m : list (list Z)) a b i :
  map length m = replicate a b -> 0 <= i < Z.of_nat a -> length (aget [] m i) = b.
Proof.
  intros H Hi. unfold aget. rewrite decide_True by lia.
  assert (map length m !! Z.to_nat i = Some b) as H1
    by (rewrite H; apply lookup_replicate; split; [reflexivity|lia]).
  rewrite list_lookup_fmap in H1. destruct (m !! Z.to_nat i); simpl in *; congruence.
Qed.

Lemma mget_mset_forma (m : list (list Z)) a b i j x i' j' :
  map length m = replicate (Z.to_nat a) (Z.to_nat b) ->
  0 <= i' < a -> 0 <= j' < b ->
  mget (mset m i j x) i' j' = if decide (i = i' /\ j = j') then x else mget m i' j'.
Proof.
  intros Hm Hi Hj. case_decide as Heq.
  - destruct Heq as [-> ->]. apply mget_mset_eq.
    + rewrite (forma_length _ _ _ Hm). lia.
    + rewrite (forma_linha _ _ _ _ Hm) by lia. lia.
  - apply mget_mset_ne. intros H. injection H as -> ->. tauto.
Qed.

Lemma mget_replicate_0 a b i j : mget (replicate a (replicate b 0)) i j = 0.
Proof.
  unfold mget, vget, aget. destruct (decide (0 <= i)); [|case_decide; reflexivity].
  destruct (replicate a (replicate b 0) !! Z.to_nat i) as [row|] eqn:Hrow; simpl.
  - apply lookup_replicate in Hrow as [-> _].
    case_decide; [|reflexivity].
    destruct (replicate b 0 !! Z.to_nat j) as [x|] eqn:Hx; simpl; [|reflexivity].
    apply lookup_replicate in Hx as [-> _]. reflexivity.
  - case_decide; reflexivity.
Qed.

(** ** The teacher and curriculum counters after the pass over the grid *)

Lemma r21_avalia_celula P g i j st :
  r21 (avalia_celula P g i j st).2
  = if decide (mget g i j = -1) then r21 st.2
    else minc (r21 st.2) i (d_prof (disc_de P (mget g i j))) 1.
Proof.
  unfold avalia_celula. cbv zeta. case_decide; [reflexivity|].
  rewrite (quadro_passo_r11 r21), (quadro_passo_r10 r21), (quadro_passo_r9 r21),
    (quadro_passo_r8 r21), (quadro_passo_r7 r21), (quadro_passo_r6 r21),
    (quadro_passo_r5 r21), (quadro_passo_r4 r21), (quadro_passo_r22 r21) by reflexivity.
  unfold passo_r21, passo_r1. cbv zeta. simpl. case_decide; reflexivity.
Qed.

Lemma r22_passo_r22 P i j c st :
  r22 (passo_r22 P i j c st).2 = soma_cursos P i c (r22 st.2).
Proof.
  unfold passo_r22, soma_cursos. simpl.
  destruct (decide (0 <= cursos P)) as [Hk|Hk].
  - apply (para_inv (fun k G =>
       r22 G = para k (fun k m =>
                 if decide (vget (d_cursos (disc_de P c)) k = 1)
                 then minc m i k 1 else m) (r22 st.2))); [exact Hk|reflexivity|].
    intros k G Hkk HG. rewrite para_succ by lia. rewrite <- HG.
    repeat case_decide; reflexivity.
  - rewrite !para_nonpos by lia. reflexivity.
Qed.

Lemma r22_avalia_celula P g i j st :
  r22 (avalia_celula P g i j st).2
  = if decide (mget g i j = -1) then r22 st.2
    else soma_cursos P i (mget g i j) (r22 st.2).
Proof.
  unfold avalia_celula. cbv zeta. case_decide; [reflexivity|].
  rewrite (quadro_passo_r11 r22), (quadro_passo_r10 r22), (quadro_passo_r9 r22),
    (quadro_passo_r8 r22), (quadro_passo_r7 r22), (quadro_passo_r6 r22),
    (quadro_passo_r5 r22), (quadro_passo_r4 r22) by reflexivity.
  rewrite r22_passo_r22.
  rewrite (quadro_passo_r21 r22), (quadro_passo_r1 r22) by reflexivity.
  reflexivity.
Qed.

Lemma soma_cursos_le P i c (m : list (list Z)) a p k0 :
  map length m = replicate (Z.to_nat a) (Z.to_nat (cursos P)) ->
  0 <= p < a -> 0 <= k0 < cursos P ->
  map length (soma_cursos P i c m) = map length m
  /\ mget (soma_cursos P i c m) p k0
     = if decide (i = p /\ vget (d_cursos (disc_de P c)) k0 = 1)
       then iadd (mget m p k0) 1 else mget m p k0.
Proof.
  intros Hm Hp Hk0. unfold soma_cursos.
  pose (Inv := fun (k : Z) (w : list (list Z)) =>
       map length w = map length m
       /\ mget w p k0 = if decide (i = p /\ k0 < k /\ vget (d_cursos (disc_de P c)) k0 = 1)
                        then iadd (mget m p k0) 1 else mget m p k0).
  assert (Inv (cursos P) (para (cursos P) (fun k m =>
            if decide (vget (d_cursos (disc_de P c)) k = 1) then minc m i k 1 else m) m))
    as [H1 H2].
  { apply (para_inv Inv); unfold Inv; [lia| |].
    - split; [reflexivity|]. rewrite decide_False by lia. reflexivity.
    - intros k w Hk [Hw Hv]. cbv beta.
      destruct (decide (vget (d_cursos (disc_de P c)) k = 1)) as [Hc|Hc].
      + split; [rewrite forma_minc; exact Hw|].
        unfold minc. rewrite (mget_mset_forma w a (cursos P)); [|congruence|lia|lia].
        destruct (decide (i = p /\ k = k0)) as [[-> ->]|Hne].
        * rewrite Hv. rewrite decide_False by lia.
          rewrite decide_True by (repeat split; [lia|exact Hc]). reflexivity.
        * rewrite Hv. apply decide_ext. intuition lia.
      + split; [exact Hw|]. rewrite Hv. apply decide_ext.
        split; [intuition lia|]. intros (-> & Hlt & Hk0c).
        destruct (decide (k0 = k)) as [->|]; [tauto|]. repeat split; [lia|exact Hk0c]. }
  split; [exact H1|]. rewrite H2. apply decide_ext. intuition lia.
Qed.

(** Invariant rule for the pass over the grid, cell by cell in row-major
    order; [Inv i j] holds before the cell [(i, j)] is visited. *)
Lemma laco_principal_inv (Inv : Z -> Z -> Z * Globais -> Prop) P g s0 :
  0 <= total_periodos P ->
  Inv 0 0 s0 ->
  (forall i j s, 0 <= i < total_periodos P -> 0 <= j < salas P ->
     Inv i j s -> Inv i (j + 1) (avalia_celula P g i j s)) ->
  (forall i s, 0 <= i < total_periodos P ->
     Inv i (Z.max 0 (salas P)) s -> Inv (i + 1) 0 s) ->
  Inv (total_periodos P) 0 (laco_principal P g s0).
Proof.
  intros Htp H0 Hcel Hlin. unfold laco_principal.
  apply (para_inv (fun i s => Inv i 0 s)); [exact Htp|exact H0|].
  intros i s Hi Hs. apply Hlin; [exact Hi|].
  destruct (decide (0 <= salas P)) as [Hs0|Hs0].
  - rewrite Z.max_r by lia.
    apply (para_inv (fun j s => Inv i j s)); [exact Hs0|exact Hs|].
    intros j s' Hj Hs'. apply Hcel; assumption.
  - rewrite Z.max_l by lia. rewrite para_nonpos by lia. exact Hs.
Qed.

Lemma iadd_1_conta j p :
  j < INT_MAX -> 0 <= j -> iadd (conta j p) 1 = conta j p + 1.
Proof.
  intros Hj Hj0. unfold iadd. apply to_int_id.
  pose proof (conta_nonneg j p). pose proof (conta_le j p Hj0).
  unfold in_int, INT_MIN, INT_MAX in *. lia.
Qed.

Lemma aula_do_prof_eq P g p t j :
  aula_do_prof P g p t j
  = bool_decide (mget g p j <> -1 /\ d_prof (disc_de P (mget g p j)) = t).
Proof. reflexivity. Qed.

Lemma aula_do_curso_eq P g p k j :
  aula_do_curso P g p k j
  = bool_decide (mget g p j <> -1 /\ vget (d_cursos (disc_de P (mget g p j))) k = 1).
Proof. reflexivity. Qed.

(** After the pass, [r21[p][t]] and [r22[p][k]] are the lecture counts of
    the pairs (period, teacher) and (period, curriculum). *)
Lemma contadores_r2 P I G g :
  indices_ok P G -> salas P <= INT_MAX ->
  let s := laco_principal P g (0, zera_indices P I G) in
  indices_ok P s.2
  /\ (forall p t, 0 <= p < total_periodos P -> 0 <= t < professores P ->
        mget (r21 s.2) p t = aulas_prof P g p t)
  /\ (forall p k, 0 <= p < total_periodos P -> 0 <= k < cursos P ->
        mget (r22 s.2) p k = aulas_curso P g p k).
Proof.
  intros Hok Hsal. cbv zeta.
  assert (indices_ok P (laco_principal P g (0, zera_indices P I G)).2) as Hok'.
  { apply (indices_ok_forma P G); [|exact Hok].
    rewrite forma_laco_principal. apply forma_zera_indices. }
  split; [exact Hok'|].
  destruct (decide (0 <= total_periodos P)) as [Htp|Htp];
    [|split; intros; lia].
  pose (V := fun (A : Z -> Z) (i j p : Z) =>
               if decide (p < i) then A (salas P)
               else if decide (p = i) then A j else 0).
  pose (Inv := fun (i j : Z) (s : Z * Globais) =>
     indices_ok P s.2
     /\ (forall p t, 0 <= p < total_periodos P -> 0 <= t < professores P ->
           mget (r21 s.2) p t = V (fun n => conta n (aula_do_prof P g p t)) i j p)
     /\ (forall p k, 0 <= p < total_periodos P -> 0 <= k < cursos P ->
           mget (r22 s.2) p k = V (fun n => conta n (aula_do_curso P g p k)) i j p)).
  assert (Inv (total_periodos P) 0 (laco_principal P g (0, zera_indices P I G)))
    as (_ & H21 & H22).
  { apply (laco_principal_inv Inv); [exact Htp| | |]; unfold Inv, V.
    - (* after the reset *)
      assert (indices_ok P (zera_indices P I G)) as Hz
        by (apply (indices_ok_forma P G); [apply forma_zera_indices|exact Hok]).
      split; [exact Hz|]. unfold indices_ok in Hok.
      simpl. split; intros p x Hp Hx.
      + rewrite setMatriz_replicate by tauto. rewrite mget_replicate_0.
        rewrite decide_False by lia. case_decide; [|reflexivity].
        symmetry. apply conta_nonpos. lia.
      + rewrite setMatriz_replicate by tauto. rewrite mget_replicate_0.
        rewrite decide_False by lia. case_decide; [|reflexivity].
        symmetry. apply conta_nonpos. lia.
    - (* one cell *)
      intros i j s Hi Hj (Hs & Hr21 & Hr22).
      split; [apply (indices_ok_forma P s.2); [apply forma_avalia_celula|exact Hs]|].
      unfold indices_ok in Hs.
      split; intros p x Hp Hx.
      + rewrite r21_avalia_celula. rewrite conta_succ by lia.
        rewrite (aula_do_prof_eq P g p x j).
        destruct (decide (mget g i j = -1)) as [He|He].
        * rewrite Hr21 by assumption.
          destruct (decide (p < i)); [reflexivity|].
          destruct (decide (p = i)) as [->|]; [|reflexivity].
          rewrite bool_decide_eq_false_2 by tauto. lia.
        * unfold minc.
          rewrite (mget_mset_forma _ (total_periodos P) (professores P));
            [|tauto|lia|lia].
          destruct (decide (i = p /\ d_prof (disc_de P (mget g i j)) = x)) as [[-> <-]|Hne].
          -- rewrite Hr21 by assumption.
             resolve_decide.
             rewrite bool_decide_eq_true_2 by tauto.
             apply iadd_1_conta; lia.
          -- rewrite Hr21 by assumption.
             destruct (decide (p < i)); [reflexivity|].
             destruct (decide (p = i)) as [->|]; [|reflexivity].
             rewrite bool_decide_eq_false_2 by (intros [_ <-]; tauto). lia.
      + rewrite r22_avalia_celula. rewrite conta_succ by lia.
        rewrite (aula_do_curso_eq P g p x j).
        destruct (decide (mget g i j = -1)) as [He|He].
        * rewrite Hr22 by assumption.
          destruct (decide (p < i)); [reflexivity|].
          destruct (decide (p = i)) as [->|]; [|reflexivity].
          rewrite bool_decide_eq_false_2 by tauto. lia.
        * destruct (soma_cursos_le P i (mget g i j) (r22 s.2) (total_periodos P) p x)
            as [_ Hv]; [tauto|lia|lia|].
          rewrite Hv. rewrite Hr22 by assumption.
          destruct (decide (i = p /\ vget (d_cursos (disc_de P (mget g i j))) x = 1))
            as [[-> Hc]|Hne].
          -- resolve_decide.
             rewrite bool_decide_eq_true_2 by tauto.
             apply iadd_1_conta; lia.
          -- destruct (decide (p < i)); [reflexivity|].
             destruct (decide (p = i)) as [->|]; [|reflexivity].
             rewrite bool_decide_eq_false_2 by (intros [_ ?]; tauto). lia.
    - (* end of a row *)
      intros i s Hi (Hs & Hr21 & Hr22). split; [exact Hs|].
      assert (forall q, conta (Z.max 0 (salas P)) q = conta (salas P) q) as Hmax.
      { intros q. destruct (decide (0 <= salas P)).
        - rewrite Z.max_r by lia. reflexivity.
        - rewrite Z.max_l by lia. rewrite !conta_nonpos by lia. reflexivity. }
      split; intros p x Hp Hx.
      + rewrite Hr21 by assumption. rewrite Hmax.
        rewrite (conta_nonpos 0) by lia.
        repeat case_decide; try reflexivity; lia.
      + rewrite Hr22 by assumption. rewrite Hmax.
        rewrite (conta_nonpos 0) by lia.
        repeat case_decide; try reflexivity; lia. }
  unfold V in H21, H22.
  split; intros p x Hp Hx.
  - rewrite H21 by assumption. rewrite decide_True by lia. reflexivity.
  - rewrite H22 by assumption. rewrite decide_True by lia. reflexivity.
Qed.

(** ** The counter [restricoes_violadas[2]] *)

Lemma vget_vinc_ne (v : list Z) a d k : a <> k -> vget (vinc v a d) k = vget v k.
Proof. intros H. unfold vinc. apply vget_vset_ne. exact H. Qed.

(** The pass over the grid writes the counters 4, 6, 7, 8 and 10 only. *)
Lemma rv_avalia_celula P g i j st k :
  k <> 4 -> k <> 6 -> k <> 7 -> k <> 8 -> k <> 10 ->
  vget (restricoes_violadas (avalia_celula P g i j st).2) k
  = vget (restricoes_violadas st.2) k.
Proof.
  intros H4 H6 H7 H8 H10. unfold avalia_celula. cbv zeta. case_decide; [reflexivity|].
  rewrite (quadro_passo_r11 (fun G => vget (restricoes_violadas G) k)) by reflexivity.
  assert (forall s, vget (restricoes_violadas (passo_r10 P i j (mget g i j) s).2) k
                    = vget (restricoes_violadas s.2) k) as E10.
  { intros s. unfold passo_r10. cbv zeta. case_decide; [|reflexivity].
    simpl. apply vget_vinc_ne. lia. }
  assert (forall s, vget (restricoes_violadas (passo_r8 P i j (mget g i j) s).2) k
                    = vget (restricoes_violadas s.2) k) as E8.
  { intros s. unfold passo_r8. cbv zeta. repeat case_decide; try reflexivity;
      simpl; apply vget_vinc_ne; lia. }
  assert (forall s, vget (restricoes_violadas (passo_r7 P i j (mget g i j) s).2) k
                    = vget (restricoes_violadas s.2) k) as E7.
  { intros s. unfold passo_r7. cbv zeta. repeat case_decide; try reflexivity;
      simpl; apply vget_vinc_ne; lia. }
  assert (forall s, vget (restricoes_violadas (passo_r6 P g i j (mget g i j) s).2) k
                    = vget (restricoes_violadas s.2) k) as E6.
  { intros s. unfold passo_r6, restricaoR6. simpl.
    apply (para_preserva (fun t : Z * Globais =>
             vget (restricoes_violadas t.2) k = vget (restricoes_violadas s.2) k));
      [reflexivity|].
    intros c t _ Ht. repeat case_decide; try exact Ht.
    simpl. rewrite vget_vinc_ne by lia. exact Ht. }
  assert (forall s, vget (restricoes_violadas (passo_r4 P i j (mget g i j) s).2) k
                    = vget (restricoes_violadas s.2) k) as E4.
  { intros s. unfold passo_r4. case_decide; [|reflexivity].
    simpl. apply vget_vinc_ne. lia. }
  rewrite E10.
  rewrite (quadro_passo_r9 (fun G => vget (restricoes_violadas G) k)) by reflexivity.
  rewrite E8, E7, E6.
  rewrite (quadro_passo_r5 (fun G => vget (restricoes_violadas G) k)) by reflexivity.
  rewrite E4.
  rewrite (quadro_passo_r22 (fun G => vget (restricoes_violadas G) k)),
    (quadro_passo_r21 (fun G => vget (restricoes_violadas G) k)),
    (quadro_passo_r1 (fun G => vget (restricoes_violadas G) k)) by reflexivity.
  reflexivity.
Qed.

Lemma rv_laco_principal P g st k :
  k <> 4 -> k <> 6 -> k <> 7 -> k <> 8 -> k <> 10 ->
  vget (restricoes_violadas (laco_principal P g st).2) k
  = vget (restricoes_violadas st.2) k.
Proof.
  intros H4 H6 H7 H8 H10. unfold laco_principal.
  apply (para_preserva (fun s : Z * Globais =>
           vget (restricoes_violadas s.2) k = vget (restricoes_violadas st.2) k));
    [reflexivity|].
  intros i s _ Hs.
  apply (para_preserva (fun s : Z * Globais =>
           vget (restricoes_violadas s.2) k = vget (restricoes_violadas st.2) k));
    [exact Hs|].
  intros j s' _ Hs'. rewrite rv_avalia_celula by assumption. exact Hs'.
Qed.

Lemma rv_penaliza_r1_r5 P st k :
  k <> 5 ->
  vget (restricoes_violadas (penaliza_r1_r5 P st).2) k = vget (restricoes_violadas st.2) k.
Proof.
  intros H. unfold penaliza_r1_r5.
  apply (para_preserva (fun s : Z * Globais =>
           vget (restricoes_violadas s.2) k = vget (restricoes_violadas st.2) k));
    [reflexivity|].
  intros i s _ Hs. cbv zeta. case_decide; [|exact Hs].
  simpl. rewrite vget_vinc_ne by lia. exact Hs.
Qed.

Lemma rv_penaliza_r9 P st k :
  k <> 9 ->
  vget (restricoes_violadas (penaliza_r9 P st).2) k = vget (restricoes_violadas st.2) k.
Proof.
  intros H. unfold penaliza_r9.
  apply (para_preserva (fun s : Z * Globais =>
           vget (restricoes_violadas s.2) k = vget (restricoes_violadas st.2) k));
    [reflexivity|].
  intros i s _ Hs. cbv zeta. case_decide; [|exact Hs].
  simpl. rewrite vget_vinc_ne by lia. exact Hs.
Qed.

Lemma rv_penaliza_r11 P st k :
  k <> 11 ->
  vget (restricoes_violadas (penaliza_r11 P st).2) k = vget (restricoes_violadas st.2) k.
Proof.
  intros H. unfold penaliza_r11.
  apply (para_preserva (fun s : Z * Globais =>
           vget (restricoes_violadas s.2) k = vget (restricoes_violadas st.2) k));
    [reflexivity|].
  intros i s _ Hs.
  apply (para_preserva (fun s : Z * Globais =>
           vget (restricoes_violadas s.2) k = vget (restricoes_violadas st.2) k));
    [exact Hs|].
  intros j s' _ Hs'. case_decide; [|exact Hs'].
  simpl. rewrite vget_vinc_ne by lia. exact Hs'.
Qed.

Lemma vget_replicate (a : nat) (x k : Z) :
  0 <= k < Z.of_nat a -> vget (replicate a x) k = x.
Proof.
  intros Hk. unfold vget, aget. rewrite decide_True by lia.
  rewrite lookup_replicate_2 by lia. reflexivity.
Qed.

Lemma rv_zera_indices P I G k :
  indices_ok P G -> 0 <= k < 12 -> vget (restricoes_violadas (zera_indices P I G)) k = -1.
Proof.
  intros Hok Hk. unfold indices_ok in Hok. simpl.
  rewrite setVetor_replicate by tauto. apply vget_replicate. lia.
Qed.

(** One conflict of weight [w] met by the loops of [penaliza_r2]. *)
Lemma codigo_r2_passo (v : list Z) a w :
  length v = 12%nat -> 0 <= a -> 0 < w -> a + w <= INT_MAX ->
  vget v 2 = codigo_r2 a ->
  vget (if decide (vget v 2 < 0) then vset v 2 w else vinc v 2 w) 2 = codigo_r2 (a + w).
Proof.
  intros Hlen Ha Hw Hmax Hv. unfold codigo_r2 in *.
  rewrite (decide_False (P := a + w = 0)) by lia.
  destruct (decide (a = 0)) as [->|Hne].
  - rewrite Hv. rewrite decide_True by lia. rewrite vget_vset_eq by (rewrite Hlen; lia). lia.
  - rewrite Hv. rewrite decide_False by lia. unfold vinc.
    rewrite vget_vset_eq by (rewrite Hlen; lia). rewrite Hv.
    unfold iadd. apply to_int_id. unfold in_int, INT_MIN, INT_MAX in *. lia.
Qed.

Lemma para_inv_max {S} (Inv : Z -> S -> Prop) (k : Z) (f : Z -> S -> S) (s : S) :
  Inv 0 s ->
  (forall i t, 0 <= i < k -> Inv i t -> Inv (i + 1) (f i t)) ->
  Inv (Z.max 0 k) (para k f s).
Proof.
  intros H0 Hstep. destruct (decide (0 <= k)) as [Hk|Hk].
  - rewrite Z.max_r by lia. apply para_inv; assumption.
  - rewrite Z.max_l by lia. rewrite para_nonpos by lia. exact H0.
Qed.

Lemma conta_max k p : conta (Z.max 0 k) p = conta k p.
Proof.
  destruct (decide (0 <= k)).
  - rewrite Z.max_r by lia. reflexivity.
  - rewrite Z.max_l by lia. rewrite !conta_nonpos by lia. reflexivity.
Qed.

Lemma soma_max k f : soma (Z.max 0 k) f = soma k f.
Proof.
  destruct (decide (0 <= k)).
  - rewrite Z.max_r by lia. reflexivity.
  - rewrite Z.max_l by lia. rewrite !soma_nonpos by lia. reflexivity.
Qed.

(** What [penaliza_r2] leaves in [restricoes_violadas[2]], in terms of the
    counters [r21] and [r22] it reads. *)
Lemma penaliza_r2_codigo P st :
  length (restricoes_violadas st.2) = 12%nat ->
  vget (restricoes_violadas st.2) 2 = -1 ->
  let F := fun p =>
    conta (professores P) (fun t => bool_decide (1 < mget (r21 st.2) p t))
    + 1000 * conta (cursos P) (fun k => bool_decide (1 < mget (r22 st.2) p k)) in
  soma (total_periodos P) F <= INT_MAX ->
  vget (restricoes_violadas (penaliza_r2 P st).2) 2 = codigo_r2 (soma (total_periodos P) F).
Proof.
  intros Hlen Hv F Hmax.
  assert (forall p, 0 <= F p) as HF.
  { intros p. unfold F.
    pose proof (conta_nonneg (professores P) (fun t => bool_decide (1 < mget (r21 st.2) p t))).
    pose proof (conta_nonneg (cursos P) (fun k => bool_decide (1 < mget (r22 st.2) p k))).
    lia. }
  pose (Base := fun (s : Z * Globais) =>
     r21 s.2 = r21 st.2 /\ r22 s.2 = r22 st.2
     /\ length (restricoes_violadas s.2) = 12%nat).
  pose (Inv := fun (i : Z) (s : Z * Globais) =>
     Base s /\ vget (restricoes_violadas s.2) 2 = codigo_r2 (soma i F)).
  assert (Inv (Z.max 0 (total_periodos P)) (penaliza_r2 P st)) as [_ H].
  { unfold penaliza_r2. apply (para_inv_max Inv).
    - unfold Inv, Base. rewrite soma_nonpos by lia. repeat split; try reflexivity; assumption.
    - intros i s Hi [HB Hs].
      assert (soma (i + 1) F <= INT_MAX) as Hi1.
      { etransitivity; [|exact Hmax]. apply soma_mono; [intros; apply HF|lia]. }
      rewrite soma_succ in Hi1 by lia.
      assert (F i = conta (professores P) (fun t => bool_decide (1 < mget (r21 st.2) i t))
                    + 1000 * conta (cursos P) (fun k => bool_decide (1 < mget (r22 st.2) i k)))
        as HFi by reflexivity.
      rewrite HFi in Hi1.
      assert (0 <= soma i F) as Hi0 by (apply soma_nonneg; intros; apply HF).
      (* teachers *)
      pose (InvT := fun (j : Z) (s : Z * Globais) =>
         Base s /\ vget (restricoes_violadas s.2) 2
                   = codigo_r2 (soma i F
                       + conta j (fun t => bool_decide (1 < mget (r21 st.2) i t)))).
      match goal with |- Inv _ (para _ ?fc (para _ ?ft s)) =>
        assert (InvT (Z.max 0 (professores P)) (para (professores P) ft s)) as [HBT HT]
      end.
      { apply (para_inv_max InvT).
        - unfold InvT. rewrite (conta_nonpos 0) by lia. rewrite Z.add_0_r. split; assumption.
        - intros j t Hj [(E21 & E22 & El) Ht]. unfold InvT, Base. cbv beta.
          rewrite conta_succ by lia. rewrite E21.
          destruct (decide (1 < mget (r21 st.2) i j)) as [Hc|Hc].
          + rewrite bool_decide_eq_true_2 by exact Hc. simpl.
            split; [repeat split; try assumption;
                    case_decide; unfold vinc; rewrite length_vset; exact El|].
            rewrite Z.add_assoc. apply codigo_r2_passo; try assumption; try lia.
            * pose proof (conta_nonneg j (fun t => bool_decide (1 < mget (r21 st.2) i t))).
              lia.
            * pose proof (conta_mono (j + 1) (professores P)
                            (fun t => bool_decide (1 < mget (r21 st.2) i t))) as Hm.
              rewrite conta_succ in Hm by lia.
              rewrite bool_decide_eq_true_2 in Hm by exact Hc.
              pose proof (conta_nonneg (cursos P)
                            (fun k => bool_decide (1 < mget (r22 st.2) i k))).
              specialize (Hm ltac:(lia)).
              lia.
          + rewrite bool_decide_eq_false_2 by exact Hc. rewrite Z.add_0_r.
            split; [repeat split|]; assumption. }
      rewrite conta_max in HT.
      (* curricula *)
      pose (InvC := fun (j : Z) (s : Z * Globais) =>
         Base s /\ vget (restricoes_violadas s.2) 2
                   = codigo_r2 (soma i F
                       + conta (professores P) (fun t => bool_decide (1 < mget (r21 st.2) i t))
                       + 1000 * conta j (fun k => bool_decide (1 < mget (r22 st.2) i k)))).
      match goal with |- Inv _ (para _ ?fc ?s1) =>
        assert (InvC (Z.max 0 (cursos P)) (para (cursos P) fc s1)) as [HBC HC]
      end.
      { apply (para_inv_max InvC).
        - unfold InvC. rewrite (conta_nonpos 0) by lia. rewrite Z.mul_0_r, Z.add_0_r.
          split; assumption.
        - intros j t Hj [(E21 & E22 & El) Ht]. unfold InvC, Base. cbv beta.
          rewrite conta_succ by lia. rewrite E22.
          destruct (decide (1 < mget (r22 st.2) i j)) as [Hc|Hc].
          + rewrite bool_decide_eq_true_2 by exact Hc. simpl.
            split; [repeat split; try assumption;
                    case_decide; unfold vinc; rewrite length_vset; exact El|].
            rewrite Z.mul_add_distr_l, Z.mul_1_r, Z.add_assoc.
            apply codigo_r2_passo; try assumption; try lia.
            * pose proof (conta_nonneg (professores P)
                            (fun t => bool_decide (1 < mget (r21 st.2) i t))).
              pose proof (conta_nonneg j (fun k => bool_decide (1 < mget (r22 st.2) i k))).
              lia.
            * pose proof (conta_mono (j + 1) (cursos P)
                            (fun k => bool_decide (1 < mget (r22 st.2) i k))) as Hm.
              rewrite conta_succ in Hm by lia.
              rewrite bool_decide_eq_true_2 in Hm by exact Hc.
              specialize (Hm ltac:(lia)).
              lia.
          + rewrite bool_decide_eq_false_2 by exact Hc. rewrite Z.mul_add_distr_l.
            rewrite Z.mul_0_r, Z.add_0_r. split; [repeat split|]; assumption. }
      rewrite conta_max in HC.
      unfold Inv. split; [exact HBC|]. rewrite HC, soma_succ by lia.
      rewrite HFi. f_equal. lia. }
  rewrite soma_max in H. exact H.
Qed.

(** C3. After a full evaluation of a grid, [restricoes_violadas[2]] is
    [tp + 1000 * cp], where [tp] is the number of pairs (period, teacher)
    and [cp] the number of pairs (period, curriculum) whose lecture count
    on the grid exceeds 1, as soon as there is one such pair, and [-1] when
    there is none. The value does not depend on the order in which the
    conflicts are met. The counters are C [int]s: the statement is for
    instances whose number of rooms and whose total [tp + 1000 * cp] fit. *)
Theorem violacoes_r2_composicao P I G g :
  indices_ok P G ->
  salas P <= INT_MAX ->
  conflitos_prof P g + 1000 * conflitos_curso P g <= INT_MAX ->
  vget (restricoes_violadas (calcula_FO P I G g).2) 2
  = if decide (conflitos_prof P g + conflitos_curso P g = 0) then -1
    else conflitos_prof P g + 1000 * conflitos_curso P g.
Proof.
  intros Hok Hsal Hmax. unfold calcula_FO.
  rewrite rv_penaliza_r11, rv_penaliza_r9, rv_penaliza_r1_r5 by lia.
  destruct (contadores_r2 P I G g Hok Hsal) as (Hok1 & H21 & H22).
  set (s := laco_principal P g (0, zera_indices P I G)) in *.
  assert (soma (total_periodos P) (fun p =>
            conta (professores P) (fun t => bool_decide (1 < mget (r21 s.2) p t))
            + 1000 * conta (cursos P) (fun k => bool_decide (1 < mget (r22 s.2) p k)))
          = conflitos_prof P g + 1000 * conflitos_curso P g) as Hsoma.
  { rewrite soma_linear. unfold conflitos_prof, conflitos_curso. f_equal; [|f_equal].
    - apply soma_ext. intros p Hp. apply soma_ext. intros t Ht.
      rewrite H21 by assumption. reflexivity.
    - apply soma_ext. intros p Hp. apply soma_ext. intros k Hk.
      rewrite H22 by assumption. reflexivity. }
  rewrite penaliza_r2_codigo.
  - rewrite Hsoma. unfold codigo_r2.
    assert (0 <= conflitos_prof P g).
    { unfold conflitos_prof. apply soma_nonneg. intros. apply conta_nonneg. }
    assert (0 <= conflitos_curso P g).
    { unfold conflitos_curso. apply soma_nonneg. intros. apply conta_nonneg. }
    repeat case_decide; try reflexivity; lia.
  - unfold indices_ok in Hok1. tauto.
  - subst s. rewrite rv_laco_principal by lia. apply rv_zera_indices; [exact Hok|lia].
  - rewrite Hsoma. exact Hmax.
Qed.

(** ** The timetable with no lecture *)

Lemma para_fixo {S} (k : Z) (f : Z -> S -> S) (s : S) :
  (forall i, 0 <= i < k -> f i s = s) -> para k f s = s.
Proof.
  intros Hf. apply (para_preserva (fun t => t = s)); [reflexivity|].
  intros i t Hi ->. apply Hf. exact Hi.
Qed.

Lemma laco_principal_vazia P g st : grade_vazia P g -> laco_principal P g st = st.
Proof.
  intros Hg. unfold laco_principal. apply para_fixo. intros i Hi.
  apply para_fixo. intros j Hj. unfold avalia_celula. cbv zeta.
  rewrite decide_True by (apply Hg; assumption). reflexivity.
Qed.

(** A counting loop of the program, with its [int] counter. *)
Lemma laco_conta k (p : Z -> bool) :
  k <= INT_MAX ->
  para k (fun j c => if p j then iadd c 1 else c) 0 = conta k p.
Proof.
  intros Hk. rewrite <- (conta_max k p).
  apply (para_inv_max (fun j c => c = conta j p)).
  - rewrite conta_nonpos by lia. reflexivity.
  - intros j c Hj ->. rewrite conta_succ by lia.
    destruct (p j); [|lia]. apply iadd_1_conta; lia.
Qed.

Lemma laco_conta_decide k (Q : Z -> Prop) `{forall j, Decision (Q j)} :
  k <= INT_MAX ->
  para k (fun j c => if decide (Q j) then iadd c 1 else c) 0
  = conta k (fun j => bool_decide (Q j)).
Proof.
  intros Hk. rewrite <- (laco_conta k (fun j => bool_decide (Q j)) Hk).
  apply para_ext. intros j c _. unfold bool_decide, decide. destruct (H j); reflexivity.
Qed.

Lemma zera_indices_campos P I G :
  indices_ok P G ->
  r1 (zera_indices P I G) = replicate (Z.to_nat (disciplinas P)) 0
  /\ r21 (zera_indices P I G)
     = replicate (Z.to_nat (total_periodos P)) (replicate (Z.to_nat (professores P)) 0)
  /\ r22 (zera_indices P I G)
     = replicate (Z.to_nat (total_periodos P)) (replicate (Z.to_nat (cursos P)) 0)
  /\ r5 (zera_indices P I G)
     = replicate (Z.to_nat (disciplinas P)) (replicate (Z.to_nat (dias P)) 0)
  /\ r9 (zera_indices P I G) = r9_semeado P I
  /\ r11 (zera_indices P I G)
     = replicate (Z.to_nat (dias P)) (replicate (Z.to_nat (disciplinas P)) 0).
Proof.
  unfold indices_ok. intros H.
  repeat match goal with H : _ /\ _ |- _ => destruct H end.
  unfold zera_indices, r9_semeado. simpl.
  repeat match goal with
  | H : map length ?m = _ |- context [setMatriz ?m ?l ?c ?x] =>
      rewrite (setMatriz_replicate m l c x) by exact H
  | H : length ?v = _ |- context [setVetor ?v ?k ?x] =>
      rewrite (setVetor_replicate v k x) by exact H
  end.
  rewrite setMatriz_replicate by apply forma_replicate.
  repeat split; reflexivity.
Qed.

Lemma vget_replicate_0 a k : vget (replicate a 0) k = 0.
Proof.
  unfold vget, aget. case_decide; [|reflexivity].
  destruct (replicate a 0 !! Z.to_nat k) as [x|] eqn:Hx; simpl; [|reflexivity].
  apply lookup_replicate in Hx as [-> _]. reflexivity.
Qed.

Lemma iadd_id a b : in_int (a + b) -> iadd a b = a + b.
Proof. apply to_int_id. Qed.

Lemma imul_id a b : in_int (a * b) -> imul a b = a * b.
Proof. apply to_int_id. Qed.

Lemma isub_id a b : in_int (a - b) -> isub a b = a - b.
Proof. apply to_int_id. Qed.

Lemma penaliza_r2_sem_conflito P st :
  (forall i j, mget (r21 st.2) i j = 0) -> (forall i j, mget (r22 st.2) i j = 0) ->
  penaliza_r2 P st = st.
Proof.
  intros H21 H22. unfold penaliza_r2. apply para_fixo. intros i _.
  rewrite (para_fixo (professores P)).
  - apply para_fixo. intros j _. rewrite H22. rewrite decide_False by lia. reflexivity.
  - intros j _. rewrite H21. rewrite decide_False by lia. reflexivity.
Qed.

Lemma penaliza_r11_sem_repeticao P st :
  (forall i j, mget (r11 st.2) i j = 0) -> penaliza_r11 P st = st.
Proof.
  intros H11. unfold penaliza_r11. apply para_fixo. intros i _.
  apply para_fixo. intros j _. rewrite H11. rewrite decide_False by lia. reflexivity.
Qed.

(** When the table covers the overlay, [r9] is reset to what the table
    says. *)
Lemma r9_semeado_semente P I t d :
  semente_dentro P I -> 0 <= t < professores P -> 0 <= d < dias P ->
  mget (r9_semeado P I) t d = semente I t d.
Proof.
  intros Hin Ht Hd. unfold r9_semeado, semente.
  destruct (dias_ocupados_integral I) as [oc|] eqn:Hoc.
  - destruct (decide (usar_restricao_integral I <> 0)) as [Hu|Hu].
    + destruct (decide (t < num_profs_da_integral I)) as [Hn|Hn].
      * rewrite decide_True by tauto.
        rewrite (semeia_r9_le P I oc);
          [|exact Hoc|exact Hu|apply forma_replicate|lia|lia|lia].
        apply le_ocupados_na_tabela. apply (Hin oc Hoc Hu); lia.
      * rewrite decide_False by tauto.
        rewrite semeia_r9_fora by exact Hn. apply mget_replicate_0.
    + rewrite decide_False by tauto. unfold semeia_r9. rewrite Hoc.
      rewrite decide_False by tauto. apply mget_replicate_0.
  - unfold semeia_r9. rewrite Hoc. apply mget_replicate_0.
Qed.

(** C5, as amended. On a grid whose cells are all empty, [calcula_FO]
    returns, for non-negative lecture counts and minimum days,
    the sum over the courses of [1000000 * aulas + 5 * minDias] (R1 for the
    lectures not placed and R5 for the days not reached) plus, for every
    teacher that the table of the first phase has busy on more than two
    days, 5 per day beyond the second (R9).  The statement is for
    totals that fit in the [int] accumulator and for a table that has
    the cells the evaluator reads from it ([semente_dentro]): a row for
    each teacher of the instance below [num_profs_da_integral], with a
    column for each day of the instance. *)
Theorem fo_grade_vazia P I G g :
  indices_ok P G ->
  grade_vazia P g ->
  semente_dentro P I ->
  (forall c, 0 <= c < disciplinas P ->
     0 <= d_aulas (disc_de P c) /\ 0 <= d_minDias (disc_de P c)) ->
  dias P <= INT_MAX ->
  penalidade_vazia P I <= INT_MAX ->
  (calcula_FO P I G g).1 = penalidade_vazia P I.
Proof.
  intros Hok Hg Hin Hpos Hdias Hmax. unfold calcula_FO.
  rewrite laco_principal_vazia by exact Hg.
  destruct (zera_indices_campos P I G Hok) as (E1 & E21 & E22 & E5 & E9 & E11).
  remember (zera_indices P I G) as Z0 eqn:HZ0. clear HZ0.
  rewrite penaliza_r2_sem_conflito;
    [|intros; simpl; rewrite E21; apply mget_replicate_0
     |intros; simpl; rewrite E22; apply mget_replicate_0].
  pose (Fc := fun c => 1000000 * d_aulas (disc_de P c) + 5 * d_minDias (disc_de P c)).
  pose (Ft := fun t => 5 * Z.max 0 (dias_semeados P I t - 2)).
  assert (forall c, 0 <= c < disciplinas P -> 0 <= Fc c) as HFc
    by (intros c Hc; specialize (Hpos c Hc); unfold Fc; lia).
  assert (forall t, 0 <= Ft t) as HFt by (intros t; unfold Ft; lia).
  assert (0 <= soma (professores P) Ft) as HSt by (apply soma_nonneg; intros; apply HFt).
  assert (penalidade_vazia P I = soma (disciplinas P) Fc + soma (professores P) Ft)
    as Htot by reflexivity.
  (* R1 and R5 *)
  pose (Inv1 := fun (i : Z) (s : Z * Globais) =>
     r1 s.2 = r1 Z0 /\ r5 s.2 = r5 Z0 /\ r9 s.2 = r9 Z0 /\ r11 s.2 = r11 Z0
     /\ s.1 = soma i Fc).
  assert (Inv1 (Z.max 0 (disciplinas P)) (penaliza_r1_r5 P (0, Z0)))
    as (_ & _ & F9 & F11 & Hfo1).
  { unfold penaliza_r1_r5. apply (para_inv_max Inv1).
    - unfold Inv1. rewrite (soma_nonpos 0) by lia. repeat split; reflexivity.
    - intros i s Hi (A1 & A5 & A9 & A11 & Hacc). unfold Inv1. cbv zeta.
      assert (soma (i + 1) Fc <= INT_MAX) as Hb.
      { assert (soma (i + 1) Fc <= soma (disciplinas P) Fc)
          by (apply soma_mono; [exact HFc|lia]). lia. }
      rewrite soma_succ in Hb |- * by lia.
      assert (0 <= soma i Fc) by (apply soma_nonneg; intros; apply HFc; lia).
      destruct (Hpos i Hi) as [Hau Hmd].
      change (Fc i) with (1000000 * d_aulas (disc_de P i) + 5 * d_minDias (disc_de P i))
        in Hb |- *.
      rewrite A1, E1, vget_replicate_0.
      rewrite (para_fixo (dias P));
        [|intros j _; rewrite A5, E5, mget_replicate_0;
          rewrite decide_False by lia; reflexivity].
      set (acc1 := if decide (0 <> d_aulas (disc_de P i)) then _ else _).
      assert (acc1 = s.1 + 1000000 * d_aulas (disc_de P i)) as Hacc1.
      { subst acc1. case_decide as Hz; [|lia].
        unfold modulo. rewrite decide_False by lia.
        rewrite (isub_id (d_aulas (disc_de P i)) 0), Z.sub_0_r
          by (unfold in_int, INT_MIN, INT_MAX in *; lia).
        rewrite imul_id by (unfold in_int, INT_MIN, INT_MAX in *; lia).
        apply iadd_id. unfold in_int, INT_MIN, INT_MAX in *. lia. }
      clearbody acc1.
      case_decide as Hm; simpl.
      + repeat split; try assumption; try congruence.
        rewrite Hacc1, Hacc.
        rewrite (isub_id (d_minDias (disc_de P i)) 0), Z.sub_0_r
          by (unfold in_int, INT_MIN, INT_MAX in *; lia).
        rewrite imul_id by (unfold in_int, INT_MIN, INT_MAX in *; lia).
        rewrite iadd_id by (unfold in_int, INT_MIN, INT_MAX in *; lia). lia.
      + repeat split; try assumption; try congruence. lia. }
  rewrite soma_max in Hfo1.
  (* R9 *)
  pose (Inv9 := fun (t : Z) (s : Z * Globais) =>
     r9 s.2 = r9 Z0 /\ r11 s.2 = r11 Z0
     /\ s.1 = soma (disciplinas P) Fc + soma t Ft).
  assert (Inv9 (Z.max 0 (professores P)) (penaliza_r9 P (penaliza_r1_r5 P (0, Z0))))
    as (_ & G11 & Hfo9).
  { unfold penaliza_r9. apply (para_inv_max Inv9).
    - unfold Inv9. rewrite (soma_nonpos 0) by lia. repeat split; try assumption. lia.
    - intros t s Ht (B9 & B11 & Hacc). unfold Inv9. cbv zeta.
      assert (soma (t + 1) Ft <= soma (professores P) Ft) as Hb
        by (apply soma_mono; [intros; apply HFt|lia]).
      assert (0 <= soma (disciplinas P) Fc) by (apply soma_nonneg; exact HFc).
      assert (0 <= soma t Ft) by (apply soma_nonneg; intros; apply HFt).
      rewrite soma_succ in Hb |- * by lia.
      rewrite (laco_conta_decide (dias P) (fun j => 0 < mget (r9 s.2) t j)) by exact Hdias.
      rewrite B9, E9.
      rewrite (conta_ext (dias P) _ (fun d => bool_decide (0 < semente I t d)))
        by (intros d Hd; rewrite (r9_semeado_semente P I t d Hin) by lia; reflexivity).
      fold (dias_semeados P I t).
      change (Ft t) with (5 * Z.max 0 (dias_semeados P I t - 2)) in Hb |- *.
      case_decide as Hd; simpl.
      + repeat split; try assumption; try congruence. rewrite Hacc.
        rewrite isub_id by (unfold in_int, INT_MIN, INT_MAX in *; lia).
        rewrite imul_id by (unfold in_int, INT_MIN, INT_MAX in *; lia).
        rewrite iadd_id by (unfold in_int, INT_MIN, INT_MAX in *; lia). lia.
      + repeat split; try assumption; try congruence. lia. }
  rewrite soma_max in Hfo9.
  (* R11 *)
  rewrite penaliza_r11_sem_repeticao
    by (intros; rewrite G11, E11; apply mget_replicate_0).
  rewrite Hfo9, Htot. reflexivity.
Qed.

(** ** The accumulator is an [int] *)

Lemma in_int_iadd a b : in_int (iadd a b).
Proof. apply to_int_in_int. Qed.

Lemma in_int_0 : in_int 0.
Proof. unfold in_int, INT_MIN, INT_MAX. lia. Qed.

Lemma fo_int_avalia_celula P g i j st : in_int st.1 -> in_int (avalia_celula P g i j st).1.
Proof.
  intros H. unfold avalia_celula. cbv zeta. case_decide; [exact H|].
  set (s1 := passo_r5 P i _ (passo_r4 P i j _ (passo_r22 P i j _
               (passo_r21 P i j _ (passo_r1 _ st))))).
  assert (in_int s1.1) as H1.
  { subst s1. unfold passo_r5, passo_r4. simpl. case_decide; simpl;
      [apply in_int_iadd|exact H]. }
  clearbody s1.
  assert (forall s, in_int (passo_r6 P g i j (mget g i j) s).1) as H6
    by (intros s; apply in_int_iadd).
  assert (forall s, in_int s.1 -> in_int (passo_r7 P i j (mget g i j) s).1) as H7.
  { intros s Hs. unfold passo_r7. cbv zeta. case_decide; [apply in_int_iadd|exact Hs]. }
  assert (forall s, in_int s.1 -> in_int (passo_r8 P i j (mget g i j) s).1) as H8.
  { intros s Hs. unfold passo_r8. cbv zeta.
    repeat case_decide; simpl; try exact Hs; apply in_int_iadd. }
  assert (forall s, in_int s.1 -> in_int (passo_r9 P i (mget g i j) s).1) as H9.
  { intros s Hs. unfold passo_r9. cbv zeta. case_decide; exact Hs. }
  assert (forall s, in_int s.1 -> in_int (passo_r10 P i j (mget g i j) s).1) as H10.
  { intros s Hs. unfold passo_r10. cbv zeta. case_decide; [apply in_int_iadd|exact Hs]. }
  unfold passo_r11. simpl. auto.
Qed.

Lemma fo_int_laco_principal P g st : in_int st.1 -> in_int (laco_principal P g st).1.
Proof.
  intros H. unfold laco_principal.
  apply (para_preserva (fun s : Z * Globais => in_int s.1)); [exact H|].
  intros i s _ Hs.
  apply (para_preserva (fun s : Z * Globais => in_int s.1)); [exact Hs|].
  intros j s' _ Hs'. apply fo_int_avalia_celula. exact Hs'.
Qed.

Lemma fo_int_penaliza_r2 P st : in_int st.1 -> in_int (penaliza_r2 P st).1.
Proof.
  intros H. unfold penaliza_r2.
  apply (para_preserva (fun s : Z * Globais => in_int s.1)); [exact H|].
  intros i s _ Hs.
  apply (para_preserva (fun s : Z * Globais => in_int s.1)).
  - apply (para_preserva (fun s : Z * Globais => in_int s.1)); [exact Hs|].
    intros j s' _ Hs'. case_decide; [apply in_int_iadd|exact Hs'].
  - intros j s' _ Hs'. case_decide; [apply in_int_iadd|exact Hs'].
Qed.

Lemma fo_int_penaliza_r1_r5 P st : in_int st.1 -> in_int (penaliza_r1_r5 P st).1.
Proof.
  intros H. unfold penaliza_r1_r5.
  apply (para_preserva (fun s : Z * Globais => in_int s.1)); [exact H|].
  intros i s _ Hs. cbv zeta. repeat case_decide; simpl; try exact Hs; apply in_int_iadd.
Qed.

Lemma fo_int_penaliza_r9 P st : in_int st.1 -> in_int (penaliza_r9 P st).1.
Proof.
  intros H. unfold penaliza_r9.
  apply (para_preserva (fun s : Z * Globais => in_int s.1)); [exact H|].
  intros i s _ Hs. cbv zeta. case_decide; [apply in_int_iadd|exact Hs].
Qed.

Lemma fo_int_penaliza_r11 P st : in_int st.1 -> in_int (penaliza_r11 P st).1.
Proof.
  intros H. unfold penaliza_r11.
  apply (para_preserva (fun s : Z * Globais => in_int s.1)); [exact H|].
  intros i s _ Hs.
  apply (para_preserva (fun s : Z * Globais => in_int s.1)); [exact Hs|].
  intros j s' _ Hs'. case_decide; [apply in_int_iadd|exact Hs'].
Qed.

(** C8, as amended. The accumulator of the objective is a C [int] (32
    bits): [calcula_FO] is declared [int] and so is the field [fo], the
    value returned always lies between [INT_MIN] and [INT_MAX], and a sum of
    penalties beyond [INT_MAX] is not represented (it wraps around). *)
Theorem calcula_FO_int P I G g :
  INT_MIN <= (calcula_FO P I G g).1 <= INT_MAX.
Proof.
  unfold calcula_FO.
  apply fo_int_penaliza_r11, fo_int_penaliza_r9, fo_int_penaliza_r1_r5,
    fo_int_penaliza_r2, fo_int_laco_principal, in_int_0.
Qed.

(** ** Simulated Annealing: the best solution *)

Section Melhor.

Variable rand : nat -> Z.
Variable randomDouble_fp : Z -> Q -> Q -> Q.
Variables flt dbl : Q -> Q.
Variable exp_fp : Z -> Q -> Q.
Variable P : Instancia.
Variable Itg : Integral.

Local Abbreviation passo := (passo_SA rand randomDouble_fp flt dbl exp_fp P Itg).
Local Abbreviation iteracao' := (iteracao rand randomDouble_fp exp_fp P Itg).

(** A round of the inner loop either keeps [melhor] or replaces it by the
    neighbour just accepted, whose [fo] is strictly smaller. *)
Lemma iteracao_melhor fuel r r' :
  iteracao' fuel r = Some r' ->
  melhor r' = melhor r
  \/ (melhor r' = copiaMatriz P (melhor r) (atual r')
      /\ atual r' = copiaMatriz P (atual r) (viz r')
      /\ fo (viz r') < fo (melhor r)).
Proof.
  unfold iteracao. intros H.
  destruct (geraViz _ _ _ _ _ _) as [e|]; simpl in H; [|discriminate].
  repeat case_decide; injection H as <-; simpl; auto.
Qed.

Lemma passo_melhor r r' :
  passo r r' ->
  melhor r' = melhor r
  \/ (melhor r' = copiaMatriz P (melhor r) (atual r')
      /\ atual r' = copiaMatriz P (atual r) (viz r')
      /\ fo (viz r') < fo (melhor r)).
Proof.
  intros H. destruct H as [r Hc|fuel r r' Hit|r].
  - left. unfold ajusta. destruct (if Qlt_bool 1000 (T r) then _ else _). reflexivity.
  - apply (iteracao_melhor fuel). exact Hit.
  - left. unfold resfria. case_match; reflexivity.
Qed.

Lemma passo_melhor_fo r r' : passo r r' -> fo (melhor r') <= fo (melhor r).
Proof.
  intros H. destruct (passo_melhor r r' H) as [->|(-> & -> & Hlt)]; [lia|].
  simpl. lia.
Qed.

Lemma rtc_melhor_fo r r' : rtc passo r r' -> fo (melhor r') <= fo (melhor r).
Proof.
  induction 1 as [r|r r1 r2 Hp _ IH]; [lia|].
  pose proof (passo_melhor_fo r r1 Hp). lia.
Qed.

Lemma laco_interno_rtc fuel vezes r r' :
  laco_interno rand randomDouble_fp exp_fp P Itg fuel vezes r = Some r' -> rtc passo r r'.
Proof.
  revert r. induction vezes as [|vezes IH]; intros r H; simpl in H.
  - injection H as <-. apply rtc_refl.
  - destruct (iteracao' fuel r) as [r1|] eqn:Hit; simpl in H; [|discriminate].
    eapply rtc_l; [apply (passo_iteracao _ _ _ _ _ _ _ fuel); exact Hit|].
    apply IH. exact H.
Qed.

Lemma laco_SA_rtc fuel rodadas r r' :
  laco_SA rand randomDouble_fp flt dbl exp_fp P Itg fuel rodadas r = Some r' ->
  rtc passo r r'.
Proof.
  revert r. induction rodadas as [|rodadas IH]; intros r H; simpl in H.
  - destruct (continua_SA flt dbl r); [discriminate|].
    injection H as <-. apply rtc_refl.
  - destruct (continua_SA flt dbl r) eqn:Hc; [|injection H as <-; apply rtc_refl].
    destruct (laco_interno _ _ _ _ _ _ _ _) as [r1|] eqn:Hin; simpl in H; [|discriminate].
    eapply rtc_l; [apply passo_ajusta; exact Hc|].
    etransitivity; [apply (laco_interno_rtc _ _ _ _ Hin)|].
    eapply rtc_l; [apply passo_resfria|].
    apply IH. exact H.
Qed.

(** C4. In a run of [SA(inicial)], [melhor] starts as the initial
    solution; every piece of the loop body either leaves [melhor] as it is
    or replaces it by the neighbour just accepted into [atual], whose [fo]
    is strictly below the [fo] of the [melhor] it replaces; hence at every
    point of the loop [melhor.fo] is at most its value at every earlier
    point; and the solution returned is the [melhor] of the last point. *)
Theorem melhor_fo_monotono fuel rodadas inicial G k m G' k' :
  SA rand randomDouble_fp flt dbl exp_fp P Itg fuel rodadas inicial G k = Some (m, G', k') ->
  fo (melhor (inicio_SA P inicial G k)) = fo inicial
  /\ (forall r r', passo r r' ->
        melhor r' = melhor r
        \/ (melhor r' = copiaMatriz P (melhor r) (atual r')
            /\ atual r' = copiaMatriz P (atual r) (viz r')
            /\ fo (viz r') < fo (melhor r)))
  /\ (forall r1 r2, rtc passo (inicio_SA P inicial G k) r1 -> rtc passo r1 r2 ->
        fo (melhor r2) <= fo (melhor r1))
  /\ (exists rf, rtc passo (inicio_SA P inicial G k) rf /\ m = melhor rf
                 /\ fo m <= fo inicial).
Proof.
  intros H. unfold SA in H.
  destruct (laco_SA _ _ _ _ _ _ _ _ _ _) as [rf|] eqn:Hl; simpl in H; [|discriminate].
  injection H as <- <- <-.
  split; [reflexivity|]. split; [exact passo_melhor|].
  split; [intros r1 r2 _ H12; apply rtc_melhor_fo; exact H12|].
  exists rf. pose proof (laco_SA_rtc _ _ _ _ Hl) as Hr.
  split; [exact Hr|]. split; [reflexivity|].
  apply (rtc_melhor_fo _ _ Hr).
Qed.

End Melhor.

(** ** Exchanges of cells keep the lectures *)

Lemma ocorrencias_app c (l1 l2 : list (list Z)) :
  ocorrencias c (l1 ++ l2) = ocorrencias c l1 + ocorrencias c l2.
Proof.
  unfold ocorrencias. rewrite concat_app, filter_app, length_app. lia.
Qed.

Lemma ocorrencias_cons c (row : list Z) (l : list (list Z)) :
  ocorrencias c (row :: l) = ocorrencias c [row] + ocorrencias c l.
Proof. apply (ocorrencias_app c [row] l). Qed.

Lemma ocorrencias_linha c (row : list Z) j old v :
  row !! j = Some old ->
  ocorrencias c [<[j := v]> row]
  = ocorrencias c [row] - um_se (old = c) + um_se (v = c).
Proof.
  unfold ocorrencias, um_se. simpl. rewrite !app_nil_r.
  revert j. induction row as [|x row IH]; intros j Hj; [discriminate|].
  destruct j as [|j]; simpl in *.
  - injection Hj as ->. rewrite !filter_cons.
    repeat case_decide; simpl; lia.
  - specialize (IH j Hj). rewrite !filter_cons.
    destruct (decide (x = c)); simpl; lia.
Qed.

Lemma ler2_Some (m : list (list Z)) i j x :
  ler2 m i j = Some x ->
  0 <= i /\ 0 <= j
  /\ exists row, m !! Z.to_nat i = Some row /\ row !! Z.to_nat j = Some x.
Proof.
  unfold ler2, ler. intros H. case_decide; [|discriminate].
  destruct (m !! Z.to_nat i) as [row|] eqn:Hrow; simpl in H; [|discriminate].
  case_decide; [|discriminate]. eauto.
Qed.

Lemma ler2_intro (m : list (list Z)) i j row x :
  0 <= i -> 0 <= j -> m !! Z.to_nat i = Some row -> row !! Z.to_nat j = Some x ->
  ler2 m i j = Some x.
Proof.
  intros Hi Hj Hrow Hx. unfold ler2, ler. rewrite decide_True by exact Hi.
  rewrite Hrow. simpl. rewrite decide_True by exact Hj. exact Hx.
Qed.

Lemma mset_insert (m : list (list Z)) i j v row :
  0 <= i -> 0 <= j -> m !! Z.to_nat i = Some row ->
  mset m i j v = <[Z.to_nat i := <[Z.to_nat j := v]> row]> m.
Proof.
  intros Hi Hj Hrow. unfold mset, vset. rewrite decide_True by exact Hi.
  apply list_eq. intros k. destruct (decide (Z.to_nat i = k)) as [<-|Hne].
  - rewrite list_lookup_alter_eq, Hrow. simpl. rewrite decide_True by exact Hj.
    rewrite list_lookup_insert_eq; [reflexivity|]. eapply lookup_lt_Some. exact Hrow.
  - rewrite list_lookup_alter_ne, list_lookup_insert_ne by exact Hne. reflexivity.
Qed.

(** Writing [v] over [old] removes one occurrence of [old] and adds one
    of [v]. *)
Lemma ocorrencias_mset c (m : list (list Z)) i j old v :
  ler2 m i j = Some old ->
  ocorrencias c (mset m i j v) = ocorrencias c m - um_se (old = c) + um_se (v = c).
Proof.
  intros H. destruct (ler2_Some _ _ _ _ H) as (Hi & Hj & row & Hrow & Hx).
  rewrite (mset_insert m i j v row Hi Hj Hrow).
  rewrite insert_take_drop by (eapply lookup_lt_Some; exact Hrow).
  rewrite <- (take_drop_middle m (Z.to_nat i) row Hrow) at 3.
  rewrite !ocorrencias_app.
  rewrite (ocorrencias_cons c (<[Z.to_nat j:=v]> row)), (ocorrencias_cons c row).
  rewrite (ocorrencias_linha c row (Z.to_nat j) old v Hx). lia.
Qed.

Lemma ler2_mset (m : list (list Z)) i j old v i' j' :
  ler2 m i j = Some old ->
  ler2 (mset m i j v) i' j' = if decide (i = i' /\ j = j') then Some v else ler2 m i' j'.
Proof.
  intros H. destruct (ler2_Some _ _ _ _ H) as (Hi & Hj & row & Hrow & Hx).
  rewrite (mset_insert m i j v row Hi Hj Hrow).
  case_decide as Heq.
  - destruct Heq as [<- <-].
    apply (ler2_intro _ _ _ (<[Z.to_nat j:=v]> row)); try assumption.
    + apply list_lookup_insert_eq. eapply lookup_lt_Some. exact Hrow.
    + apply list_lookup_insert_eq. eapply lookup_lt_Some. exact Hx.
  - unfold ler2, ler. destruct (decide (0 <= i')); [|reflexivity].
    destruct (decide (i = i')) as [<-|Hne].
    + rewrite list_lookup_insert_eq by (eapply lookup_lt_Some; exact Hrow).
      rewrite Hrow. simpl. destruct (decide (0 <= j')); [|reflexivity].
      apply list_lookup_insert_ne. intros E. apply Heq. split; [reflexivity|lia].
    + rewrite list_lookup_insert_ne by lia. reflexivity.
Qed.

Lemma escreve2_Some (m : list (list Z)) i j v m' :
  escreve2 m i j v = Some m' -> exists old, ler2 m i j = Some old /\ m' = mset m i j v.
Proof.
  unfold escreve2. intros H.
  destruct (ler2 m i j) as [old|]; simpl in H; [|discriminate].
  injection H as <-. eauto.
Qed.

Lemma forma_escreve2 (m : list (list Z)) i j v m' :
  escreve2 m i j v = Some m' -> map length m' = map length m.
Proof.
  intros H. destruct (escreve2_Some _ _ _ _ _ H) as (old & _ & ->). apply forma_mset.
Qed.

Lemma mesma_carga_refl g : mesma_carga g g.
Proof. split; [reflexivity|intros; reflexivity]. Qed.

Lemma mesma_carga_trans g1 g2 g3 :
  mesma_carga g1 g2 -> mesma_carga g2 g3 -> mesma_carga g1 g3.
Proof.
  intros [F1 C1] [F2 C2]. split; [congruence|].
  intros c. rewrite C2, C1. reflexivity.
Qed.

(** [aux2 = n[a][b]; n[a][b] = n[c][d]; n[c][d] = aux2;] *)
Lemma troca_carga g a b c d r : troca g a b c d = Some r -> mesma_carga g r.1.
Proof.
  unfold troca. intros H.
  destruct (ler2 g a b) as [aux2|] eqn:E1; simpl in H; [|discriminate].
  destruct (ler2 g c d) as [v|] eqn:E2; simpl in H; [|discriminate].
  destruct (escreve2 g a b v) as [g1|] eqn:E3; simpl in H; [|discriminate].
  destruct (escreve2 g1 c d aux2) as [g2|] eqn:E4; simpl in H; [|discriminate].
  injection H as <-. simpl.
  destruct (escreve2_Some _ _ _ _ _ E3) as (o1 & Ho1 & ->).
  destruct (escreve2_Some _ _ _ _ _ E4) as (o2 & Ho2 & ->).
  split; [rewrite !forma_mset; reflexivity|]. intros x.
  rewrite (ocorrencias_mset x _ c d o2 aux2 Ho2).
  rewrite (ocorrencias_mset x g a b o1 v Ho1).
  rewrite (ler2_mset g a b o1 v c d Ho1) in Ho2.
  assert (o1 = aux2) by congruence. subst o1.
  assert (o2 = v) as ->.
  { case_decide as Heq; [congruence|]. congruence. }
  lia.
Qed.

(** [aux2 = n[per][sal]; n[per][sal] = -1; n[k][l] = aux2;] into an empty
    cell [(k, l)]. *)
Lemma realoca_carga g per sal k l r :
  ler2 g k l = Some (-1) -> realoca g per sal k l = Some r -> mesma_carga g r.1.
Proof.
  unfold realoca. intros Hkl H.
  destruct (ler2 g per sal) as [aux2|] eqn:E1; simpl in H; [|discriminate].
  destruct (escreve2 g per sal (-1)) as [g1|] eqn:E3; simpl in H; [|discriminate].
  destruct (escreve2 g1 k l aux2) as [g2|] eqn:E4; simpl in H; [|discriminate].
  injection H as <-. simpl.
  destruct (escreve2_Some _ _ _ _ _ E3) as (o1 & Ho1 & ->).
  destruct (escreve2_Some _ _ _ _ _ E4) as (o2 & Ho2 & ->).
  split; [rewrite !forma_mset; reflexivity|]. intros x.
  rewrite (ocorrencias_mset x _ k l o2 aux2 Ho2).
  rewrite (ocorrencias_mset x g per sal o1 (-1) Ho1).
  rewrite (ler2_mset g per sal o1 (-1) k l Ho1) in Ho2.
  assert (o1 = aux2) by congruence. subst o1.
  assert (o2 = -1) as ->.
  { case_decide as Heq; congruence. }
  lia.
Qed.

(** [n[k][l] = n[per][sal]; n[per][sal] = -1;] into an empty cell [(k, l)]. *)
Lemma transfere_carga g per sal k l g' :
  ler2 g k l = Some (-1) -> transfere g per sal k l = Some g' -> mesma_carga g g'.
Proof.
  unfold transfere. intros Hkl H.
  destruct (ler2 g per sal) as [v|] eqn:E1; simpl in H; [|discriminate].
  destruct (escreve2 g k l v) as [g1|] eqn:E3; simpl in H; [|discriminate].
  destruct (escreve2_Some _ _ _ _ _ E3) as (o1 & Ho1 & ->).
  destruct (escreve2_Some _ _ _ _ _ H) as (o2 & Ho2 & ->).
  split; [rewrite !forma_mset; reflexivity|]. intros x.
  rewrite (ocorrencias_mset x _ per sal o2 (-1) Ho2).
  rewrite (ocorrencias_mset x g k l o1 v Ho1).
  rewrite (ler2_mset g k l o1 v per sal Ho1) in Ho2.
  assert (o1 = -1) by congruence. subst o1.
  assert (o2 = v) as ->.
  { case_decide as Heq; [congruence|]. congruence. }
  lia.
Qed.

(** ** Every move class keeps the lectures of the grid *)

(** Takes apart a hypothesis [H : ... = Some _] of the option monad:
    binds, tests and pairs, one layer at a time. *)
Ltac abre H :=
  repeat (simpl in H;
          match type of H with
          | None = Some _ => discriminate H
          | (match ?m with Some _ => _ | None => None end) = Some _ =>
              let E := fresh "E" in destruct m eqn:E; [|discriminate H]
          | (?m ≫= _) = Some _ =>
              let E := fresh "E" in destruct m eqn:E; [|discriminate H]
          | (if decide ?Q then _ else _) = Some _ =>
              let D := fresh "D" in destruct (decide Q) as [D|D]
          | (if ?b then _ else _) = Some _ =>
              let D := fresh "D" in destruct b eqn:D
          | (let '(_, _) := ?x in _) = Some _ => destruct x
          | (match ?m with _ => _ end) = Some _ =>
              let E := fresh "E" in destruct m eqn:E
          end);
  simpl in H.

Ltac fecha_carga IH :=
  match goal with
  | H : Some _ = Some _ |- _ => injection H as <-
  | H : _ = Some _ |- _ => apply IH in H
  | _ => idtac
  end;
  cbn [fst snd grade indices sorteios com_grade com_indices com_sorteios] in *;
  repeat match goal with
  | D : _ /\ _ |- _ => destruct D
  | E : (if decide ?Q then _ else _) = Some _ |- _ => destruct (decide Q)
  end;
  repeat match goal with
  | H : troca _ _ _ _ _ = Some _ |- _ => apply troca_carga in H
  | H : realoca ?g _ _ ?k ?l = Some _, E : ler2 ?g ?k ?l = Some ?c |- _ =>
      apply realoca_carga in H; [|congruence]
  | H : transfere ?g _ _ ?k ?l = Some _, E : ler2 ?g ?k ?l = Some ?c |- _ =>
      apply transfere_carga in H; [|congruence]
  end;
  eauto using mesma_carga_refl, mesma_carga_trans.

Section Carga.

Variable rand : nat -> Z.
Variable randomDouble_fp : Z -> Q -> Q -> Q.
Variable P : Instancia.

Lemma laco_trocas_carga sorteia fuel aux e e' :
  laco_trocas sorteia fuel aux e = Some e' -> mesma_carga (grade e) (grade e').
Proof.
  revert aux e. induction fuel as [|fuel IH]; intros aux e H; simpl in H.
  - abre H. fecha_carga IH.
  - abre H; fecha_carga IH.
Qed.

Lemma trocas_aleatorias_carga sorteia fuel limite e e' :
  trocas_aleatorias rand randomDouble_fp sorteia fuel limite e = Some e' ->
  mesma_carga (grade e) (grade e').
Proof. unfold trocas_aleatorias. intros H. apply laco_trocas_carga in H. exact H. Qed.

(** Proof pattern shared by the loops: induction on the fuel, one round
    of the loop taken apart, the recursive call closed by the induction
    hypothesis. *)
Ltac laco_carga :=
  match goal with
  | |- forall fuel : nat, _ =>
      induction fuel as [|fuel IH]; intros *;
      intros H; simpl in H; abre H; fecha_carga IH
  end.

Lemma laco_r2_prof_carga : forall fuel per sal e e',
  laco_r2_prof rand randomDouble_fp P fuel per sal e = Some e' ->
  mesma_carga (grade e) (grade e').
Proof. laco_carga. Qed.

Lemma laco_r2_curso_carga : forall fuel per sal e e',
  laco_r2_curso rand randomDouble_fp P fuel per sal e = Some e' ->
  mesma_carga (grade e) (grade e').
Proof. laco_carga. Qed.

Lemma laco_r6_carga : forall fuel tentativas r6_i r6_j aux3 e e',
  laco_r6 rand randomDouble_fp P fuel tentativas r6_i r6_j aux3 e = Some e' ->
  mesma_carga (grade e) (grade e').
Proof. laco_carga. Qed.

Lemma laco_r7_carga : forall fuel tentativas aux per sal aux3 e e',
  laco_r7 rand randomDouble_fp P fuel tentativas aux per sal aux3 e = Some e' ->
  mesma_carga (grade e) (grade e').
Proof. laco_carga. Qed.

Lemma laco_r8_carga : forall fuel tentativas per sal aux3 e e',
  laco_r8 rand randomDouble_fp P fuel tentativas per sal aux3 e = Some e' ->
  mesma_carga (grade e) (grade e').
Proof. laco_carga. Qed.

Lemma laco_r9_carga : forall fuel tentativas dia_destino per_fonte sala_fonte aux3 e e',
  laco_r9 rand randomDouble_fp P fuel tentativas dia_destino per_fonte sala_fonte aux3 e
  = Some e' ->
  mesma_carga (grade e) (grade e').
Proof. laco_carga. Qed.

Lemma laco_r10_carga : forall fuel tentativas aux per sal aux3 e e',
  laco_r10 rand randomDouble_fp P fuel tentativas aux per sal aux3 e = Some e' ->
  mesma_carga (grade e) (grade e').
Proof. laco_carga. Qed.

Lemma laco_r11_carga : forall fuel tentativas dia_r11 per_r11 sal_r11 aux3 e e',
  laco_r11 rand randomDouble_fp P fuel tentativas dia_r11 per_r11 sal_r11 aux3 e = Some e' ->
  mesma_carga (grade e) (grade e').
Proof. laco_carga. Qed.

Ltac mov_carga :=
  intros H;
  match type of H with ?f _ _ _ _ _ _ = Some _ => unfold f in H end;
  abre H;
  repeat match goal with
  | E : laco_r2_prof _ _ _ _ _ _ _ = Some _ |- _ => apply laco_r2_prof_carga in E
  | E : laco_r2_curso _ _ _ _ _ _ _ = Some _ |- _ => apply laco_r2_curso_carga in E
  | E : laco_r6 _ _ _ _ _ _ _ _ _ = Some _ |- _ => apply laco_r6_carga in E
  | E : laco_r7 _ _ _ _ _ _ _ _ _ _ = Some _ |- _ => apply laco_r7_carga in E
  | E : laco_r8 _ _ _ _ _ _ _ _ _ = Some _ |- _ => apply laco_r8_carga in E
  | E : laco_r9 _ _ _ _ _ _ _ _ _ _ = Some _ |- _ => apply laco_r9_carga in E
  | E : laco_r10 _ _ _ _ _ _ _ _ _ _ = Some _ |- _ => apply laco_r10_carga in E
  | E : laco_r11 _ _ _ _ _ _ _ _ _ _ = Some _ |- _ => apply laco_r11_carga in E
  | E : trocas_aleatorias _ _ _ _ _ _ = Some _ |- _ => apply trocas_aleatorias_carga in E
  end;
  fecha_carga I.

Lemma mov_r2_prof_carga fuel tentativas e e' :
  mov_r2_prof rand randomDouble_fp P fuel tentativas e = Some e' ->
  mesma_carga (grade e) (grade e').
Proof. mov_carga. Qed.

Lemma mov_r2_curso_carga fuel tentativas e e' :
  mov_r2_curso rand randomDouble_fp P fuel tentativas e = Some e' ->
  mesma_carga (grade e) (grade e').
Proof. mov_carga. Qed.

Lemma mov_r6_carga fuel tentativas e e' :
  mov_r6 rand randomDouble_fp P fuel tentativas e = Some e' ->
  mesma_carga (grade e) (grade e').
Proof. mov_carga. Qed.

Lemma mov_r7_carga fuel tentativas e e' :
  mov_r7 rand randomDouble_fp P fuel tentativas e = Some e' ->
  mesma_carga (grade e) (grade e').
Proof. mov_carga. Qed.

Lemma mov_r8_carga fuel tentativas e e' :
  mov_r8 rand randomDouble_fp P fuel tentativas e = Some e' ->
  mesma_carga (grade e) (grade e').
Proof. mov_carga. Qed.

Lemma mov_r9_carga fuel tentativas e e' :
  mov_r9 rand randomDouble_fp P fuel tentativas e = Some e' ->
  mesma_carga (grade e) (grade e').
Proof. mov_carga. Qed.

Lemma mov_r10_carga fuel tentativas e e' :
  mov_r10 rand randomDouble_fp P fuel tentativas e = Some e' ->
  mesma_carga (grade e) (grade e').
Proof. mov_carga. Qed.

Lemma mov_r11_carga fuel tentativas e e' :
  mov_r11 rand randomDouble_fp P fuel tentativas e = Some e' ->
  mesma_carga (grade e) (grade e').
Proof. mov_carga. Qed.

End Carga.

(** ** The neighbourhood generator keeps the lectures of the grid *)

Lemma ocorrencias_pos (c : Z) (g : list (list Z)) :
  c ∈ concat g <-> 0 < ocorrencias c g.
Proof.
  unfold ocorrencias. split.
  - intros H.
    assert (Hc : c ∈ filter (fun x => x = c) (concat g))
      by (apply list_elem_of_filter; split; [reflexivity|exact H]).
    destruct (filter (fun x => x = c) (concat g)) as [|y l].
    + inversion Hc.
    + simpl. lia.
  - intros H.
    destruct (filter (fun x => x = c) (concat g)) as [|y l] eqn:E.
    + simpl in H. lia.
    + assert (Hy : y ∈ filter (fun x => x = c) (concat g))
        by (rewrite E; left).
      apply list_elem_of_filter in Hy as [-> Hy]. exact Hy.
Qed.

Lemma mesma_carga_elem (g g' : list (list Z)) (x : Z) :
  mesma_carga g g' -> x ∈ concat g' -> x ∈ concat g.
Proof.
  intros [_ H] Hx. apply ocorrencias_pos. rewrite <- H.
  apply ocorrencias_pos. exact Hx.
Qed.

Lemma geraViz_carga rand randomDouble_fp P fuel T e e' :
  geraViz rand randomDouble_fp P fuel T e = Some e' ->
  mesma_carga (grade e) (grade e').
Proof.
  intros H. unfold geraViz in H. cbv zeta in H.
  repeat match type of H with
  | (if decide ?Q then _ else _) = Some _ => destruct (decide Q)
  end;
  first [ apply mov_r2_prof_carga in H | apply mov_r2_curso_carga in H
        | apply mov_r6_carga in H | apply mov_r7_carga in H
        | apply mov_r8_carga in H | apply mov_r9_carga in H
        | apply mov_r10_carga in H | apply mov_r11_carga in H
        | apply trocas_aleatorias_carga in H ];
  exact H.
Qed.

(** C10. A call of [geraViz] that completes returns a grid of the same
    dimensions in which every value (every course, and the empty mark
    [-1]) fills exactly as many cells as before the call; hence every
    cell of the new grid holds a value that the old grid already held:
    no lecture is created, duplicated or deleted by any of the eleven
    move branches. *)
Theorem geraViz_preserva_aulas rand randomDouble_fp P fuel T e e' :
  geraViz rand randomDouble_fp P fuel T e = Some e' ->
  map length (grade e') = map length (grade e)
  /\ length (grade e') = length (grade e)
  /\ (forall c, ocorrencias c (grade e') = ocorrencias c (grade e))
  /\ (forall x, x ∈ concat (grade e') -> x ∈ concat (grade e)).
Proof.
  intros H. apply geraViz_carga in H.
  split; [exact (proj1 H)|]. split.
  - rewrite <- (length_map length (grade e')), (proj1 H). apply length_map.
  - split; [exact (proj2 H)|].
    intros x. apply mesma_carga_elem. exact H.
Qed.

(** ** What each targeted class does to its witness and its counter *)

Ltac fecha_indices IH :=
  match goal with
  | H : Some _ = Some _ |- _ => injection H as <-
  | H : _ = Some _ |- _ => apply IH in H
  | _ => idtac
  end;
  cbn [fst snd grade indices sorteios com_grade com_indices com_sorteios] in *;
  repeat match goal with
  | E : (if decide ?Q then _ else _) = Some _ |- _ => destruct (decide Q)
  end;
  try congruence.

Ltac laco_indices :=
  match goal with
  | |- forall fuel : nat, _ =>
      induction fuel as [|fuel IH]; intros *; intros H; simpl in H; abre H;
      fecha_indices IH
  end.

Section Indices.
Variable rand : nat -> Z.
Variable randomDouble_fp : Z -> Q -> Q -> Q.
Variable P : Instancia.

Lemma laco_trocas_indices sorteia : forall fuel aux e e',
  laco_trocas sorteia fuel aux e = Some e' -> indices e' = indices e.
Proof. laco_indices. Qed.

Lemma trocas_aleatorias_indices sorteia fuel limite e e' :
  trocas_aleatorias rand randomDouble_fp sorteia fuel limite e = Some e' ->
  indices e' = indices e.
Proof.
  unfold trocas_aleatorias. intros H. apply laco_trocas_indices in H. exact H.
Qed.

Lemma laco_r2_prof_indices : forall fuel per sal e e',
  laco_r2_prof rand randomDouble_fp P fuel per sal e = Some e' ->
  indices e' = indices e.
Proof. laco_indices. Qed.

Lemma laco_r2_curso_indices : forall fuel per sal e e',
  laco_r2_curso rand randomDouble_fp P fuel per sal e = Some e' ->
  indices e' = indices e.
Proof. laco_indices. Qed.

Lemma laco_r7_indices : forall fuel tentativas aux per sal aux3 e e',
  laco_r7 rand randomDouble_fp P fuel tentativas aux per sal aux3 e = Some e' ->
  indices e' = indices e.
Proof. laco_indices. Qed.

Lemma laco_r8_indices : forall fuel tentativas per sal aux3 e e',
  laco_r8 rand randomDouble_fp P fuel tentativas per sal aux3 e = Some e' ->
  indices e' = indices e.
Proof. laco_indices. Qed.

Lemma laco_r9_indices : forall fuel tentativas dia per sal aux3 e e',
  laco_r9 rand randomDouble_fp P fuel tentativas dia per sal aux3 e = Some e' ->
  indices e' = indices e.
Proof. laco_indices. Qed.

Lemma laco_r10_indices : forall fuel tentativas aux per sal aux3 e e',
  laco_r10 rand randomDouble_fp P fuel tentativas aux per sal aux3 e = Some e' ->
  indices e' = indices e.
Proof. laco_indices. Qed.

Lemma laco_r11_indices : forall fuel tentativas dia per sal aux3 e e',
  laco_r11 rand randomDouble_fp P fuel tentativas dia per sal aux3 e = Some e' ->
  indices e' = indices e.
Proof. laco_indices. Qed.

Lemma laco_r6_violadas : forall fuel tentativas r6_i r6_j aux3 e e',
  laco_r6 rand randomDouble_fp P fuel tentativas r6_i r6_j aux3 e = Some e' ->
  restricoes_violadas (indices e') = restricoes_violadas (indices e).
Proof.
  laco_indices; cbn [restricoes_violadas com_aux_mov_r6] in *; congruence.
Qed.

Lemma busca_testemunha_ok (le : Z -> option Z) : forall fuel i s t,
  busca_testemunha rand randomDouble_fp P le fuel i s = Some t ->
  exists w, le t.1 = Some w /\ w <> -1.
Proof.
  induction fuel as [|fuel IH]; intros i s t H; simpl in H; [discriminate|].
  abre H.
  - injection H as <-. eauto.
  - injection H as <-. eauto.
  - eapply IH. exact H.
Qed.

Lemma busca_r6_ok : forall fuel k l e i j s,
  busca_r6 rand randomDouble_fp P fuel k l e = Some (i, j, s) ->
  exists w, ler2 (aux_mov_r6 (indices e)) i j = Some w /\ w <> -1 /\ w <> -2.
Proof.
  induction fuel as [|fuel IH]; intros k l e i j s H; simpl in H; [discriminate|].
  abre H.
  - apply IH in H. exact H.
  - injection H as <- <- <-. eauto.
  - apply IH in H. exact H.
  - injection H as <- <- <-. eauto.
  - apply IH in H. exact H.
Qed.

Lemma escreve_Some (v : list Z) i x v' :
  escreve v i x = Some v' ->
  (exists old, ler v i = Some old) /\ v' = vset v i x /\ ler v' i = Some x.
Proof.
  unfold escreve. intros H.
  destruct (ler v i) as [old|] eqn:E; simpl in H; [|discriminate].
  injection H as <-. split; [eauto|]. split; [reflexivity|].
  unfold ler in *. destruct (decide (0 <= i)); [|discriminate].
  unfold vset. rewrite decide_True by assumption.
  apply list_lookup_insert_eq. eapply lookup_lt_Some. exact E.
Qed.

Lemma escreve2_le (m : list (list Z)) i j x m' :
  escreve2 m i j x = Some m' -> ler2 m' i j = Some x.
Proof.
  intros H. destruct (escreve2_Some _ _ _ _ _ H) as (old & Ho & ->).
  rewrite (ler2_mset _ _ _ _ _ _ _ Ho). apply decide_True. split; reflexivity.
Qed.

Lemma mov_r2_prof_alvo fuel tentativas e e' :
  1 < irem (vget (restricoes_violadas (indices e)) 2) 1000 ->
  mov_r2_prof rand randomDouble_fp P fuel tentativas e = Some e' ->
  exists aux w,
    ler (aux_mov_r21 (indices e)) aux = Some w /\ w <> -1
    /\ aux_mov_r21 (indices e') = vset (aux_mov_r21 (indices e)) aux (-1)
    /\ ler (aux_mov_r21 (indices e')) aux = Some (-1)
    /\ restricoes_violadas (indices e')
       = vinc (restricoes_violadas (indices e)) 2 (-1).
Proof.
  intros Hc H. unfold mov_r2_prof in H. rewrite decide_True in H by exact Hc.
  abre H. injection H as <-.
  apply busca_testemunha_ok in E as (w & Hw & Hne).
  apply laco_r2_prof_indices in E1. cbn in E1. rewrite E1 in E2 |- *.
  apply escreve_Some in E2 as (_ & -> & Hl).
  exists p.1, w. cbn. auto.
Qed.

Lemma mov_r2_prof_sem_alvo fuel tentativas e e' :
  ~ 1 < irem (vget (restricoes_violadas (indices e)) 2) 1000 ->
  mov_r2_prof rand randomDouble_fp P fuel tentativas e = Some e' ->
  indices e' = indices e.
Proof.
  intros Hc H. unfold mov_r2_prof in H. rewrite decide_False in H by exact Hc.
  apply trocas_aleatorias_indices in H. exact H.
Qed.

Lemma mov_r2_curso_alvo fuel tentativas e e' :
  1000 < vget (restricoes_violadas (indices e)) 2 ->
  mov_r2_curso rand randomDouble_fp P fuel tentativas e = Some e' ->
  exists aux w,
    ler (aux_mov_r22 (indices e)) aux = Some w /\ w <> -1
    /\ aux_mov_r22 (indices e') = vset (aux_mov_r22 (indices e)) aux (-1)
    /\ ler (aux_mov_r22 (indices e')) aux = Some (-1)
    /\ restricoes_violadas (indices e')
       = vinc (restricoes_violadas (indices e)) 2 (-1000).
Proof.
  intros Hc H. unfold mov_r2_curso in H. rewrite decide_True in H by exact Hc.
  abre H. injection H as <-.
  apply busca_testemunha_ok in E as (w & Hw & Hne).
  apply laco_r2_curso_indices in E1. cbn in E1. rewrite E1 in E2 |- *.
  apply escreve_Some in E2 as (_ & -> & Hl).
  exists p.1, w. cbn. auto.
Qed.

Lemma mov_r2_curso_sem_alvo fuel tentativas e e' :
  ~ 1000 < vget (restricoes_violadas (indices e)) 2 ->
  mov_r2_curso rand randomDouble_fp P fuel tentativas e = Some e' ->
  indices e' = indices e.
Proof.
  intros Hc H. unfold mov_r2_curso in H. rewrite decide_False in H by exact Hc.
  apply trocas_aleatorias_indices in H. exact H.
Qed.

Lemma mov_r6_alvo fuel tentativas e e' :
  mov_r6 rand randomDouble_fp P fuel tentativas e = Some e' ->
  exists r6_i r6_j w,
    ler2 (aux_mov_r6 (indices e)) r6_i r6_j = Some w /\ w <> -1
    /\ ler2 (aux_mov_r6 (indices e')) r6_i r6_j = Some (-1)
    /\ restricoes_violadas (indices e')
       = vinc (restricoes_violadas (indices e)) 6 (-2).
Proof.
  intros H. unfold mov_r6 in H. abre H. injection H as <-.
  apply busca_r6_ok in E as (w & Hw & Hne & _).
  apply laco_r6_violadas in E0. cbn in E0.
  apply escreve2_le in E1.
  exists z, z0, w. cbn. rewrite E0. auto.
Qed.

Lemma mov_r7_alvo fuel tentativas e e' :
  mov_r7 rand randomDouble_fp P fuel tentativas e = Some e' ->
  exists aux w,
    ler2 (aux_mov_r7 (indices e)) aux 0 = Some w /\ w <> -1
    /\ ler2 (aux_mov_r7 (indices e')) aux 0 = Some (-1)
    /\ ler2 (aux_mov_r7 (indices e')) aux 1 = Some (-1)
    /\ restricoes_violadas (indices e')
       = vinc (restricoes_violadas (indices e)) 7 (-1).
Proof.
  intros H. unfold mov_r7 in H. abre H. injection H as <-.
  apply busca_testemunha_ok in E as (w & Hw & Hne).
  apply laco_r7_indices in E1. cbn in E1. rewrite E1 in E2 |- *.
  pose proof (escreve2_le _ _ _ _ _ E2) as H0.
  pose proof (escreve2_le _ _ _ _ _ E3) as H1.
  destruct (escreve2_Some _ _ _ _ _ E3) as (old & Ho & ->).
  exists p.1, w. cbn. repeat split; try assumption.
  rewrite (ler2_mset _ _ _ _ _ _ _ Ho), decide_False by (intros [_ ?]; lia).
  exact H0.
Qed.

Lemma mov_r8_alvo fuel tentativas e e' :
  mov_r8 rand randomDouble_fp P fuel tentativas e = Some e' ->
  aux_mov_r8 (indices e') = aux_mov_r8 (indices e)
  /\ (exists aux, r8 (indices e') = vset (r8 (indices e)) aux (-1))
  /\ restricoes_violadas (indices e')
     = vinc (restricoes_violadas (indices e)) 8 (-1).
Proof.
  intros H. unfold mov_r8 in H. cbv zeta in H. abre H. injection H as <-.
  apply laco_r8_indices in E0. cbn in E0. rewrite E0 in E1 |- *.
  apply escreve_Some in E1 as (_ & -> & _).
  cbn. eauto.
Qed.

Lemma mov_r9_indices fuel tentativas e e' :
  mov_r9 rand randomDouble_fp P fuel tentativas e = Some e' ->
  indices e' = indices e.
Proof.
  intros H. unfold mov_r9 in H. abre H;
    try (apply laco_r9_indices in H; cbn in H; exact H);
    injection H as <-; reflexivity.
Qed.

Lemma mov_r10_alvo fuel tentativas e e' :
  mov_r10 rand randomDouble_fp P fuel tentativas e = Some e' ->
  exists aux w,
    ler2 (aux_mov_r10 (indices e)) aux 0 = Some w /\ w <> -1
    /\ ler2 (aux_mov_r10 (indices e')) aux 0 = Some (-1)
    /\ ler2 (aux_mov_r10 (indices e')) aux 1 = Some (-1)
    /\ restricoes_violadas (indices e')
       = vinc (restricoes_violadas (indices e)) 10 (-1).
Proof.
  intros H. unfold mov_r10 in H. abre H. injection H as <-.
  apply busca_testemunha_ok in E as (w & Hw & Hne).
  apply laco_r10_indices in E1. cbn in E1. rewrite E1 in E2 |- *.
  pose proof (escreve2_le _ _ _ _ _ E2) as H0.
  pose proof (escreve2_le _ _ _ _ _ E3) as H1.
  destruct (escreve2_Some _ _ _ _ _ E3) as (old & Ho & ->).
  exists p.1, w. cbn. repeat split; try assumption.
  rewrite (ler2_mset _ _ _ _ _ _ _ Ho), decide_False by (intros [_ ?]; lia).
  exact H0.
Qed.

Lemma busca_r11_ok (m : list (list Z)) : forall cels d per sal,
  busca_r11 m cels = Some (Some (d, per, sal)) ->
  ler2 m per sal = Some d /\ d <> -1.
Proof.
  induction cels as [|[p s] cels IH]; intros d per sal H; simpl in H;
    [discriminate|].
  abre H.
  - injection H as <- <- <-. auto.
  - apply IH. exact H.
Qed.

Lemma mov_r11_alvo fuel tentativas e e' :
  mov_r11 rand randomDouble_fp P fuel tentativas e = Some e' ->
  restricoes_violadas (indices e') = restricoes_violadas (indices e)
  /\ match busca_r11 (aux_mov_r11 (indices e)) (todas_celulas P) with
     | Some (Some (d, per, sal)) =>
         d <> -1 /\ ler2 (aux_mov_r11 (indices e)) per sal = Some d
         /\ ler2 (aux_mov_r11 (indices e')) per sal = Some (-1)
     | _ => indices e' = indices e
     end.
Proof.
  intros H. unfold mov_r11 in H.
  destruct (busca_r11 (aux_mov_r11 (indices e)) (todas_celulas P))
    as [[[[d per] sal]|]|] eqn:E; simpl in H; [| |discriminate].
  - abre H. injection H as <-.
    apply busca_r11_ok in E as [Hd Hne].
    apply laco_r11_indices in E0. rewrite E0 in E1 |- *.
    apply escreve2_le in E1. cbn. auto.
  - injection H as <-. auto.
Qed.

End Indices.

(** C6. What the eight targeted classes of [geraViz] leave in the
    witness arrays and in [restricoes_violadas] once their move is done.
    Five classes clear the witness they used and decrement their
    counter.  The teacher class of R2, taken with
    [restricoes_violadas[2] % 1000 > 1], sets its witness
    [aux_mov_r21[aux]] to [-1] and subtracts 1 from
    [restricoes_violadas[2]]; the curriculum class of R2, taken with
    [restricoes_violadas[2] > 1000], sets [aux_mov_r22[aux]] to [-1] and
    subtracts 1000; without these conditions the two classes do random
    swaps and change no index.  The R6 class sets
    [aux_mov_r6[r6_i][r6_j]] to [-1] and subtracts 2 from
    [restricoes_violadas[6]].  The R7 and R10 classes set both entries
    of their witness row to [-1] and subtract 1 from their counter.
    The other three classes depart from this.  The R8 class subtracts 1
    from [restricoes_violadas[8]], but its write of [-1] goes to
    [r8[aux]] where the other classes write their witness array, so
    [aux_mov_r8] comes back as it was.  The R9 class changes no index
    and no counter.  The R11 class sets the witness cell it found in
    [aux_mov_r11] to [-1] and does not decrement
    [restricoes_violadas[11]]. *)
Theorem classes_dirigidas_testemunha_e_contador
    (rand : nat -> Z) (randomDouble_fp : Z -> Q -> Q -> Q) (P : Instancia)
    (fuel : nat) (tentativas : Z) (e e' : Estado) :
  let v := restricoes_violadas (indices e) in
  let v' := restricoes_violadas (indices e') in
  (mov_r2_prof rand randomDouble_fp P fuel tentativas e = Some e' ->
     (1 < irem (vget v 2) 1000 ->
        exists aux w,
          ler (aux_mov_r21 (indices e)) aux = Some w /\ w <> -1
          /\ ler (aux_mov_r21 (indices e')) aux = Some (-1)
          /\ v' = vinc v 2 (-1))
     /\ (~ 1 < irem (vget v 2) 1000 -> indices e' = indices e))
  /\ (mov_r2_curso rand randomDouble_fp P fuel tentativas e = Some e' ->
     (1000 < vget v 2 ->
        exists aux w,
          ler (aux_mov_r22 (indices e)) aux = Some w /\ w <> -1
          /\ ler (aux_mov_r22 (indices e')) aux = Some (-1)
          /\ v' = vinc v 2 (-1000))
     /\ (~ 1000 < vget v 2 -> indices e' = indices e))
  /\ (mov_r6 rand randomDouble_fp P fuel tentativas e = Some e' ->
     exists r6_i r6_j w,
       ler2 (aux_mov_r6 (indices e)) r6_i r6_j = Some w /\ w <> -1
       /\ ler2 (aux_mov_r6 (indices e')) r6_i r6_j = Some (-1)
       /\ v' = vinc v 6 (-2))
  /\ (mov_r7 rand randomDouble_fp P fuel tentativas e = Some e' ->
     exists aux w,
       ler2 (aux_mov_r7 (indices e)) aux 0 = Some w /\ w <> -1
       /\ ler2 (aux_mov_r7 (indices e')) aux 0 = Some (-1)
       /\ ler2 (aux_mov_r7 (indices e')) aux 1 = Some (-1)
       /\ v' = vinc v 7 (-1))
  /\ (mov_r8 rand randomDouble_fp P fuel tentativas e = Some e' ->
     aux_mov_r8 (indices e') = aux_mov_r8 (indices e)
     /\ (exists aux, r8 (indices e') = vset (r8 (indices e)) aux (-1))
     /\ v' = vinc v 8 (-1))
  /\ (mov_r9 rand randomDouble_fp P fuel tentativas e = Some e' ->
     indices e' = indices e)
  /\ (mov_r10 rand randomDouble_fp P fuel tentativas e = Some e' ->
     exists aux w,
       ler2 (aux_mov_r10 (indices e)) aux 0 = Some w /\ w <> -1
       /\ ler2 (aux_mov_r10 (indices e')) aux 0 = Some (-1)
       /\ ler2 (aux_mov_r10 (indices e')) aux 1 = Some (-1)
       /\ v' = vinc v 10 (-1))
  /\ (mov_r11 rand randomDouble_fp P fuel tentativas e = Some e' ->
     v' = v
     /\ match busca_r11 (aux_mov_r11 (indices e)) (todas_celulas P) with
        | Some (Some (d, per, sal)) =>
            d <> -1 /\ ler2 (aux_mov_r11 (indices e)) per sal = Some d
            /\ ler2 (aux_mov_r11 (indices e')) per sal = Some (-1)
        | _ => indices e' = indices e
        end).
Proof.
  cbv zeta. repeat match goal with |- _ /\ _ => split end.
  - intros H. split; intros Hc.
    + destruct (mov_r2_prof_alvo _ _ _ _ _ _ _ Hc H)
        as (aux & w & ? & ? & _ & ? & ?).
      eauto 8.
    + eapply mov_r2_prof_sem_alvo; eassumption.
  - intros H. split; intros Hc.
    + destruct (mov_r2_curso_alvo _ _ _ _ _ _ _ Hc H)
        as (aux & w & ? & ? & _ & ? & ?).
      eauto 8.
    + eapply mov_r2_curso_sem_alvo; eassumption.
  - apply mov_r6_alvo.
  - apply mov_r7_alvo.
  - apply mov_r8_alvo.
  - apply mov_r9_indices.
  - apply mov_r10_alvo.
  - apply mov_r11_alvo.
Qed.

(** ** The failure counter of the initial construction *)

Lemma ler_disc_nonneg P j Dj : ler_disc P j = Some Dj -> 0 <= j.
Proof. unfold ler_disc. destruct (decide (0 <= j)); [auto|discriminate]. Qed.

Lemma escreve2_ok (m : list (list Z)) i j old x :
  ler2 m i j = Some old -> escreve2 m i j x = Some (mset m i j x).
Proof. intros H. unfold escreve2. rewrite H. reflexivity. Qed.

(** The second [if] of the loop body when the primary test has failed on
    an empty cell. *)
Lemma tentativa_reserva (g : list (list Z)) (i k j atribuicoes cont : Z) :
  ler2 g i k = Some (-1) ->
  (if decide (2 < iadd cont 1)
   then c ← ler2 g i k;
        if decide (c = -1)
        then g0 ← escreve2 g i k j;
             Some (g0, isub atribuicoes 1, isub (iadd cont 1) 3)
        else Some (g, atribuicoes, iadd cont 1)
   else Some (g, atribuicoes, iadd cont 1))
  = Some (if decide (-1 = -1 /\ 2 < iadd cont 1)
          then (mset g i k j, isub atribuicoes 1, isub (iadd cont 1) 3)
          else (g, atribuicoes, iadd cont 1)).
Proof.
  intros Hc. destruct (decide (2 < iadd cont 1)) as [H|H].
  - rewrite Hc. cbn [mbind option_bind]. rewrite decide_True by reflexivity.
    rewrite (escreve2_ok _ _ _ _ _ Hc). cbn [mbind option_bind].
    rewrite decide_True by (split; [reflexivity|exact H]). reflexivity.
  - rewrite decide_False by tauto. reflexivity.
Qed.

(** C7. One round of the [while] of [solucaoInicial] for course [j] and
    the drawn cell [(i, k)] holding [c].  The primary test accepts
    exactly when the cell is empty, the room holds the students of the
    course, the period is not forbidden by R4 and the type of the room
    is at least the type the course requires; the lecture is then placed
    and 3 is subtracted from [cont].  Otherwise [cont] goes up by one,
    and the lecture is forced into the cell exactly when the cell is
    empty and the new [cont] is above 2.  The counter is thus never put
    back to 0 between two lectures of a course: a success leaves
    [cont - 3], and the forced placement of the next lecture comes when
    the failures have made up for it, not at its third failed draw. *)
Theorem tentativa_contador (P : Instancia) (j i k : Z) (g : list (list Z))
    (atribuicoes cont c : Z) (Dj : Disciplina) (Sk : Sala) :
  ler2 g i k = Some c -> ler_disc P j = Some Dj -> ler_sala P k = Some Sk ->
  let primario := c = -1 /\ d_alunos Dj <= s_capacidade Sk
                  /\ restricaoR4 P j i = 0 /\ d_tipo_sala Dj <= s_tipo_sala Sk in
  tentativa P j i k (g, atribuicoes, cont)
  = Some (if decide primario
          then (mset g i k j, isub atribuicoes 1, isub cont 3)
          else if decide (c = -1 /\ 2 < iadd cont 1)
          then (mset g i k j, isub atribuicoes 1, isub (iadd cont 1) 3)
          else (g, atribuicoes, iadd cont 1)).
Proof.
  intros Hc HD HS primario. subst primario.
  pose proof (ler_disc_nonneg _ _ _ HD) as Hj.
  unfold tentativa. rewrite Hc, HD. cbn [mbind option_bind].
  destruct (decide (c = -1)) as [->|Hne].
  - rewrite HS. cbn [mbind option_bind].
    destruct (decide (d_alunos Dj <= s_capacidade Sk)) as [H1|H1];
    destruct (decide (restricaoR4 P j i = 0)) as [H2|H2];
    destruct (decide (d_tipo_sala Dj <= s_tipo_sala Sk)) as [H3|H3];
    repeat first [ rewrite (bool_decide_eq_true_2 _ H1)
                 | rewrite (bool_decide_eq_true_2 _ H2)
                 | rewrite (bool_decide_eq_true_2 _ H3)
                 | rewrite (bool_decide_eq_false_2 _ H1)
                 | rewrite (bool_decide_eq_false_2 _ H2)
                 | rewrite (bool_decide_eq_false_2 _ H3) ];
    cbn [andb mbind option_bind];
    try (rewrite (decide_False (P := _ /\ _ /\ _ /\ _)) by tauto;
         apply tentativa_reserva; assumption).
    rewrite (escreve2_ok _ _ _ _ _ Hc). cbn [mbind option_bind].
    rewrite (decide_True (P := _ /\ _ /\ _ /\ _)) by (repeat split; assumption).
    destruct (decide (2 < isub cont 3)); [|reflexivity].
    rewrite (ler2_mset _ _ _ _ _ _ _ Hc), decide_True by (split; reflexivity).
    cbn [mbind option_bind]. rewrite decide_False by lia. reflexivity.
  - cbn [mbind option_bind].
    rewrite (decide_False (P := _ /\ _ /\ _ /\ _)) by tauto.
    rewrite (decide_False (P := _ /\ _)) by tauto.
    destruct (decide (2 < iadd cont 1)); [|reflexivity].
    rewrite Hc. cbn [mbind option_bind]. rewrite decide_False by exact Hne.
    reflexivity.
Qed.

(** * Non-negative objective and the sentinel of a phase *)

(** ** Loops that add to an accumulator *)

Lemma custa_mono {S} (Q : S -> Prop) (ac : S -> Z) c c' f :
  c <= c' -> custa Q ac c f -> custa Q ac c' f.
Proof.
  intros Hc Hf s b HQ Hb Hm. destruct (Hf s b HQ Hb) as [HQ' Hb']; [lia|].
  split; [exact HQ'|lia].
Qed.

Lemma custa_comp {S} (Q : S -> Prop) (ac : S -> Z) c1 c2 f1 f2 :
  0 <= c2 -> custa Q ac c1 f1 -> custa Q ac c2 f2 ->
  custa Q ac (c1 + c2) (fun s => f2 (f1 s)).
Proof.
  intros H2 Hf1 Hf2 s b HQ Hb Hm.
  destruct (Hf1 s b HQ Hb) as [HQ1 Hb1]; [lia|].
  destruct (Hf2 (f1 s) (b + c1) HQ1 Hb1) as [HQ2 Hb2]; [lia|].
  split; [exact HQ2|lia].
Qed.

Lemma custa_para {S} (Q : S -> Prop) (ac : S -> Z) c k (f : Z -> S -> S) :
  0 <= c -> (forall i, 0 <= i < k -> custa Q ac c (f i)) ->
  custa Q ac (Z.max 0 k * c) (para k f).
Proof.
  intros Hc Hf s b HQ Hb Hm.
  destruct (decide (0 <= k)) as [Hk|Hk].
  - rewrite Z.max_r in * by lia.
    pose (Inv := fun i t => Q t /\ 0 <= ac t <= b + i * c).
    assert (H : Inv k (para k f s)).
    { apply para_inv; [exact Hk|split; [exact HQ|lia]|].
      intros i t Hi [HQt Hbt].
      destruct (Hf i Hi t (b + i * c) HQt Hbt) as [HQ' Hb']; [nia|].
      split; [exact HQ'|lia]. }
    exact H.
  - rewrite para_nonpos by lia. rewrite Z.max_l by lia. split; [exact HQ|lia].
Qed.

(** ** Data of an instance within its bounds *)

Lemma maximo_nonneg f P : 0 <= maximo f P.
Proof. unfold maximo. induction (disc P) as [|d l IH]; simpl; lia. Qed.

Lemma aget_Forall {A} (Q : A -> Prop) (dflt : A) (l : list A) (i : Z) :
  Q dflt -> Forall Q l -> Q (aget dflt l i).
Proof.
  intros Hd Hl. unfold aget. destruct (decide (0 <= i)); [|exact Hd].
  destruct (l !! Z.to_nat i) as [x|] eqn:E; simpl; [|exact Hd].
  eapply Forall_lookup_1; eassumption.
Qed.

Lemma maximo_Forall f P : Forall (fun d => f d <= maximo f P) (disc P).
Proof.
  unfold maximo. induction (disc P) as [|d l IH]; simpl; constructor; [lia|].
  eapply Forall_impl; [exact IH|]. simpl. intros x Hx. lia.
Qed.

Lemma maximo_ge f P c : f disc0 = 0 -> f (disc_de P c) <= maximo f P.
Proof.
  intros H0. unfold disc_de.
  apply (aget_Forall (fun d => f d <= maximo f P)); [|apply maximo_Forall].
  rewrite H0. apply maximo_nonneg.
Qed.

(** ** What one cell adds to [fo] *)

Lemma restricaoR6_custo P g dis per sal G :
  2 * cursos P <= INT_MAX ->
  0 <= (restricaoR6 P g dis per sal G).1 <= 2 * Z.max 0 (cursos P).
Proof.
  intros Hc. unfold restricaoR6.
  assert (H : custa (fun _ : Z * Globais => True) fst (Z.max 0 (cursos P) * 2)
                (para (cursos P) (fun i (st : Z * Globais) =>
                   if decide (vget (d_cursos (disc_de P dis)) i = 1) then
                     if decide (busca_adjacente P g i per = 0) then
                       (iadd st.1 2,
                        com_aux_mov_r6 (mset (aux_mov_r6 st.2) per sal dis)
                          (com_restricoes_violadas
                             (vinc (restricoes_violadas st.2) 6 1) st.2))
                     else st
                   else st))).
  { apply custa_para; [lia|]. intros i Hi s b _ Hb Hm. split; [exact I|].
    repeat case_decide; simpl; try lia.
    rewrite iadd_id by (unfold in_int, INT_MIN, INT_MAX in *; lia). lia. }
  destruct (H (0, G) 0 I) as [_ Hr]; [simpl; lia|unfold INT_MAX in *; lia|].
  simpl in Hr. lia.
Qed.

Lemma custa_avalia_celula P g i j :
  sem_estouro P -> custo_celula P <= INT_MAX ->
  custa (fun _ : Z * Globais => True) fst (custo_celula P) (avalia_celula P g i j).
Proof.
  intros (Htp & Hd & Hs & Hp & Hc & Hdi & Hdisc & Hsala & Hlim) Hcel s b _ Hb Hm.
  split; [exact I|].
  pose proof (maximo_nonneg d_alunos P) as Hmax.
  unfold custo_celula in *.
  unfold avalia_celula. cbv zeta. case_decide as Hvazia; [lia|].
  set (c := mget g i j) in *.
  set (s1 := passo_r5 P i c (passo_r4 P i j c (passo_r22 P i j c
               (passo_r21 P i j c (passo_r1 c s))))).
  assert (H1 : 0 <= s1.1 <= b + 1000000).
  { subst s1. unfold passo_r5, passo_r4. simpl. case_decide; simpl; [|lia].
    rewrite iadd_id by (unfold in_int, INT_MIN, INT_MAX in *; lia). lia. }
  clearbody s1.
  set (s2 := passo_r6 P g i j c s1).
  assert (H2 : 0 <= s2.1 <= b + 1000000 + 2 * cursos P).
  { subst s2. unfold passo_r6. cbv zeta. simpl.
    pose proof (restricaoR6_custo P g c i j s1.2) as H6.
    rewrite Z.max_r in H6 by lia. specialize (H6 ltac:(lia)).
    rewrite iadd_id by (unfold in_int, INT_MIN, INT_MAX in *; lia). lia. }
  clearbody s2.
  set (s3 := passo_r7 P i j c s2).
  assert (H3 : 0 <= s3.1 <= b + 1000000 + 2 * cursos P + maximo d_alunos P).
  { subst s3. unfold passo_r7. cbv zeta.
    assert (Ha : 0 <= d_alunos (disc_de P c) <= maximo d_alunos P).
    { split; [|apply maximo_ge; reflexivity].
      unfold disc_de.
      apply (aget_Forall (fun d => 0 <= d_alunos d)); [simpl; lia|].
      eapply Forall_impl; [exact Hdisc|]. simpl. tauto. }
    assert (Hk : 0 <= s_capacidade (sala_de P j) <= INT_MAX).
    { unfold sala_de.
      apply (aget_Forall (fun x => 0 <= s_capacidade x <= INT_MAX));
        [unfold INT_MAX; simpl; lia|exact Hsala]. }
    rewrite (isub_id (d_alunos (disc_de P c)))
      by (unfold in_int, INT_MIN, INT_MAX in *; lia).
    case_decide; simpl; [|lia].
    rewrite iadd_id by (unfold in_int, INT_MIN, INT_MAX in *; lia). lia. }
  clearbody s3.
  set (s4 := passo_r9 P i c (passo_r8 P i j c s3)).
  assert (H4 : 0 <= s4.1 <= b + 1000000 + 2 * cursos P + maximo d_alunos P + 1).
  { subst s4. unfold passo_r9, passo_r8. cbv zeta.
    repeat case_decide; simpl; try lia;
      rewrite iadd_id by (unfold in_int, INT_MIN, INT_MAX in *; lia); lia. }
  clearbody s4.
  unfold passo_r11, passo_r10. cbv zeta. simpl.
  case_decide; simpl; [|lia].
  rewrite iadd_id by (unfold in_int, INT_MIN, INT_MAX in *; lia). lia.
Qed.

(** ** Counters between 0 and the number of cells visited *)

Lemma vget_fora (v : list Z) a : Z.of_nat (length v) <= a -> vget v a = 0.
Proof.
  intros H. unfold vget, aget. destruct (decide (0 <= a)); [|reflexivity].
  rewrite lookup_ge_None_2 by lia. reflexivity.
Qed.

Lemma setVetor_zero (v : list Z) k a : 0 <= a < k -> vget (setVetor v k 0) a = 0.
Proof.
  intros Ha. unfold setVetor.
  pose (Inv := fun (i : Z) (w : list Z) =>
                 length w = length v /\ forall a, 0 <= a < i -> vget w a = 0).
  assert (H : Inv k (para k (fun i w => vset w i 0) v)).
  { apply para_inv; [lia|split; [reflexivity|intros; lia]|].
    intros i w Hi [Hl Hw]. split; [rewrite length_vset; exact Hl|].
    intros a' Ha'. rewrite vget_vset. case_decide as Hc; [reflexivity|].
    destruct (decide (a' = i)) as [->|Hne]; [|apply Hw; lia].
    apply vget_fora. lia. }
  apply H. exact Ha.
Qed.

Lemma mget_alter (m : list (list Z)) (f : list Z -> list Z) i a b :
  0 <= i ->
  mget (alter f (Z.to_nat i) m) a b
  = if decide (i = a /\ a < Z.of_nat (length m)) then vget (f (aget [] m a)) b
    else mget m a b.
Proof.
  intros Hi. unfold mget, aget.
  destruct (decide (0 <= a)) as [Ha|Ha].
  - destruct (decide (i = a)) as [->|Hne].
    + rewrite list_lookup_alter_eq.
      destruct (m !! Z.to_nat a) as [row|] eqn:E; simpl.
      * rewrite decide_True; [reflexivity|].
        split; [reflexivity|]. apply lookup_lt_Some in E. lia.
      * rewrite decide_False; [reflexivity|].
        apply lookup_ge_None_1 in E. lia.
    + rewrite list_lookup_alter_ne by lia.
      rewrite decide_False by tauto. reflexivity.
  - rewrite decide_False by lia. reflexivity.
Qed.

Lemma setMatriz_zero (m : list (list Z)) L C a b :
  0 <= a < L -> 0 <= b < C -> mget (setMatriz m L C 0) a b = 0.
Proof.
  intros Ha Hb. unfold setMatriz.
  pose (Inv := fun (i : Z) (t : list (list Z)) =>
                 forall a, 0 <= a < i -> mget t a b = 0).
  assert (H : Inv L (para L (fun i t => para C (fun j m' => mset m' i j 0) t) m)).
  { apply para_inv; [lia|intros ?; lia|].
    intros i t Hi Ht a' Ha'. rewrite para_linha by lia.
    rewrite mget_alter by lia. case_decide as Hc.
    - apply setVetor_zero. exact Hb.
    - destruct (decide (a' = i)) as [->|Hne]; [|apply Ht; lia].
      unfold mget. unfold aget at 1. rewrite decide_True by lia.
      rewrite lookup_ge_None_2 by lia. apply vget_fora. simpl. lia. }
  apply H. exact Ha.
Qed.

Lemma mget_mset_casos (m : list (list Z)) i j x a b :
  mget (mset m i j x) a b = mget m a b
  \/ (i = a /\ j = b /\ mget (mset m i j x) a b = x).
Proof.
  destruct (decide ((i, j) = (a, b))) as [Heq|Hne].
  - injection Heq as -> ->.
    destruct (decide (0 <= a < Z.of_nat (length m))) as [Hr|Hr].
    + unfold mget. rewrite aget_mset_eq by exact Hr. rewrite vget_vset.
      case_decide; [right; auto|left; reflexivity].
    + left. unfold mget. f_equal. unfold aget, mset.
      destruct (decide (0 <= a)); [|reflexivity].
      rewrite list_lookup_alter_eq, lookup_ge_None_2 by lia. reflexivity.
  - left. apply mget_mset_ne. exact Hne.
Qed.

Lemma limitado1_mono L k k' v : k <= k' -> limitado1 L k v -> limitado1 L k' v.
Proof. intros Hk H a Ha. specialize (H a Ha). lia. Qed.

Lemma limitado2_mono L C k k' m : k <= k' -> limitado2 L C k m -> limitado2 L C k' m.
Proof. intros Hk H a b Ha Hb. specialize (H a b Ha Hb). lia. Qed.

Lemma limitado1_vinc L k v c :
  k < INT_MAX -> limitado1 L k v -> limitado1 L (k + 1) (vinc v c 1).
Proof.
  intros Hk H a Ha. unfold vinc. rewrite vget_vset.
  case_decide as Hc.
  - destruct Hc as [-> _]. specialize (H a Ha).
    rewrite iadd_id by (unfold in_int, INT_MIN, INT_MAX in *; lia). lia.
  - specialize (H a Ha). lia.
Qed.

Lemma limitado2_minc L C k m i j :
  k < INT_MAX -> limitado2 L C k m -> limitado2 L C (k + 1) (minc m i j 1).
Proof.
  intros Hk H a b Ha Hb. unfold minc.
  destruct (mget_mset_casos m i j (iadd (mget m i j) 1) a b) as [->|(-> & -> & ->)].
  - specialize (H a b Ha Hb). lia.
  - specialize (H a b Ha Hb).
    rewrite iadd_id by (unfold in_int, INT_MIN, INT_MAX in *; lia). lia.
Qed.

(** The curriculum loop of a cell adds at most one to each entry. *)
Lemma limitado2_soma_cursos P L C k m i c :
  k < INT_MAX -> limitado2 L C k m -> limitado2 L C (k + 1) (soma_cursos P i c m).
Proof.
  intros Hk H. unfold soma_cursos.
  destruct (decide (0 <= cursos P)) as [Hc|Hc];
    [|rewrite para_nonpos by lia; eapply limitado2_mono; [|exact H]; lia].
  pose (Inv := fun (k0 : Z) (t : list (list Z)) =>
                 forall a b, (k0 <= b -> mget t a b = mget m a b)
                             /\ (0 <= a < L -> 0 <= b < C -> 0 <= mget t a b <= k + 1)).
  assert (HI : Inv (cursos P)
                 (para (cursos P) (fun k0 t =>
                    if decide (vget (d_cursos (disc_de P c)) k0 = 1)
                    then minc t i k0 1 else t) m)).
  { apply para_inv; [exact Hc| |].
    - intros a b. split; [reflexivity|]. intros Ha Hb. specialize (H a b Ha Hb). lia.
    - intros k0 t Hk0 Ht a b. case_decide as Hd.
      + unfold minc.
        destruct (mget_mset_casos t i k0 (iadd (mget t i k0) 1) a b)
          as [->|(-> & -> & ->)].
        * split; [intros Hb; apply Ht; lia|apply Ht].
        * split; [intros Hb; lia|]. intros Ha Hb.
          destruct (Ht a b) as [He _]. rewrite He by lia.
          specialize (H a b Ha Hb).
          rewrite iadd_id by (unfold in_int, INT_MIN, INT_MAX in *; lia). lia.
      + split; [intros Hb; apply Ht; lia|apply Ht]. }
  intros a b Ha Hb. apply HI; assumption.
Qed.

Lemma r1_avalia_celula P g i j st :
  r1 (avalia_celula P g i j st).2
  = if decide (mget g i j = -1) then r1 st.2 else vinc (r1 st.2) (mget g i j) 1.
Proof.
  unfold avalia_celula. cbv zeta. case_decide; [reflexivity|].
  rewrite (quadro_passo_r11 r1), (quadro_passo_r10 r1), (quadro_passo_r9 r1),
    (quadro_passo_r8 r1), (quadro_passo_r7 r1), (quadro_passo_r6 r1),
    (quadro_passo_r5 r1), (quadro_passo_r4 r1), (quadro_passo_r22 r1),
    (quadro_passo_r21 r1) by reflexivity.
  reflexivity.
Qed.

Lemma r11_avalia_celula P g i j st :
  r11 (avalia_celula P g i j st).2
  = if decide (mget g i j = -1) then r11 st.2
    else minc (r11 st.2) (idiv i (periodos_dia P)) (mget g i j) 1.
Proof.
  unfold avalia_celula. cbv zeta. case_decide; [reflexivity|].
  unfold passo_r11. cbv zeta. simpl.
  rewrite (quadro_passo_r10 r11), (quadro_passo_r9 r11),
    (quadro_passo_r8 r11), (quadro_passo_r7 r11), (quadro_passo_r6 r11),
    (quadro_passo_r5 r11), (quadro_passo_r4 r11), (quadro_passo_r22 r11),
    (quadro_passo_r21 r11), (quadro_passo_r1 r11) by reflexivity.
  case_decide; reflexivity.
Qed.

Ltac abre_int := unfold in_int, INT_MIN, INT_MAX in *.

Lemma sem_estouro_celulas P :
  sem_estouro P -> 0 <= celulas P /\ celulas P * 2000001 <= INT_MAX.
Proof.
  intros (Htp & Hd & Hs & Hp & Hc & Hdi & Hdisc & Hsala & Hlim).
  pose proof (maximo_nonneg d_alunos P). pose proof (maximo_nonneg d_aulas P).
  pose proof (maximo_nonneg d_minDias P).
  unfold limite, custo_celula, custo_r2, custo_r1_r5, custo_r9, custo_r11, celulas in *.
  split; [nia|]. abre_int.
  assert (0 <= total_periodos P * salas P) by nia.
  assert (0 <= total_periodos P * salas P * (2 * cursos P + maximo d_alunos P)) by nia.
  assert (0 <= total_periodos P
               * (professores P * (1000000 * (total_periodos P * salas P))
                  + cursos P * (1000000 * (total_periodos P * salas P)))) by nia.
  assert (0 <= disciplinas P
               * (1000000 * (total_periodos P * salas P + maximo d_aulas P)
                  + 5 * maximo d_minDias P)) by nia.
  assert (0 <= professores P * (5 * dias P)) by nia.
  assert (0 <= dias P * (disciplinas P * (1000000 * (total_periodos P * salas P)))) by nia.
  nia.
Qed.

(** The counters after the main loop: none is above the number of cells. *)
Lemma contadores_limitados P I G g :
  sem_estouro P ->
  let s := laco_principal P g (0, zera_indices P I G) in
  limitado1 (disciplinas P) (celulas P) (r1 s.2)
  /\ limitado2 (total_periodos P) (professores P) (celulas P) (r21 s.2)
  /\ limitado2 (total_periodos P) (cursos P) (celulas P) (r22 s.2)
  /\ limitado2 (dias P) (disciplinas P) (celulas P) (r11 s.2).
Proof.
  intros Hse. pose proof (sem_estouro_celulas P Hse) as [HN0 HN].
  destruct Hse as (Htp & Hd & Hs & Hp & Hc & Hdi & Hdisc & Hsala & Hlim).
  cbv zeta.
  pose (Inv := fun (i j : Z) (s : Z * Globais) =>
    limitado1 (disciplinas P) (i * salas P + j) (r1 s.2)
    /\ limitado2 (total_periodos P) (professores P) (i * salas P + j) (r21 s.2)
    /\ limitado2 (total_periodos P) (cursos P) (i * salas P + j) (r22 s.2)
    /\ limitado2 (dias P) (disciplinas P) (i * salas P + j) (r11 s.2)).
  assert (H : Inv (total_periodos P) 0 (laco_principal P g (0, zera_indices P I G))).
  { apply laco_principal_inv; [exact Htp| | |].
    - unfold Inv. simpl. rewrite Z.add_0_r.
      split; [|split; [|split]].
      + intros a Ha. rewrite setVetor_zero by exact Ha. lia.
      + intros a b Ha Hb. rewrite setMatriz_zero by assumption. lia.
      + intros a b Ha Hb. rewrite setMatriz_zero by assumption. lia.
      + intros a b Ha Hb. rewrite setMatriz_zero by assumption. lia.
    - intros i j s Hi Hj (H1 & H21 & H22 & H11).
      assert (Hk : i * salas P + j < INT_MAX)
        by (unfold celulas in *; abre_int; nia).
      unfold Inv.
      rewrite r1_avalia_celula, r21_avalia_celula, r22_avalia_celula, r11_avalia_celula.
      replace (i * salas P + (j + 1)) with (i * salas P + j + 1) by lia.
      case_decide.
      + split; [|split; [|split]];
          first [ eapply limitado1_mono; [|eassumption]; lia
                | eapply limitado2_mono; [|eassumption]; lia ].
      + split; [|split; [|split]].
        * apply limitado1_vinc; assumption.
        * apply limitado2_minc; assumption.
        * apply limitado2_soma_cursos; assumption.
        * apply limitado2_minc; assumption.
    - intros i s Hi. unfold Inv. rewrite Z.max_r by lia.
      replace ((i + 1) * salas P + 0) with (i * salas P + salas P) by lia.
      tauto. }
  unfold Inv in H. rewrite Z.add_0_r in H. exact H.
Qed.

Lemma custa_laco_principal P g :
  sem_estouro P ->
  custa (fun _ : Z * Globais => True) fst (celulas P * custo_celula P)
    (laco_principal P g).
Proof.
  intros Hse. pose proof (sem_estouro_celulas P Hse) as [HN0 HN].
  pose proof Hse as (Htp & Hd & Hs & Hp & Hc & Hdi & Hdisc & Hsala & Hlim).
  pose proof (maximo_nonneg d_alunos P) as Hmax.
  assert (Hcc : 0 <= custo_celula P) by (unfold custo_celula; lia).
  unfold laco_principal.
  assert (H : custa (fun _ : Z * Globais => True) fst
                (Z.max 0 (total_periodos P) * (Z.max 0 (salas P) * custo_celula P))
                (para (total_periodos P) (fun i st =>
                   para (salas P) (fun j st => avalia_celula P g i j st) st))).
  { apply custa_para; [nia|]. intros i Hi.
    apply (custa_para _ _ _ _ (fun j st => avalia_celula P g i j st)); [exact Hcc|].
    intros j Hj. apply custa_avalia_celula; [exact Hse|].
    pose proof (maximo_nonneg d_aulas P). pose proof (maximo_nonneg d_minDias P).
    unfold limite, custo_r2, custo_r1_r5, custo_r9, custo_r11, celulas in *.
    assert (1 <= total_periodos P * salas P) by nia.
    assert (custo_celula P <= total_periodos P * salas P * custo_celula P) by nia.
    assert (0 <= total_periodos P
                 * (professores P * (1000000 * (total_periodos P * salas P))
                    + cursos P * (1000000 * (total_periodos P * salas P)))) by nia.
    assert (0 <= disciplinas P
                 * (1000000 * (total_periodos P * salas P + maximo d_aulas P)
                    + 5 * maximo d_minDias P)) by nia.
    assert (0 <= professores P * (5 * dias P)) by nia.
    assert (0 <= dias P * (disciplinas P * (1000000 * (total_periodos P * salas P))))
      by nia.
    lia. }
  rewrite !Z.max_r in H by lia. unfold celulas.
  rewrite <- Z.mul_assoc. exact H.
Qed.

(** ** What the loops after the main loop add to [fo] *)

Lemma custa_penaliza_r2 P :
  sem_estouro P ->
  custa (fun s : Z * Globais =>
           limitado2 (total_periodos P) (professores P) (celulas P) (r21 s.2)
           /\ limitado2 (total_periodos P) (cursos P) (celulas P) (r22 s.2))
        fst (custo_r2 P) (penaliza_r2 P).
Proof.
  intros Hse. pose proof (sem_estouro_celulas P Hse) as [HN0 HN].
  pose proof Hse as (Htp & Hd & Hs & Hp & Hc & Hdi & Hdisc & Hsala & Hlim).
  set (Q := fun s : Z * Globais =>
           limitado2 (total_periodos P) (professores P) (celulas P) (r21 s.2)
           /\ limitado2 (total_periodos P) (cursos P) (celulas P) (r22 s.2)).
  assert (H : custa Q fst
                (Z.max 0 (total_periodos P)
                 * (Z.max 0 (professores P) * (1000000 * celulas P)
                    + Z.max 0 (cursos P) * (1000000 * celulas P)))
                (penaliza_r2 P)).
  { unfold penaliza_r2. apply custa_para; [nia|]. intros i Hi. cbv zeta.
    apply (custa_comp Q fst _ _
             (para (professores P) _) (para (cursos P) _)); [nia| |].
    - apply custa_para; [nia|]. intros j Hj s b [Q1 Q2] Hb Hm.
      case_decide as Hx; [|split; [split; assumption|lia]].
      split; [split; assumption|]. simpl.
      specialize (Q1 i j Hi Hj).
      rewrite isub_id by (abre_int; lia).
      rewrite imul_id by (abre_int; nia).
      rewrite iadd_id by (abre_int; nia). nia.
    - apply custa_para; [nia|]. intros j Hj s b [Q1 Q2] Hb Hm.
      case_decide as Hx; [|split; [split; assumption|lia]].
      split; [split; assumption|]. simpl.
      specialize (Q2 i j Hi Hj).
      rewrite isub_id by (abre_int; lia).
      rewrite imul_id by (abre_int; nia).
      rewrite iadd_id by (abre_int; nia). nia. }
  rewrite !Z.max_r in H by lia. exact H.
Qed.

Lemma modulo_limite a b N M :
  0 <= a <= N -> 0 <= b <= M -> N + M <= INT_MAX -> 0 <= modulo a b <= N + M.
Proof.
  intros Ha Hb Hm. unfold modulo.
  case_decide; rewrite isub_id by (abre_int; lia); lia.
Qed.

Lemma custa_penaliza_r1_r5 P :
  sem_estouro P ->
  custa (fun s : Z * Globais => limitado1 (disciplinas P) (celulas P) (r1 s.2))
        fst (custo_r1_r5 P) (penaliza_r1_r5 P).
Proof.
  intros Hse. pose proof (sem_estouro_celulas P Hse) as [HN0 HN].
  pose proof Hse as (Htp & Hd & Hs & Hp & Hc & Hdi & Hdisc & Hsala & Hlim).
  pose proof (maximo_nonneg d_aulas P) as Hma.
  pose proof (maximo_nonneg d_minDias P) as Hmm.
  set (Q := fun s : Z * Globais => limitado1 (disciplinas P) (celulas P) (r1 s.2)).
  assert (H : custa Q fst
                (Z.max 0 (disciplinas P)
                 * (1000000 * (celulas P + maximo d_aulas P) + 5 * maximo d_minDias P))
                (penaliza_r1_r5 P)).
  { unfold penaliza_r1_r5. apply custa_para; [nia|]. intros i Hi s b HQ Hb Hm.
    cbv zeta.
    assert (Haul : 0 <= d_aulas (disc_de P i) <= maximo d_aulas P).
    { split; [|apply maximo_ge; reflexivity].
      unfold disc_de. apply (aget_Forall (fun d => 0 <= d_aulas d)); [simpl; lia|].
      eapply Forall_impl; [exact Hdisc|]. simpl. tauto. }
    assert (Hmin : 0 <= d_minDias (disc_de P i) <= maximo d_minDias P).
    { split; [|apply maximo_ge; reflexivity].
      unfold disc_de. apply (aget_Forall (fun d => 0 <= d_minDias d)); [simpl; lia|].
      eapply Forall_impl; [exact Hdisc|]. simpl. tauto. }
    pose proof (HQ i Hi) as Hr1.
    pose proof (modulo_limite (vget (r1 s.2) i) (d_aulas (disc_de P i))
                  (celulas P) (maximo d_aulas P) Hr1 Haul) as Hmod.
    specialize (Hmod ltac:(abre_int; nia)).
    rewrite (laco_conta_decide (dias P)
               (fun j => 0 < mget (r5 s.2) i j)) by (abre_int; nia).
    pose proof (conta_nonneg (dias P)
                  (fun j => bool_decide (0 < mget (r5 s.2) i j))) as Hc0.
    set (r5_aux := conta (dias P) (fun j => bool_decide (0 < mget (r5 s.2) i j))) in *.
    set (acc := if decide (vget (r1 s.2) i <> d_aulas (disc_de P i))
                then iadd s.1 (imul 1000000
                       (modulo (vget (r1 s.2) i) (d_aulas (disc_de P i))))
                else s.1).
    assert (Hacc : 0 <= acc <= b + 1000000 * (celulas P + maximo d_aulas P)).
    { subst acc. case_decide; [|nia].
      rewrite imul_id by (abre_int; nia).
      rewrite iadd_id by (abre_int; nia). nia. }
    clearbody acc.
    case_decide as Hx; simpl.
    - split; [exact HQ|].
      rewrite isub_id by (abre_int; lia).
      rewrite imul_id by (abre_int; nia).
      rewrite iadd_id by (abre_int; nia). nia.
    - split; [exact HQ|]. nia. }
  rewrite !Z.max_r in H by lia. exact H.
Qed.

Lemma custa_penaliza_r9 P :
  sem_estouro P ->
  custa (fun _ : Z * Globais => True) fst (custo_r9 P) (penaliza_r9 P).
Proof.
  intros Hse. pose proof (sem_estouro_celulas P Hse) as [HN0 HN].
  pose proof Hse as (Htp & Hd & Hs & Hp & Hc & Hdi & Hdisc & Hsala & Hlim).
  assert (H : custa (fun _ : Z * Globais => True) fst
                (Z.max 0 (professores P) * (5 * dias P)) (penaliza_r9 P)).
  { unfold penaliza_r9. apply custa_para; [nia|]. intros i Hi s b _ Hb Hm.
    cbv zeta. split; [exact I|].
    rewrite (laco_conta_decide (dias P)
               (fun j => 0 < mget (r9 s.2) i j)) by (abre_int; nia).
    pose proof (conta_nonneg (dias P)
                  (fun j => bool_decide (0 < mget (r9 s.2) i j))) as Hc0.
    pose proof (conta_le (dias P)
                  (fun j => bool_decide (0 < mget (r9 s.2) i j)) (proj1 Hd)) as Hc1.
    set (dca := conta (dias P) (fun j => bool_decide (0 < mget (r9 s.2) i j))) in *.
    case_decide as Hx; simpl; [|nia].
    rewrite isub_id by (abre_int; lia).
    rewrite imul_id by (abre_int; nia).
    rewrite iadd_id by (abre_int; nia). nia. }
  rewrite !Z.max_r in H by lia. exact H.
Qed.

Lemma custa_penaliza_r11 P :
  sem_estouro P ->
  custa (fun s : Z * Globais =>
           limitado2 (dias P) (disciplinas P) (celulas P) (r11 s.2))
        fst (custo_r11 P) (penaliza_r11 P).
Proof.
  intros Hse. pose proof (sem_estouro_celulas P Hse) as [HN0 HN].
  pose proof Hse as (Htp & Hd & Hs & Hp & Hc & Hdi & Hdisc & Hsala & Hlim).
  set (Q := fun s : Z * Globais =>
           limitado2 (dias P) (disciplinas P) (celulas P) (r11 s.2)).
  assert (H : custa Q fst
                (Z.max 0 (dias P) * (Z.max 0 (disciplinas P) * (1000000 * celulas P)))
                (penaliza_r11 P)).
  { unfold penaliza_r11. apply custa_para; [nia|]. intros i Hi.
    apply (custa_para Q fst _ (disciplinas P)); [nia|].
    intros j Hj s b HQ Hb Hm.
    case_decide as Hx; [|split; [assumption|lia]].
    split; [exact HQ|]. simpl.
    specialize (HQ i j Hi Hj).
    rewrite isub_id by (abre_int; lia).
    rewrite imul_id by (abre_int; nia).
    rewrite iadd_id by (abre_int; nia). nia. }
  rewrite !Z.max_r in H by lia. exact H.
Qed.

(** On an instance whose penalties fit, the objective is their sum: it
    is not negative. *)
Lemma calcula_FO_limite P Itg G g :
  sem_estouro P -> 0 <= (calcula_FO P Itg G g).1 <= limite P.
Proof.
  intros Hse. pose proof (sem_estouro_celulas P Hse) as [HN0 HN].
  pose proof Hse as (Htp & Hd & Hs & Hp & Hc & Hdi & Hdisc & Hsala & Hlim).
  pose proof (maximo_nonneg d_alunos P) as Hmal.
  pose proof (maximo_nonneg d_aulas P) as Hma.
  pose proof (maximo_nonneg d_minDias P) as Hmm.
  assert (H2 : 0 <= custo_r2 P) by (unfold custo_r2; nia).
  assert (H15 : 0 <= custo_r1_r5 P) by (unfold custo_r1_r5; nia).
  assert (H9 : 0 <= custo_r9 P) by (unfold custo_r9; nia).
  assert (H11 : 0 <= custo_r11 P) by (unfold custo_r11; nia).
  assert (Hcel : 0 <= celulas P * custo_celula P) by (unfold custo_celula; nia).
  unfold limite in *.
  destruct (contadores_limitados P Itg G g Hse) as (L1 & L21 & L22 & L11).
  unfold calcula_FO.
  set (s1 := laco_principal P g (0, zera_indices P Itg G)) in *.
  destruct (custa_laco_principal P g Hse (0, zera_indices P Itg G) 0 I) as [_ B1];
    [simpl; lia|lia|]. fold s1 in B1.
  set (s2 := penaliza_r2 P s1).
  destruct (custa_penaliza_r2 P Hse s1 _ (conj L21 L22) B1) as [_ B2]; [lia|].
  fold s2 in B2.
  assert (L1' : limitado1 (disciplinas P) (celulas P) (r1 s2.2))
    by (subst s2; rewrite (quadro_penaliza_r2 r1) by reflexivity; exact L1).
  assert (L11' : limitado2 (dias P) (disciplinas P) (celulas P) (r11 s2.2))
    by (subst s2; rewrite (quadro_penaliza_r2 r11) by reflexivity; exact L11).
  clearbody s2.
  set (s3 := penaliza_r1_r5 P s2).
  destruct (custa_penaliza_r1_r5 P Hse s2 _ L1' B2) as [_ B3]; [lia|].
  fold s3 in B3.
  assert (L11'' : limitado2 (dias P) (disciplinas P) (celulas P) (r11 s3.2))
    by (subst s3; rewrite (quadro_penaliza_r1_r5 r11) by reflexivity; exact L11').
  clearbody s3.
  set (s4 := penaliza_r9 P s3).
  destruct (custa_penaliza_r9 P Hse s3 _ I B3) as [_ B4]; [lia|].
  fold s4 in B4.
  assert (L11''' : limitado2 (dias P) (disciplinas P) (celulas P) (r11 s4.2))
    by (subst s4; rewrite (quadro_penaliza_r9 r11) by reflexivity; exact L11'').
  clearbody s4.
  destruct (custa_penaliza_r11 P Hse s4 _ L11''' B4) as [_ B5]; [lia|].
  lia.
Qed.

(** ** The sentinel of a phase *)

Section Sentinela.

Variable rand : nat -> Z.
Variable randomDouble_fp : Z -> Q -> Q -> Q.
Variables flt dbl : Q -> Q.
Variable exp_fp : Z -> Q -> Q.
Variable arquivos : string -> option Instancia.
Variable memoria : Z -> Z -> Z.

Local Abbreviation construcao' :=
  (construcao rand randomDouble_fp flt dbl exp_fp arquivos).

Lemma iteracao_avaliacao P Itg fuel r r' :
  iteracao rand randomDouble_fp exp_fp P Itg fuel r = Some r' ->
  avaliacao P Itg (fo (melhor r)) -> avaliacao P Itg (fo (melhor r')).
Proof.
  unfold iteracao. intros H Hm.
  destruct (geraViz _ _ _ _ _ _) as [e|]; simpl in H; [|discriminate].
  repeat case_decide; injection H as <-; simpl; try exact Hm.
  exists (indices e), (grade e). reflexivity.
Qed.

Lemma passo_avaliacao P Itg r r' :
  passo_SA rand randomDouble_fp flt dbl exp_fp P Itg r r' ->
  avaliacao P Itg (fo (melhor r)) -> avaliacao P Itg (fo (melhor r')).
Proof.
  intros H. destruct H as [r Hc|fuel r r' Hit|r].
  - unfold ajusta. destruct (if Qlt_bool 1000 (T r) then _ else _). auto.
  - apply (iteracao_avaliacao _ _ fuel). exact Hit.
  - unfold resfria. case_match; auto.
Qed.

Lemma rtc_avaliacao P Itg r r' :
  rtc (passo_SA rand randomDouble_fp flt dbl exp_fp P Itg) r r' ->
  avaliacao P Itg (fo (melhor r)) -> avaliacao P Itg (fo (melhor r')).
Proof.
  induction 1 as [r|r r1 r2 Hp _ IH]; [auto|].
  intros H. apply IH. eapply passo_avaliacao; eassumption.
Qed.

Lemma SA_avaliacao P Itg fuel rodadas inicial G k m G' k' :
  SA rand randomDouble_fp flt dbl exp_fp P Itg fuel rodadas inicial G k
  = Some (m, G', k') ->
  avaliacao P Itg (fo inicial) -> avaliacao P Itg (fo m).
Proof.
  intros H Hi. unfold SA in H.
  destruct (laco_SA _ _ _ _ _ _ _ _ _ _) as [rf|] eqn:Hl; simpl in H; [|discriminate].
  injection H as <- <- <-.
  apply (rtc_avaliacao _ _ _ _ (laco_SA_rtc _ _ _ _ _ _ _ _ _ _ _ Hl)). exact Hi.
Qed.

Lemma solucaoInicial_avaliacao P Itg fuel G s m G' s' :
  solucaoInicial rand randomDouble_fp P Itg fuel G s = Some (m, G', s') ->
  avaliacao P Itg (fo m).
Proof.
  unfold solucaoInicial. intros H.
  destruct (aloca_disciplinas _ _ _ _ _ _ _) as [r|]; simpl in H; [|discriminate].
  injection H as <- <- <-. simpl. eexists _, _. reflexivity.
Qed.

Lemma avaliacao_nao_negativa P Itg x :
  sem_estouro P -> avaliacao P Itg x -> 0 <= x.
Proof. intros Hse (G & g & ->). apply calcula_FO_limite. exact Hse. Qed.

Lemma construcao_fo fuel rodadas arquivo dias_integral usar prog m prog' :
  construcao' fuel rodadas arquivo dias_integral usar prog = Some (m, prog') ->
  match arquivos arquivo with
  | None =>
      fo m = -1 /\ p_chamadas prog' = p_chamadas prog
      /\ rotina prog' = rotina prog
  | Some P =>
      instancia prog' = P
      /\ avaliacao P (p_integral prog') (fo m)
      /\ (sem_estouro P -> 0 <= fo m)
  end.
Proof.
  unfold construcao. intros H.
  destruct (arquivos arquivo) as [P|].
  - destruct (solucaoInicial _ _ _ _ _ _ _) as [[[m0 G0] k0]|] eqn:E0;
      simpl in H; [|discriminate].
    destruct (SA _ _ _ _ _ _ _ _ _ _ _ _) as [[[m1 G1] k1]|] eqn:E1;
      simpl in H; [|discriminate].
    injection H as <- <-. simpl.
    assert (Hav : avaliacao P
                    {| usar_restricao_integral := usar;
                       dias_ocupados_integral :=
                         match dias_integral with
                         | Some d => if decide (usar <> 0) then Some d
                                     else dias_ocupados_integral (p_integral prog)
                         | None => dias_ocupados_integral (p_integral prog)
                         end;
                       num_profs_da_integral := num_profs_da_integral (p_integral prog);
                       alem_da_tabela := alem_da_tabela (p_integral prog) |}
                    (fo m1)).
    { eapply SA_avaliacao; [exact E1|].
      eapply solucaoInicial_avaliacao. exact E0. }
    split; [reflexivity|]. split; [exact Hav|].
    intros Hse. eapply avaliacao_nao_negativa; eassumption.
  - injection H as <- <-. simpl. auto.
Qed.


End Sentinela.


(** * Instances of the theorems on the small instance *)

Lemma calcula_FO_funcao_da_grade_witness :
  indices_ok P_ex (aloca_indices P_ex 7) /\ indices_ok P_ex (aloca_indices P_ex 0)
  /\ (calcula_FO P_ex I_ex (aloca_indices P_ex 7) g_ex
      = calcula_FO P_ex I_ex (aloca_indices P_ex 0) g_ex
      /\ calcula_FO P_ex I_ex (calcula_FO P_ex I_ex (aloca_indices P_ex 7) g_ex).2 g_ex
         = calcula_FO P_ex I_ex (aloca_indices P_ex 7) g_ex).
Proof.
  split; [vm_compute; repeat split; reflexivity|].
  split; [vm_compute; repeat split; reflexivity|].
  apply (calcula_FO_funcao_da_grade P_ex I_ex g_ex);
    vm_compute; repeat split; reflexivity.
Defined.

Lemma semente_r9_preservada_witness :
  mget (r9 (calcula_FO P_ex I_ex2 (aloca_indices P_ex 7) [[-1; -1]; [-1; -1]; [0; -1]; [-1; -1]]).2)
       0 0 = 1.
Proof.
  apply (semente_r9_preservada P_ex I_ex2 (aloca_indices P_ex 7) _ [[1; 0]] 0 0).
  - vm_compute; repeat split; reflexivity.
  - cbn; lia.
  - reflexivity.
  - cbn; lia.
  - cbn; lia.
  - cbn; lia.
  - reflexivity.
Defined.

Lemma violacoes_r2_composicao_witness :
  vget (restricoes_violadas (calcula_FO P_ex I_ex (aloca_indices P_ex 7) g_ex).2) 2 = 1001.
Proof.
  apply (violacoes_r2_composicao P_ex I_ex (aloca_indices P_ex 7) g_ex).
  - vm_compute; repeat split; reflexivity.
  - unfold INT_MAX; cbn; lia.
  - vm_compute. discriminate.
Defined.

(** ** The best solution of a run of [SA] on [P_tipo] *)

Lemma melhor_fo_monotono_witness :
  exists m,
    (exists G' k',
       SA rand_ex randomDouble_real id id exp_ex P_tipo I_ex 100 10
          {| fo := 1000000; n := g_tipo |} (aloca_indices P_tipo 0) 0
       = Some (m, G', k'))
    /\ fo m <= 1000000.
Proof.
  assert (E : exists r,
             SA rand_ex randomDouble_real id id exp_ex P_tipo I_ex 100 10
                {| fo := 1000000; n := g_tipo |} (aloca_indices P_tipo 0) 0
             = Some r)
    by (eexists; vm_compute; reflexivity).
  destruct E as [[[m G'] k'] E].
  exists m. split; [exists G', k'; exact E|].
  destruct (melhor_fo_monotono _ _ _ _ _ _ _ _ _ _ _ _ _ _ _ E)
    as (_ & _ & _ & rf & _ & _ & H).
  exact H.
Defined.

(** ** The empty grid of [P_ex] *)

Lemma g_vazia_vazia : grade_vazia P_ex g_vazia.
Proof.
  intros i j Hi Hj. change (total_periodos P_ex) with 4 in Hi.
  change (salas P_ex) with 2 in Hj.
  assert (Hc : (i = 0 \/ i = 1 \/ i = 2 \/ i = 3) /\ (j = 0 \/ j = 1)) by lia.
  destruct Hc as [[-> | [-> | [-> | ->]]] [-> | ->]]; reflexivity.
Qed.

Lemma fo_grade_vazia_counterexample :
  (calcula_FO P_ex I_ex (aloca_indices P_ex 0) g_vazia).1 = 3000015
  /\ soma (disciplinas P_ex) (fun c => 1000000 * d_aulas (disc_de P_ex c)) = 3000000
  /\ (forall i j, 0 <= i < total_periodos P_ex -> 0 <= j < salas P_ex ->
        mget g_vazia i j = -1).
Proof.
  split; [vm_compute; reflexivity|].
  split; [vm_compute; reflexivity|].
  exact g_vazia_vazia.
Qed.

(** The table of [I_ex2] has the row of the teacher of [P_ex] and a
    column for each of its two days. *)
Lemma fo_grade_vazia_witness :
  (calcula_FO P_ex I_ex2 (aloca_indices P_ex 7) g_vazia).1 = penalidade_vazia P_ex I_ex2.
Proof.
  apply (fo_grade_vazia P_ex I_ex2 (aloca_indices P_ex 7) g_vazia).
  - vm_compute; repeat split; reflexivity.
  - exact g_vazia_vazia.
  - apply (semente_dentro_forma P_ex I_ex2 [[1; 0]] 1 2);
      [reflexivity|reflexivity|vm_compute; discriminate|vm_compute; discriminate].
  - intros c Hc. change (disciplinas P_ex) with 2 in Hc.
    assert (Hd : c = 0 \/ c = 1) by lia.
    destruct Hd as [-> | ->]; split; vm_compute; discriminate.
  - unfold INT_MAX; cbn; lia.
  - vm_compute. discriminate.
Defined.

(** A table of one day handed to the three days of [P_dias]: the reads
    of the days 1 and 2 go past its row, and the cost of the empty grid
    follows what they find. *)
Lemma fo_grade_vazia_tabela_estreita :
  ~ semente_dentro P_dias (I_estreita 0)
  /\ (calcula_FO P_dias (I_estreita 0) (aloca_indices P_dias 0)
        [[-1; -1]; [-1; -1]; [-1; -1]]).1 = 3000005
  /\ (calcula_FO P_dias (I_estreita 1) (aloca_indices P_dias 0)
        [[-1; -1]; [-1; -1]; [-1; -1]]).1 = 3000010.
Proof.
  split; [|split; vm_compute; reflexivity].
  intros H.
  destruct (H [[1]] eq_refl ltac:(vm_compute; discriminate) 0 1) as [_ [_ Hj]];
    [vm_compute; split; [discriminate|reflexivity]
    |vm_compute; reflexivity
    |vm_compute; split; [discriminate|reflexivity]|].
  vm_compute in Hj. discriminate.
Qed.

(** ** 2148 missing lectures *)

Lemma calcula_FO_int_counterexample :
  (calcula_FO P_muitas I_ex (aloca_indices P_muitas 0) [[-1]]).1 = -2146967296
  /\ penalidade_vazia P_muitas I_ex = 2148000000
  /\ INT_MAX = 2147483647.
Proof.
  split; [vm_compute; reflexivity|].
  split; vm_compute; reflexivity.
Qed.

(** ** A move of the R9 class on [e_dias] *)

Lemma geraViz_preserva_aulas_witness :
  exists e',
    geraViz rand_ex randomDouble_real P_dias 100 5 e_dias = Some e'
    /\ map length (grade e') = map length (grade e_dias)
    /\ length (grade e') = length (grade e_dias)
    /\ (forall c, ocorrencias c (grade e') = ocorrencias c (grade e_dias))
    /\ (forall x, x ∈ concat (grade e') -> x ∈ concat (grade e_dias)).
Proof.
  eexists. split; [vm_compute; reflexivity|].
  apply (geraViz_preserva_aulas rand_ex randomDouble_real P_dias 100 5 e_dias).
  vm_compute; reflexivity.
Defined.

(** The draw is 450 and [restricoes_violadas[9]] is 0: the call takes the
    R9 class, moves the lecture of day 0 to day 2, and returns the
    arrays as it found them, [aux_mov_r9[0]] still 3 and
    [restricoes_violadas[9]] still 0. *)
Lemma classes_dirigidas_counterexample :
  (randomInt rand_ex randomDouble_real 0 1000 (sorteios e_dias)).1 = 450
  /\ restricoes_violadas (indices e_dias) = [-1; -1; -1; -1; -1; -1; -1; -1; -1; 0; -1; -1]
  /\ vget (aux_mov_r9 (indices e_dias)) 0 = 3
  /\ exists e',
       geraViz rand_ex randomDouble_real P_dias 100 5 e_dias = Some e'
       /\ geraViz rand_ex randomDouble_real P_dias 100 5 e_dias
          = mov_r9 rand_ex randomDouble_real P_dias 100 (tentativas_de 5)
              (com_sorteios (randomInt rand_ex randomDouble_real 0 1000 (sorteios e_dias)).2
                 e_dias)
       /\ grade e_dias = [[0; -1]; [0; -1]; [0; -1]]
       /\ grade e' = [[-1; -1]; [0; -1]; [0; 0]]
       /\ vget (aux_mov_r9 (indices e')) 0 = 3
       /\ vget (restricoes_violadas (indices e')) 9 = 0
       /\ indices e' = indices e_dias.
Proof.
  split; [vm_compute; reflexivity|].
  split; [vm_compute; reflexivity|].
  split; [vm_compute; reflexivity|].
  eexists. split; [vm_compute; reflexivity|].
  split; [vm_compute; reflexivity|].
  split; [vm_compute; reflexivity|].
  split; [vm_compute; reflexivity|].
  split; [vm_compute; reflexivity|].
  split; [vm_compute; reflexivity|].
  vm_compute; reflexivity.
Qed.

(** The R10 class on [e_tipo] and the R9 class on [e_dias]. *)
Lemma classes_dirigidas_testemunha_e_contador_witness :
  (exists e',
     mov_r10 rand_ex randomDouble_real P_tipo 100 5 e_tipo = Some e'
     /\ exists aux w,
          ler2 (aux_mov_r10 (indices e_tipo)) aux 0 = Some w /\ w <> -1
          /\ ler2 (aux_mov_r10 (indices e')) aux 0 = Some (-1)
          /\ ler2 (aux_mov_r10 (indices e')) aux 1 = Some (-1)
          /\ restricoes_violadas (indices e')
             = vinc (restricoes_violadas (indices e_tipo)) 10 (-1))
  /\ (exists e',
        mov_r9 rand_ex randomDouble_real P_dias 100 5 e_dias = Some e'
        /\ indices e' = indices e_dias).
Proof.
  split.
  - assert (E : exists e', mov_r10 rand_ex randomDouble_real P_tipo 100 5 e_tipo = Some e')
      by (eexists; vm_compute; reflexivity).
    destruct E as [e' E]. exists e'. split; [exact E|].
    pose proof (classes_dirigidas_testemunha_e_contador
                  rand_ex randomDouble_real P_tipo 100 5 e_tipo e') as H.
    cbv zeta in H. destruct H as (_ & _ & _ & _ & _ & _ & H & _).
    exact (H E).
  - assert (E : exists e', mov_r9 rand_ex randomDouble_real P_dias 100 5 e_dias = Some e')
      by (eexists; vm_compute; reflexivity).
    destruct E as [e' E]. exists e'. split; [exact E|].
    pose proof (classes_dirigidas_testemunha_e_contador
                  rand_ex randomDouble_real P_dias 100 5 e_dias e') as H.
    cbv zeta in H. destruct H as (_ & _ & _ & _ & _ & H & _).
    exact (H E).
Defined.

(** ** The second lecture of the course of [P_cap]

    The first draw [(0, 0)] places the first lecture by the primary
    test and leaves [cont = -3].  The next three draws are the empty
    cell [(0, 1)] of the small room: each fails the primary test, and
    after the third [cont] is 0 and the lecture is still not placed. *)
Lemma tentativa_contador_witness :
  tentativa P_cap 0 0 0 ([[-1; -1]; [-1; -1]], 2, 0)
  = Some ([[0; -1]; [-1; -1]], 1, -3)
  /\ tentativa P_cap 0 0 1 ([[0; -1]; [-1; -1]], 1, -3)
     = Some ([[0; -1]; [-1; -1]], 1, -2)
  /\ tentativa P_cap 0 0 1 ([[0; -1]; [-1; -1]], 1, -2)
     = Some ([[0; -1]; [-1; -1]], 1, -1)
  /\ tentativa P_cap 0 0 1 ([[0; -1]; [-1; -1]], 1, -1)
     = Some ([[0; -1]; [-1; -1]], 1, 0)
  /\ ler2 [[0; -1]; [-1; -1]] 0 1 = Some (-1).
Proof.
  split; [|split; [|split; [|split]]].
  - rewrite (tentativa_contador P_cap 0 0 0 _ 2 0 (-1)
               {| d_cursos := []; d_prof := 0; d_aulas := 2; d_minDias := 1;
                  d_alunos := 10; d_tipo_sala := 1 |}
               {| s_capacidade := 20; s_tipo_sala := 1 |});
      reflexivity.
  - rewrite (tentativa_contador P_cap 0 0 1 _ 1 (-3) (-1)
               {| d_cursos := []; d_prof := 0; d_aulas := 2; d_minDias := 1;
                  d_alunos := 10; d_tipo_sala := 1 |}
               {| s_capacidade := 5; s_tipo_sala := 1 |});
      reflexivity.
  - rewrite (tentativa_contador P_cap 0 0 1 _ 1 (-2) (-1)
               {| d_cursos := []; d_prof := 0; d_aulas := 2; d_minDias := 1;
                  d_alunos := 10; d_tipo_sala := 1 |}
               {| s_capacidade := 5; s_tipo_sala := 1 |});
      reflexivity.
  - rewrite (tentativa_contador P_cap 0 0 1 _ 1 (-1) (-1)
               {| d_cursos := []; d_prof := 0; d_aulas := 2; d_minDias := 1;
                  d_alunos := 10; d_tipo_sala := 1 |}
               {| s_capacidade := 5; s_tipo_sala := 1 |});
      reflexivity.
  - reflexivity.
Defined.

(** ** The two phases on [P_tipo], and a phase without its file *)

Lemma sem_estouro_P_tipo : sem_estouro P_tipo.
Proof.
  unfold sem_estouro.
  let l := eval cbv in (disc P_tipo) in change (disc P_tipo) with l.
  let l := eval cbv in (sala P_tipo) in change (sala P_tipo) with l.
  repeat match goal with
  | |- _ /\ _ => split
  | |- Forall _ (_ :: _) => apply List.Forall_cons
  | |- Forall _ [] => apply List.Forall_nil
  end; vm_compute; discriminate.
Qed.



(** * Further properties of the program *)

(** ** The evaluator *)

(** X1. On an instance whose sizes and data are not negative and whose
    largest possible sum of penalties fits in an [int], the value
    returned by [calcula_FO] is the sum of the penalties without any
    wrap-around: whatever the grid and whatever the arrays held before,
    it lies between 0 and that bound, so it is never negative and never
    the sentinel [-1]. *)
Theorem calcula_FO_nao_negativa (P : Instancia) (Itg : Integral) (G : Globais)
    (g : list (list Z)) :
  sem_estouro P ->
  0 <= (calcula_FO P Itg G g).1 <= limite P
  /\ (calcula_FO P Itg G g).1 <= INT_MAX
  /\ (calcula_FO P Itg G g).1 <> -1.
Proof.
  intros Hse. pose proof (calcula_FO_limite P Itg G g Hse) as H.
  destruct Hse as (_ & _ & _ & _ & _ & _ & _ & _ & Hlim).
  split; [exact H|]. split; lia.
Qed.

Lemma calcula_FO_nao_negativa_witness :
  0 <= (calcula_FO P_tipo I_ex (aloca_indices P_tipo 7) g_tipo).1 <= limite P_tipo
  /\ (calcula_FO P_tipo I_ex (aloca_indices P_tipo 7) g_tipo).1 <= INT_MAX
  /\ (calcula_FO P_tipo I_ex (aloca_indices P_tipo 7) g_tipo).1 <> -1.
Proof.
  apply (calcula_FO_nao_negativa P_tipo I_ex (aloca_indices P_tipo 7) g_tipo).
  exact sem_estouro_P_tipo.
Defined.

(** X2. After an evaluation, [r21[p][t]] is the number of rooms that
    hold, in period [p], a lecture of teacher [t], and [r22[p][k]] the
    number of rooms that hold a lecture of curriculum [k]; the loops
    after the main loop do not touch the two arrays. *)
Theorem contadores_r2_apos_avaliacao (P : Instancia) (I : Integral) (G : Globais)
    (g : list (list Z)) :
  indices_ok P G -> salas P <= INT_MAX ->
  (forall p t, 0 <= p < total_periodos P -> 0 <= t < professores P ->
     mget (r21 (calcula_FO P I G g).2) p t = aulas_prof P g p t)
  /\ (forall p k, 0 <= p < total_periodos P -> 0 <= k < cursos P ->
        mget (r22 (calcula_FO P I G g).2) p k = aulas_curso P g p k).
Proof.
  intros HG Hs. unfold calcula_FO.
  rewrite (quadro_penaliza_r11 r21), (quadro_penaliza_r9 r21),
    (quadro_penaliza_r1_r5 r21), (quadro_penaliza_r2 r21) by reflexivity.
  rewrite (quadro_penaliza_r11 r22), (quadro_penaliza_r9 r22),
    (quadro_penaliza_r1_r5 r22), (quadro_penaliza_r2 r22) by reflexivity.
  destruct (contadores_r2 P I G g HG Hs) as (_ & H21 & H22).
  split; assumption.
Qed.

Lemma contadores_r2_apos_avaliacao_witness :
  mget (r21 (calcula_FO P_ex I_ex (aloca_indices P_ex 7) g_ex).2) 0 0 = 2
  /\ mget (r22 (calcula_FO P_ex I_ex (aloca_indices P_ex 7) g_ex).2) 0 0 = 2.
Proof.
  destruct (contadores_r2_apos_avaliacao P_ex I_ex (aloca_indices P_ex 7) g_ex)
    as [H21 H22].
  - vm_compute; repeat split; reflexivity.
  - unfold INT_MAX; cbn; lia.
  - split.
    + rewrite (H21 0 0) by (vm_compute; split; [discriminate|reflexivity]). reflexivity.
    + rewrite (H22 0 0) by (vm_compute; split; [discriminate|reflexivity]). reflexivity.
Defined.

(** ** Counters of the main loop *)

Lemma conta_celulas_nonneg P q : 0 <= conta_celulas P q.
Proof. unfold conta_celulas. apply soma_nonneg. intros i _. apply conta_nonneg. Qed.

Lemma conta_celulas_le P q :
  0 <= total_periodos P -> 0 <= salas P -> conta_celulas P q <= celulas P.
Proof.
  intros Htp Hs. unfold conta_celulas, celulas.
  apply (soma_ind (fun i a => a <= i * salas P)); [exact Htp|lia|].
  intros i a Hi Ha. pose proof (conta_le (salas P) (q i) Hs). lia.
Qed.

(** A counter that the body of the main loop increments by one on the
    cells that satisfy [q], and leaves alone on the others, ends as its
    initial value plus the number of those cells. *)
Lemma laco_principal_conta (Q : Z * Globais -> Prop) (obs : Z * Globais -> Z)
    (q : Z -> Z -> bool) P g s0 :
  0 <= total_periodos P -> 0 <= salas P ->
  INT_MIN <= obs s0 -> obs s0 + celulas P <= INT_MAX ->
  Q s0 ->
  (forall i j s, 0 <= i < total_periodos P -> 0 <= j < salas P -> Q s ->
     Q (avalia_celula P g i j s)
     /\ obs (avalia_celula P g i j s) = if q i j then iadd (obs s) 1 else obs s) ->
  Q (laco_principal P g s0)
  /\ obs (laco_principal P g s0) = obs s0 + conta_celulas P q.
Proof.
  intros Htp Hs Hlo Hhi HQ0 Hstep.
  pose (Inv := fun (i j : Z) (s : Z * Globais) =>
    Q s /\ obs s = obs s0 + soma i (fun i => conta (salas P) (q i)) + conta j (q i)).
  assert (H : Inv (total_periodos P) 0 (laco_principal P g s0)).
  { apply laco_principal_inv; [exact Htp| | |]; unfold Inv.
    - split; [exact HQ0|]. rewrite (soma_nonpos 0), (conta_nonpos 0) by lia. lia.
    - intros i j s Hi Hj [HQ Ho].
      destruct (Hstep i j s Hi Hj HQ) as [HQ' Ho'].
      split; [exact HQ'|]. rewrite Ho', conta_succ by lia.
      destruct (q i j); [|lia].
      assert (Hb : soma i (fun i => conta (salas P) (q i)) + conta j (q i)
                   < celulas P).
      { pose proof (conta_le j (q i) ltac:(lia)).
        assert (soma i (fun i => conta (salas P) (q i)) <= i * salas P).
        { apply (soma_ind (fun k a => a <= k * salas P)); [lia|lia|].
          intros k a Hk Ha. pose proof (conta_le (salas P) (q k) Hs). lia. }
        unfold celulas. nia. }
      pose proof (soma_nonneg i (fun i => conta (salas P) (q i))
                    (fun k _ => conta_nonneg (salas P) (q k))).
      pose proof (conta_nonneg j (q i)).
      rewrite iadd_id by (unfold in_int; lia). lia.
    - intros i s Hi [HQ Ho]. split; [exact HQ|].
      rewrite Z.max_r in Ho by lia.
      rewrite soma_succ, (conta_nonpos 0) by lia. lia. }
  destruct H as [HQ Ho]. split; [exact HQ|].
  rewrite Ho, (conta_nonpos 0) by lia. unfold conta_celulas. lia.
Qed.

(** [r1] after an evaluation. *)
Lemma r1_calcula_FO (P : Instancia) (I : Integral) (G : Globais)
    (g : list (list Z)) (c : Z) :
  indices_ok P G ->
  0 <= total_periodos P -> 0 <= salas P -> celulas P <= INT_MAX ->
  0 <= c < disciplinas P ->
  vget (r1 (calcula_FO P I G g).2) c = aulas_na_grade P g c.
Proof.
  intros HG Htp Hs HN Hc. unfold calcula_FO.
  rewrite (quadro_penaliza_r11 r1), (quadro_penaliza_r9 r1),
    (quadro_penaliza_r1_r5 r1), (quadro_penaliza_r2 r1) by reflexivity.
  assert (Hlen : length (r1 G) = Z.to_nat (disciplinas P)) by apply HG.
  destruct (laco_principal_conta
              (fun s => length (r1 s.2) = Z.to_nat (disciplinas P))
              (fun s => vget (r1 s.2) c)
              (fun i j => bool_decide (mget g i j = c))
              P g (0, zera_indices P I G)) as [_ H]; try assumption.
  - simpl. rewrite setVetor_zero by exact Hc. unfold INT_MIN. lia.
  - simpl. rewrite setVetor_zero by exact Hc. lia.
  - simpl. rewrite forma_setVetor. exact Hlen.
  - intros i j s Hi Hj HQ. rewrite r1_avalia_celula.
    destruct (decide (mget g i j = -1)) as [He|He].
    + split; [exact HQ|]. rewrite bool_decide_eq_false_2 by lia. reflexivity.
    + split; [rewrite length_vinc; exact HQ|].
      unfold vinc. rewrite vget_vset.
      destruct (decide (mget g i j = c)) as [->|Hne].
      * rewrite decide_True by (split; [reflexivity|lia]).
        rewrite bool_decide_eq_true_2 by reflexivity. reflexivity.
      * rewrite decide_False by tauto.
        rewrite bool_decide_eq_false_2 by exact Hne. reflexivity.
  - rewrite H. simpl. rewrite setVetor_zero by exact Hc. reflexivity.
Qed.

(** X3. After an evaluation, [r1[c]] is the number of cells of the grid
    that hold course [c], for every course of the instance: the main
    loop counts each occupied cell once and the loops after it leave
    [r1] alone.  The sizes of the grid are those of an instance read
    from a file: not negative, with fewer than [INT_MAX] cells. *)
Theorem r1_conta_aulas (P : Instancia) (I : Integral) (G : Globais)
    (g : list (list Z)) (c : Z) :
  indices_ok P G ->
  0 <= total_periodos P -> 0 <= salas P -> celulas P <= INT_MAX ->
  0 <= c < disciplinas P ->
  vget (r1 (calcula_FO P I G g).2) c = aulas_na_grade P g c.
Proof. apply r1_calcula_FO. Qed.

Lemma r1_conta_aulas_witness :
  vget (r1 (calcula_FO P_ex I_ex (aloca_indices P_ex 7) g_ex).2) 0 = 2
  /\ aulas_na_grade P_ex g_ex 0 = 2.
Proof.
  split; [|vm_compute; reflexivity].
  rewrite (r1_conta_aulas P_ex I_ex (aloca_indices P_ex 7) g_ex 0).
  - vm_compute; reflexivity.
  - vm_compute; repeat split; reflexivity.
  - vm_compute; discriminate.
  - vm_compute; discriminate.
  - vm_compute; discriminate.
  - vm_compute; split; [discriminate|reflexivity].
Defined.

(** ** The counters of violations and the report *)

Lemma length_rv_avalia_celula P g i j s :
  length (restricoes_violadas (avalia_celula P g i j s).2)
  = length (restricoes_violadas s.2).
Proof.
  pose proof (forma_avalia_celula P g i j s) as H. unfold forma in H.
  injection H. intros. assumption.
Qed.

Lemma rv_penaliza_r2 P st k :
  k <> 2 ->
  vget (restricoes_violadas (penaliza_r2 P st).2) k = vget (restricoes_violadas st.2) k.
Proof.
  intros H. unfold penaliza_r2.
  apply (para_preserva (fun s : Z * Globais =>
           vget (restricoes_violadas s.2) k = vget (restricoes_violadas st.2) k));
    [reflexivity|].
  intros i s _ Hs. cbv zeta.
  apply (para_preserva (fun s : Z * Globais =>
           vget (restricoes_violadas s.2) k = vget (restricoes_violadas st.2) k)).
  - apply (para_preserva (fun s : Z * Globais =>
           vget (restricoes_violadas s.2) k = vget (restricoes_violadas st.2) k));
      [exact Hs|].
    intros j s' _ Hs'. repeat case_decide; simpl; try exact Hs';
      [rewrite vget_vset_ne by lia|rewrite vget_vinc_ne by lia]; exact Hs'.
  - intros j s' _ Hs'. repeat case_decide; simpl; try exact Hs';
      [rewrite vget_vset_ne by lia|rewrite vget_vinc_ne by lia]; exact Hs'.
Qed.

(** The counters that only the main loop writes keep, after it, the
    value the main loop left. *)
Lemma rv_apos_laco P I G g k :
  k <> 2 -> k <> 5 -> k <> 9 -> k <> 11 ->
  vget (restricoes_violadas (calcula_FO P I G g).2) k
  = vget (restricoes_violadas (laco_principal P g (0, zera_indices P I G)).2) k.
Proof.
  intros H2 H5 H9 H11. unfold calcula_FO.
  rewrite rv_penaliza_r11, rv_penaliza_r9, rv_penaliza_r1_r5, rv_penaliza_r2
    by assumption.
  reflexivity.
Qed.

Lemma rv4_avalia_celula P g i j s :
  length (restricoes_violadas s.2) = 12%nat ->
  vget (restricoes_violadas (avalia_celula P g i j s).2) 4
  = if viola_r4 P g i j then iadd (vget (restricoes_violadas s.2) 4) 1
    else vget (restricoes_violadas s.2) 4.
Proof.
  intros Hlen. unfold viola_r4, avalia_celula. cbv zeta.
  destruct (decide (mget g i j = -1)) as [He|He];
    [rewrite bool_decide_eq_false_2 by tauto; reflexivity|].
  set (c := mget g i j) in *.
  rewrite (quadro_passo_r11 (fun G => vget (restricoes_violadas G) 4)) by reflexivity.
  assert (E10 : forall s, vget (restricoes_violadas (passo_r10 P i j c s).2) 4
                          = vget (restricoes_violadas s.2) 4).
  { intros t. unfold passo_r10. cbv zeta. case_decide; [|reflexivity].
    simpl. apply vget_vinc_ne. lia. }
  assert (E8 : forall s, vget (restricoes_violadas (passo_r8 P i j c s).2) 4
                         = vget (restricoes_violadas s.2) 4).
  { intros t. unfold passo_r8. cbv zeta. repeat case_decide; try reflexivity;
      simpl; apply vget_vinc_ne; lia. }
  assert (E7 : forall s, vget (restricoes_violadas (passo_r7 P i j c s).2) 4
                         = vget (restricoes_violadas s.2) 4).
  { intros t. unfold passo_r7. cbv zeta. repeat case_decide; try reflexivity;
      simpl; apply vget_vinc_ne; lia. }
  assert (E6 : forall s, vget (restricoes_violadas (passo_r6 P g i j c s).2) 4
                         = vget (restricoes_violadas s.2) 4).
  { intros t. unfold passo_r6, restricaoR6. simpl.
    apply (para_preserva (fun u : Z * Globais =>
             vget (restricoes_violadas u.2) 4 = vget (restricoes_violadas t.2) 4));
      [reflexivity|].
    intros k u _ Hu. repeat case_decide; try exact Hu.
    simpl. rewrite vget_vinc_ne by lia. exact Hu. }
  rewrite E10.
  rewrite (quadro_passo_r9 (fun G => vget (restricoes_violadas G) 4)) by reflexivity.
  rewrite E8, E7, E6.
  rewrite (quadro_passo_r5 (fun G => vget (restricoes_violadas G) 4)) by reflexivity.
  set (s3 := passo_r22 P i j c (passo_r21 P i j c (passo_r1 c s))).
  assert (E3 : vget (restricoes_violadas s3.2) 4 = vget (restricoes_violadas s.2) 4).
  { subst s3.
    rewrite (quadro_passo_r22 (fun G => vget (restricoes_violadas G) 4)),
      (quadro_passo_r21 (fun G => vget (restricoes_violadas G) 4)),
      (quadro_passo_r1 (fun G => vget (restricoes_violadas G) 4)) by reflexivity.
    reflexivity. }
  assert (L3 : length (restricoes_violadas s3.2) = 12%nat).
  { subst s3.
    rewrite (quadro_passo_r22 (fun G => length (restricoes_violadas G))),
      (quadro_passo_r21 (fun G => length (restricoes_violadas G))),
      (quadro_passo_r1 (fun G => length (restricoes_violadas G))) by reflexivity.
    exact Hlen. }
  clearbody s3. unfold passo_r4.
  destruct (decide (restricaoR4 P c i = 1)) as [H4|H4].
  - rewrite bool_decide_eq_true_2 by tauto. simpl.
    unfold vinc. rewrite vget_vset_eq by lia. rewrite E3. reflexivity.
  - rewrite bool_decide_eq_false_2 by tauto. exact E3.
Qed.

Lemma rv10_avalia_celula P g i j s :
  length (restricoes_violadas s.2) = 12%nat ->
  vget (restricoes_violadas (avalia_celula P g i j s).2) 10
  = if viola_r10 P g i j then iadd (vget (restricoes_violadas s.2) 10) 1
    else vget (restricoes_violadas s.2) 10.
Proof.
  intros Hlen. unfold viola_r10.
  pose proof (length_rv_avalia_celula P g i j s) as Hl. revert Hl.
  unfold avalia_celula. cbv zeta.
  destruct (decide (mget g i j = -1)) as [He|He];
    [rewrite bool_decide_eq_false_2 by tauto; reflexivity|].
  set (c := mget g i j) in *. intros Hl.
  rewrite (quadro_passo_r11 (fun G => vget (restricoes_violadas G) 10)) by reflexivity.
  rewrite (quadro_passo_r11 (fun G => length (restricoes_violadas G))) in Hl
    by reflexivity.
  set (s9 := passo_r9 P i c (passo_r8 P i j c (passo_r7 P i j c (passo_r6 P g i j c
               (passo_r5 P i c (passo_r4 P i j c (passo_r22 P i j c
                 (passo_r21 P i j c (passo_r1 c s))))))))) in *.
  assert (E9 : vget (restricoes_violadas s9.2) 10 = vget (restricoes_violadas s.2) 10).
  { subst s9.
    rewrite (quadro_passo_r9 (fun G => vget (restricoes_violadas G) 10)) by reflexivity.
    assert (E8 : forall s, vget (restricoes_violadas (passo_r8 P i j c s).2) 10
                           = vget (restricoes_violadas s.2) 10).
    { intros t. unfold passo_r8. cbv zeta. repeat case_decide; try reflexivity;
        simpl; apply vget_vinc_ne; lia. }
    assert (E7 : forall s, vget (restricoes_violadas (passo_r7 P i j c s).2) 10
                           = vget (restricoes_violadas s.2) 10).
    { intros t. unfold passo_r7. cbv zeta. repeat case_decide; try reflexivity;
        simpl; apply vget_vinc_ne; lia. }
    assert (E6 : forall s, vget (restricoes_violadas (passo_r6 P g i j c s).2) 10
                           = vget (restricoes_violadas s.2) 10).
    { intros t. unfold passo_r6, restricaoR6. simpl.
      apply (para_preserva (fun u : Z * Globais =>
               vget (restricoes_violadas u.2) 10 = vget (restricoes_violadas t.2) 10));
        [reflexivity|].
      intros k u _ Hu. repeat case_decide; try exact Hu.
      simpl. rewrite vget_vinc_ne by lia. exact Hu. }
    assert (E4 : forall s, vget (restricoes_violadas (passo_r4 P i j c s).2) 10
                           = vget (restricoes_violadas s.2) 10).
    { intros t. unfold passo_r4. case_decide; [|reflexivity].
      simpl. apply vget_vinc_ne. lia. }
    rewrite E8, E7, E6.
    rewrite (quadro_passo_r5 (fun G => vget (restricoes_violadas G) 10)) by reflexivity.
    rewrite E4.
    rewrite (quadro_passo_r22 (fun G => vget (restricoes_violadas G) 10)),
      (quadro_passo_r21 (fun G => vget (restricoes_violadas G) 10)),
      (quadro_passo_r1 (fun G => vget (restricoes_violadas G) 10)) by reflexivity.
    reflexivity. }
  clearbody s9. revert Hl. unfold passo_r10. cbv zeta.
  destruct (decide (d_tipo_sala (disc_de P c) <> s_tipo_sala (sala_de P j))) as [H10|H10].
  - rewrite bool_decide_eq_true_2 by tauto. simpl. intros Hl.
    unfold vinc in *. rewrite length_vset in Hl.
    rewrite vget_vset_eq by lia. rewrite E9. reflexivity.
  - rewrite bool_decide_eq_false_2 by tauto. intros _. exact E9.
Qed.

Lemma contadores_r4_r10_aux (P : Instancia) (I : Integral) (G : Globais)
    (g : list (list Z)) :
  indices_ok P G ->
  0 <= total_periodos P -> 0 <= salas P -> celulas P < INT_MAX ->
  vget (restricoes_violadas (calcula_FO P I G g).2) 4
  = conta_celulas P (viola_r4 P g) - 1
  /\ vget (restricoes_violadas (calcula_FO P I G g).2) 10
     = conta_celulas P (viola_r10 P g) - 1.
Proof.
  intros HG Htp Hs HN.
  assert (Hl0 : length (restricoes_violadas (zera_indices P I G)) = 12%nat).
  { simpl. rewrite forma_setVetor. apply HG. }
  rewrite !rv_apos_laco by lia.
  split.
  - destruct (laco_principal_conta
                (fun s => length (restricoes_violadas s.2) = 12%nat)
                (fun s => vget (restricoes_violadas s.2) 4)
                (viola_r4 P g) P g (0, zera_indices P I G)) as [_ H];
      try assumption.
    + cbv beta. cbn [snd]. rewrite rv_zera_indices by (exact HG || lia).
      unfold INT_MIN. lia.
    + cbv beta. cbn [snd]. rewrite rv_zera_indices by (exact HG || lia). lia.
    + intros i j s Hi Hj HQ.
      split; [rewrite length_rv_avalia_celula; exact HQ|].
      apply rv4_avalia_celula. exact HQ.
    + rewrite H. cbn [snd]. rewrite rv_zera_indices by (exact HG || lia). lia.
  - destruct (laco_principal_conta
                (fun s => length (restricoes_violadas s.2) = 12%nat)
                (fun s => vget (restricoes_violadas s.2) 10)
                (viola_r10 P g) P g (0, zera_indices P I G)) as [_ H];
      try assumption.
    + cbv beta. cbn [snd]. rewrite rv_zera_indices by (exact HG || lia).
      unfold INT_MIN. lia.
    + cbv beta. cbn [snd]. rewrite rv_zera_indices by (exact HG || lia). lia.
    + intros i j s Hi Hj HQ.
      split; [rewrite length_rv_avalia_celula; exact HQ|].
      apply rv10_avalia_celula. exact HQ.
    + rewrite H. cbn [snd]. rewrite rv_zera_indices by (exact HG || lia). lia.
Qed.

(** X4. After an evaluation, [restricoes_violadas[4]] is one less than
    the number of cells whose lecture is placed in a period that R4
    forbids, and [restricoes_violadas[10]] one less than the number of
    cells whose lecture is in a room of another type than its course
    requires: the counters start at [-1] and the main loop adds one per
    such cell.  So they are [-1] without violation and 0, not 1, for a
    single one. *)
Theorem contadores_r4_r10 (P : Instancia) (I : Integral) (G : Globais)
    (g : list (list Z)) :
  indices_ok P G ->
  0 <= total_periodos P -> 0 <= salas P -> celulas P < INT_MAX ->
  vget (restricoes_violadas (calcula_FO P I G g).2) 4
  = conta_celulas P (viola_r4 P g) - 1
  /\ vget (restricoes_violadas (calcula_FO P I G g).2) 10
     = conta_celulas P (viola_r10 P g) - 1.
Proof.
  intros HG Htp Hs HN.
  exact (contadores_r4_r10_aux P I G g HG Htp Hs HN).
Qed.

Lemma contadores_r4_r10_witness :
  vget (restricoes_violadas (calcula_FO P_tipo I_ex (aloca_indices P_tipo 7) g_tipo).2) 10
  = 0
  /\ conta_celulas P_tipo (viola_r10 P_tipo g_tipo) = 1.
Proof.
  split; [|vm_compute; reflexivity].
  rewrite (proj2 (contadores_r4_r10 P_tipo I_ex (aloca_indices P_tipo 7) g_tipo
                    ltac:(vm_compute; repeat split; reflexivity)
                    ltac:(vm_compute; discriminate)
                    ltac:(vm_compute; discriminate)
                    ltac:(vm_compute; reflexivity))).
  vm_compute; reflexivity.
Defined.

(** The composite counter of R2 after an evaluation. *)
Lemma codigo_r2_calcula_FO P I G g :
  indices_ok P G ->
  salas P <= INT_MAX ->
  conflitos_prof P g + 1000 * conflitos_curso P g <= INT_MAX ->
  0 <= conflitos_prof P g /\ 0 <= conflitos_curso P g
  /\ vget (restricoes_violadas (calcula_FO P I G g).2) 2
     = codigo_r2 (conflitos_prof P g + 1000 * conflitos_curso P g).
Proof.
  intros Hok Hsal Hmax.
  assert (H0 : 0 <= conflitos_prof P g).
  { unfold conflitos_prof. apply soma_nonneg. intros. apply conta_nonneg. }
  assert (H1 : 0 <= conflitos_curso P g).
  { unfold conflitos_curso. apply soma_nonneg. intros. apply conta_nonneg. }
  split; [exact H0|]. split; [exact H1|].
  unfold calcula_FO.
  rewrite rv_penaliza_r11, rv_penaliza_r9, rv_penaliza_r1_r5 by lia.
  destruct (contadores_r2 P I G g Hok Hsal) as (Hok1 & H21 & H22).
  set (s := laco_principal P g (0, zera_indices P I G)) in *.
  assert (Hsoma : soma (total_periodos P) (fun p =>
            conta (professores P) (fun t => bool_decide (1 < mget (r21 s.2) p t))
            + 1000 * conta (cursos P) (fun k => bool_decide (1 < mget (r22 s.2) p k)))
          = conflitos_prof P g + 1000 * conflitos_curso P g).
  { rewrite soma_linear. unfold conflitos_prof, conflitos_curso. f_equal; [|f_equal].
    - apply soma_ext. intros p Hp. apply soma_ext. intros t Ht.
      rewrite H21 by assumption. reflexivity.
    - apply soma_ext. intros p Hp. apply soma_ext. intros k Hk.
      rewrite H22 by assumption. reflexivity. }
  rewrite penaliza_r2_codigo.
  - rewrite Hsoma. reflexivity.
  - apply Hok1.
  - subst s. rewrite rv_laco_principal by lia. apply rv_zera_indices; [exact Hok|lia].
  - rewrite Hsoma. exact Hmax.
Qed.

Lemma rv1_calcula_FO P I G g :
  indices_ok P G -> vget (restricoes_violadas (calcula_FO P I G g).2) 1 = -1.
Proof.
  intros HG. rewrite rv_apos_laco, rv_laco_principal by lia.
  apply rv_zera_indices; [exact HG|lia].
Qed.

(** X5. What the report of violations prints after an evaluation.  The
    line of R1 is always 0, whatever the grid: [calcula_FO] charges the
    missing lectures to [fo] but never writes [restricoes_violadas[1]].
    The lines of R4 and R10 print one less than the number of offending
    cells, and 0 when there is one offending cell or none. *)
Theorem relatorio_apos_avaliacao (P : Instancia) (I : Integral) (G : Globais)
    (g : list (list Z)) :
  indices_ok P G ->
  0 <= total_periodos P -> 0 <= salas P -> celulas P < INT_MAX ->
  let linhas := imprimeViolacoes (calcula_FO P I G g).2 in
  linhas !! 0%nat = Some 0
  /\ linhas !! 4%nat = Some (Z.max 0 (conta_celulas P (viola_r4 P g) - 1))
  /\ linhas !! 10%nat = Some (Z.max 0 (conta_celulas P (viola_r10 P g) - 1)).
Proof.
  intros HG Htp Hs HN. cbv zeta.
  destruct (contadores_r4_r10_aux P I G g HG Htp Hs HN) as [H4 H10].
  unfold imprimeViolacoes, figura. cbn [lookup list_lookup].
  rewrite rv1_calcula_FO by exact HG. rewrite H4, H10.
  pose proof (conta_celulas_nonneg P (viola_r4 P g)).
  pose proof (conta_celulas_nonneg P (viola_r10 P g)).
  split; [reflexivity|].
  split; f_equal; case_decide; lia.
Qed.

(** X6. The line of R2 in the report printed after an evaluation.  With
    [tp] teacher conflicts and [cp] curriculum conflicts the total
    printed is [tp + 1000 * cp], the teacher part is [tp mod 1000] and
    the curriculum part is [cp + tp / 1000]; the two parts are [tp] and
    [cp] themselves when there are fewer than 1000 teacher conflicts.
    Without any conflict the counter is [-1] and the three figures
    printed are 0. *)
Theorem relatorio_r2 (P : Instancia) (I : Integral) (G : Globais)
    (g : list (list Z)) :
  indices_ok P G ->
  salas P <= INT_MAX ->
  conflitos_prof P g + 1000 * conflitos_curso P g <= INT_MAX ->
  let linhas := imprimeViolacoes (calcula_FO P I G g).2 in
  linhas !! 1%nat = Some (conflitos_prof P g + 1000 * conflitos_curso P g)
  /\ linhas !! 2%nat = Some (conflitos_prof P g mod 1000)
  /\ linhas !! 3%nat = Some (conflitos_curso P g + conflitos_prof P g / 1000)
  /\ (conflitos_prof P g < 1000 ->
      linhas !! 2%nat = Some (conflitos_prof P g)
      /\ linhas !! 3%nat = Some (conflitos_curso P g)).
Proof.
  intros HG Hs Hmax. cbv zeta.
  destruct (codigo_r2_calcula_FO P I G g HG Hs Hmax) as (Htp & Hcp & E).
  set (tp := conflitos_prof P g) in *. set (cp := conflitos_curso P g) in *.
  unfold imprimeViolacoes, figura. cbn [lookup list_lookup].
  rewrite E. clear E. unfold codigo_r2, irem, idiv.
  assert (Hm : 0 <= tp mod 1000 < 1000) by (apply Z.mod_pos_bound; lia).
  assert (Hd : tp = 1000 * (tp / 1000) + tp mod 1000) by (apply Z.div_mod; lia).
  assert (Hq : 0 <= tp / 1000) by (apply Z.div_pos; lia).
  assert (R : 0 < tp + 1000 * cp ->
              Z.rem (tp + 1000 * cp) 1000 = tp mod 1000
              /\ to_int (Z.quot (tp + 1000 * cp) 1000) = cp + tp / 1000).
  { intros Hpos. rewrite Z.rem_mod_nonneg, Z.quot_div_nonneg by lia.
    replace (tp + 1000 * cp) with (tp + cp * 1000) by lia.
    rewrite Z.mod_add, Z.div_add by lia.
    split; [reflexivity|].
    rewrite to_int_id; [lia|]. unfold in_int, INT_MIN, INT_MAX in *. lia. }
  assert (Z0 : tp + 1000 * cp = 0 -> tp mod 1000 = 0 /\ cp + tp / 1000 = 0).
  { intros H0. assert (tp = 0) by lia. assert (cp = 0) by lia. subst tp cp.
    rewrite H, H1. split; reflexivity. }
  assert (L1 : (if decide (0 < (if decide (tp + 1000 * cp = 0) then -1 else tp + 1000 * cp))
                then (if decide (tp + 1000 * cp = 0) then -1 else tp + 1000 * cp)
                else 0) = tp + 1000 * cp).
  { repeat case_decide; lia. }
  assert (L2 : (if decide (0 < (if decide (tp + 1000 * cp = 0) then -1 else tp + 1000 * cp))
                then Z.rem (if decide (tp + 1000 * cp = 0) then -1 else tp + 1000 * cp) 1000
                else 0) = tp mod 1000).
  { destruct (decide (tp + 1000 * cp = 0)) as [H0|H0].
    - rewrite decide_False by lia. symmetry. apply (Z0 H0).
    - rewrite decide_True by lia. apply R. lia. }
  assert (L3 : (if decide (0 < (if decide (tp + 1000 * cp = 0) then -1 else tp + 1000 * cp))
                then to_int (Z.quot (if decide (tp + 1000 * cp = 0) then -1
                                     else tp + 1000 * cp) 1000)
                else 0) = cp + tp / 1000).
  { destruct (decide (tp + 1000 * cp = 0)) as [H0|H0].
    - rewrite decide_False by lia. symmetry. apply (Z0 H0).
    - rewrite decide_True by lia. apply R. lia. }
  rewrite L1, L2, L3.
  split; [reflexivity|]. split; [reflexivity|]. split; [reflexivity|].
  intros Hlt. rewrite Z.mod_small, Z.div_small by lia.
  split; f_equal; lia.
Qed.

Lemma relatorio_r2_witness :
  let linhas := imprimeViolacoes (calcula_FO P_ex I_ex (aloca_indices P_ex 7) g_ex).2 in
  linhas !! 1%nat = Some 1001 /\ linhas !! 2%nat = Some 1 /\ linhas !! 3%nat = Some 1.
Proof.
  pose proof (relatorio_r2 P_ex I_ex (aloca_indices P_ex 7) g_ex
                (indices_ok_aloca P_ex 7)
                ltac:(vm_compute; discriminate)
                ltac:(vm_compute; discriminate)) as H.
  cbv zeta in H. destruct H as (H1 & H2 & H3 & _).
  cbv zeta. rewrite H1, H2, H3.
  split; [|split]; f_equal; vm_compute; reflexivity.
Defined.

Lemma relatorio_apos_avaliacao_witness :
  let linhas := imprimeViolacoes (calcula_FO P_tipo I_ex (aloca_indices P_tipo 7) g_tipo).2 in
  linhas !! 0%nat = Some 0 /\ linhas !! 10%nat = Some 0
  /\ conta_celulas P_tipo (viola_r10 P_tipo g_tipo) = 1.
Proof.
  pose proof (relatorio_apos_avaliacao P_tipo I_ex (aloca_indices P_tipo 7) g_tipo
                (indices_ok_aloca P_tipo 7)
                ltac:(vm_compute; discriminate)
                ltac:(vm_compute; discriminate)
                ltac:(vm_compute; reflexivity)) as H.
  cbv zeta in H. destruct H as (H1 & _ & H3).
  cbv zeta. rewrite H1, H3.
  split; [reflexivity|]. split; [f_equal|]; vm_compute; reflexivity.
Defined.

Section Unico.
Variable rand : nat -> Z.
Variable randomDouble_fp : Z -> Q -> Q -> Q.

(** X7. The targeted moves of R2 need more than one conflict.  In the
    state an evaluation leaves, the teacher class repairs a conflict only
    when the low part [tp mod 1000] of the counter exceeds 1, and the
    curriculum class only when the counter exceeds 1000: with a single
    teacher conflict, or with a single curriculum conflict and no teacher
    conflict, each class makes random exchanges only and leaves every
    index array, witnesses and counters included, as the evaluation left
    them. *)
Theorem conflito_unico_sem_alvo (P : Instancia) (I : Integral) (G : Globais)
    (fuel : nat) (tentativas : Z) (e e' : Estado) :
  indices_ok P G ->
  salas P <= INT_MAX ->
  conflitos_prof P (grade e) + 1000 * conflitos_curso P (grade e) <= INT_MAX ->
  indices e = (calcula_FO P I G (grade e)).2 ->
  (conflitos_prof P (grade e) mod 1000 <= 1 ->
   mov_r2_prof rand randomDouble_fp P fuel tentativas e = Some e' ->
   indices e' = indices e)
  /\ (conflitos_prof P (grade e) + 1000 * conflitos_curso P (grade e) <= 1000 ->
      mov_r2_curso rand randomDouble_fp P fuel tentativas e = Some e' ->
      indices e' = indices e).
Proof.
  intros HG Hs Hmax Hind.
  destruct (codigo_r2_calcula_FO P I G (grade e) HG Hs Hmax) as (Htp & Hcp & E).
  rewrite <- Hind in E.
  set (tp := conflitos_prof P (grade e)) in *.
  set (cp := conflitos_curso P (grade e)) in *.
  split.
  - intros Hle. apply mov_r2_prof_sem_alvo. rewrite E. unfold codigo_r2, irem.
    case_decide; [vm_compute; discriminate|].
    rewrite Z.rem_mod_nonneg by lia.
    replace (tp + 1000 * cp) with (tp + cp * 1000) by lia.
    rewrite Z.mod_add by lia. lia.
  - intros Hle. apply mov_r2_curso_sem_alvo. rewrite E. unfold codigo_r2.
    case_decide; lia.
Qed.

End Unico.

Lemma conflito_unico_sem_alvo_witness :
  conflitos_prof P_ex g_ex = 1
  /\ exists e', mov_r2_prof rand_ex randomDouble_real P_ex 50 5 e_unico = Some e'
                /\ indices e' = indices e_unico.
Proof.
  split; [vm_compute; reflexivity|].
  assert (E : exists e', mov_r2_prof rand_ex randomDouble_real P_ex 50 5 e_unico = Some e')
    by (eexists; vm_compute; reflexivity).
  destruct E as [e' E]. exists e'. split; [exact E|].
  assert (Hind : indices e_unico
                 = (calcula_FO P_ex I_ex (aloca_indices P_ex 7) (grade e_unico)).2)
    by reflexivity.
  pose proof (conflito_unico_sem_alvo rand_ex randomDouble_real P_ex I_ex
                (aloca_indices P_ex 7) 50 5 e_unico e'
                (indices_ok_aloca P_ex 7)
                ltac:(vm_compute; discriminate)
                ltac:(vm_compute; discriminate)
                Hind) as H.
  destruct H as [H _]. apply H; [vm_compute; discriminate|exact E].
Defined.

(** X8. Packed positions decode to the cell they encode.  A witness
    position is [j * total_periodos + i]; [geraViz] reads the room back as
    [w / total_periodos] and the period as [w - sal * total_periodos].
    For a cell of the grid the two are [j] and [i] again, and the packed
    position is never the marker [-1] of an absent witness. *)
Theorem posicao_ida_e_volta (P : Instancia) (i j : Z) :
  0 <= i < total_periodos P ->
  0 <= j < salas P ->
  celulas P <= INT_MAX ->
  sala_de_pos P (posicao P i j) = j
  /\ periodo_de_pos P (posicao P i j) = i
  /\ posicao P i j <> -1.
Proof.
  intros Hi Hj HN. unfold celulas in HN.
  assert (Hb : 0 <= j * total_periodos P + i <= INT_MAX) by (unfold INT_MAX in *; nia).
  assert (Hm : 0 <= j * total_periodos P <= INT_MAX) by (unfold INT_MAX in *; nia).
  assert (Hj' : j <= INT_MAX) by (unfold INT_MAX in *; nia).
  assert (E : posicao P i j = j * total_periodos P + i).
  { unfold posicao. rewrite (imul_id j) by (unfold in_int, INT_MIN, INT_MAX in *; lia).
    apply iadd_id. unfold in_int, INT_MIN, INT_MAX in *. lia. }
  assert (S : sala_de_pos P (posicao P i j) = j).
  { unfold sala_de_pos, idiv. rewrite E.
    rewrite Z.quot_div_nonneg by lia.
    rewrite Z.add_comm, Z.div_add by lia.
    rewrite Z.div_small by lia.
    rewrite to_int_id; [lia|]. unfold in_int, INT_MIN, INT_MAX in *. lia. }
  split; [exact S|]. split; [|lia].
  unfold periodo_de_pos. rewrite S, E.
  rewrite (imul_id j) by (unfold in_int, INT_MIN, INT_MAX in *; lia).
  rewrite isub_id by (unfold in_int, INT_MIN, INT_MAX in *; lia). lia.
Qed.

Lemma posicao_ida_e_volta_witness :
  posicao P_ex 3 1 = 7
  /\ sala_de_pos P_ex 7 = 1 /\ periodo_de_pos P_ex 7 = 3.
Proof.
  pose proof (posicao_ida_e_volta P_ex 3 1
                ltac:(vm_compute; split; [discriminate|reflexivity])
                ltac:(vm_compute; split; [discriminate|reflexivity])
                ltac:(vm_compute; discriminate)) as (H1 & H2 & _).
  assert (E : posicao P_ex 3 1 = 7) by (vm_compute; reflexivity).
  rewrite E in H1, H2. exact (conj E (conj H1 H2)).
Defined.

Section Sorteio.
Variable rand : nat -> Z.
Variable randomDouble_fp : Z -> Q -> Q -> Q.

(** X9. [randomInt(inicio, fim)] stays inside [inicio .. fim] and makes
    one call of [rand()], as long as the double it scales lies in
    [0, fim - inicio + 1), which is what [randomDouble] computes from a
    non-negative [rand()] for a non-empty range. *)
Theorem randomInt_intervalo (inicio fim : Z) (k : nat) :
  in_int inicio -> in_int fim -> inicio <= fim -> in_int (fim - inicio) ->
  (0 <= randomDouble_fp (rand k) 0 (inject_Z (fim - inicio) + 1))%Q ->
  (randomDouble_fp (rand k) 0 (inject_Z (fim - inicio) + 1)
   < inject_Z (fim - inicio) + 1)%Q ->
  inicio <= (randomInt rand randomDouble_fp inicio fim k).1 <= fim
  /\ (randomInt rand randomDouble_fp inicio fim k).2 = S k.
Proof.
  intros Hi Hf Hle Hd H0 H1.
  unfold randomInt, randomDouble. cbn [fst snd].
  rewrite isub_id by exact Hd.
  set (r := randomDouble_fp (rand k) 0 (inject_Z (fim - inicio) + 1)) in *.
  split; [|reflexivity].
  destruct r as [p q]. unfold Qle, Qlt in H0, H1. cbn in H0, H1.
  unfold trunca. cbn [Qnum Qden].
  assert (Hp : 0 <= p) by lia.
  rewrite Z.quot_div_nonneg by lia.
  assert (Hq : 0 <= p / Z.pos q <= fim - inicio).
  { split; [apply Z.div_pos; lia|].
    assert (p / Z.pos q < fim - inicio + 1); [|lia].
    apply Z.div_lt_upper_bound; lia. }
  rewrite to_int_id by (unfold in_int, INT_MIN, INT_MAX in *; lia).
  rewrite iadd_id by (unfold in_int, INT_MIN, INT_MAX in *; lia).
  lia.
Qed.

End Sorteio.

Lemma randomInt_intervalo_witness :
  0 <= (randomInt rand_ex randomDouble_real 0 3 0).1 <= 3
  /\ (randomInt rand_ex randomDouble_real 0 3 0).2 = 1%nat.
Proof.
  apply (randomInt_intervalo rand_ex randomDouble_real 0 3 0).
  - vm_compute; split; discriminate.
  - vm_compute; split; discriminate.
  - lia.
  - vm_compute; split; discriminate.
  - vm_compute; discriminate.
  - vm_compute; reflexivity.
Defined.

(** ** Copies of a solution *)

(** Two grids of the same dimensions with the same cells are equal. *)
Lemma grade_ext (m m' : list (list Z)) (a b : Z) :
  map length m = replicate (Z.to_nat a) (Z.to_nat b) ->
  map length m' = replicate (Z.to_nat a) (Z.to_nat b) ->
  (forall i j, 0 <= i < a -> 0 <= j < b -> mget m i j = mget m' i j) ->
  m = m'.
Proof.
  intros Hm Hm' H.
  pose proof (forma_length _ _ _ Hm) as L. pose proof (forma_length _ _ _ Hm') as L'.
  apply list_eq. intros i.
  destruct (decide (i < Z.to_nat a)%nat) as [Hi|Hi].
  - destruct (lookup_lt_is_Some_2 m i) as [row Hrow]; [lia|].
    destruct (lookup_lt_is_Some_2 m' i) as [row' Hrow']; [lia|].
    rewrite Hrow, Hrow'. f_equal.
    assert (Hl : length row = Z.to_nat b).
    { assert (map length m !! i = Some (length row)) as H1
        by (rewrite list_lookup_fmap, Hrow; reflexivity).
      rewrite Hm in H1. apply lookup_replicate in H1. lia. }
    assert (Hl' : length row' = Z.to_nat b).
    { assert (map length m' !! i = Some (length row')) as H1
        by (rewrite list_lookup_fmap, Hrow'; reflexivity).
      rewrite Hm' in H1. apply lookup_replicate in H1. lia. }
    apply list_eq. intros j.
    destruct (decide (j < Z.to_nat b)%nat) as [Hj|Hj].
    + destruct (lookup_lt_is_Some_2 row j) as [x Hx]; [lia|].
      destruct (lookup_lt_is_Some_2 row' j) as [x' Hx']; [lia|].
      rewrite Hx, Hx'. f_equal.
      specialize (H (Z.of_nat i) (Z.of_nat j) ltac:(lia) ltac:(lia)).
      unfold mget, vget, aget in H.
      rewrite !decide_True in H by lia.
      rewrite !Nat2Z.id, Hrow, Hrow' in H. simpl in H.
      rewrite Hx, Hx' in H. exact H.
    + rewrite !lookup_ge_None_2 by lia. reflexivity.
  - rewrite !lookup_ge_None_2 by lia. reflexivity.
Qed.

(** The two nested loops that write [f i j] into every cell. *)
Lemma preenche_celulas (f : Z -> Z -> Z) (m : list (list Z)) (L C : Z) :
  map length m = replicate (Z.to_nat L) (Z.to_nat C) ->
  map length (para L (fun i m => para C (fun j m' => mset m' i j (f i j)) m) m)
  = map length m
  /\ forall i j, 0 <= i < L -> 0 <= j < C ->
       mget (para L (fun i m => para C (fun j m' => mset m' i j (f i j)) m) m) i j
       = f i j.
Proof.
  intros Hm.
  destruct (decide (0 <= L)) as [HL|HL];
    [|rewrite para_nonpos by lia; split; [reflexivity|intros; lia]].
  apply (para_inv (fun i t => map length t = map length m
                     /\ forall a b, 0 <= a < i -> 0 <= b < C -> mget t a b = f a b));
    [exact HL|split; [reflexivity|intros; lia]|].
  intros i t Hi [Ht Hc].
  destruct (decide (0 <= C)) as [HC|HC].
  - assert (Hin : map length (para C (fun j m' => mset m' i j (f i j)) t) = map length m
                  /\ (forall a b, 0 <= a < i -> 0 <= b < C ->
                        mget (para C (fun j m' => mset m' i j (f i j)) t) a b = f a b)
                  /\ forall b, 0 <= b < C ->
                       mget (para C (fun j m' => mset m' i j (f i j)) t) i b = f i b).
    { apply (para_inv (fun j u => map length u = map length m
                /\ (forall a b, 0 <= a < i -> 0 <= b < C -> mget u a b = f a b)
                /\ forall b, 0 <= b < j -> mget u i b = f i b));
        [exact HC|split; [exact Ht|split; [exact Hc|intros; lia]]|].
      intros j u Hj (Hu & Hu1 & Hu2).
      split; [rewrite forma_mset; exact Hu|].
      assert (Hu' : map length u = replicate (Z.to_nat L) (Z.to_nat C))
        by (rewrite Hu; exact Hm).
      split.
      - intros a b Ha Hb. rewrite (mget_mset_forma u L C) by (assumption || lia).
        rewrite decide_False by lia. apply Hu1; assumption.
      - intros b Hb. rewrite (mget_mset_forma u L C) by (assumption || lia).
        case_decide as Hd; [destruct Hd as [_ <-]; reflexivity|].
        apply Hu2. lia. }
    destruct Hin as (H1 & H2 & H3). split; [exact H1|].
    intros a b Ha Hb. destruct (decide (a = i)) as [->|Hne].
    + apply H3. exact Hb.
    + apply H2; [lia|exact Hb].
  - rewrite para_nonpos by lia. split; [exact Ht|intros; lia].
Qed.

Lemma grade_de_cria P lixo : grade_de P (n (criaMatriz P lixo)).
Proof. unfold grade_de, criaMatriz. simpl. apply forma_replicate. Qed.

(** [copiaMatriz] between two grids of the instance yields the origin. *)
Lemma n_copiaMatriz P destino origem :
  grade_de P (n destino) -> grade_de P (n origem) ->
  n (copiaMatriz P destino origem) = n origem.
Proof.
  intros Hd Ho. unfold copiaMatriz. simpl.
  destruct (preenche_celulas (fun i j => mget (n origem) i j) (n destino)
              (total_periodos P) (salas P) Hd) as [H1 H2].
  apply (grade_ext _ _ (total_periodos P) (salas P)).
  - rewrite H1. exact Hd.
  - exact Ho.
  - exact H2.
Qed.

Lemma copiaMatriz_id P destino origem :
  grade_de P (n destino) -> grade_de P (n origem) ->
  copiaMatriz P destino origem = origem.
Proof.
  intros Hd Ho. pose proof (n_copiaMatriz P destino origem Hd Ho) as H.
  destruct origem as [f g]. unfold copiaMatriz in *. simpl in *.
  rewrite H. reflexivity.
Qed.

(** ** The annealing keeps the lectures of the initial solution *)

Section Carga_SA.

Variable rand : nat -> Z.
Variable randomDouble_fp : Z -> Q -> Q -> Q.
Variables flt dbl : Q -> Q.
Variable exp_fp : Z -> Q -> Q.
Variable P : Instancia.
Variable Itg : Integral.
Variable g0 : list (list Z).

Lemma iteracao_carga fuel r r' :
  iteracao rand randomDouble_fp exp_fp P Itg fuel r = Some r' ->
  carga_SA P g0 r -> carga_SA P g0 r'.
Proof.
  unfold iteracao. intros H (Ha & Hm & Hv & Ca & Cm).
  pose proof (n_copiaMatriz P (viz r) (atual r) Hv Ha) as E0.
  destruct (geraViz _ _ _ _ _ _) as [e|] eqn:Hg; simpl in H; [|discriminate].
  apply geraViz_carga in Hg. cbn [grade] in Hg.
  assert (Hg' : mesma_carga (n (atual r)) (grade e)).
  { destruct (Qlt_bool (T r) 100);
      change (mesma_carga (n (copiaMatriz P (viz r) (atual r))) (grade e)) in Hg;
      rewrite E0 in Hg; exact Hg. }
  clear Hg.
  assert (He : grade_de P (grade e)).
  { unfold grade_de. rewrite (proj1 Hg'). exact Ha. }
  assert (Ce : mesma_carga g0 (grade e)) by exact (mesma_carga_trans _ _ _ Ca Hg').
  set (c := calcula_FO P Itg (indices e) (grade e)) in *.
  assert (E1 : n (copiaMatriz P (atual r) {| fo := c.1; n := grade e |}) = grade e)
    by (apply n_copiaMatriz; assumption).
  assert (E2 : n (copiaMatriz P (melhor r)
                    (copiaMatriz P (atual r) {| fo := c.1; n := grade e |})) = grade e).
  { rewrite n_copiaMatriz; [exact E1|exact Hm|]. rewrite E1. exact He. }
  assert (Hv1 : grade_de P (n {| fo := c.1; n := grade e |})) by exact He.
  repeat case_decide; injection H as <-; unfold carga_SA; cbn [atual melhor viz];
    try destruct (Qlt_bool _ _); rewrite ?E2, ?E1;
    repeat match goal with |- _ /\ _ => split end; assumption.
Qed.

Lemma passo_carga r r' :
  passo_SA rand randomDouble_fp flt dbl exp_fp P Itg r r' ->
  carga_SA P g0 r -> carga_SA P g0 r'.
Proof.
  intros H. destruct H as [r Hc|fuel r r' Hit|r].
  - unfold ajusta. destruct (if Qlt_bool 1000 (T r) then _ else _). auto.
  - apply (iteracao_carga fuel). exact Hit.
  - unfold resfria. case_match; auto.
Qed.

Lemma rtc_carga r r' :
  rtc (passo_SA rand randomDouble_fp flt dbl exp_fp P Itg) r r' ->
  carga_SA P g0 r -> carga_SA P g0 r'.
Proof.
  induction 1 as [r|r r1 r2 Hp _ IH]; [auto|].
  intros H. apply IH. eapply passo_carga; eassumption.
Qed.

End Carga_SA.

Lemma inicio_SA_id P inicial G k :
  grade_de P (n inicial) ->
  atual (inicio_SA P inicial G k) = inicial
  /\ melhor (inicio_SA P inicial G k) = inicial.
Proof.
  intros Hi. unfold inicio_SA. cbn [atual melhor].
  rewrite (copiaMatriz_id P (criaMatriz P 0) inicial (grade_de_cria P 0) Hi).
  rewrite (copiaMatriz_id P (criaMatriz P 0) inicial (grade_de_cria P 0) Hi).
  split; reflexivity.
Qed.

Lemma SA_carga rand randomDouble_fp flt dbl exp_fp P Itg fuel rodadas inicial G k m G' k' :
  grade_de P (n inicial) ->
  SA rand randomDouble_fp flt dbl exp_fp P Itg fuel rodadas inicial G k = Some (m, G', k') ->
  grade_de P (n m) /\ mesma_carga (n inicial) (n m).
Proof.
  intros Hi H. unfold SA in H.
  destruct (laco_SA _ _ _ _ _ _ _ _ _ _) as [rf|] eqn:Hl; simpl in H; [|discriminate].
  injection H as <- <- <-.
  apply laco_SA_rtc in Hl.
  apply (rtc_carga _ _ _ _ _ _ _ (n inicial)) in Hl.
  - destruct Hl as (_ & Hm & _ & _ & Cm). split; assumption.
  - destruct (inicio_SA_id P inicial G k Hi) as [Ea Em].
    unfold carga_SA. rewrite Ea, Em.
    split; [exact Hi|]. split; [exact Hi|]. split; [apply grade_de_cria|].
    split; apply mesma_carga_refl.
Qed.

(** X10. The annealing neither adds nor drops a lecture.  Started from
    a grid with the dimensions of the instance, a run of [SA] that
    completes returns a grid of the same dimensions in which every value,
    each course and the empty mark, fills as many cells as in the initial
    solution. *)
Theorem SA_preserva_aulas rand randomDouble_fp flt dbl exp_fp (P : Instancia)
    (Itg : Integral) (fuel rodadas : nat) (inicial : Matriz) (G : Globais) (k : nat)
    (m : Matriz) (G' : Globais) (k' : nat) :
  grade_de P (n inicial) ->
  SA rand randomDouble_fp flt dbl exp_fp P Itg fuel rodadas inicial G k = Some (m, G', k') ->
  map length (n m) = map length (n inicial)
  /\ forall c, ocorrencias c (n m) = ocorrencias c (n inicial).
Proof.
  intros Hi H.
  destruct (SA_carga _ _ _ _ _ _ _ _ _ _ _ _ _ _ _ Hi H) as [_ Hc]. exact Hc.
Qed.

(** X11. A solution without cost is returned as it is.  When [fo] of the
    initial solution is not positive, the main loop of [SA] is not
    entered, whatever bound is put on the rounds: the solution returned
    is the initial one, no neighbour is generated, [rand()] is not
    called and the index arrays are left untouched. *)
Theorem SA_sem_custo rand randomDouble_fp flt dbl exp_fp (P : Instancia)
    (Itg : Integral) (fuel rodadas : nat) (inicial : Matriz) (G : Globais) (k : nat) :
  grade_de P (n inicial) ->
  fo inicial <= 0 ->
  SA rand randomDouble_fp flt dbl exp_fp P Itg fuel rodadas inicial G k
  = Some (inicial, G, k).
Proof.
  intros Hi Hfo. unfold SA.
  destruct (inicio_SA_id P inicial G k Hi) as [Ea Em].
  assert (Hc : continua_SA flt dbl (inicio_SA P inicial G k) = false).
  { unfold continua_SA. rewrite Em.
    rewrite (bool_decide_eq_false_2 (0 < fo inicial)) by lia.
    rewrite andb_false_r. reflexivity. }
  assert (Hl : laco_SA rand randomDouble_fp flt dbl exp_fp P Itg fuel rodadas
                 (inicio_SA P inicial G k)
               = Some (inicio_SA P inicial G k)).
  { destruct rodadas; simpl; rewrite Hc; reflexivity. }
  rewrite Hl. cbn [mbind option_bind]. rewrite Em. reflexivity.
Qed.

Lemma SA_preserva_aulas_witness :
  exists m G' k',
    SA rand_ex randomDouble_real id id exp_ex P_tipo I_ex 100 10
       {| fo := 1000000; n := g_tipo |} (aloca_indices P_tipo 0) 0
    = Some (m, G', k')
    /\ ocorrencias 0 (n m) = 1.
Proof.
  assert (E : exists r,
             SA rand_ex randomDouble_real id id exp_ex P_tipo I_ex 100 10
                {| fo := 1000000; n := g_tipo |} (aloca_indices P_tipo 0) 0
             = Some r)
    by (eexists; vm_compute; reflexivity).
  destruct E as [[[m G'] k'] E].
  exists m, G', k'. split; [exact E|].
  assert (Hg : grade_de P_tipo (n {| fo := 1000000; n := g_tipo |}))
    by (vm_compute; reflexivity).
  destruct (SA_preserva_aulas _ _ _ _ _ _ _ _ _ _ _ _ _ _ _ Hg E) as [_ H].
  rewrite H. vm_compute. reflexivity.
Defined.

Lemma SA_sem_custo_witness :
  SA rand_ex randomDouble_real id id exp_ex P_ex I_ex 0 0
     {| fo := 0; n := g_vazia |} (aloca_indices P_ex 0) 5
  = Some ({| fo := 0; n := g_vazia |}, aloca_indices P_ex 0, 5%nat).
Proof.
  apply SA_sem_custo.
  - vm_compute. reflexivity.
  - simpl. lia.
Defined.

(** ** The initial solution places every lecture *)

Lemma aumenta_zero j g : aumenta j 0 g g.
Proof. split; [reflexivity|]. split; [lia|reflexivity]. Qed.

Lemma aumenta_mset j g i k :
  j <> -1 -> ler2 g i k = Some (-1) -> aumenta j 1 g (mset g i k j).
Proof.
  intros Hj H. split; [apply forma_mset|]. split.
  - rewrite (ocorrencias_mset j g i k (-1) j H). unfold um_se.
    rewrite decide_False by lia. rewrite decide_True by reflexivity. lia.
  - intros c Hc Hc1. rewrite (ocorrencias_mset c g i k (-1) j H). unfold um_se.
    rewrite !decide_False by congruence. lia.
Qed.

Lemma aumenta_trans j d1 d2 g1 g2 g3 :
  aumenta j d1 g1 g2 -> aumenta j d2 g2 g3 -> aumenta j (d1 + d2) g1 g3.
Proof.
  intros (F1 & A1 & B1) (F2 & A2 & B2). split; [congruence|]. split; [lia|].
  intros c Hc Hc1. rewrite B2, B1 by assumption. reflexivity.
Qed.

(** A round of the [while] either leaves the grid and [atribuicoes], or
    fills an empty cell with [j] and takes one from [atribuicoes]. *)
Lemma tentativa_efeito P j i k g a c g' a' c' :
  tentativa P j i k (g, a, c) = Some (g', a', c') ->
  (g' = g /\ a' = a)
  \/ (0 <= j /\ ler2 g i k = Some (-1) /\ g' = mset g i k j /\ a' = isub a 1).
Proof.
  unfold tentativa. intros H.
  destruct (ler2 g i k) as [c0|] eqn:Hc0; [|discriminate].
  cbn [mbind option_bind] in H.
  destruct (ler_disc P j) as [Dj|] eqn:HDj; [|discriminate].
  cbn [mbind option_bind] in H.
  pose proof (ler_disc_nonneg _ _ _ HDj) as Hj.
  destruct (decide (c0 = -1)) as [->|Hne].
  - destruct (ler_sala P k) as [Sk|]; [|discriminate].
    cbn [mbind option_bind] in H.
    destruct (_ && _ && _).
    + rewrite (escreve2_ok _ _ _ _ _ Hc0) in H. cbn [mbind option_bind] in H.
      assert (Hr : ler2 (mset g i k j) i k = Some j).
      { rewrite (ler2_mset _ _ _ _ _ _ _ Hc0). rewrite decide_True by tauto. reflexivity. }
      destruct (decide (2 < isub c 3)).
      * rewrite Hr in H. cbn [mbind option_bind] in H.
        rewrite decide_False in H by lia. injection H as <- <- <-. right. auto.
      * injection H as <- <- <-. right. auto.
    + cbn [mbind option_bind] in H.
      destruct (decide (2 < iadd c 1)).
      * rewrite Hc0 in H. cbn [mbind option_bind] in H.
        rewrite decide_True in H by reflexivity.
        rewrite (escreve2_ok _ _ _ _ _ Hc0) in H. cbn [mbind option_bind] in H.
        injection H as <- <- <-. right. auto.
      * injection H as <- <- <-. left. auto.
  - cbn [mbind option_bind] in H.
    destruct (decide (2 < iadd c 1)).
    + rewrite Hc0 in H. cbn [mbind option_bind] in H.
      rewrite decide_False in H by exact Hne. injection H as <- <- <-. left. auto.
    + injection H as <- <- <-. left. auto.
Qed.

Section Inicial.

Variable rand : nat -> Z.
Variable randomDouble_fp : Z -> Q -> Q -> Q.
Variable P : Instancia.

Lemma aloca_aulas_S fuel j st s :
  aloca_aulas rand randomDouble_fp P (S fuel) j st s
  = if decide (0 < st.1.2) then
      let i := randomInt rand randomDouble_fp 0 (isub (total_periodos P) 1) s in
      let k := randomInt rand randomDouble_fp 0 (isub (salas P) 1) i.2 in
      st' ← tentativa P j i.1 k.1 st;
      aloca_aulas rand randomDouble_fp P fuel j st' k.2
    else Some (st.1.1, s).
Proof. reflexivity. Qed.

Lemma aloca_aulas_aumenta j : forall fuel g a c s g' s',
  0 <= j -> a <= INT_MAX ->
  aloca_aulas rand randomDouble_fp P fuel j (g, a, c) s = Some (g', s') ->
  aumenta j (Z.max 0 a) g g'.
Proof.
  induction fuel as [|fuel IH]; intros g a c s g' s' Hj Ha H.
  - simpl in H. destruct (decide (0 < a)); [discriminate|]. injection H as <- <-.
    rewrite Z.max_l by lia. apply aumenta_zero.
  - rewrite aloca_aulas_S in H. cbv zeta in H. cbn [fst snd] in H.
    destruct (decide (0 < a)) as [Hpos|Hpos].
    + destruct (tentativa P j _ _ (g, a, c)) as [[[g1 a1] c1]|] eqn:Ht;
        [|discriminate].
      cbn [mbind option_bind] in H.
      destruct (tentativa_efeito _ _ _ _ _ _ _ _ _ _ Ht)
        as [[-> ->]|(_ & Hc0 & -> & ->)].
      * apply (IH _ _ _ _ _ _ Hj Ha H).
      * assert (E : isub a 1 = a - 1)
          by (apply isub_id; unfold in_int, INT_MIN, INT_MAX in *; lia).
        rewrite E in H. apply IH in H; [|exact Hj|lia].
        replace (Z.max 0 a) with (1 + Z.max 0 (a - 1)) by lia.
        eapply aumenta_trans; [|exact H].
        apply aumenta_mset; [lia|exact Hc0].
    + injection H as <- <-. rewrite Z.max_l by lia. apply aumenta_zero.
Qed.

Lemma aloca_disciplinas_nonneg : forall js fuel g s g' s',
  aloca_disciplinas rand randomDouble_fp P fuel js g s = Some (g', s') ->
  forall j, j ∈ js -> 0 <= j.
Proof.
  induction js as [|x js IH]; intros fuel g s g' s' H j Hj; [inversion Hj|].
  simpl in H. destruct (ler_disc P x) as [Dx|] eqn:HDx; [|discriminate].
  cbn [mbind option_bind] in H.
  destruct (aloca_aulas _ _ _ _ _ _ _) as [[g2 s2]|]; [|discriminate].
  cbn [mbind option_bind fst snd] in H.
  apply elem_of_cons in Hj as [->|Hj].
  - apply ler_disc_nonneg in HDx. exact HDx.
  - apply (IH _ _ _ _ _ H). exact Hj.
Qed.

Lemma aloca_aulas_forma j : forall fuel g a c s g' s',
  aloca_aulas rand randomDouble_fp P fuel j (g, a, c) s = Some (g', s') ->
  map length g' = map length g.
Proof.
  induction fuel as [|fuel IH]; intros g a c s g' s' H.
  - simpl in H. destruct (decide (0 < a)); [discriminate|]. injection H as <- <-.
    reflexivity.
  - rewrite aloca_aulas_S in H. cbv zeta in H. cbn [fst snd] in H.
    destruct (decide (0 < a)) as [Hpos|Hpos].
    + destruct (tentativa P j _ _ (g, a, c)) as [[[g1 a1] c1]|] eqn:Ht;
        [|discriminate].
      cbn [mbind option_bind] in H.
      destruct (tentativa_efeito _ _ _ _ _ _ _ _ _ _ Ht)
        as [[-> ->]|(_ & Hc0 & -> & ->)].
      * apply (IH _ _ _ _ _ _ H).
      * apply IH in H. rewrite H. apply forma_mset.
    + injection H as <- <-. reflexivity.
Qed.

Lemma aloca_disciplinas_forma : forall js fuel g s g' s',
  aloca_disciplinas rand randomDouble_fp P fuel js g s = Some (g', s') ->
  map length g' = map length g.
Proof.
  induction js as [|j js IH]; intros fuel g s g' s' H; simpl in H.
  - injection H as <- <-. reflexivity.
  - destruct (ler_disc P j) as [Dj|] eqn:HDj; [|discriminate].
    cbn [mbind option_bind] in H.
    destruct (aloca_aulas _ _ _ _ _ _ _) as [[g1 s1]|] eqn:Ha; [|discriminate].
    cbn [mbind option_bind fst snd] in H.
    apply aloca_aulas_forma in Ha. apply IH in H. congruence.
Qed.

(** The [for] over the courses [js]: the courses of [js] gain their
    lectures and the other courses keep theirs. *)
Lemma aloca_disciplinas_aulas : forall js fuel g s g' s',
  NoDup js ->
  Forall (fun d => d_aulas d <= INT_MAX) (disc P) ->
  aloca_disciplinas rand randomDouble_fp P fuel js g s = Some (g', s') ->
  map length g' = map length g
  /\ (forall j, j ∈ js ->
        ocorrencias j g' = ocorrencias j g + Z.max 0 (d_aulas (disc_de P j)))
  /\ (forall c, c ∉ js -> c <> -1 -> ocorrencias c g' = ocorrencias c g).
Proof.
  induction js as [|j js IH]; intros fuel g s g' s' Hnd Hmax H; simpl in H.
  - injection H as <- <-. split; [reflexivity|]. split; [|reflexivity].
    intros j Hj. inversion Hj.
  - destruct (ler_disc P j) as [Dj|] eqn:HDj; [|discriminate].
    cbn [mbind option_bind] in H.
    destruct (aloca_aulas _ _ _ _ _ _ _) as [[g1 s1]|] eqn:Ha; [|discriminate].
    cbn [mbind option_bind fst snd] in H.
    pose proof (ler_disc_nonneg _ _ _ HDj) as Hj.
    assert (EDj : disc_de P j = Dj).
    { unfold disc_de, aget. rewrite decide_True by exact Hj.
      unfold ler_disc in HDj. rewrite decide_True in HDj by exact Hj.
      rewrite HDj. reflexivity. }
    assert (HaD : d_aulas Dj <= INT_MAX).
    { unfold ler_disc in HDj. rewrite decide_True in HDj by exact Hj.
      rewrite Forall_forall in Hmax. apply Hmax.
      eapply list_elem_of_lookup_2. exact HDj. }
    apply aloca_aulas_aumenta in Ha; [|exact Hj|exact HaD].
    destruct Ha as (F1 & A1 & B1).
    apply NoDup_cons in Hnd as [Hnj Hnd].
    destruct (IH _ _ _ _ _ Hnd Hmax H) as (F2 & A2 & B2).
    split; [congruence|]. split.
    + intros c Hc. apply elem_of_cons in Hc as [->|Hc].
      * rewrite B2 by (assumption || lia). rewrite A1, EDj. reflexivity.
      * rewrite A2 by exact Hc. rewrite B1; [reflexivity| |].
        -- intros ->. contradiction.
        -- intros ->. apply (aloca_disciplinas_nonneg _ _ _ _ _ _ H) in Hc. lia.
    + intros c Hc Hc1. apply not_elem_of_cons in Hc as [Hcj Hc].
      rewrite B2 by assumption. apply B1; assumption.
Qed.

End Inicial.

Lemma ocorrencias_replicate c a b x :
  c <> x -> ocorrencias c (replicate a (replicate b x)) = 0.
Proof.
  intros Hc.
  assert (Hrow : ocorrencias c [replicate b x] = 0).
  { unfold ocorrencias. simpl. rewrite app_nil_r.
    induction b as [|b IHb]; [reflexivity|].
    simpl. rewrite filter_cons. rewrite decide_False by congruence. exact IHb. }
  induction a as [|a IH]; [reflexivity|].
  simpl. rewrite ocorrencias_cons, IH, Hrow. reflexivity.
Qed.

Lemma solucaoInicial_carga rand randomDouble_fp P Itg fuel G s m G' s' :
  Forall (fun d => d_aulas d <= INT_MAX) (disc P) ->
  solucaoInicial rand randomDouble_fp P Itg fuel G s = Some (m, G', s') ->
  grade_de P (n m)
  /\ (forall c, 0 <= c < disciplinas P ->
        ocorrencias c (n m) = Z.max 0 (d_aulas (disc_de P c)))
  /\ (forall c, c <> -1 -> ~ 0 <= c < disciplinas P -> ocorrencias c (n m) = 0).
Proof.
  intros Hmax H. unfold solucaoInicial in H.
  destruct (aloca_disciplinas _ _ _ _ _ _ _) as [[g1 s1]|] eqn:Ha; [|discriminate].
  cbn [mbind option_bind fst snd] in H. injection H as <- <- <-.
  apply aloca_disciplinas_aulas in Ha; [|apply NoDup_seqZ|exact Hmax].
  destruct Ha as (F & A & B). simpl. split; [|split].
  - unfold grade_de. rewrite F. apply grade_de_cria.
  - intros c Hc. rewrite A by (apply elem_of_seqZ; lia).
    unfold criaMatriz. simpl. rewrite ocorrencias_replicate by lia. lia.
  - intros c Hc Hn. rewrite B; [|rewrite elem_of_seqZ; lia|exact Hc].
    unfold criaMatriz. simpl. apply ocorrencias_replicate. exact Hc.
Qed.

(** X12. The initial solution holds every lecture.  When
    [solucaoInicial] returns, its grid has the dimensions of the
    instance, every course fills exactly as many cells as it has
    lectures (none when that number is negative), and no cell holds
    anything but a course of the instance or the empty mark: the forced
    placement gives up the feasibility tests, never a lecture. *)
Theorem solucaoInicial_aulas rand randomDouble_fp (P : Instancia) (Itg : Integral)
    (fuel : nat) (G : Globais) (s : nat) (m : Matriz) (G' : Globais) (s' : nat) :
  Forall (fun d => d_aulas d <= INT_MAX) (disc P) ->
  solucaoInicial rand randomDouble_fp P Itg fuel G s = Some (m, G', s') ->
  map length (n m)
  = replicate (Z.to_nat (total_periodos P)) (Z.to_nat (salas P))
  /\ (forall c, 0 <= c < disciplinas P ->
        ocorrencias c (n m) = Z.max 0 (d_aulas (disc_de P c)))
  /\ (forall c, c <> -1 -> ~ 0 <= c < disciplinas P -> ocorrencias c (n m) = 0).
Proof.
  intros Hmax H. exact (solucaoInicial_carga _ _ _ _ _ _ _ _ _ _ Hmax H).
Qed.

Lemma solucaoInicial_aulas_witness :
  exists m G' s',
    solucaoInicial rand_ex randomDouble_real P_ex I_ex 100 (aloca_indices P_ex 0) 0
    = Some (m, G', s')
    /\ ocorrencias 0 (n m) = 2 /\ ocorrencias 1 (n m) = 1.
Proof.
  assert (E : exists r,
             solucaoInicial rand_ex randomDouble_real P_ex I_ex 100
               (aloca_indices P_ex 0) 0 = Some r)
    by (eexists; vm_compute; reflexivity).
  destruct E as [[[m G'] s'] E]. exists m, G', s'. split; [exact E|].
  assert (Hmax : Forall (fun d => d_aulas d <= INT_MAX) (disc P_ex)).
  { let l := eval cbv in (disc P_ex) in change (disc P_ex) with l.
    repeat (apply List.Forall_cons; [vm_compute; discriminate|]).
    apply List.Forall_nil. }
  destruct (solucaoInicial_aulas _ _ _ _ _ _ _ _ _ _ Hmax E) as (_ & H & _).
  split.
  - rewrite (H 0) by (vm_compute; split; [discriminate|reflexivity]). reflexivity.
  - rewrite (H 1) by (vm_compute; split; [discriminate|reflexivity]). reflexivity.
Defined.

(** X13. A phase delivers every lecture.  When [construcao] reads its
    instance and completes, the solution it returns, after construction
    and annealing, is a grid of the instance in which every course fills
    exactly as many cells as it has lectures and no cell holds anything
    but a course of the instance or the empty mark. *)
Theorem construcao_aulas rand randomDouble_fp flt dbl exp_fp
    (arquivos : string -> option Instancia) (fuel rodadas : nat)
    (arquivo : string) (dias_integral : option (list (list Z))) (usar : Z)
    (prog : Programa) (P : Instancia) (m : Matriz) (prog' : Programa) :
  arquivos arquivo = Some P ->
  Forall (fun d => d_aulas d <= INT_MAX) (disc P) ->
  construcao rand randomDouble_fp flt dbl exp_fp arquivos fuel rodadas
    arquivo dias_integral usar prog = Some (m, prog') ->
  instancia prog' = P
  /\ map length (n m)
     = replicate (Z.to_nat (total_periodos P)) (Z.to_nat (salas P))
  /\ (forall c, 0 <= c < disciplinas P ->
        ocorrencias c (n m) = Z.max 0 (d_aulas (disc_de P c)))
  /\ (forall c, c <> -1 -> ~ 0 <= c < disciplinas P -> ocorrencias c (n m) = 0).
Proof.
  intros Harq Hmax H. unfold construcao in H. rewrite Harq in H.
  destruct (solucaoInicial _ _ _ _ _ _ _) as [[[m0 G0] s0]|] eqn:Hs; [|discriminate].
  cbn [mbind option_bind fst snd] in H.
  destruct (SA _ _ _ _ _ _ _ _ _ _ _ _) as [[[m1 G1] s1]|] eqn:HSA; [|discriminate].
  cbn [mbind option_bind fst snd] in H. injection H as <- <-.
  destruct (solucaoInicial_carga _ _ _ _ _ _ _ _ _ _ Hmax Hs) as (F0 & A0 & B0).
  destruct (SA_carga _ _ _ _ _ _ _ _ _ _ _ _ _ _ _ F0 HSA) as (F1 & _ & C1).
  split; [reflexivity|]. split; [exact F1|]. split.
  - intros c Hc. rewrite C1. apply A0. exact Hc.
  - intros c Hc Hn. rewrite C1. apply B0; assumption.
Qed.

Lemma construcao_aulas_witness :
  exists m prog',
    construcao rand_ex randomDouble_real id id exp_ex arquivos_ex 100 10
      "instUnifesp_integral" None 0 programa_inicial = Some (m, prog')
    /\ ocorrencias 0 (n m) = 1.
Proof.
  assert (E : exists r,
             construcao rand_ex randomDouble_real id id exp_ex arquivos_ex 100 10
               "instUnifesp_integral" None 0 programa_inicial = Some r)
    by (eexists; vm_compute; reflexivity).
  destruct E as [[m prog'] E]. exists m, prog'. split; [exact E|].
  assert (Hmax : Forall (fun d => d_aulas d <= INT_MAX) (disc P_tipo)).
  { let l := eval cbv in (disc P_tipo) in change (disc P_tipo) with l.
    repeat (apply List.Forall_cons; [vm_compute; discriminate|]).
    apply List.Forall_nil. }
  assert (Harq : arquivos_ex "instUnifesp_integral" = Some P_tipo) by reflexivity.
  destruct (construcao_aulas _ _ _ _ _ _ _ _ _ _ _ _ _ _ _ Harq Hmax E) as (_ & _ & H & _).
  rewrite (H 0) by (vm_compute; split; [discriminate|reflexivity]). reflexivity.
Defined.

(** ** The occupancy handed over to the second phase *)

Lemma extrai_celula P g ppd np nd (m : list (list Z)) i j p d :
  map length m = replicate (Z.to_nat np) (Z.to_nat nd) ->
  0 <= p < np -> 0 <= d < nd ->
  mget (let dis := mget g i j in
        if decide (dis <> -1) then
          let prof := d_prof (disc_de P dis) in
          let dia := idiv i ppd in
          if decide (prof < np /\ dia < nd) then mset m prof dia 1 else m
        else m) p d
  = if decide (ocupa P g ppd p d i j) then 1 else mget m p d.
Proof.
  intros Hm Hp Hd. cbv zeta. unfold ocupa.
  destruct (decide (mget g i j <> -1)) as [Hc|Hc].
  - destruct (decide (d_prof (disc_de P (mget g i j)) < np /\ idiv i ppd < nd))
      as [Hb|Hb].
    + rewrite (mget_mset_forma m np nd) by assumption.
      destruct (decide (d_prof (disc_de P (mget g i j)) = p /\ idiv i ppd = d))
        as [Heq|Hne].
      * rewrite decide_True by tauto. reflexivity.
      * rewrite decide_False by tauto. reflexivity.
    + rewrite decide_False; [reflexivity|]. intros (_ & <- & <-). apply Hb. lia.
  - rewrite decide_False by tauto. reflexivity.
Qed.

Lemma extrai_forma P g ppd np nd (m : list (list Z)) i j :
  map length (let dis := mget g i j in
              if decide (dis <> -1) then
                let prof := d_prof (disc_de P dis) in
                let dia := idiv i ppd in
                if decide (prof < np /\ dia < nd) then mset m prof dia 1 else m
              else m)
  = map length m.
Proof. cbv zeta. repeat case_decide; [apply forma_mset|reflexivity|reflexivity]. Qed.

(** The table of [extraiDiasDaMatriz], cell by cell. *)
Lemma extraiDiasDaMatriz_car (P : Instancia) (matriz_integral : Matriz)
    (num_profs num_dias periodos_total periodos_por_dia : Z) :
  let D := extraiDiasDaMatriz P matriz_integral num_profs num_dias
             periodos_total periodos_por_dia in
  map length D = replicate (Z.to_nat num_profs) (Z.to_nat num_dias)
  /\ forall p d, 0 <= p < num_profs -> 0 <= d < num_dias ->
       (mget D p d = 0 \/ mget D p d = 1)
       /\ (mget D p d = 1 <->
           exists i j, 0 <= i < periodos_total /\ 0 <= j < salas P
                       /\ ocupa P (n matriz_integral) periodos_por_dia p d i j).
Proof.
  cbv zeta. unfold extraiDiasDaMatriz.
  set (g := n matriz_integral). set (np := num_profs). set (nd := num_dias).
  set (ppd := periodos_por_dia).
  set (D0 := replicate (Z.to_nat np) (replicate (Z.to_nat nd) 0)).
  set (corpo := fun (i j : Z) (m : list (list Z)) =>
         let dis := mget g i j in
         if decide (dis <> -1) then
           let prof := d_prof (disc_de P dis) in
           let dia := idiv i ppd in
           if decide (prof < np /\ dia < nd) then mset m prof dia 1 else m
         else m).
  change (map length (para periodos_total (fun i m => para (salas P) (corpo i) m) D0)
          = replicate (Z.to_nat np) (Z.to_nat nd)
          /\ forall p d, 0 <= p < np -> 0 <= d < nd ->
               (mget (para periodos_total (fun i m => para (salas P) (corpo i) m) D0) p d = 0
                \/ mget (para periodos_total (fun i m => para (salas P) (corpo i) m) D0) p d = 1)
               /\ (mget (para periodos_total (fun i m => para (salas P) (corpo i) m) D0) p d = 1
                   <-> exists i j, 0 <= i < periodos_total /\ 0 <= j < salas P
                                   /\ ocupa P g ppd p d i j)).
  pose (Inv := fun (i : Z) (m : list (list Z)) =>
    map length m = replicate (Z.to_nat np) (Z.to_nat nd)
    /\ forall p d, 0 <= p < np -> 0 <= d < nd ->
         (mget m p d = 0 \/ mget m p d = 1)
         /\ (mget m p d = 1 <->
             exists a b, 0 <= a < i /\ 0 <= b < salas P /\ ocupa P g ppd p d a b)).
  assert (H0 : Inv 0 D0).
  { split; [apply forma_replicate|]. intros p d _ _.
    unfold D0. rewrite mget_replicate_0. split; [left; reflexivity|].
    split; [discriminate|]. intros (a & b & Ha & _). lia. }
  destruct (decide (0 <= periodos_total)) as [Hpt|Hpt].
  - apply (para_inv Inv); [exact Hpt|exact H0|].
    intros i m Hi [Hm HI].
    pose (Inv' := fun (j : Z) (u : list (list Z)) =>
      map length u = replicate (Z.to_nat np) (Z.to_nat nd)
      /\ forall p d, 0 <= p < np -> 0 <= d < nd ->
           (mget u p d = 0 \/ mget u p d = 1)
           /\ (mget u p d = 1 <->
               (exists a b, 0 <= a < i /\ 0 <= b < salas P /\ ocupa P g ppd p d a b)
               \/ exists b, 0 <= b < j /\ ocupa P g ppd p d i b)).
    assert (H0' : Inv' 0 m).
    { split; [exact Hm|]. intros p d Hp Hd. destruct (HI p d Hp Hd) as [V E].
      split; [exact V|]. rewrite E. split; [auto|].
      intros [H|(b & Hb & _)]; [exact H|lia]. }
    assert (Hfim : forall u, Inv' (Z.max 0 (salas P)) u -> Inv (i + 1) u).
    { intros u [Hu HU]. split; [exact Hu|]. intros p d Hp Hd.
      destruct (HU p d Hp Hd) as [V E]. split; [exact V|]. rewrite E. split.
      - intros [(a & b & Ha & Hb & Ho)|(b & Hb & Ho)].
        + exists a, b. split; [lia|]. auto.
        + exists i, b. split; [lia|]. split; [lia|exact Ho].
      - intros (a & b & Ha & Hb & Ho). destruct (decide (a = i)) as [->|Hne].
        + right. exists b. split; [lia|exact Ho].
        + left. exists a, b. split; [lia|]. auto. }
    apply Hfim.
    destruct (decide (0 <= salas P)) as [Hs|Hs].
    + rewrite Z.max_r by lia.
      apply (para_inv Inv'); [exact Hs|exact H0'|].
      intros j u Hj [Hu HU].
      split; [rewrite <- Hu; exact (extrai_forma P g ppd np nd u i j)|].
      intros p d Hp Hd. destruct (HU p d Hp Hd) as [V E].
      pose proof (extrai_celula P g ppd np nd u i j p d Hu Hp Hd) as Hcel.
      change (mget (corpo i j u) p d
              = if decide (ocupa P g ppd p d i j) then 1 else mget u p d) in Hcel.
      rewrite Hcel. clear Hcel.
      destruct (decide (ocupa P g ppd p d i j)) as [Ho|Ho].
      * split; [right; reflexivity|]. split; [|reflexivity].
        intros _. right. exists j. split; [lia|exact Ho].
      * split; [exact V|]. rewrite E. split.
        -- intros [H|(b & Hb & Hob)]; [left; exact H|].
           right. exists b. split; [lia|exact Hob].
        -- intros [H|(b & Hb & Hob)]; [left; exact H|].
           right. exists b. split; [|exact Hob].
           destruct (decide (b = j)) as [->|Hne]; [contradiction|lia].
    + rewrite para_nonpos by lia. rewrite Z.max_l by lia. exact H0'.
  - rewrite para_nonpos by lia. destruct H0 as [F H].
    split; [exact F|]. intros p d Hp Hd. destruct (H p d Hp Hd) as [V E].
    split; [exact V|]. rewrite E. split.
    + intros (a & b & Ha & _). lia.
    + intros (a & b & Ha & _). lia.
Qed.

(** X14. What [extraiDiasDaMatriz] hands to the second phase.  The
    table has one row per teacher and one cell per day, every cell is 0
    or 1, and the cell of teacher [p] and day [d] is 1 exactly when some
    cell of the grid, in a period of day [d], holds a lecture of a course
    taught by [p]. *)
Theorem extraiDiasDaMatriz_marca (P : Instancia) (matriz_integral : Matriz)
    (num_profs num_dias periodos_total periodos_por_dia : Z) :
  let D := extraiDiasDaMatriz P matriz_integral num_profs num_dias
             periodos_total periodos_por_dia in
  map length D = replicate (Z.to_nat num_profs) (Z.to_nat num_dias)
  /\ forall p d, 0 <= p < num_profs -> 0 <= d < num_dias ->
       (mget D p d = 0 \/ mget D p d = 1)
       /\ (mget D p d = 1 <->
           exists i j, 0 <= i < periodos_total /\ 0 <= j < salas P
                       /\ ocupa P (n matriz_integral) periodos_por_dia p d i j).
Proof. apply extraiDiasDaMatriz_car. Qed.

(** ** Curriculum compactness *)

Lemma busca_adjacente_passo P g i per j ok :
  (let ok :=
     if decide (irem per (periodos_dia P) < isub (periodos_dia P) 1 /\ ok = 0) then
       if decide (mget g (iadd per 1) j <> -1) then
         if decide (vget (d_cursos (disc_de P (mget g (iadd per 1) j))) i = 1)
         then 1 else ok
       else ok
     else ok in
   if decide (0 < irem per (periodos_dia P) /\ ok = 0) then
     if decide (mget g (isub per 1) j <> -1) then
       if decide (vget (d_cursos (disc_de P (mget g (isub per 1) j))) i = 1)
       then 1 else ok
     else ok
   else ok)
  = if decide (ok = 0) then (if decide (adjacente P g i per j) then 1 else 0) else ok.
Proof.
  cbv zeta. unfold adjacente.
  destruct (decide (ok = 0)) as [->|Hok].
  - repeat case_decide; try reflexivity; try lia; tauto.
  - repeat case_decide; try reflexivity; try lia; tauto.
Qed.

Lemma busca_adjacente_car P g i per :
  (busca_adjacente P g i per = 0 \/ busca_adjacente P g i per = 1)
  /\ (busca_adjacente P g i per = 1 <->
      exists j, 0 <= j < salas P /\ adjacente P g i per j).
Proof.
  unfold busca_adjacente.
  destruct (decide (0 <= salas P)) as [Hs|Hs].
  - apply (para_inv (fun j ok => (ok = 0 \/ ok = 1)
                       /\ (ok = 1 <-> exists b, 0 <= b < j /\ adjacente P g i per b)));
      [exact Hs| |].
    + split; [left; reflexivity|]. split; [discriminate|].
      intros (b & Hb & _). lia.
    + intros j ok Hj [V E]. rewrite busca_adjacente_passo.
      destruct (decide (ok = 0)) as [->|Hok].
      * destruct (decide (adjacente P g i per j)) as [Ha|Ha].
        -- split; [right; reflexivity|]. split; [|reflexivity].
           intros _. exists j. split; [lia|exact Ha].
        -- split; [left; reflexivity|]. split; [discriminate|].
           intros (b & Hb & Hab). destruct (decide (b = j)) as [->|Hne];
             [contradiction|].
           assert (0 = 1); [|lia]. apply E. exists b. split; [lia|exact Hab].
      * split; [exact V|]. rewrite E. split.
        -- intros (b & Hb & Hab). exists b. split; [lia|exact Hab].
        -- intros _. apply E. lia.
  - rewrite para_nonpos by lia. split; [left; reflexivity|].
    split; [discriminate|]. intros (b & Hb & _). lia.
Qed.

(** X15. What [restricaoR6] calls an isolated lecture, and what it
    charges.  The scan of the rooms ends with [ok = 1] exactly when some
    room holds, in the period just after [per] or just before it and on
    the same day, a lecture of a course of the curriculum; and the
    penalty returned for a lecture is 2 for each curriculum of its course
    whose scan finds no such neighbour. *)
Theorem restricaoR6_isolada (P : Instancia) (g : list (list Z)) (dis per sal : Z)
    (G : Globais) :
  2 * cursos P <= INT_MAX ->
  (forall i, busca_adjacente P g i per = 1 <->
             exists j, 0 <= j < salas P /\ adjacente P g i per j)
  /\ (forall i, busca_adjacente P g i per = 0 <->
                ~ exists j, 0 <= j < salas P /\ adjacente P g i per j)
  /\ (restricaoR6 P g dis per sal G).1 = 2 * conta (cursos P) (isolada P g dis per).
Proof.
  intros Hmax. split; [intros i; apply busca_adjacente_car|]. split.
  - intros i. destruct (busca_adjacente_car P g i per) as [[V|V] E].
    + split; [|intros _; exact V]. intros _ H. apply E in H. lia.
    + split; [lia|]. intros H. exfalso. apply H. apply E. exact V.
  - unfold restricaoR6.
    destruct (decide (0 <= cursos P)) as [Hc|Hc].
    + apply (para_inv (fun k (st : Z * Globais) =>
                st.1 = 2 * conta k (isolada P g dis per))); [exact Hc|reflexivity|].
      intros k st Hk Hst. rewrite conta_succ by lia.
      pose proof (conta_le k (isolada P g dis per) ltac:(lia)) as Hle.
      pose proof (conta_nonneg k (isolada P g dis per)) as Hge.
      unfold isolada at 2.
      destruct (decide (vget (d_cursos (disc_de P dis)) k = 1)) as [H1|H1].
      * destruct (decide (busca_adjacente P g k per = 0)) as [H0|H0].
        -- rewrite bool_decide_eq_true_2 by tauto. cbn [fst].
           rewrite iadd_id by (unfold in_int, INT_MIN, INT_MAX in *; lia). lia.
        -- rewrite bool_decide_eq_false_2 by tauto. lia.
      * rewrite bool_decide_eq_false_2 by tauto. lia.
    + rewrite para_nonpos by lia. rewrite conta_nonpos by lia. reflexivity.
Qed.

Lemma restricaoR6_isolada_witness :
  (restricaoR6 P_ex g_ex 0 0 0 (aloca_indices P_ex 0)).1 = 2
  /\ busca_adjacente P_ex g_ex 0 0 = 0.
Proof.
  pose proof (restricaoR6_isolada P_ex g_ex 0 0 0 (aloca_indices P_ex 0)
                ltac:(vm_compute; discriminate)) as (_ & _ & H).
  split; [|vm_compute; reflexivity].
  rewrite H. vm_compute. reflexivity.
Defined.

(** ** The sizes of the index arrays during a phase *)

Lemma forma_com_rv v G :
  length v = length (restricoes_violadas G) ->
  forma (com_restricoes_violadas v G) = forma G.
Proof. destruct G. unfold forma. simpl. intros ->. reflexivity. Qed.

Lemma forma_com_aux_mov_r21 v G :
  length v = length (aux_mov_r21 G) -> forma (com_aux_mov_r21 v G) = forma G.
Proof. destruct G. unfold forma. simpl. intros ->. reflexivity. Qed.

Lemma forma_com_aux_mov_r22 v G :
  length v = length (aux_mov_r22 G) -> forma (com_aux_mov_r22 v G) = forma G.
Proof. destruct G. unfold forma. simpl. intros ->. reflexivity. Qed.

Lemma forma_com_r8 v G :
  length v = length (r8 G) -> forma (com_r8 v G) = forma G.
Proof. destruct G. unfold forma. simpl. intros ->. reflexivity. Qed.

Lemma forma_com_aux_mov_r6 m G :
  map length m = map length (aux_mov_r6 G) -> forma (com_aux_mov_r6 m G) = forma G.
Proof. destruct G. unfold forma. simpl. intros ->. reflexivity. Qed.

Lemma forma_com_aux_mov_r7 m G :
  map length m = map length (aux_mov_r7 G) -> forma (com_aux_mov_r7 m G) = forma G.
Proof. destruct G. unfold forma. simpl. intros ->. reflexivity. Qed.

Lemma forma_com_aux_mov_r10 m G :
  map length m = map length (aux_mov_r10 G) -> forma (com_aux_mov_r10 m G) = forma G.
Proof. destruct G. unfold forma. simpl. intros ->. reflexivity. Qed.

Lemma forma_com_aux_mov_r11 m G :
  map length m = map length (aux_mov_r11 G) -> forma (com_aux_mov_r11 m G) = forma G.
Proof. destruct G. unfold forma. simpl. intros ->. reflexivity. Qed.

Lemma length_escreve (v : list Z) i x v' :
  escreve v i x = Some v' -> length v' = length v.
Proof. intros H. apply escreve_Some in H as (_ & -> & _). apply length_vset. Qed.

Section Forma.
Variable rand : nat -> Z.
Variable randomDouble_fp : Z -> Q -> Q -> Q.
Variable P : Instancia.

Lemma laco_r6_forma : forall fuel tentativas r6_i r6_j aux3 e e',
  laco_r6 rand randomDouble_fp P fuel tentativas r6_i r6_j aux3 e = Some e' ->
  forma (indices e') = forma (indices e).
Proof.
  induction fuel as [|fuel IH]; intros *; intros H; simpl in H; abre H;
    try (injection H as <-); try (apply IH in H; rewrite H);
    cbn [fst snd grade indices sorteios com_grade com_indices com_sorteios];
    try reflexivity;
    apply forma_com_aux_mov_r6; eapply forma_escreve2; eassumption.
Qed.

Lemma mov_r2_prof_forma fuel tentativas e e' :
  mov_r2_prof rand randomDouble_fp P fuel tentativas e = Some e' ->
  forma (indices e') = forma (indices e).
Proof.
  intros H. unfold mov_r2_prof in H. abre H.
  - injection H as <-. apply laco_r2_prof_indices in E1. cbn in E1.
    apply length_escreve in E2. rewrite E1 in E2.
    cbn [indices com_indices].
    rewrite forma_com_rv by (rewrite length_vinc; destruct (indices e0); reflexivity).
    rewrite forma_com_aux_mov_r21 by (rewrite E1; exact E2).
    rewrite E1. reflexivity.
  - apply trocas_aleatorias_indices in H. rewrite H. reflexivity.
Qed.

Lemma mov_r2_curso_forma fuel tentativas e e' :
  mov_r2_curso rand randomDouble_fp P fuel tentativas e = Some e' ->
  forma (indices e') = forma (indices e).
Proof.
  intros H. unfold mov_r2_curso in H. abre H.
  - injection H as <-. apply laco_r2_curso_indices in E1. cbn in E1.
    apply length_escreve in E2. rewrite E1 in E2.
    cbn [indices com_indices].
    rewrite forma_com_rv by (rewrite length_vinc; destruct (indices e0); reflexivity).
    rewrite forma_com_aux_mov_r22 by (rewrite E1; exact E2).
    rewrite E1. reflexivity.
  - apply trocas_aleatorias_indices in H. rewrite H. reflexivity.
Qed.

Lemma mov_r6_forma fuel tentativas e e' :
  mov_r6 rand randomDouble_fp P fuel tentativas e = Some e' ->
  forma (indices e') = forma (indices e).
Proof.
  intros H. unfold mov_r6 in H. abre H. injection H as <-.
  apply laco_r6_forma in E0. cbn in E0.
  apply forma_escreve2 in E1.
  cbn [indices com_indices].
  rewrite forma_com_aux_mov_r6 by exact E1.
  rewrite forma_com_rv by apply length_vinc. exact E0.
Qed.

Lemma mov_r7_forma fuel tentativas e e' :
  mov_r7 rand randomDouble_fp P fuel tentativas e = Some e' ->
  forma (indices e') = forma (indices e).
Proof.
  intros H. unfold mov_r7 in H. abre H. injection H as <-.
  apply laco_r7_indices in E1. cbn in E1.
  apply forma_escreve2 in E2. apply forma_escreve2 in E3.
  cbn [indices com_indices].
  rewrite forma_com_aux_mov_r7 by (rewrite E3; exact E2).
  rewrite forma_com_rv by apply length_vinc. rewrite E1. reflexivity.
Qed.

Lemma mov_r8_forma fuel tentativas e e' :
  mov_r8 rand randomDouble_fp P fuel tentativas e = Some e' ->
  forma (indices e') = forma (indices e).
Proof.
  intros H. unfold mov_r8 in H. cbv zeta in H. abre H. injection H as <-.
  apply laco_r8_indices in E0. cbn in E0.
  apply length_escreve in E1.
  cbn [indices com_indices].
  rewrite forma_com_r8 by exact E1.
  rewrite forma_com_rv by apply length_vinc. rewrite E0. reflexivity.
Qed.

Lemma mov_r10_forma fuel tentativas e e' :
  mov_r10 rand randomDouble_fp P fuel tentativas e = Some e' ->
  forma (indices e') = forma (indices e).
Proof.
  intros H. unfold mov_r10 in H. abre H. injection H as <-.
  apply laco_r10_indices in E1. cbn in E1.
  apply forma_escreve2 in E2. apply forma_escreve2 in E3.
  cbn [indices com_indices].
  rewrite forma_com_aux_mov_r10 by (rewrite E3; exact E2).
  rewrite forma_com_rv by apply length_vinc. rewrite E1. reflexivity.
Qed.

Lemma mov_r11_forma fuel tentativas e e' :
  mov_r11 rand randomDouble_fp P fuel tentativas e = Some e' ->
  forma (indices e') = forma (indices e).
Proof.
  intros H. unfold mov_r11 in H.
  destruct (busca_r11 (aux_mov_r11 (indices e)) (todas_celulas P))
    as [[[[d per] sal]|]|] eqn:E; simpl in H; [| |discriminate].
  - abre H. injection H as <-.
    apply laco_r11_indices in E0. apply forma_escreve2 in E1.
    cbn [indices com_indices].
    rewrite forma_com_aux_mov_r11 by exact E1. rewrite E0. reflexivity.
  - injection H as <-. reflexivity.
Qed.

(** [geraViz] writes inside the index arrays: their sizes are kept. *)
Lemma geraViz_forma fuel T e e' :
  geraViz rand randomDouble_fp P fuel T e = Some e' ->
  forma (indices e') = forma (indices e).
Proof.
  intros H. unfold geraViz in H. cbv zeta in H.
  repeat match type of H with
  | (if decide ?Q then _ else _) = Some _ => destruct (decide Q)
  end;
  first [ apply mov_r2_prof_forma in H | apply mov_r2_curso_forma in H
        | apply mov_r6_forma in H | apply mov_r7_forma in H
        | apply mov_r8_forma in H
        | apply mov_r9_indices in H; rewrite H; reflexivity
        | apply mov_r10_forma in H | apply mov_r11_forma in H
        | apply trocas_aleatorias_indices in H; rewrite H; reflexivity ];
  exact H.
Qed.

End Forma.

(** ** The cost carried by a solution *)

Lemma calcula_FO_indep P I Ga Gb g :
  indices_ok P Ga -> indices_ok P Gb -> calcula_FO P I Ga g = calcula_FO P I Gb g.
Proof.
  intros Ha Hb. unfold calcula_FO. rewrite (zera_indices_forma P I Ga Gb Ha Hb).
  reflexivity.
Qed.

Section Coerente.

Variable rand : nat -> Z.
Variable randomDouble_fp : Z -> Q -> Q -> Q.
Variables flt dbl : Q -> Q.
Variable exp_fp : Z -> Q -> Q.
Variable P : Instancia.
Variable Itg : Integral.

Lemma iteracao_coerente fuel r r' :
  iteracao rand randomDouble_fp exp_fp P Itg fuel r = Some r' ->
  coerente_SA P Itg r -> coerente_SA P Itg r'.
Proof.
  unfold iteracao. intros H (HG & Hv & [Ha Ca] & [Hm Cm]).
  pose proof (n_copiaMatriz P (viz r) (atual r) Hv Ha) as E0.
  destruct (geraViz _ _ _ _ _ _) as [e|] eqn:Hg; simpl in H; [|discriminate].
  pose proof (geraViz_carga _ _ _ _ _ _ _ Hg) as Hc.
  pose proof (geraViz_forma _ _ _ _ _ _ _ Hg) as Hf.
  clear Hg. cbn [grade indices] in Hc, Hf.
  assert (He : grade_de P (grade e)).
  { unfold grade_de. rewrite (proj1 Hc).
    destruct (Qlt_bool (T r) 100);
      change (grade_de P (n (copiaMatriz P (viz r) (atual r))));
      rewrite E0; exact Ha. }
  assert (Hi : indices_ok P (indices e)).
  { apply (indices_ok_forma P _ _ Hf).
    destruct (Qlt_bool (T r) 100); cbn [snd];
      [apply indices_ok_calcula_FO|]; exact HG. }
  clear Hc Hf.
  set (c := calcula_FO P Itg (indices e) (grade e)) in *.
  pose proof (indices_ok_calcula_FO P Itg (indices e) (grade e) Hi) as Hc2.
  fold c in Hc2.
  assert (Cv : coerente P Itg {| fo := c.1; n := grade e |}).
  { split; [exact He|]. intros G HG'. cbn [fo n]. unfold c.
    rewrite (calcula_FO_indep P Itg (indices e) G (grade e) Hi HG'). reflexivity. }
  assert (E1 : copiaMatriz P (atual r) {| fo := c.1; n := grade e |}
               = {| fo := c.1; n := grade e |})
    by (apply copiaMatriz_id; [exact Ha|exact He]).
  assert (E2 : copiaMatriz P (melhor r) {| fo := c.1; n := grade e |}
               = {| fo := c.1; n := grade e |})
    by (apply copiaMatriz_id; [exact Hm|exact He]).
  rewrite E1 in H. rewrite ?E2 in H.
  unfold coerente_SA.
  repeat case_decide; injection H as <-; cbn [atual melhor viz globais];
    try destruct (Qlt_bool _ _);
    repeat match goal with |- _ /\ _ => split end;
    first [exact Hc2 | exact He | exact Cv | exact (conj Ha Ca) | exact (conj Hm Cm)].
Qed.

Lemma passo_coerente r r' :
  passo_SA rand randomDouble_fp flt dbl exp_fp P Itg r r' ->
  coerente_SA P Itg r -> coerente_SA P Itg r'.
Proof.
  intros H. destruct H as [r Hc|fuel r r' Hit|r].
  - unfold ajusta. destruct (if Qlt_bool 1000 (T r) then _ else _). auto.
  - apply (iteracao_coerente fuel). exact Hit.
  - unfold resfria. case_match; auto.
Qed.

Lemma rtc_coerente r r' :
  rtc (passo_SA rand randomDouble_fp flt dbl exp_fp P Itg) r r' ->
  coerente_SA P Itg r -> coerente_SA P Itg r'.
Proof.
  induction 1 as [r|r r1 r2 Hp _ IH]; [auto|].
  intros H. apply IH. eapply passo_coerente; eassumption.
Qed.

Lemma SA_coerente fuel rodadas inicial G k m G' k' :
  indices_ok P G -> coerente P Itg inicial ->
  SA rand randomDouble_fp flt dbl exp_fp P Itg fuel rodadas inicial G k = Some (m, G', k') ->
  indices_ok P G' /\ coerente P Itg m.
Proof.
  intros HG Hi H. unfold SA in H.
  destruct (laco_SA _ _ _ _ _ _ _ _ _ _) as [rf|] eqn:Hl; simpl in H; [|discriminate].
  injection H as <- <- <-.
  apply laco_SA_rtc in Hl. apply rtc_coerente in Hl.
  - destruct Hl as (H1 & _ & _ & H2). split; assumption.
  - destruct (inicio_SA_id P inicial G k (proj1 Hi)) as [Ea Em].
    unfold coerente_SA. rewrite Ea, Em.
    split; [exact HG|]. split; [apply grade_de_cria|]. split; exact Hi.
Qed.

Lemma solucaoInicial_coerente fuel G s m G' s' :
  indices_ok P G ->
  solucaoInicial rand randomDouble_fp P Itg fuel G s = Some (m, G', s') ->
  indices_ok P G' /\ coerente P Itg m.
Proof.
  intros HG H. unfold solucaoInicial in H.
  destruct (aloca_disciplinas _ _ _ _ _ _ _) as [[g1 s1]|] eqn:Ha; [|discriminate].
  cbn [mbind option_bind fst snd] in H. injection H as <- <- <-.
  split; [apply indices_ok_calcula_FO; exact HG|].
  split.
  - cbn [n]. unfold grade_de.
    rewrite (aloca_disciplinas_forma _ _ _ _ _ _ _ _ _ Ha). apply grade_de_cria.
  - intros G2 HG2. cbn [fo n].
    rewrite (calcula_FO_indep P Itg G G2 g1 HG HG2). reflexivity.
Qed.

End Coerente.

(** X16. The solution returned by [SA] carries the cost of its own
    grid.  Started with index arrays of the sizes of the instance and an
    initial solution whose [fo] is the value of [calcula_FO] on its grid,
    a run that completes returns a solution whose [fo] is again the
    value of [calcula_FO] on the grid returned, and leaves index arrays
    of the same sizes: the best solution is never paired with the cost
    of another grid. *)
Theorem SA_custo_da_grade rand randomDouble_fp flt dbl exp_fp (P : Instancia)
    (Itg : Integral) (fuel rodadas : nat) (inicial : Matriz) (G : Globais) (k : nat)
    (m : Matriz) (G' : Globais) (k' : nat) :
  indices_ok P G ->
  grade_de P (n inicial) ->
  fo inicial = (calcula_FO P Itg G (n inicial)).1 ->
  SA rand randomDouble_fp flt dbl exp_fp P Itg fuel rodadas inicial G k = Some (m, G', k') ->
  indices_ok P G'
  /\ forall G2, indices_ok P G2 -> fo m = (calcula_FO P Itg G2 (n m)).1.
Proof.
  intros HG Hi Hfo H.
  assert (Hc : coerente P Itg inicial).
  { split; [exact Hi|]. intros G2 HG2. rewrite Hfo.
    rewrite (calcula_FO_indep P Itg G G2 (n inicial) HG HG2). reflexivity. }
  destruct (SA_coerente _ _ _ _ _ _ _ _ _ _ _ _ _ _ _ HG Hc H) as [H1 [_ H2]].
  split; assumption.
Qed.

Lemma SA_custo_da_grade_witness :
  exists m G' k',
    SA rand_ex randomDouble_real id id exp_ex P_tipo I_ex 100 10
       {| fo := 1000000; n := g_tipo |} (aloca_indices P_tipo 0) 0
    = Some (m, G', k')
    /\ fo m = (calcula_FO P_tipo I_ex (aloca_indices P_tipo 7) (n m)).1.
Proof.
  assert (E : exists r,
             SA rand_ex randomDouble_real id id exp_ex P_tipo I_ex 100 10
                {| fo := 1000000; n := g_tipo |} (aloca_indices P_tipo 0) 0
             = Some r)
    by (eexists; vm_compute; reflexivity).
  destruct E as [[[m G'] k'] E].
  exists m, G', k'. split; [exact E|].
  assert (Hg : grade_de P_tipo (n {| fo := 1000000; n := g_tipo |}))
    by (vm_compute; reflexivity).
  assert (Hfo : fo {| fo := 1000000; n := g_tipo |}
                = (calcula_FO P_tipo I_ex (aloca_indices P_tipo 0)
                     (n {| fo := 1000000; n := g_tipo |})).1)
    by (vm_compute; reflexivity).
  destruct (SA_custo_da_grade _ _ _ _ _ _ _ _ _ _ _ _ _ _ _
              (indices_ok_aloca P_tipo 0) Hg Hfo E) as [_ H].
  apply H. apply indices_ok_aloca.
Defined.

Lemma construcao_final rand randomDouble_fp flt dbl exp_fp arquivos fuel rodadas
    arquivo dias_integral usar prog P m prog' :
  arquivos arquivo = Some P ->
  construcao rand randomDouble_fp flt dbl exp_fp arquivos fuel rodadas
    arquivo dias_integral usar prog = Some (m, prog') ->
  instancia prog' = P
  /\ indices_ok P (p_globais prog')
  /\ grade_de P (n m)
  /\ forall G, indices_ok P G ->
       calcula_FO P (p_integral prog') G (n m) = (fo m, p_globais prog').
Proof.
  intros Harq H. unfold construcao in H. cbv zeta in H. rewrite Harq in H.
  destruct (solucaoInicial _ _ _ _ _ _ _) as [[[m0 G0] s0]|] eqn:Hs; [|discriminate].
  cbn [mbind option_bind fst snd] in H.
  destruct (SA _ _ _ _ _ _ _ _ _ _ _ _) as [[[m1 G1] s1]|] eqn:HSA; [|discriminate].
  cbn [mbind option_bind fst snd] in H. injection H as <- <-.
  cbn [instancia p_globais p_integral].
  destruct (solucaoInicial_coerente _ _ _ _ _ _ _ _ _ _ (indices_ok_aloca P 0) Hs)
    as [HG0 Hc0].
  destruct (SA_coerente _ _ _ _ _ _ _ _ _ _ _ _ _ _ _ HG0 Hc0 HSA) as [HG1 [Hg1 Hc1]].
  split; [reflexivity|].
  split; [apply indices_ok_calcula_FO; exact HG1|].
  split; [exact Hg1|].
  intros G HG. rewrite (calcula_FO_indep P _ G G1 (n m1) HG HG1).
  rewrite (Hc1 G1 HG1). apply surjective_pairing.
Qed.

(** X17. What a phase leaves behind is the evaluation of what it
    returns.  When [construcao] reads its instance and completes, the
    solution returned is a grid of the instance, its [fo] is the value
    of [calcula_FO] on that grid, and the index arrays and violation
    counters left in the file-scope state, from which the report is
    printed, are exactly those [calcula_FO] computes for that grid. *)
Theorem construcao_avaliacao_final rand randomDouble_fp flt dbl exp_fp
    (arquivos : string -> option Instancia) (fuel rodadas : nat)
    (arquivo : string) (dias_integral : option (list (list Z))) (usar : Z)
    (prog : Programa) (P : Instancia) (m : Matriz) (prog' : Programa) :
  arquivos arquivo = Some P ->
  construcao rand randomDouble_fp flt dbl exp_fp arquivos fuel rodadas
    arquivo dias_integral usar prog = Some (m, prog') ->
  indices_ok P (p_globais prog')
  /\ map length (n m) = replicate (Z.to_nat (total_periodos P)) (Z.to_nat (salas P))
  /\ forall G, indices_ok P G ->
       calcula_FO P (p_integral prog') G (n m) = (fo m, p_globais prog').
Proof.
  intros Harq H.
  destruct (construcao_final _ _ _ _ _ _ _ _ _ _ _ _ _ _ _ Harq H) as (_ & H1 & H2 & H3).
  split; [exact H1|]. split; [exact H2|exact H3].
Qed.

Lemma construcao_avaliacao_final_witness :
  exists m prog',
    construcao rand_ex randomDouble_real id id exp_ex arquivos_ex 100 10
      "instUnifesp_integral" None 0 programa_inicial = Some (m, prog')
    /\ calcula_FO P_tipo (p_integral prog') (aloca_indices P_tipo 7) (n m)
       = (fo m, p_globais prog').
Proof.
  assert (E : exists r,
             construcao rand_ex randomDouble_real id id exp_ex arquivos_ex 100 10
               "instUnifesp_integral" None 0 programa_inicial = Some r)
    by (eexists; vm_compute; reflexivity).
  destruct E as [[m prog'] E]. exists m, prog'. split; [exact E|].
  assert (Harq : arquivos_ex "instUnifesp_integral" = Some P_tipo) by reflexivity.
  destruct (construcao_avaliacao_final _ _ _ _ _ _ _ _ _ _ _ _ _ _ _ Harq E)
    as (_ & _ & H).
  apply H. apply indices_ok_aloca.
Defined.

(** ** Counting the cells of a grid *)

Lemma conta_linha (c : Z) (row : list Z) :
  conta (Z.of_nat (length row)) (fun j => bool_decide (vget row j = c))
  = ocorrencias c [row].
Proof.
  induction row as [|x row IH] using rev_ind; [reflexivity|].
  rewrite length_app. simpl length.
  replace (Z.of_nat (length row + 1)) with (Z.of_nat (length row) + 1) by lia.
  rewrite conta_succ by lia.
  rewrite (conta_ext _ _ (fun j => bool_decide (vget row j = c))).
  - rewrite IH. unfold ocorrencias. simpl. rewrite !app_nil_r.
    rewrite filter_app, length_app.
    assert (E : vget (row ++ [x]) (Z.of_nat (length row)) = x).
    { unfold vget, aget. rewrite decide_True by lia. rewrite Nat2Z.id.
      rewrite lookup_app_r by lia. rewrite Nat.sub_diag. reflexivity. }
    rewrite E. rewrite filter_cons, filter_nil.
    destruct (decide (x = c)) as [->|Hne].
    + rewrite bool_decide_eq_true_2 by reflexivity. simpl. lia.
    + rewrite bool_decide_eq_false_2 by exact Hne. simpl. lia.
  - intros j Hj. unfold vget, aget. rewrite !decide_True by lia.
    rewrite lookup_app_l by lia. reflexivity.
Qed.

Lemma conta_grade (c : Z) (b : nat) (g : list (list Z)) :
  map length g = replicate (length g) b ->
  soma (Z.of_nat (length g))
       (fun i => conta (Z.of_nat b) (fun j => bool_decide (mget g i j = c)))
  = ocorrencias c g.
Proof.
  induction g as [|row g IH] using rev_ind; intros Hf; [reflexivity|].
  rewrite length_app in *. simpl length in *.
  replace (length g + 1)%nat with (S (length g)) in Hf by lia.
  rewrite fmap_app, replicate_S_end in Hf.
  apply app_inj_2 in Hf as [Hg Hrow]; [|reflexivity].
  simpl in Hrow. injection Hrow as Hrow.
  replace (Z.of_nat (length g + 1)) with (Z.of_nat (length g) + 1) by lia.
  rewrite soma_succ by lia.
  rewrite ocorrencias_app, <- (IH Hg), <- conta_linha, Hrow.
  f_equal.
  - apply soma_ext. intros i Hi. apply conta_ext. intros j Hj.
    unfold mget, aget. rewrite !decide_True by lia.
    rewrite lookup_app_l by lia. reflexivity.
  - apply conta_ext. intros j Hj.
    unfold mget, aget. rewrite !decide_True by lia. rewrite Nat2Z.id.
    rewrite lookup_app_r by lia. rewrite Nat.sub_diag. reflexivity.
Qed.

Lemma aulas_na_grade_ocorrencias P g c :
  0 <= total_periodos P -> 0 <= salas P -> grade_de P g ->
  aulas_na_grade P g c = ocorrencias c g.
Proof.
  intros Htp Hs Hg. unfold aulas_na_grade, conta_celulas.
  pose proof (forma_length _ _ _ Hg) as Hl.
  rewrite <- (conta_grade c (Z.to_nat (salas P)) g) by (rewrite Hl; exact Hg).
  rewrite Hl, !Z2Nat.id by lia. reflexivity.
Qed.

(** X18. A phase ends with R1 met.  When [construcao] reads its instance
    and completes, the evaluation it leaves in the file-scope arrays has
    counted, for every course, exactly as many lectures as the course
    has: [r1[c]] is [disc[c].aulas] (0 for a negative number), so the
    cost of the solution returned holds no penalty for a missing or
    extra lecture. *)
Theorem construcao_r1 rand randomDouble_fp flt dbl exp_fp
    (arquivos : string -> option Instancia) (fuel rodadas : nat)
    (arquivo : string) (dias_integral : option (list (list Z))) (usar : Z)
    (prog : Programa) (P : Instancia) (m : Matriz) (prog' : Programa) :
  arquivos arquivo = Some P ->
  Forall (fun d => d_aulas d <= INT_MAX) (disc P) ->
  0 <= total_periodos P -> 0 <= salas P -> celulas P <= INT_MAX ->
  construcao rand randomDouble_fp flt dbl exp_fp arquivos fuel rodadas
    arquivo dias_integral usar prog = Some (m, prog') ->
  forall c, 0 <= c < disciplinas P ->
    vget (r1 (p_globais prog')) c = Z.max 0 (d_aulas (disc_de P c))
    /\ (0 <= d_aulas (disc_de P c) ->
        vget (r1 (p_globais prog')) c = d_aulas (disc_de P c)).
Proof.
  intros Harq Hmax Htp Hs HN H c Hc.
  destruct (construcao_final _ _ _ _ _ _ _ _ _ _ _ _ _ _ _ Harq H) as (_ & H1 & H2 & H3).
  assert (E : vget (r1 (p_globais prog')) c = Z.max 0 (d_aulas (disc_de P c))).
  { pose proof (H3 (aloca_indices P 0) (indices_ok_aloca P 0)) as E.
    replace (p_globais prog')
      with (calcula_FO P (p_integral prog') (aloca_indices P 0) (n m)).2
      by (rewrite E; reflexivity).
    rewrite r1_calcula_FO by (assumption || apply indices_ok_aloca).
    rewrite aulas_na_grade_ocorrencias by assumption.
    unfold construcao in H. cbv zeta in H. rewrite Harq in H.
    destruct (solucaoInicial _ _ _ _ _ _ _) as [[[m0 G0] s0]|] eqn:Hs0; [|discriminate].
    cbn [mbind option_bind fst snd] in H.
    destruct (SA _ _ _ _ _ _ _ _ _ _ _ _) as [[[m1 G1] s1]|] eqn:HSA; [|discriminate].
    cbn [mbind option_bind fst snd] in H. injection H as <- <-.
    destruct (solucaoInicial_carga _ _ _ _ _ _ _ _ _ _ Hmax Hs0) as (F0 & A0 & _).
    destruct (SA_carga _ _ _ _ _ _ _ _ _ _ _ _ _ _ _ F0 HSA) as (_ & _ & C1).
    rewrite C1. apply A0. exact Hc. }
  split; [exact E|]. intros Hpos. rewrite E. lia.
Qed.

Lemma construcao_r1_witness :
  exists m prog',
    construcao rand_ex randomDouble_real id id exp_ex arquivos_ex 100 10
      "instUnifesp_integral" None 0 programa_inicial = Some (m, prog')
    /\ vget (r1 (p_globais prog')) 0 = 1.
Proof.
  assert (E : exists r,
             construcao rand_ex randomDouble_real id id exp_ex arquivos_ex 100 10
               "instUnifesp_integral" None 0 programa_inicial = Some r)
    by (eexists; vm_compute; reflexivity).
  destruct E as [[m prog'] E]. exists m, prog'. split; [exact E|].
  assert (Hmax : Forall (fun d => d_aulas d <= INT_MAX) (disc P_tipo)).
  { let l := eval cbv in (disc P_tipo) in change (disc P_tipo) with l.
    repeat (apply List.Forall_cons; [vm_compute; discriminate|]).
    apply List.Forall_nil. }
  assert (Harq : arquivos_ex "instUnifesp_integral" = Some P_tipo) by reflexivity.
  destruct (construcao_r1 _ _ _ _ _ _ _ _ _ _ _ _ _ _ _ Harq Hmax
              ltac:(vm_compute; discriminate) ltac:(vm_compute; discriminate)
              ltac:(vm_compute; discriminate) E 0
              ltac:(vm_compute; split; [discriminate|reflexivity])) as [H _].
  rewrite H. reflexivity.
Defined.

(** ** The control variables of the annealing *)

Section Controle.

Variable rand : nat -> Z.
Variable randomDouble_fp : Z -> Q -> Q -> Q.
Variables flt dbl : Q -> Q.
Variable exp_fp : Z -> Q -> Q.
Variable P : Instancia.
Variable Itg : Integral.

Lemma iteracao_controle fuel r r' :
  iteracao rand randomDouble_fp exp_fp P Itg fuel r = Some r' ->
  controle_SA r -> controle_SA r'.
Proof.
  unfold iteracao, controle_SA. intros H [Hr Hf].
  destruct (geraViz _ _ _ _ _ _) as [e|]; simpl in H; [|discriminate].
  repeat case_decide; injection H as <-; cbn [reaquecimento fim_forcado];
    (split; [exact Hr|lia]).
Qed.

Lemma passo_controle r r' :
  passo_SA rand randomDouble_fp flt dbl exp_fp P Itg r r' ->
  controle_SA r -> controle_SA r'.
Proof.
  intros H [Hr Hf]. destruct H as [r Hc|fuel r r' Hit|r].
  - unfold continua_SA in Hc.
    apply andb_true_iff in Hc as [_ Hc]. apply bool_decide_eq_true in Hc.
    unfold ajusta, controle_SA.
    destruct (if Qlt_bool 1000 (T r) then _ else _).
    cbn [reaquecimento fim_forcado]. split; [exact Hr|].
    rewrite iadd_id by (unfold in_int, INT_MIN, INT_MAX; lia). lia.
  - apply (iteracao_controle fuel _ _ Hit). split; assumption.
  - unfold resfria, reaquece, controle_SA.
    destruct (Qlt_bool (T r) (Temp_reaquecimento flt dbl)); cbn [andb];
      [|split; assumption].
    case_bool_decide as Hd; cbn [reaquecimento fim_forcado]; [|split; assumption].
    split; [|exact Hf]. left. destruct Hr as [Hr|Hr]; rewrite Hr in *; [lia|reflexivity].
Qed.

Lemma rtc_controle r r' :
  rtc (passo_SA rand randomDouble_fp flt dbl exp_fp P Itg) r r' ->
  controle_SA r -> controle_SA r'.
Proof.
  induction 1 as [r|r r1 r2 Hp _ IH]; [auto|].
  intros H. apply IH. eapply passo_controle; eassumption.
Qed.

(** Once [reaquecimento] is 0 it stays 0. *)
Lemma iteracao_sem_reaquecer fuel r r' :
  iteracao rand randomDouble_fp exp_fp P Itg fuel r = Some r' ->
  reaquecimento r' = reaquecimento r.
Proof.
  unfold iteracao. intros H.
  destruct (geraViz _ _ _ _ _ _) as [e|]; simpl in H; [|discriminate].
  repeat case_decide; injection H as <-; reflexivity.
Qed.

Lemma passo_sem_reaquecer r r' :
  passo_SA rand randomDouble_fp flt dbl exp_fp P Itg r r' ->
  reaquecimento r = 0 -> reaquecimento r' = 0.
Proof.
  intros H Hr. destruct H as [r Hc|fuel r r' Hit|r].
  - unfold ajusta. destruct (if Qlt_bool 1000 (T r) then _ else _). exact Hr.
  - rewrite (iteracao_sem_reaquecer fuel _ _ Hit). exact Hr.
  - unfold resfria, reaquece. rewrite Hr.
    rewrite (bool_decide_eq_false_2 (0 < 0)) by lia.
    rewrite andb_false_r. reflexivity.
Qed.

Lemma rtc_sem_reaquecer r r' :
  rtc (passo_SA rand randomDouble_fp flt dbl exp_fp P Itg) r r' ->
  reaquecimento r = 0 -> reaquecimento r' = 0.
Proof.
  induction 1 as [r|r r1 r2 Hp _ IH]; [auto|].
  intros H. apply IH. eapply passo_sem_reaquecer; eassumption.
Qed.

Lemma laco_SA_parada fuel : forall rodadas r r',
  laco_SA rand randomDouble_fp flt dbl exp_fp P Itg fuel rodadas r = Some r' ->
  continua_SA flt dbl r' = false.
Proof.
  induction rodadas as [|rodadas IH]; intros r r' H; simpl in H.
  - destruct (continua_SA flt dbl r) eqn:Hc; [discriminate|].
    injection H as <-. exact Hc.
  - destruct (continua_SA flt dbl r) eqn:Hc; [|injection H as <-; exact Hc].
    destruct (laco_interno _ _ _ _ _ _ _ _) as [r1|]; simpl in H; [|discriminate].
    apply IH in H. exact H.
Qed.


End Controle.


(** ** The counters of R5 and R11 *)

Lemma r5_avalia_celula P g i j st :
  r5 (avalia_celula P g i j st).2
  = if decide (mget g i j = -1) then r5 st.2
    else minc (r5 st.2) (mget g i j) (idiv i (periodos_dia P)) 1.
Proof.
  unfold avalia_celula. cbv zeta. case_decide; [reflexivity|].
  rewrite (quadro_passo_r11 r5), (quadro_passo_r10 r5), (quadro_passo_r9 r5),
    (quadro_passo_r8 r5), (quadro_passo_r7 r5), (quadro_passo_r6 r5) by reflexivity.
  unfold passo_r5. cbn [snd].
  rewrite (quadro_passo_r4 r5), (quadro_passo_r22 r5), (quadro_passo_r21 r5),
    (quadro_passo_r1 r5) by reflexivity.
  destruct (passo_r4 _ _ _ _ _) as [a Ga] eqn:E. destruct Ga. reflexivity.
Qed.

Lemma mget_minc_forma (m : list (list Z)) a b i j i' j' :
  map length m = replicate (Z.to_nat a) (Z.to_nat b) ->
  0 <= i' < a -> 0 <= j' < b ->
  mget (minc m i j 1) i' j'
  = if decide (i = i' /\ j = j') then iadd (mget m i' j') 1 else mget m i' j'.
Proof.
  intros Hm Hi Hj. unfold minc. rewrite (mget_mset_forma m a b) by assumption.
  case_decide as Hd; [destruct Hd as [-> ->]|]; reflexivity.
Qed.

(** [r5[c][d]] and [r11[d][c]] after the main loop. *)
Lemma r5_r11_laco_principal P I G g c d :
  indices_ok P G ->
  0 <= total_periodos P -> 0 <= salas P -> celulas P <= INT_MAX ->
  0 <= c < disciplinas P -> 0 <= d < dias P ->
  mget (r5 (laco_principal P g (0, zera_indices P I G)).2) c d = aulas_no_dia P g c d
  /\ mget (r11 (laco_principal P g (0, zera_indices P I G)).2) d c = aulas_no_dia P g c d.
Proof.
  intros HG Htp Hs HN Hc Hd.
  assert (F5 : map length (r5 G)
               = replicate (Z.to_nat (disciplinas P)) (Z.to_nat (dias P))) by apply HG.
  assert (F11 : map length (r11 G)
                = replicate (Z.to_nat (dias P)) (Z.to_nat (disciplinas P))) by apply HG.
  split.
  - destruct (laco_principal_conta
                (fun s => map length (r5 s.2)
                          = replicate (Z.to_nat (disciplinas P)) (Z.to_nat (dias P)))
                (fun s => mget (r5 s.2) c d)
                (fun i j => bool_decide (mget g i j = c
                                         /\ idiv i (periodos_dia P) = d))
                P g (0, zera_indices P I G)) as [_ H]; try assumption.
    + cbv beta. simpl. rewrite setMatriz_zero by assumption. unfold INT_MIN. lia.
    + cbv beta. simpl. rewrite setMatriz_zero by assumption. lia.
    + simpl. rewrite forma_setMatriz. exact F5.
    + intros i j s Hi Hj HQ. rewrite r5_avalia_celula.
      destruct (decide (mget g i j = -1)) as [He|He].
      * split; [exact HQ|]. rewrite bool_decide_eq_false_2 by lia. reflexivity.
      * split; [rewrite forma_minc; exact HQ|].
        rewrite (mget_minc_forma _ (disciplinas P) (dias P)) by assumption.
        destruct (decide (mget g i j = c /\ idiv i (periodos_dia P) = d)) as [Hq|Hq].
        -- rewrite bool_decide_eq_true_2 by exact Hq. reflexivity.
        -- rewrite bool_decide_eq_false_2 by exact Hq. reflexivity.
    + cbv beta in H. rewrite H. simpl. rewrite setMatriz_zero by assumption.
      reflexivity.
  - destruct (laco_principal_conta
                (fun s => map length (r11 s.2)
                          = replicate (Z.to_nat (dias P)) (Z.to_nat (disciplinas P)))
                (fun s => mget (r11 s.2) d c)
                (fun i j => bool_decide (mget g i j = c
                                         /\ idiv i (periodos_dia P) = d))
                P g (0, zera_indices P I G)) as [_ H]; try assumption.
    + cbv beta. simpl. rewrite setMatriz_zero by assumption. unfold INT_MIN. lia.
    + cbv beta. simpl. rewrite setMatriz_zero by assumption. lia.
    + simpl. rewrite !forma_setMatriz. exact F11.
    + intros i j s Hi Hj HQ. rewrite r11_avalia_celula.
      destruct (decide (mget g i j = -1)) as [He|He].
      * split; [exact HQ|]. rewrite bool_decide_eq_false_2 by lia. reflexivity.
      * split; [rewrite forma_minc; exact HQ|].
        rewrite (mget_minc_forma _ (dias P) (disciplinas P)) by assumption.
        destruct (decide (mget g i j = c /\ idiv i (periodos_dia P) = d)) as [Hq|Hq].
        -- rewrite decide_True by tauto.
           rewrite bool_decide_eq_true_2 by exact Hq. reflexivity.
        -- rewrite decide_False by tauto.
           rewrite bool_decide_eq_false_2 by exact Hq. reflexivity.
    + cbv beta in H. rewrite H. simpl. rewrite setMatriz_zero by assumption.
      reflexivity.
Qed.

Lemma vget_vinc_eq (v : list Z) k d :
  0 <= k < Z.of_nat (length v) -> vget (vinc v k d) k = iadd (vget v k) d.
Proof. intros Hk. unfold vinc. apply vget_vset_eq. exact Hk. Qed.

(** The loop of R5 adds to [restricoes_violadas[5]], for each course
    short of its minimum of days, the number of days it has. *)
Lemma rv5_penaliza_r1_r5 P (s : Z * Globais) :
  length (restricoes_violadas s.2) = 12%nat ->
  0 <= dias P <= INT_MAX ->
  INT_MIN <= vget (restricoes_violadas s.2) 5 ->
  vget (restricoes_violadas s.2) 5 + disciplinas P * dias P <= INT_MAX ->
  vget (restricoes_violadas (penaliza_r1_r5 P s).2) 5
  = vget (restricoes_violadas s.2) 5
    + soma (disciplinas P) (fun c =>
        if decide (conta (dias P) (fun d => bool_decide (0 < mget (r5 s.2) c d))
                   < d_minDias (disc_de P c))
        then conta (dias P) (fun d => bool_decide (0 < mget (r5 s.2) c d))
        else 0).
Proof.
  intros Hlen Hd Hlo Hhi.
  set (v0 := vget (restricoes_violadas s.2) 5) in *.
  set (dc := fun c => conta (dias P) (fun d => bool_decide (0 < mget (r5 s.2) c d))).
  set (F := fun c => if decide (dc c < d_minDias (disc_de P c)) then dc c else 0).
  change (vget (restricoes_violadas (penaliza_r1_r5 P s).2) 5
          = v0 + soma (disciplinas P) F).
  assert (Hdc : forall c, 0 <= dc c <= dias P).
  { intros c. unfold dc. split; [apply conta_nonneg|apply conta_le; lia]. }
  assert (HF : forall c, 0 <= F c <= dias P).
  { intros c. unfold F. specialize (Hdc c). case_decide; lia. }
  unfold penaliza_r1_r5.
  destruct (decide (0 <= disciplinas P)) as [Hn|Hn];
    [|rewrite para_nonpos, soma_nonpos by lia; fold v0; lia].
  assert (H : (fun k (st : Z * Globais) =>
             r5 st.2 = r5 s.2
             /\ length (restricoes_violadas st.2) = 12%nat
             /\ 0 <= soma k F <= k * dias P
             /\ vget (restricoes_violadas st.2) 5 = v0 + soma k F)
            (disciplinas P)
            (para (disciplinas P) (fun i (st : Z * Globais) =>
               let acc := st.1 in
               let G := st.2 in
               let acc := if decide (vget (r1 G) i <> d_aulas (disc_de P i))
                          then iadd acc (imul 1000000
                                 (modulo (vget (r1 G) i) (d_aulas (disc_de P i))))
                          else acc in
               let r5_aux := para (dias P) (fun j k =>
                               if decide (0 < mget (r5 G) i j) then iadd k 1 else k) 0 in
               if decide (r5_aux < d_minDias (disc_de P i)) then
                 (iadd acc (imul 5 (isub (d_minDias (disc_de P i)) r5_aux)),
                  com_aux_mov_r5 (vset (aux_mov_r5 G) i r5_aux)
                    (com_restricoes_violadas (vinc (restricoes_violadas G) 5 r5_aux) G))
               else (acc, G)) s)).
  { apply para_inv; [exact Hn| |].
    - rewrite soma_nonpos by lia. repeat split; first [lia | exact Hlen | reflexivity].
    - intros i st Hi (E5 & Hl & Hb & Hv). cbv zeta.
      rewrite soma_succ by lia.
      rewrite (laco_conta_decide (dias P) (fun j => 0 < mget (r5 st.2) i j)) by lia.
      rewrite E5. fold (dc i).
      pose proof (HF i) as HFi. pose proof (Hdc i) as Hdi.
      assert (Hk : (i + 1) * dias P <= disciplinas P * dias P) by nia.
      unfold F at 2 4 6. destruct (decide (dc i < d_minDias (disc_de P i))) as [Hlt|Hlt].
      + cbn [snd]. destruct st as [a Ga]. destruct Ga. cbn in *.
        split; [exact E5|]. split; [rewrite length_vinc; exact Hl|].
        unfold F in HFi. rewrite decide_True in HFi by exact Hlt.
        split; [lia|].
        rewrite vget_vinc_eq by (rewrite Hl; lia). rewrite Hv.
        rewrite iadd_id by (unfold in_int, INT_MIN, INT_MAX in *; lia). lia.
      + cbn [snd]. split; [exact E5|]. split; [exact Hl|].
        unfold F in HFi. rewrite decide_False in HFi by exact Hlt.
        split; [lia|]. rewrite Hv. lia. }
  cbv beta in H. destruct H as (_ & _ & _ & H). exact H.
Qed.

(** The loop of R11 adds to [restricoes_violadas[11]] the lectures of a
    course beyond the first on each day. *)
Lemma rv11_penaliza_r11 P (s : Z * Globais) (M : Z) :
  length (restricoes_violadas s.2) = 12%nat ->
  0 <= dias P -> 0 <= disciplinas P -> 0 <= M <= INT_MAX ->
  (forall d c, 0 <= d < dias P -> 0 <= c < disciplinas P ->
     0 <= mget (r11 s.2) d c <= M) ->
  INT_MIN <= vget (restricoes_violadas s.2) 11 ->
  vget (restricoes_violadas s.2) 11 + dias P * disciplinas P * M <= INT_MAX ->
  vget (restricoes_violadas (penaliza_r11 P s).2) 11
  = vget (restricoes_violadas s.2) 11
    + soma (dias P) (fun d =>
        soma (disciplinas P) (fun c => Z.max 0 (mget (r11 s.2) d c - 1))).
Proof.
  intros Hlen Hd Hn HM Hr Hlo Hhi.
  set (v0 := vget (restricoes_violadas s.2) 11) in *.
  set (f := fun d c => Z.max 0 (mget (r11 s.2) d c - 1)).
  set (F := fun d => soma (disciplinas P) (f d)).
  change (vget (restricoes_violadas (penaliza_r11 P s).2) 11 = v0 + soma (dias P) F).
  assert (Hf : forall d c, 0 <= d < dias P -> 0 <= c < disciplinas P -> 0 <= f d c <= M).
  { intros d c Hd' Hc'. unfold f. specialize (Hr d c Hd' Hc'). lia. }
  assert (HT : forall d k, 0 <= d < dias P -> 0 <= k <= disciplinas P ->
                 0 <= soma k (f d) <= k * M).
  { intros d k Hd' Hk. apply (soma_ind (fun i a => 0 <= a <= i * M)); [lia|lia|].
    intros i a Hi Ha. specialize (Hf d i Hd' ltac:(lia)). lia. }
  assert (HS : forall k, 0 <= k <= dias P -> 0 <= soma k F <= k * (disciplinas P * M)).
  { intros k Hk. apply (soma_ind (fun i a => 0 <= a <= i * (disciplinas P * M)));
      [lia|lia|].
    intros i a Hi Ha. unfold F. specialize (HT i (disciplinas P) ltac:(lia) ltac:(lia)).
    lia. }
  unfold penaliza_r11.
  assert (H : (fun i (st : Z * Globais) =>
             r11 st.2 = r11 s.2
             /\ length (restricoes_violadas st.2) = 12%nat
             /\ vget (restricoes_violadas st.2) 11 = v0 + soma i F)
            (dias P)
            (para (dias P) (fun i st =>
               para (disciplinas P) (fun j (st : Z * Globais) =>
                 if decide (1 < mget (r11 st.2) i j) then
                   (iadd st.1 (imul 1000000 (isub (mget (r11 st.2) i j) 1)),
                    com_restricoes_violadas
                      (vinc (restricoes_violadas st.2) 11
                         (isub (mget (r11 st.2) i j) 1)) st.2)
                 else st) st) s)).
  { apply para_inv; [exact Hd| |].
    - rewrite soma_nonpos by lia. repeat split; first [lia | exact Hlen | reflexivity].
    - intros i st Hi (E & Hl & Hv). rewrite soma_succ by lia. unfold F at 2.
      assert (H' : (fun j (u : Z * Globais) =>
                 r11 u.2 = r11 s.2
                 /\ length (restricoes_violadas u.2) = 12%nat
                 /\ vget (restricoes_violadas u.2) 11
                    = v0 + soma i F + soma j (f i))
                (disciplinas P)
                (para (disciplinas P) (fun j (st : Z * Globais) =>
                   if decide (1 < mget (r11 st.2) i j) then
                     (iadd st.1 (imul 1000000 (isub (mget (r11 st.2) i j) 1)),
                      com_restricoes_violadas
                        (vinc (restricoes_violadas st.2) 11
                           (isub (mget (r11 st.2) i j) 1)) st.2)
                   else st) st)).
      { apply para_inv; [exact Hn| |].
        - rewrite (soma_nonpos 0) by lia. repeat split; first [lia | assumption].
        - intros j u Hj (Eu & Hlu & Hvu). rewrite soma_succ by lia.
          rewrite Eu. pose proof (Hr i j Hi Hj) as Hrij.
          pose proof (HT i j Hi ltac:(lia)) as HTj.
          pose proof (HS i ltac:(lia)) as HSi.
          assert (Hk : i * (disciplinas P * M) + (j + 1) * M
                       <= dias P * disciplinas P * M).
          { assert (H1 : (j + 1) * M <= disciplinas P * M)
              by (apply Z.mul_le_mono_nonneg_r; lia).
            assert (H2 : 0 <= disciplinas P * M) by (apply Z.mul_nonneg_nonneg; lia).
            assert (H3 : (i + 1) * (disciplinas P * M) <= dias P * (disciplinas P * M))
              by (apply Z.mul_le_mono_nonneg_r; lia).
            lia. }
          unfold f at 2.
          destruct (decide (1 < mget (r11 s.2) i j)) as [Hgt|Hgt].
          + destruct u as [a Gu]. destruct Gu. cbn in *.
            split; [exact Eu|]. split; [rewrite length_vinc; exact Hlu|].
            rewrite vget_vinc_eq by (rewrite Hlu; lia). rewrite Hvu.
            rewrite isub_id by (unfold in_int, INT_MIN, INT_MAX in *; lia).
            rewrite iadd_id by (unfold in_int, INT_MIN, INT_MAX in *; lia). lia.
          + split; [exact Eu|]. split; [exact Hlu|]. rewrite Hvu. lia. }
      cbv beta in H'. destruct H' as (E' & Hl' & Hv').
      split; [exact E'|]. split; [exact Hl'|]. rewrite Hv'. lia. }
  cbv beta in H. destruct H as (_ & _ & H). exact H.
Qed.

Lemma indices_ok_antes_r1_r5 P I G g :
  indices_ok P G ->
  indices_ok P (penaliza_r2 P (laco_principal P g (0, zera_indices P I G))).2.
Proof.
  intros HG. apply (indices_ok_forma P G); [|exact HG].
  rewrite forma_penaliza_r2, forma_laco_principal. cbn [snd].
  apply forma_zera_indices.
Qed.

Lemma length_rv_antes_r1_r5 P I G g :
  indices_ok P G ->
  length (restricoes_violadas
            (penaliza_r2 P (laco_principal P g (0, zera_indices P I G))).2) = 12%nat.
Proof.
  intros HG. pose proof (indices_ok_antes_r1_r5 P I G g HG) as Hok.
  destruct Hok as (_ & _ & _ & _ & _ & _ & _ & H & _). exact H.
Qed.

Lemma aulas_no_dia_limites P g c d :
  0 <= total_periodos P -> 0 <= salas P ->
  0 <= aulas_no_dia P g c d <= celulas P.
Proof.
  intros Htp Hs. unfold aulas_no_dia.
  split; [apply conta_celulas_nonneg|apply conta_celulas_le; assumption].
Qed.

(** X20. What [restricoes_violadas[5]] holds after an evaluation.  The
    counter starts at [-1] and receives, for each course that has
    lectures on fewer days than its minimum, the number of days on which
    the course has a lecture: the days it has, not the days it lacks.  A
    course with no lecture at all adds nothing. *)
Theorem contador_r5 (P : Instancia) (I : Integral) (G : Globais) (g : list (list Z)) :
  indices_ok P G ->
  0 <= total_periodos P -> 0 <= salas P -> celulas P <= INT_MAX ->
  0 <= dias P <= INT_MAX -> 0 <= disciplinas P ->
  disciplinas P * dias P <= INT_MAX ->
  vget (restricoes_violadas (calcula_FO P I G g).2) 5
  = -1 + soma (disciplinas P) (fun c =>
           if decide (dias_com_aula P g c < d_minDias (disc_de P c))
           then dias_com_aula P g c else 0).
Proof.
  intros HG Htp Hs HN Hd Hn Hmax. unfold calcula_FO.
  rewrite rv_penaliza_r11, rv_penaliza_r9 by lia.
  set (s := penaliza_r2 P (laco_principal P g (0, zera_indices P I G))).
  assert (E0 : vget (restricoes_violadas s.2) 5 = -1).
  { unfold s. rewrite rv_penaliza_r2, rv_laco_principal by lia.
    apply rv_zera_indices; [exact HG|lia]. }
  rewrite rv5_penaliza_r1_r5;
    [|apply length_rv_antes_r1_r5; exact HG|exact Hd
     |rewrite E0; unfold INT_MIN; lia|rewrite E0; lia].
  rewrite E0. f_equal. apply soma_ext. intros c Hc.
  assert (E : conta (dias P) (fun d => bool_decide (0 < mget (r5 s.2) c d))
              = dias_com_aula P g c).
  { unfold dias_com_aula. apply conta_ext. intros d Hd'.
    unfold s. rewrite (quadro_penaliza_r2 r5) by reflexivity.
    rewrite (proj1 (r5_r11_laco_principal P I G g c d HG Htp Hs HN Hc Hd')).
    reflexivity. }
  rewrite E. reflexivity.
Qed.

(** X21. What [restricoes_violadas[11]] holds after an evaluation: [-1]
    plus, over the days and the courses, the number of lectures of the
    course on that day beyond the first. *)
Theorem contador_r11 (P : Instancia) (I : Integral) (G : Globais) (g : list (list Z)) :
  indices_ok P G ->
  0 <= total_periodos P -> 0 <= salas P ->
  0 <= dias P -> 0 <= disciplinas P ->
  dias P * disciplinas P * celulas P < INT_MAX ->
  celulas P <= INT_MAX ->
  vget (restricoes_violadas (calcula_FO P I G g).2) 11
  = -1 + soma (dias P) (fun d =>
           soma (disciplinas P) (fun c => Z.max 0 (aulas_no_dia P g c d - 1))).
Proof.
  intros HG Htp Hs Hd Hn Hmax HN. unfold calcula_FO.
  set (s := penaliza_r9 P (penaliza_r1_r5 P
              (penaliza_r2 P (laco_principal P g (0, zera_indices P I G))))).
  assert (E0 : vget (restricoes_violadas s.2) 11 = -1).
  { unfold s. rewrite rv_penaliza_r9, rv_penaliza_r1_r5, rv_penaliza_r2,
      rv_laco_principal by lia.
    apply rv_zera_indices; [exact HG|lia]. }
  assert (E11 : forall d c, 0 <= d < dias P -> 0 <= c < disciplinas P ->
                  mget (r11 s.2) d c = aulas_no_dia P g c d).
  { intros d c Hd' Hc. unfold s.
    rewrite (quadro_penaliza_r9 r11), (quadro_penaliza_r1_r5 r11),
      (quadro_penaliza_r2 r11) by reflexivity.
    apply (r5_r11_laco_principal P I G g c d HG Htp Hs HN Hc Hd'). }
  assert (Hlen : length (restricoes_violadas s.2) = 12%nat).
  { assert (Hok : indices_ok P s.2).
    { apply (indices_ok_forma P _ _ (eq_trans (forma_penaliza_r9 P _)
                                              (forma_penaliza_r1_r5 P _))).
      apply indices_ok_antes_r1_r5. exact HG. }
    destruct Hok as (_ & _ & _ & _ & _ & _ & _ & H & _). exact H. }
  pose proof (conta_celulas_nonneg P (fun _ _ => true)) as Hc0.
  assert (Hcel : 0 <= celulas P).
  { pose proof (conta_celulas_le P (fun _ _ => true) Htp Hs). lia. }
  rewrite (rv11_penaliza_r11 P s (celulas P)); try assumption.
  - rewrite E0. f_equal. apply soma_ext. intros d Hd'. apply soma_ext. intros c Hc.
    rewrite E11 by assumption. reflexivity.
  - lia.
  - intros d c Hd' Hc. rewrite E11 by assumption.
    apply aulas_no_dia_limites; assumption.
  - rewrite E0. unfold INT_MIN. lia.
  - rewrite E0. lia.
Qed.

Lemma contador_r5_witness :
  vget (restricoes_violadas
          (calcula_FO P_ex I_ex (aloca_indices P_ex 7) g_mesmo_dia).2) 5 = 0
  /\ dias_com_aula P_ex g_mesmo_dia 0 = 1
  /\ d_minDias (disc_de P_ex 0) = 2.
Proof.
  split; [|split; vm_compute; reflexivity].
  rewrite (contador_r5 P_ex I_ex (aloca_indices P_ex 7) g_mesmo_dia
             (indices_ok_aloca P_ex 7)
             ltac:(vm_compute; discriminate)
             ltac:(vm_compute; discriminate)
             ltac:(vm_compute; discriminate)
             ltac:(vm_compute; split; discriminate)
             ltac:(vm_compute; discriminate)
             ltac:(vm_compute; discriminate)).
  vm_compute. reflexivity.
Defined.

Lemma contador_r11_witness :
  vget (restricoes_violadas
          (calcula_FO P_ex I_ex (aloca_indices P_ex 7) g_mesmo_dia).2) 11 = 0
  /\ aulas_no_dia P_ex g_mesmo_dia 0 0 = 2.
Proof.
  split; [|vm_compute; reflexivity].
  rewrite (contador_r11 P_ex I_ex (aloca_indices P_ex 7) g_mesmo_dia
             (indices_ok_aloca P_ex 7)
             ltac:(vm_compute; discriminate)
             ltac:(vm_compute; discriminate)
             ltac:(vm_compute; discriminate)
             ltac:(vm_compute; discriminate)
             ltac:(vm_compute; reflexivity)
             ltac:(vm_compute; discriminate)).
  vm_compute. reflexivity.
Defined.

(** ** The counter of R9 *)

(** A mark that the body of the main loop raises to at least 1 on the
    cells that satisfy [q], and leaves alone on the others. *)
Lemma laco_principal_marca (Q : Z * Globais -> Prop) (obs : Z * Globais -> Z)
    (q : Z -> Z -> bool) P g s0 :
  0 <= total_periodos P -> 0 <= salas P ->
  Q s0 ->
  (forall i j s, 0 <= i < total_periodos P -> 0 <= j < salas P -> Q s ->
     Q (avalia_celula P g i j s)
     /\ obs (avalia_celula P g i j s) = if q i j then Z.max 1 (obs s) else obs s) ->
  Q (laco_principal P g s0)
  /\ obs (laco_principal P g s0)
     = if decide (0 < conta_celulas P q) then Z.max 1 (obs s0) else obs s0.
Proof.
  intros Htp Hs HQ0 Hstep.
  pose (Inv := fun (i j : Z) (s : Z * Globais) =>
    Q s /\ obs s = if decide (0 < soma i (fun i => conta (salas P) (q i))
                                  + conta j (q i))
                   then Z.max 1 (obs s0) else obs s0).
  assert (H : Inv (total_periodos P) 0 (laco_principal P g s0)).
  { apply laco_principal_inv; [exact Htp| | |]; unfold Inv.
    - split; [exact HQ0|]. rewrite (soma_nonpos 0), (conta_nonpos 0) by lia.
      rewrite decide_False by lia. reflexivity.
    - intros i j s Hi Hj [HQ Ho].
      destruct (Hstep i j s Hi Hj HQ) as [HQ' Ho'].
      split; [exact HQ'|]. rewrite Ho', conta_succ by lia.
      pose proof (soma_nonneg i (fun i => conta (salas P) (q i))
                    (fun k _ => conta_nonneg (salas P) (q k))).
      pose proof (conta_nonneg j (q i)).
      destruct (q i j).
      + rewrite decide_True by lia. rewrite Ho. case_decide; lia.
      + rewrite Ho. repeat case_decide; lia.
    - intros i s Hi [HQ Ho]. split; [exact HQ|].
      rewrite Z.max_r in Ho by lia.
      rewrite soma_succ, (conta_nonpos 0) by lia. rewrite Ho.
      repeat case_decide; lia. }
  destruct H as [HQ Ho]. split; [exact HQ|].
  rewrite Ho, (conta_nonpos 0) by lia. unfold conta_celulas.
  repeat case_decide; lia.
Qed.

Lemma r9_marca_celula P g i j st p d :
  map length (r9 st.2) = replicate (Z.to_nat (professores P)) (Z.to_nat (dias P)) ->
  0 <= p < professores P -> 0 <= d < dias P ->
  map length (r9 (avalia_celula P g i j st).2) = map length (r9 st.2)
  /\ mget (r9 (avalia_celula P g i j st).2) p d
     = if ocupada P g p d i j then Z.max 1 (mget (r9 st.2) p d)
       else mget (r9 st.2) p d.
Proof.
  intros Hf Hp Hd. unfold ocupada, avalia_celula. cbv zeta.
  destruct (decide (mget g i j = -1)) as [He|He].
  { rewrite bool_decide_eq_false_2 by tauto. split; reflexivity. }
  set (c := mget g i j) in *.
  rewrite (quadro_passo_r11 r9), (quadro_passo_r10 r9) by reflexivity.
  set (s8 := passo_r8 _ _ _ _ _).
  assert (E8 : r9 s8.2 = r9 st.2).
  { subst s8.
    rewrite (quadro_passo_r8 r9), (quadro_passo_r7 r9), (quadro_passo_r6 r9),
      (quadro_passo_r5 r9), (quadro_passo_r4 r9), (quadro_passo_r22 r9),
      (quadro_passo_r21 r9), (quadro_passo_r1 r9) by reflexivity.
    reflexivity. }
  clearbody s8. unfold passo_r9. cbv zeta. rewrite E8.
  destruct (decide (mget (r9 st.2) (d_prof (disc_de P c)) (idiv i (periodos_dia P)) < 1))
    as [Hlt|Hlt].
  - destruct s8 as [a G8]. destruct G8. cbn in *. subst.
    split; [apply forma_mset|].
    rewrite (mget_mset_forma _ (professores P) (dias P)) by assumption.
    destruct (decide (d_prof (disc_de P c) = p /\ idiv i (periodos_dia P) = d))
      as [[<- <-]|Hne].
    + rewrite bool_decide_eq_true_2 by tauto. lia.
    + rewrite bool_decide_eq_false_2 by tauto. reflexivity.
  - rewrite E8. split; [reflexivity|].
    destruct (decide (d_prof (disc_de P c) = p /\ idiv i (periodos_dia P) = d))
      as [[<- <-]|Hne].
    + rewrite bool_decide_eq_true_2 by tauto. lia.
    + rewrite bool_decide_eq_false_2 by tauto. reflexivity.
Qed.

(** [r9[p][d]] after the main loop. *)
Lemma r9_laco_principal P I G g p d :
  indices_ok P G ->
  0 <= total_periodos P -> 0 <= salas P ->
  0 <= p < professores P -> 0 <= d < dias P ->
  mget (r9 (laco_principal P g (0, zera_indices P I G)).2) p d
  = if decide (0 < conta_celulas P (ocupada P g p d))
    then Z.max 1 (mget (r9_semeado P I) p d) else mget (r9_semeado P I) p d.
Proof.
  intros HG Htp Hs Hp Hd.
  assert (HG0 : indices_ok P (zera_indices P I G))
    by (apply (indices_ok_forma P G); [apply forma_zera_indices|exact HG]).
  assert (F9 : map length (r9 (zera_indices P I G))
               = replicate (Z.to_nat (professores P)) (Z.to_nat (dias P))) by apply HG0.
  destruct (zera_indices_campos P I G HG) as (_ & _ & _ & _ & E9 & _).
  destruct (laco_principal_marca
              (fun s => map length (r9 s.2)
                        = replicate (Z.to_nat (professores P)) (Z.to_nat (dias P)))
              (fun s => mget (r9 s.2) p d)
              (ocupada P g p d) P g (0, zera_indices P I G)) as [_ H];
    try assumption.
  - intros i j s Hi Hj HQ.
    destruct (r9_marca_celula P g i j s p d HQ Hp Hd) as [H1 H2].
    split; [rewrite H1; exact HQ|exact H2].
  - cbv beta in H. rewrite H. cbn [snd]. rewrite E9. reflexivity.
Qed.

(** The loop of R9 adds to [restricoes_violadas[9]], for each teacher,
    the busy days beyond two. *)
Lemma rv9_penaliza_r9 P (s : Z * Globais) :
  length (restricoes_violadas s.2) = 12%nat ->
  0 <= dias P <= INT_MAX -> 0 <= professores P ->
  INT_MIN <= vget (restricoes_violadas s.2) 9 ->
  vget (restricoes_violadas s.2) 9 + professores P * dias P <= INT_MAX ->
  vget (restricoes_violadas (penaliza_r9 P s).2) 9
  = vget (restricoes_violadas s.2) 9
    + soma (professores P) (fun p =>
        Z.max 0 (conta (dias P) (fun d => bool_decide (0 < mget (r9 s.2) p d)) - 2)).
Proof.
  intros Hlen Hd Hn Hlo Hhi.
  set (v0 := vget (restricoes_violadas s.2) 9) in *.
  set (dc := fun p => conta (dias P) (fun d => bool_decide (0 < mget (r9 s.2) p d))).
  set (F := fun p => Z.max 0 (dc p - 2)).
  change (vget (restricoes_violadas (penaliza_r9 P s).2) 9
          = v0 + soma (professores P) F).
  assert (Hdc : forall c, 0 <= dc c <= dias P).
  { intros c. unfold dc. split; [apply conta_nonneg|apply conta_le; lia]. }
  assert (HF : forall c, 0 <= F c <= dias P).
  { intros c. unfold F. specialize (Hdc c). lia. }
  unfold penaliza_r9.
  assert (H : (fun k (st : Z * Globais) =>
             r9 st.2 = r9 s.2
             /\ length (restricoes_violadas st.2) = 12%nat
             /\ 0 <= soma k F <= k * dias P
             /\ vget (restricoes_violadas st.2) 9 = v0 + soma k F)
            (professores P)
            (para (professores P) (fun i (st : Z * Globais) =>
               let dias_com_aula := para (dias P) (fun j k =>
                      if decide (0 < mget (r9 st.2) i j) then iadd k 1 else k) 0 in
               if decide (2 < dias_com_aula) then
                 (iadd st.1 (imul 5 (isub dias_com_aula 2)),
                  com_aux_mov_r9 (vset (aux_mov_r9 st.2) i dias_com_aula)
                    (com_restricoes_violadas
                       (vinc (restricoes_violadas st.2) 9 (isub dias_com_aula 2)) st.2))
               else st) s)).
  { apply para_inv; [exact Hn| |].
    - rewrite soma_nonpos by lia. repeat split; first [lia | exact Hlen | reflexivity].
    - intros i st Hi (E9 & Hl & Hb & Hv). cbv zeta.
      rewrite soma_succ by lia.
      rewrite (laco_conta_decide (dias P) (fun j => 0 < mget (r9 st.2) i j)) by lia.
      rewrite E9. fold (dc i).
      pose proof (HF i) as HFi. pose proof (Hdc i) as Hdi.
      assert (Hk : (i + 1) * dias P <= professores P * dias P)
        by (apply Z.mul_le_mono_nonneg_r; lia).
      unfold F in HFi. change (F i) with (Z.max 0 (dc i - 2)).
      destruct (decide (2 < dc i)) as [Hlt|Hlt].
      + destruct st as [a Ga]. destruct Ga. cbn in *.
        split; [exact E9|]. split; [rewrite length_vinc; exact Hl|].
        split; [lia|].
        rewrite vget_vinc_eq by (rewrite Hl; lia). rewrite Hv.
        rewrite isub_id by (unfold in_int, INT_MIN, INT_MAX in *; lia).
        rewrite iadd_id by (unfold in_int, INT_MIN, INT_MAX in *; lia). lia.
      + split; [exact E9|]. split; [exact Hl|].
        split; [lia|]. rewrite Hv. lia. }
  cbv beta in H. destruct H as (_ & _ & _ & H). exact H.
Qed.

(** X22. What [restricoes_violadas[9]] holds after an evaluation.  A
    teacher is busy on a day when the table of the first phase has the
    day as taken or when the grid holds a lecture of the teacher on
    that day; the counter is [-1] plus, over the teachers, the busy days
    beyond two.  The table has to hold the cells the evaluator reads
    from it ([semente_dentro]): a row for each teacher of the instance
    below [num_profs_da_integral], with a column for each day of the
    instance. *)
Theorem contador_r9 (P : Instancia) (I : Integral) (G : Globais) (g : list (list Z)) :
  indices_ok P G ->
  semente_dentro P I ->
  0 <= total_periodos P -> 0 <= salas P ->
  0 <= dias P <= INT_MAX -> 0 <= professores P ->
  professores P * dias P <= INT_MAX ->
  vget (restricoes_violadas (calcula_FO P I G g).2) 9
  = -1 + soma (professores P) (fun p => Z.max 0 (dias_do_prof P I g p - 2)).
Proof.
  intros HG Hin Htp Hs Hd Hn Hmax. unfold calcula_FO.
  rewrite rv_penaliza_r11 by lia.
  set (s := penaliza_r1_r5 P
              (penaliza_r2 P (laco_principal P g (0, zera_indices P I G)))).
  assert (E0 : vget (restricoes_violadas s.2) 9 = -1).
  { unfold s. rewrite rv_penaliza_r1_r5, rv_penaliza_r2, rv_laco_principal by lia.
    apply rv_zera_indices; [exact HG|lia]. }
  assert (Hlen : length (restricoes_violadas s.2) = 12%nat).
  { assert (Hok : indices_ok P s.2).
    { apply (indices_ok_forma P _ _ (forma_penaliza_r1_r5 P _)).
      apply indices_ok_antes_r1_r5. exact HG. }
    destruct Hok as (_ & _ & _ & _ & _ & _ & _ & H & _). exact H. }
  rewrite rv9_penaliza_r9;
    [|exact Hlen|exact Hd|exact Hn|rewrite E0; unfold INT_MIN; lia|rewrite E0; lia].
  rewrite E0. f_equal. apply soma_ext. intros p Hp. f_equal. f_equal.
  unfold dias_do_prof. apply conta_ext. intros d Hd'.
  unfold s. rewrite (quadro_penaliza_r1_r5 r9), (quadro_penaliza_r2 r9) by reflexivity.
  rewrite (r9_laco_principal P I G g p d HG Htp Hs Hp Hd').
  rewrite (r9_semeado_semente P I p d Hin Hp Hd').
  destruct (decide (0 < conta_celulas P (ocupada P g p d))) as [Hc|Hc].
  - rewrite bool_decide_eq_true_2 by lia.
    rewrite bool_decide_eq_true_2 by (right; exact Hc). reflexivity.
  - destruct (decide (0 < semente I p d)) as [Hs9|Hs9].
    + rewrite !bool_decide_eq_true_2 by tauto. reflexivity.
    + rewrite !bool_decide_eq_false_2 by tauto. reflexivity.
Qed.

(** The table of [I_dias] has the three days of [P_dias]; the grid holds
    no lecture, and the teacher is busy on the three days of the table. *)
Lemma contador_r9_witness :
  vget (restricoes_violadas
          (calcula_FO P_dias I_dias (aloca_indices P_dias 7)
             [[-1; -1]; [-1; -1]; [-1; -1]]).2) 9 = 0
  /\ dias_do_prof P_dias I_dias [[-1; -1]; [-1; -1]; [-1; -1]] 0 = 3.
Proof.
  split; [|vm_compute; reflexivity].
  assert (Hin : semente_dentro P_dias I_dias).
  { apply (semente_dentro_forma P_dias I_dias _ 1 3 eq_refl);
      [reflexivity|vm_compute; discriminate|vm_compute; discriminate]. }
  rewrite (contador_r9 P_dias I_dias (aloca_indices P_dias 7)
             [[-1; -1]; [-1; -1]; [-1; -1]]
             (indices_ok_aloca P_dias 7) Hin
             ltac:(vm_compute; discriminate)
             ltac:(vm_compute; discriminate)
             ltac:(vm_compute; split; discriminate)
             ltac:(vm_compute; discriminate)
             ltac:(vm_compute; discriminate)).
  vm_compute. reflexivity.
Defined.

(** ** From one phase to the next *)

(** X23. The days the second phase finds taken are the days of the first
    phase.  When [main] hands the table of [extraiDiasDaMatriz] for the
    solution of the first phase to the second phase, then for a teacher
    and a day that exist in both instances, the seed of [r9] before any
    lecture is counted is positive exactly when the grid of the first
    phase holds a lecture of that teacher on that day. *)
Theorem semente_da_integral (P1 P2 : Instancia) (m1 : Matriz) (I : Integral)
    (p d : Z) :
  usar_restricao_integral I <> 0 ->
  dias_ocupados_integral I
  = Some (extraiDiasDaMatriz P1 m1 (professores P1) (dias P1)
            (total_periodos P1) (periodos_dia P1)) ->
  num_profs_da_integral I = professores P1 ->
  0 <= p < professores P1 -> p < professores P2 ->
  0 <= d < dias P1 -> d < dias P2 ->
  0 < mget (r9_semeado P2 I) p d
  <-> exists i j, 0 <= i < total_periodos P1 /\ 0 <= j < salas P1
                  /\ ocupa P1 (n m1) (periodos_dia P1) p d i j.
Proof.
  intros Hu Hoc Hn Hp Hp2 Hd Hd2. unfold r9_semeado.
  rewrite (semeia_r9_le P2 I _ _ p d Hoc Hu);
    [|apply forma_replicate|lia|lia|lia].
  destruct (extraiDiasDaMatriz_car P1 m1 (professores P1) (dias P1)
              (total_periodos P1) (periodos_dia P1)) as [Hm H].
  rewrite le_ocupados_na_tabela
    by (apply (na_tabela_forma _ (professores P1) (dias P1)); [exact Hm|lia|lia]).
  destruct (H p d Hp Hd) as [V E]. rewrite <- E. lia.
Qed.

Lemma semente_da_integral_witness :
  0 < mget (r9_semeado P_dias I_dias) 0 1
  /\ ocupa P_dias g_dias (periodos_dia P_dias) 0 1 1 0.
Proof.
  split.
  - apply (semente_da_integral P_dias P_dias {| fo := 0; n := g_dias |} I_dias 0 1).
    + vm_compute; discriminate.
    + reflexivity.
    + reflexivity.
    + vm_compute; split; [discriminate|reflexivity].
    + vm_compute; reflexivity.
    + vm_compute; split; [discriminate|reflexivity].
    + vm_compute; reflexivity.
    + exists 1, 0. vm_compute. repeat split; try discriminate; reflexivity.
  - vm_compute. repeat split; try discriminate; reflexivity.
Defined.

(** ** The counters of R6 and R7 *)

Lemma rv_passo_r4 P i j c s k :
  k <> 4 ->
  vget (restricoes_violadas (passo_r4 P i j c s).2) k = vget (restricoes_violadas s.2) k.
Proof.
  intros H. unfold passo_r4. case_decide; [|reflexivity].
  simpl. apply vget_vinc_ne. lia.
Qed.

Lemma rv_passo_r6 P g i j c s k :
  k <> 6 ->
  vget (restricoes_violadas (passo_r6 P g i j c s).2) k
  = vget (restricoes_violadas s.2) k.
Proof.
  intros H. unfold passo_r6, restricaoR6. simpl.
  apply (para_preserva (fun t : Z * Globais =>
           vget (restricoes_violadas t.2) k = vget (restricoes_violadas s.2) k));
    [reflexivity|].
  intros a t _ Ht. repeat case_decide; try exact Ht.
  simpl. rewrite vget_vinc_ne by lia. exact Ht.
Qed.

Lemma rv_passo_r7 P i j c s k :
  k <> 7 ->
  vget (restricoes_violadas (passo_r7 P i j c s).2) k = vget (restricoes_violadas s.2) k.
Proof.
  intros H. unfold passo_r7. cbv zeta. repeat case_decide; try reflexivity;
    simpl; apply vget_vinc_ne; lia.
Qed.

Lemma rv_passo_r8 P i j c s k :
  k <> 8 ->
  vget (restricoes_violadas (passo_r8 P i j c s).2) k = vget (restricoes_violadas s.2) k.
Proof.
  intros H. unfold passo_r8. cbv zeta. repeat case_decide; try reflexivity;
    simpl; apply vget_vinc_ne; lia.
Qed.

Lemma rv_passo_r10 P i j c s k :
  k <> 10 ->
  vget (restricoes_violadas (passo_r10 P i j c s).2) k = vget (restricoes_violadas s.2) k.
Proof.
  intros H. unfold passo_r10. cbv zeta. case_decide; [|reflexivity].
  simpl. apply vget_vinc_ne. lia.
Qed.

Lemma length_rv_forma G G' :
  forma G' = forma G -> length (restricoes_violadas G') = length (restricoes_violadas G).
Proof. unfold forma. intros H. injection H. intros. assumption. Qed.

(** A counter to which the body of the main loop adds [w i j] on the
    cell [(i, j)] ends as its initial value plus the sum of the [w]. *)
Lemma laco_principal_soma (Q : Z * Globais -> Prop) (obs : Z * Globais -> Z)
    (w : Z -> Z -> Z) (M : Z) P g s0 :
  0 <= total_periodos P -> 0 <= salas P ->
  (forall i j, 0 <= i < total_periodos P -> 0 <= j < salas P -> 0 <= w i j <= M) ->
  INT_MIN <= obs s0 -> obs s0 + celulas P * M <= INT_MAX ->
  Q s0 ->
  (forall i j s, 0 <= i < total_periodos P -> 0 <= j < salas P -> Q s ->
     INT_MIN <= obs s -> obs s + M <= INT_MAX ->
     Q (avalia_celula P g i j s)
     /\ obs (avalia_celula P g i j s) = obs s + w i j) ->
  Q (laco_principal P g s0)
  /\ obs (laco_principal P g s0)
     = obs s0 + soma (total_periodos P) (fun i => soma (salas P) (w i)).
Proof.
  intros Htp Hs Hw Hlo Hhi HQ0 Hstep.
  assert (HM : 0 <= total_periodos P * salas P -> 0 < total_periodos P * salas P ->
               0 <= M).
  { intros _ Hpos.
    assert (0 < total_periodos P) by nia. assert (0 < salas P) by nia.
    specialize (Hw 0 0 ltac:(lia) ltac:(lia)). lia. }
  assert (Hrow : forall i k, 0 <= i < total_periodos P -> 0 <= k <= salas P ->
                   0 <= soma k (w i) <= k * M).
  { intros i k Hi Hk. apply (soma_ind (fun a b => 0 <= b <= a * M)); [lia|lia|].
    intros a b Ha Hb. specialize (Hw i a Hi ltac:(lia)). lia. }
  assert (Hall : forall k, 0 <= k <= total_periodos P ->
                   0 <= soma k (fun i => soma (salas P) (w i)) <= k * (salas P * M)).
  { intros k Hk. apply (soma_ind (fun a b => 0 <= b <= a * (salas P * M))); [lia|lia|].
    intros a b Ha Hb. specialize (Hrow a (salas P) ltac:(lia) ltac:(lia)). lia. }
  pose (Inv := fun (i j : Z) (s : Z * Globais) =>
    Q s /\ obs s = obs s0 + soma i (fun i => soma (salas P) (w i)) + soma j (w i)).
  assert (H : Inv (total_periodos P) 0 (laco_principal P g s0)).
  { apply laco_principal_inv; [exact Htp| | |]; unfold Inv.
    - split; [exact HQ0|]. rewrite !(soma_nonpos 0) by lia. lia.
    - intros i j s Hi Hj [HQ Ho].
      pose proof (Hw i j Hi Hj) as Hwij.
      pose proof (Hrow i j Hi ltac:(lia)) as Hr1.
      pose proof (Hall i ltac:(lia)) as Ha1.
      assert (Hb : i * (salas P * M) + (j + 1) * M <= celulas P * M).
      { unfold celulas.
        assert (H1 : (j + 1) * M <= salas P * M)
          by (apply Z.mul_le_mono_nonneg_r; lia).
        assert (H2 : 0 <= salas P * M) by (apply Z.mul_nonneg_nonneg; lia).
        assert (H3 : (i + 1) * (salas P * M) <= total_periodos P * (salas P * M))
          by (apply Z.mul_le_mono_nonneg_r; lia).
        lia. }
      destruct (Hstep i j s Hi Hj HQ) as [HQ' Ho']; [lia|lia|].
      split; [exact HQ'|]. rewrite Ho', Ho, soma_succ by lia. lia.
    - intros i s Hi [HQ Ho]. split; [exact HQ|].
      rewrite Z.max_r in Ho by lia.
      rewrite soma_succ, (soma_nonpos 0) by lia. lia. }
  destruct H as [HQ Ho]. split; [exact HQ|].
  rewrite Ho, (soma_nonpos 0) by lia. lia.
Qed.

(** The cell adds to [restricoes_violadas[7]] the students without a
    seat. *)
Lemma rv7_avalia_celula P g i j s :
  length (restricoes_violadas s.2) = 12%nat ->
  in_int (d_alunos (disc_de P (mget g i j)) - s_capacidade (sala_de P j)) ->
  INT_MIN <= vget (restricoes_violadas s.2) 7 ->
  vget (restricoes_violadas s.2) 7 + excesso P g i j <= INT_MAX ->
  vget (restricoes_violadas (avalia_celula P g i j s).2) 7
  = vget (restricoes_violadas s.2) 7 + excesso P g i j.
Proof.
  intros Hlen Hin Hlo Hhi. unfold excesso in *. unfold avalia_celula. cbv zeta.
  destruct (decide (mget g i j = -1)) as [He|He]; [lia|].
  set (c := mget g i j) in *.
  rewrite (quadro_passo_r11 (fun G => vget (restricoes_violadas G) 7)) by reflexivity.
  rewrite rv_passo_r10 by lia.
  rewrite (quadro_passo_r9 (fun G => vget (restricoes_violadas G) 7)) by reflexivity.
  rewrite rv_passo_r8 by lia.
  set (s6 := passo_r6 P g i j c (passo_r5 P i c (passo_r4 P i j c
               (passo_r22 P i j c (passo_r21 P i j c (passo_r1 c s)))))).
  assert (E6 : vget (restricoes_violadas s6.2) 7 = vget (restricoes_violadas s.2) 7).
  { subst s6. rewrite rv_passo_r6 by lia.
    rewrite (quadro_passo_r5 (fun G => vget (restricoes_violadas G) 7)) by reflexivity.
    rewrite rv_passo_r4 by lia.
    rewrite (quadro_passo_r22 (fun G => vget (restricoes_violadas G) 7)),
      (quadro_passo_r21 (fun G => vget (restricoes_violadas G) 7)),
      (quadro_passo_r1 (fun G => vget (restricoes_violadas G) 7)) by reflexivity.
    reflexivity. }
  assert (L6 : length (restricoes_violadas s6.2) = 12%nat).
  { subst s6. rewrite <- Hlen. apply length_rv_forma.
    rewrite forma_passo_r6, forma_passo_r5, forma_passo_r4, forma_passo_r22,
      forma_passo_r21, forma_passo_r1. reflexivity. }
  clearbody s6. unfold passo_r7. cbv zeta.
  rewrite (isub_id _ _ Hin).
  destruct (decide (0 < d_alunos (disc_de P c) - s_capacidade (sala_de P j)))
    as [Hpos|Hpos].
  - assert (E : vget (restricoes_violadas
                        (com_restricoes_violadas
                           (vinc (restricoes_violadas s6.2) 7
                              (d_alunos (disc_de P c) - s_capacidade (sala_de P j)))
                           s6.2)) 7
                = vget (restricoes_violadas s.2) 7
                  + (d_alunos (disc_de P c) - s_capacidade (sala_de P j))).
    { destruct s6 as [a G6]. destruct G6. cbn in *.
      rewrite vget_vinc_eq by (rewrite L6; lia). rewrite E6.
      apply iadd_id. unfold in_int, INT_MIN, INT_MAX in *. lia. }
    rewrite Z.max_r by lia. rewrite <- E.
    case_decide; destruct s6 as [a G6]; destruct G6; reflexivity.
  - rewrite Z.max_l by lia. rewrite E6. lia.
Qed.

(** [restricaoR6] adds to [restricoes_violadas[6]] one for each
    curriculum in which the lecture is isolated. *)
Lemma rv6_restricaoR6 P g dis per sal G :
  length (restricoes_violadas G) = 12%nat ->
  0 <= cursos P ->
  INT_MIN <= vget (restricoes_violadas G) 6 ->
  vget (restricoes_violadas G) 6 + cursos P <= INT_MAX ->
  vget (restricoes_violadas (restricaoR6 P g dis per sal G).2) 6
  = vget (restricoes_violadas G) 6 + conta (cursos P) (isolada P g dis per).
Proof.
  intros Hlen Hc Hlo Hhi. unfold restricaoR6.
  assert (H : (fun k (st : Z * Globais) =>
             length (restricoes_violadas st.2) = 12%nat
             /\ vget (restricoes_violadas st.2) 6
                = vget (restricoes_violadas G) 6 + conta k (isolada P g dis per))
            (cursos P)
            (para (cursos P) (fun i (st : Z * Globais) =>
               if decide (vget (d_cursos (disc_de P dis)) i = 1) then
                 if decide (busca_adjacente P g i per = 0) then
                   (iadd st.1 2,
                    com_aux_mov_r6 (mset (aux_mov_r6 st.2) per sal dis)
                      (com_restricoes_violadas
                         (vinc (restricoes_violadas st.2) 6 1) st.2))
                 else st
               else st) (0, G))).
  { apply para_inv; [exact Hc| |].
    - rewrite conta_nonpos by lia. split; [exact Hlen|]. cbn [snd]. lia.
    - intros k st Hk [Hl Hv]. rewrite conta_succ by lia.
      pose proof (conta_nonneg k (isolada P g dis per)) as Hge.
      pose proof (conta_le k (isolada P g dis per) ltac:(lia)) as Hle.
      unfold isolada at 2.
      destruct (decide (vget (d_cursos (disc_de P dis)) k = 1)) as [H1|H1].
      + destruct (decide (busca_adjacente P g k per = 0)) as [H0|H0].
        * rewrite bool_decide_eq_true_2 by tauto.
          destruct st as [a Gs]. destruct Gs. cbn in *.
          split; [rewrite length_vinc; exact Hl|].
          rewrite vget_vinc_eq by (rewrite Hl; lia). rewrite Hv.
          rewrite iadd_id by (unfold in_int, INT_MIN, INT_MAX in *; lia). lia.
        * rewrite bool_decide_eq_false_2 by tauto. split; [exact Hl|]. lia.
      + rewrite bool_decide_eq_false_2 by tauto. split; [exact Hl|]. lia. }
  cbv beta in H. destruct H as [_ H]. exact H.
Qed.

Lemma rv6_avalia_celula P g i j s :
  length (restricoes_violadas s.2) = 12%nat ->
  0 <= cursos P ->
  INT_MIN <= vget (restricoes_violadas s.2) 6 ->
  vget (restricoes_violadas s.2) 6 + cursos P <= INT_MAX ->
  vget (restricoes_violadas (avalia_celula P g i j s).2) 6
  = vget (restricoes_violadas s.2) 6 + isoladas P g i j.
Proof.
  intros Hlen Hc Hlo Hhi. unfold isoladas. unfold avalia_celula. cbv zeta.
  destruct (decide (mget g i j = -1)) as [He|He]; [lia|].
  set (c := mget g i j) in *.
  rewrite (quadro_passo_r11 (fun G => vget (restricoes_violadas G) 6)) by reflexivity.
  rewrite rv_passo_r10 by lia.
  rewrite (quadro_passo_r9 (fun G => vget (restricoes_violadas G) 6)) by reflexivity.
  rewrite rv_passo_r8, rv_passo_r7 by lia.
  set (s5 := passo_r5 P i c (passo_r4 P i j c
               (passo_r22 P i j c (passo_r21 P i j c (passo_r1 c s))))).
  assert (E5 : vget (restricoes_violadas s5.2) 6 = vget (restricoes_violadas s.2) 6).
  { subst s5.
    rewrite (quadro_passo_r5 (fun G => vget (restricoes_violadas G) 6)) by reflexivity.
    rewrite rv_passo_r4 by lia.
    rewrite (quadro_passo_r22 (fun G => vget (restricoes_violadas G) 6)),
      (quadro_passo_r21 (fun G => vget (restricoes_violadas G) 6)),
      (quadro_passo_r1 (fun G => vget (restricoes_violadas G) 6)) by reflexivity.
    reflexivity. }
  assert (L5 : length (restricoes_violadas s5.2) = 12%nat).
  { subst s5. rewrite <- Hlen. apply length_rv_forma.
    rewrite forma_passo_r5, forma_passo_r4, forma_passo_r22,
      forma_passo_r21, forma_passo_r1. reflexivity. }
  clearbody s5. unfold passo_r6. cbv zeta. cbn [snd].
  rewrite rv6_restricaoR6; [rewrite E5; reflexivity|exact L5|exact Hc| |];
    rewrite E5; assumption.
Qed.

Lemma length_rv_zera P I G :
  indices_ok P G -> length (restricoes_violadas (zera_indices P I G)) = 12%nat.
Proof.
  intros HG.
  assert (Hok : indices_ok P (zera_indices P I G))
    by (apply (indices_ok_forma P G); [apply forma_zera_indices|exact HG]).
  destruct Hok as (_ & _ & _ & _ & _ & _ & _ & H & _). exact H.
Qed.

(** X24. What [restricoes_violadas[7]] holds after an evaluation: [-1]
    plus, over the occupied cells, the number of students of the lecture
    beyond the seats of its room. *)
Theorem contador_r7 (P : Instancia) (I : Integral) (G : Globais) (g : list (list Z)) :
  indices_ok P G ->
  0 <= total_periodos P -> 0 <= salas P ->
  Forall (fun d => 0 <= d_alunos d) (disc P) ->
  Forall (fun s => 0 <= s_capacidade s <= INT_MAX) (sala P) ->
  maximo d_alunos P <= INT_MAX ->
  celulas P * maximo d_alunos P < INT_MAX ->
  vget (restricoes_violadas (calcula_FO P I G g).2) 7
  = -1 + soma (total_periodos P) (fun i => soma (salas P) (fun j => excesso P g i j)).
Proof.
  intros HG Htp Hs Hal Hcap HM Hmax.
  rewrite rv_apos_laco by lia.
  assert (Ha : forall c, 0 <= d_alunos (disc_de P c) <= maximo d_alunos P).
  { intros c. split.
    - apply (aget_Forall (fun d => 0 <= d_alunos d)); [simpl; lia|exact Hal].
    - apply maximo_ge. reflexivity. }
  assert (Hc : forall j, 0 <= s_capacidade (sala_de P j) <= INT_MAX).
  { intros j. apply (aget_Forall (fun s => 0 <= s_capacidade s <= INT_MAX));
      [simpl; unfold INT_MAX; lia|exact Hcap]. }
  assert (Hw : forall i j, 0 <= excesso P g i j <= maximo d_alunos P).
  { intros i j. unfold excesso. pose proof (maximo_nonneg d_alunos P).
    case_decide; [lia|].
    specialize (Ha (mget g i j)). specialize (Hc j). lia. }
  destruct (laco_principal_soma
              (fun s => length (restricoes_violadas s.2) = 12%nat)
              (fun s => vget (restricoes_violadas s.2) 7)
              (excesso P g) (maximo d_alunos P) P g (0, zera_indices P I G))
    as [_ H]; try assumption.
  - intros i j _ _. apply Hw.
  - cbv beta. cbn [snd]. rewrite rv_zera_indices by (exact HG || lia).
    unfold INT_MIN. lia.
  - cbv beta. cbn [snd]. rewrite rv_zera_indices by (exact HG || lia). lia.
  - cbn [snd]. apply length_rv_zera. exact HG.
  - intros i j s Hi Hj HQ Hlo Hhi.
    split; [rewrite length_rv_avalia_celula; exact HQ|].
    apply rv7_avalia_celula; try assumption.
    + specialize (Ha (mget g i j)). specialize (Hc j).
      unfold in_int, INT_MIN, INT_MAX in *. lia.
    + specialize (Hw i j). lia.
  - cbv beta in H. rewrite H. cbn [snd].
    rewrite rv_zera_indices by (exact HG || lia). reflexivity.
Qed.

(** X25. What [restricoes_violadas[6]] holds after an evaluation: [-1]
    plus, over the occupied cells, the number of curricula of the course
    in which the lecture has no neighbour, the quantity [restricaoR6]
    charges 2 for. *)
Theorem contador_r6 (P : Instancia) (I : Integral) (G : Globais) (g : list (list Z)) :
  indices_ok P G ->
  0 <= total_periodos P -> 0 <= salas P -> 0 <= cursos P ->
  cursos P <= INT_MAX ->
  celulas P * cursos P < INT_MAX ->
  vget (restricoes_violadas (calcula_FO P I G g).2) 6
  = -1 + soma (total_periodos P) (fun i => soma (salas P) (fun j => isoladas P g i j)).
Proof.
  intros HG Htp Hs Hc HM Hmax.
  rewrite rv_apos_laco by lia.
  assert (Hw : forall i j, 0 <= isoladas P g i j <= cursos P).
  { intros i j. unfold isoladas. case_decide; [lia|].
    split; [apply conta_nonneg|apply conta_le; exact Hc]. }
  destruct (laco_principal_soma
              (fun s => length (restricoes_violadas s.2) = 12%nat)
              (fun s => vget (restricoes_violadas s.2) 6)
              (isoladas P g) (cursos P) P g (0, zera_indices P I G))
    as [_ H]; try assumption.
  - intros i j _ _. apply Hw.
  - cbv beta. cbn [snd]. rewrite rv_zera_indices by (exact HG || lia).
    unfold INT_MIN. lia.
  - cbv beta. cbn [snd]. rewrite rv_zera_indices by (exact HG || lia). lia.
  - cbn [snd]. apply length_rv_zera. exact HG.
  - intros i j s Hi Hj HQ Hlo Hhi.
    split; [rewrite length_rv_avalia_celula; exact HQ|].
    apply rv6_avalia_celula; assumption.
  - cbv beta in H. rewrite H. cbn [snd].
    rewrite rv_zera_indices by (exact HG || lia). reflexivity.
Qed.

Lemma contador_r7_witness :
  vget (restricoes_violadas
          (calcula_FO P_cap I_ex (aloca_indices P_cap 7) g_cap).2) 7 = 9
  /\ excesso P_cap g_cap 0 1 = 5.
Proof.
  split; [|vm_compute; reflexivity].
  assert (Hal : Forall (fun d => 0 <= d_alunos d) (disc P_cap)).
  { let l := eval cbv in (disc P_cap) in change (disc P_cap) with l.
    repeat (apply List.Forall_cons; [vm_compute; discriminate|]).
    apply List.Forall_nil. }
  assert (Hcap : Forall (fun s => 0 <= s_capacidade s <= INT_MAX) (sala P_cap)).
  { let l := eval cbv in (sala P_cap) in change (sala P_cap) with l.
    repeat (apply List.Forall_cons; [vm_compute; split; discriminate|]).
    apply List.Forall_nil. }
  rewrite (contador_r7 P_cap I_ex (aloca_indices P_cap 7) g_cap
             (indices_ok_aloca P_cap 7)
             ltac:(vm_compute; discriminate)
             ltac:(vm_compute; discriminate)
             Hal Hcap
             ltac:(vm_compute; discriminate)
             ltac:(vm_compute; reflexivity)).
  vm_compute. reflexivity.
Defined.

Lemma contador_r6_witness :
  vget (restricoes_violadas
          (calcula_FO P_ex I_ex (aloca_indices P_ex 7) g_ex).2) 6 = 2
  /\ isoladas P_ex g_ex 0 0 = 1.
Proof.
  split; [|vm_compute; reflexivity].
  rewrite (contador_r6 P_ex I_ex (aloca_indices P_ex 7) g_ex
             (indices_ok_aloca P_ex 7)
             ltac:(vm_compute; discriminate)
             ltac:(vm_compute; discriminate)
             ltac:(vm_compute; discriminate)
             ltac:(vm_compute; discriminate)
             ltac:(vm_compute; reflexivity)).
  vm_compute. reflexivity.
Defined.
